(* ===== verification/_CoqProject ===== *)
-Q . S2P
Prelude.v
PyStr.v
Utf8.v
Csv.v
CsvText.v
Config.v
GitHub.v
Log.v
Pacing.v
PauseLoop.v
Users.v
Labels.v
Ingest.v
Tables.v
Migrate.v
Frame.v
Alignment.v
Rows.v
Issues.v
Main.v
Discipline.v
Completeness.v
Resume.v
DryRun.v
Mirror.v
RateLimit.v
Entry.v
Totals.v
ExitStatus.v
