(* ===== verification/Prelude.v ===== *)
(** * A verification development of tratihubis (src/tratihubis.py)

    tratihubis migrates Trac tickets, exported as CSV tables, into GitHub
    issues.  GitHub assigns issue numbers itself, sequentially and without
    gaps, and issues cannot be deleted.  The program therefore keeps the
    Trac ticket number and the GitHub issue number equal: it fills gaps in
    the ticket numbering with placeholder issues, it resumes an interrupted
    run at the last issue it created, and it aborts as soon as a created
    issue receives a number different from its ticket.  Every creation
    call is paced by a limiter with two rolling windows (36 calls in 62 s,
    300 calls in 3660 s) and by GitHub's own request budget.

    ** Parts of the program and how they interact

    - The entry point ([main], [_parsedOptions], [_getConfigOption]):
      the command line (optparse: [-R/--really], [-v/--verbose]), the
      section [tratihubis] of the configuration file read by a
      SafeConfigParser, the password from the file or the environment,
      the connection to [owner/name], then [migrateTickets] with [pretend
      = not options.really]; exit code 0, or 1 after any exception, which
      it logs; the totals are logged on every exit.
    - Logging ([_log], [logging.basicConfig], [_shortened]): every call of
      [_log] appends a record (its level and the values its format string
      interpolates) to the log of the process when its level is enabled:
      INFO and above, DEBUG too once [--verbose] has set the level.
    - Reading a table ([_UTF8Recoder], [_UnicodeCsvReader]): the bytes of
      the file go through the utf-8 codec's stream reader, which cuts the
      text into lines at every Unicode line break, back through the
      encoder, into [csv.reader] (excel dialect), and every field through
      [unicode(s, "utf-8")].  The loops over a reader see its rows and then
      the exception that ends it, if any ([IOError] when the file cannot
      be opened, [UnicodeDecodeError], [_csv.Error]); the tickets table is
      read lazily, row by row inside the migration loop.
    - CSV ingestion ([_tracTicketMaps], [_createTicketToCommentsMap],
      [_createTicketsToAttachmentsMap]): rows are checked for their column
      count, the header row is skipped, tickets are turned into ticket maps.
      [_tracTicketMaps] is a generator that reads [existingIssues], the
      dictionary the migration loop mutates while it consumes the
      generator: gap filling depends on this aliasing.  The issue objects
      the dictionary holds are shared with the loop as well:
      [issue.edit(state='closed')] closes the object the dictionary holds.
    - Identity mappers: the user map ([_createTracToGithubUserMap],
      [_githubUserFor], [_validateGithubUser], [_getGitHubUser] with its
      cache [_validatedGithubUsers]) and the label transformations (class
      [_LabelTransformations]: a token-driven state machine and a keyword
      table).
    - Pacing ([_apiPauseIfNeeded], [_apiCreationRequestPause],
      [_apiTotalRequestPause], [_apiCreationIncrement]): the deques
      [_lastMinCalls] and [_last40mCalls] of timestamped creations, the
      counter [_totalCreations], the sleep loops.
    - The migration engine ([migrateTickets]): per ticket map, either
      continue an existing issue or create one (assignee, milestone, body,
      labels), check that its number equals the ticket id, then add the
      comments beyond the issue's comment count and close it if needed.
    - The GitHub API (PyGithub) is an external collaborator: it is stated
      as an interface (the class [GitHubApi] of GitHub.v with the laws the
      engine relies on) and given one executable model that satisfies it.

    ** Files, in dependency order

    - Prelude.v (this file): the exceptions the program raises ([Exc]), a
      state and error monad [ST] whose failures keep the state reached (a
      Python exception does not roll back the mutations made before it),
      Hoare triples and invariants over [ST], Python helpers ([truthy],
      [range] as [ids_between]), the predicate [contiguous] (keys exactly
      [1 .. n]), the hint databases [trac] and [trac_rw].
    - PyStr.v: [str.strip], [str.split] and its inverse, [split(sep, 1)],
      [re.search] of a whole word ([\bkw\b]), [long()].
    - Utf8.v: the utf-8 codec of Python 2.7 ([PyUnicode_DecodeUTF8Stateful]
      with and without [consumed], [PyUnicode_EncodeUTF8] of a wide build);
      a [unicode] value carried as its UTF-8 bytes, its characters
      ([code_points], [len]) and its slices ([unicode_prefix], [text[:n]]).
    - Csv.v: [csv.reader]'s state machine ([parse_process_char] of
      Modules/_csv.c, excel dialect, [field_size_limit]) over characters
      of a given width, [unicode.splitlines], [_UTF8Recoder],
      [_UnicodeCsvReader] and the loop over it ([read_table]).
    - CsvText.v: the byte-level reader of the program simulated by the
      same state machine over code points ([emb]); where records end.
    - Config.v: SafeConfigParser's [get] (section, [DEFAULT], interpolation
      of [%%] and [%(name)s]), [_getConfigOption], optparse's parsing of
      the command line and [_parsedOptions], [_shortened] (which counts and
      cuts characters, not bytes).
    - GitHub.v: [_FakeIssue], [_FakeMilestone], the calls that mutate a
      repository ([Call]), the interface [GitHubApi] of the API client and
      its laws [GitHubLaws] (creation numbers an issue [len + 1], refreshing
      the budget after the reset time restores it, reads change nothing),
      and [HubModel], an executable repository satisfying them.
    - Log.v: the levels of [logging] and one message per call of [_log]
      in the program, with the values it formats.
    - Pacing.v: the module globals as the record [World] (clock, the two
      deques, the totals, the user cache, the repository, the log and its
      level; [write_log], [emit], [emit_at]), [_apiPauseIfNeeded],
      [_apiCreationRequestPause], [_apiTotalRequestPause],
      [_apiCreationIncrement].
    - PauseLoop.v: the sleep loop of [_apiCreationRequestPause] as a step
      relation [pause_step], its liveness ([eventually]) and the fuelled
      loop of Pacing.v as its refinement.
    - Users.v: [_getGitHubUser], [_validateGithubUser],
      [_createTracToGithubUserMap], [_githubUserFor], and the contract
      [resolve] of the user mapping.
    - Labels.v: [_LabelTransformations]: [_buildLabelMap], the state
      machine of [_buildTransformations], [_keywordSetUp], [labelFor],
      [labelsForKeyWords]; a model of [tokenize] for examples.
    - Ingest.v: the ticket map of [_tracTicketMaps], [_timeFormatter],
      [_createTicketToCommentsMap], [_createTicketsToAttachmentsMap]; a
      [Table] is the rows a reader yields and its terminal exception.
    - Tables.v: [read_csv], a file's bytes through [read_table] to a
      [Table], the fields carried as their UTF-8 bytes; a reader raises
      only [IOError], [UnicodeDecodeError] and [_csv.Error] ([table_ok]).
    - Migrate.v: the local variables of [migrateTickets] as the record
      [Run] (process state, [existingIssues], [existingMilestones],
      [fakeIssueId], the comment lists, the generator's [hasReadHeader],
      the keys of the issue objects [issue.edit] has closed, read by
      [issue_state]);
      the loop body ([migrate_ticket] = [create_fresh] or continue, then
      [add_comments], [close_if_needed]) and the generator row by row
      ([process_row]), interleaved as Python interleaves them, on one
      shared [existingIssues].
    - Frame.v: what each step leaves unchanged: the numbers and titles of
      GitHub's issues ([keeps_shape], [framed]); no step but the number
      check raises [SyncError].
    - Alignment.v: the invariant [aligned] (existing issues keyed [1 .. n],
      GitHub holding the same numbers and titles in a real run, [fakeIssueId
      = n + 1] in a dry run) and its preservation by every row.
    - Rows.v: what one row does (skip, out-of-order error, gap filling).
    - Issues.v: what one ticket sends (comments, milestones, closing) and
      the failure of every real ticket when the [keywords] option is unset.
    - Main.v: [_createIssueMap], [_createMilestoneMap], the comments and
      attachments maps with their log ([readComments], [readAttachments])
      and [migrateTickets] as a whole; alignment of a whole migration.
    - Discipline.v: the class [Discipline] of relations on the process
      state kept by the six kinds of step that touch the clock, the
      deques, the counters or GitHub; such a relation is kept by every
      step of [migrateTickets].
    - Completeness.v: that [headerRead] stays set is such a relation on the
      engine's state; every ticket row of a run that ends normally becomes
      the issue of its number with its summary as title.
    - Resume.v: a second [migrateTickets] after an interrupted one.  The
      relation [states_kept] (every listed issue is open or closed) is a
      [Discipline]; [process_row_bound] describes every outcome of a row;
      [interrupted_migrateTickets] is the invariant of a run that stops
      anywhere: the rows it processed are migrated and the others are
      beyond the issues it created ([migrated], [ahead]).
    - DryRun.v: [quiet] steps; a dry run sends no mutating request.
    - Mirror.v: [lockstep], a relational reading of two computations of
      the monad (the same exception, or related results and states),
      closed under [sbind]; the relation [mirror] between the state of a
      real run and of a dry run; every step of the engine in lockstep,
      hence a dry run ends as the real run does.
    - RateLimit.v: the invariant [rl_inv] relating the two deques to the
      log of requests GitHub received; [rl_keeps] is a [Discipline]; every
      window of the log respects both creation quotas.
    - Entry.v: [main] ([read_settings], [connect], [main_setup],
      [run_migration]), its [except] and [finally] clauses ([main_exit]:
      [error_logged], [log_totals]), [_convertWikiToMd] ([convertWikiToMd])
      and [_mainEntryPoint] ([mainEntryPoint]), the tables read from the
      bytes of their files, and the theorems of the whole program:
      numbering, quotas, dry run unless [--really], bad settings.
    - Totals.v: the relation [tallied] between the counters and GitHub's
      log, a [Discipline]; the totals [main] reports are exact.
    - ExitStatus.v: [never_exits], a step raising at most an [Exception],
      proved of every step of [connect] and [migrateTickets] with the hint
      database [exits]; the status of [_mainEntryPoint].

    ** What the theorems show

    - The program (Entry, Totals): whatever the command line, the
      configuration and the tables, and however [main] ends, a repository
      numbered [1 .. n] with its issues open or closed never fails the
      number check and is left numbered [1 .. m]; no window of GitHub's
      log exceeds either quota; nothing is sent unless an argument
      abbreviates [--really] or is a cluster holding [R]; a command line
      that does not parse raises [SystemExit], and a configuration
      without the section, the password, [repo] or [user] ends with exit
      code 1, in both cases before any request, the log only recording the
      error and the totals; however [main] ends its log ends with the two
      lines of the totals, and these are the counts of the requests GitHub
      received.
    - Exit status (ExitStatus): [sys.exit(main())] ends the process with
      status 2 exactly when optparse rejects the command line, 0 for
      [--help], [--version] and a migration that ran to its end, 1 when
      the [try] block raised an [Exception]; only optparse raises
      [SystemExit].
    - Completeness (Completeness): a real [migrateTickets] that ends
      normally keeps every issue's number and title and leaves every ticket
      row numbered at least the initial number of issues as the GitHub
      issue of that number, titled with the ticket's summary.
    - Reading tables (Utf8, Csv, CsvText): the codec maps code points to
      bytes and back (decoding an encoding gives the text, encoding a
      decoding gives the bytes, except for surrogate pairs, which the
      encoder joins); the rows the program reads from a file are exactly
      the records of [csv.reader] on the lines of the decoded text, and no
      field fails to decode; a line of plain fields ending in LF reads as
      its fields, but U+2028 and the other Unicode line breaks cut a record
      as well (a finding).  Lemmas of the library models: no field exceeds
      131072 bytes, the loop over the reader ends, the codec's round trips.
      The theorems on [main] hold whatever the bytes of the files; the
      tickets table is read lazily, row by row inside the loop, and the
      exception that ends its reader surfaces after the rows before it.
    - Resumed runs (Resume): a run on a tickets table stopped at any
      point (an exception of the reader, of GitHub, of a row) followed by
      a run on the full table that ends normally, the ids of the table
      increasing, leaves every ticket numbered at least the initial number
      of issues as the issue of that number with the ticket's summary as
      title: the skip of [ticketId < lastHubIssue], the continuation of
      ticket [lastHubIssue] and the placeholders fit together.
    - Configuration (Config): [_getConfigOption] on every path; a value
      written with [%] doubled is read back; a lone [%] raises
      SafeConfigParser's interpolation error (a password included);
      [_shortened] counts the characters of the unicode title, not its
      bytes: within the threshold the title itself, else its first
      threshold characters, none cut in two, and ['...'].
    - Numbering (Main, Alignment, Rows): from a repository numbered
      [1 .. n], a migration never fails the check [issue.number !=
      ticketId] and leaves the repository numbered [1 .. m] on every exit,
      normal or by exception; a row beyond the current number creates the
      placeholders of the gap and then the ticket under its own number;
      rows below [lastHubIssue] are skipped; rows above it but not beyond
      the current number are rejected as out of order; the row
      [lastHubIssue] and the rows beyond go on to the placeholders, the
      resume check and the loop body.
    - Pacing (Pacing): the creation sleep loop ends and leaves fewer than
      [allowed] calls in its window; it returns only once the oldest call
      of a full window has expired; at every creation the creations of the
      last 62 s and of the last 3660 s, this one included, are within
      [ALLOWED_PER_MIN] and [ALLOWED_PER_HR]; the budget pause returns
      with at least [LIMIT_BUFFER] requests left; the sleep loop as a step
      relation always reaches its unique final state, the one the fuelled
      loop computes (PauseLoop).
    - Quotas over a run (RateLimit): after a whole [migrateTickets], real
      or dry, normal or by exception, no 62 s window of GitHub's log holds
      more than [ALLOWED_PER_MIN] creations and no 3660 s window more than
      [ALLOWED_PER_HR]; the same over [main] (Entry).
    - Resumption (Rows): the row of ticket [lastHubIssue] raises
      [KeyError] when that issue does not exist (the first row of a table
      numbered from 0 on an empty repository does) and stops when the
      issue's title is not the ticket's summary, in both cases unchanged.
    - Dry run (DryRun, Mirror): with [pretend] set, GitHub's issues and
      its log of mutating requests are unchanged, whatever happens; and
      from a repository numbered [1 .. n] the dry run ends exactly as the
      real run on the same tables and options (the same exception, or a
      normal end): [fakeIssueId] follows GitHub's numbering, so the
      order, resume and number checks decide alike.
    - Requests of one ticket (Issues): exactly the comments beyond the
      issue's comment count are sent, in order; a milestone is created once
      per title; an issue is closed exactly when its ticket is closed and
      its object is not, after which the object reads as closed; a lemma
      shows that without [keywords] no real ticket can be migrated (a
      finding: the docstring's example configuration has no [keywords]).
    - Tables (Ingest): the comments and attachments maps equal a reference
      reading of the table row by row: the first error in file order, or
      each ticket's items in file order.
    - Identity mappers (Users, Labels): [_githubUserFor] refines [resolve];
      a user map that builds maps only to existing users; every label the
      transformations can attach exists in the repository; [labelFor] is
      first-match; parsing printed clauses gives them back.

    ** Bounds and fuel

    - [creation_pause_loop] runs on fuel [2 * len(calls)]: each sleep
      either expires the head of the deque or moves the clock onto its
      expiry boundary, which the next sleep (at least 3 s) passes; the
      measure [pause_measure] proves the fuel enough when the stamps are
      not in the future, [allowed >= 1] and the period is below a day
      (where [timedelta.seconds] is exact).
    - [total_pause_loop] runs once: a refresh after the reset time restores
      the budget (law [get_rate_limit_reset]), so the loop of the code
      exits after one sleep of [max(15, resettime - now)] seconds.
    - Times are microseconds in [Z]; no bound on integers is needed, the
      program's integers being Python longs.
    - The interpolation of a configuration value recurses through the
      values it references at most [MAX_INTERPOLATION_DEPTH = 10] levels,
      as SafeConfigParser does; each level scans the value structurally.
    - [_shortened] cuts at 30 characters, or 100 at level [DEBUG]; the
      comment bodies of the debug trace at 30 ([{body:.30}]).
    - Bytes are [Z] in [0, 256), code points [Z] in [0, 0x110000); the
      codec's bit operations are written with [Z.land], [Z.lor],
      [Z.shiftl] and [Z.shiftr] and proved against their arithmetic.
    - [csv.reader] counts [field_len] against [field_size_limit() =
      131072]; the loop over a reader runs on the number of lines plus one
      as fuel, enough because every row takes a line ([iterate_fuel]).

    ** Not modelled

    - Reading the configuration: [config.read(configPath)] is given as the
      parser it produces ([read_config]).  The CSV files are given by their
      bytes ([read_file]), [None] standing for a file [open] refuses.
    - Unicode text as Python holds it: the model's strings carry a
      [unicode] field as its UTF-8 bytes, on which equality and
      concatenation agree with Python's; [strip] and [long] act on ASCII
      whitespace and digits only, where Python's [unicode] methods also
      accept other Unicode spaces and digits.
    - The codec's chunks: the stream reader decodes 72 characters and more
      at a time and may deliver some lines before raising
      [UnicodeDecodeError]; the model decodes the whole file first, so
      such a file yields no row.
    - The rendering of a log line (a record holds the values its format
      interpolates) and the handler [logging.basicConfig] installs.
    - GitHub refusing a request: the calls of the interface [GitHubApi]
      succeed, [get_user] of an unknown login apart.  A refusal raises
      [GithubException], an [Exception] that [main] logs and turns into
      exit code 1; a dry run could not mirror it, which sends nothing.
    - Keywords as regular expressions: [_keywordSetUp] compiles
      [\b%s\b % kw] without [re.escape]; the model matches [kw] as a
      literal whole word, which is what the pattern does when [kw] has no
      metacharacter of [re].  A label name such as [v1.0] matches more
      than itself, and [c++] raises [re.error] (a finding).
    - [datetime.fromtimestamp] is the section variable [format_epoch];
      its [ValueError] and [OverflowError] are one [ValueError].
    - The credentials: [github.Github(user, password)] is taken to be
      accepted; a refused login raises at the first request, an
      [Exception] that [main] turns into exit code 1 like any other.
    - [KeyboardInterrupt] and its warning (exit code 1 as well).
    - [trac_to_github], which [_convertWikiToMd] calls with the configured
      [gitpath] (trac.wiki.formatter, outside the repository's sources),
      and the local-time formatting of [_timeFormatter]: section
      variables, so every theorem holds for any converter and formatter.
    - Python's [tokenize] and [re]: the label option is given by its
      tokens; [\bkw\b] by [word_search].

    ** Left for later

    - The column checks of the tickets table ([_tracTicketMaps]) as a
      theorem of their own, beside their use in Rows.v. *)

From stdpp Require Export base gmap strings list pretty.
From Stdlib Require Export ZArith Lia.

Declare Scope trac_scope.
Delimit Scope trac_scope with trac.

Create HintDb trac discriminated.
Create Rewrite HintDb trac_rw.

#[local] Open Scope Z_scope.

(** ** Exceptions raised by the program *)

Inductive Exc : Type :=
  (* class _ConfigError(option, message) *)
  | ConfigError (option : string) (message : string)
  (* class _CsvDataError(csvPath, rowIndex, message) *)
  | CsvDataError (csvPath : string) (rowIndex : nat) (expected actual : nat)
  (* ValueError raised by long(text) *)
  | ValueError (text : string)
  (* KeyError raised by existingIssues[ticketId] *)
  | KeyError (key : Z)
  (* AttributeError raised by a missing instance attribute *)
  | AttributeError (name : string)
  (* IndexError raised by calls[0] on an empty deque *)
  | IndexError
  (* an exception raised by the GitHub API (unknown user, ...) *)
  | GithubError (what : string)
  (* raise Exception("csv tickets out of order??: %d" % ticketId) *)
  | OutOfOrder (ticketId : Z)
  (* raise Exception("Last Git Hub Issue doesn't match [%s] != [%s]") *)
  | TitleMismatch (title summary : string)
  (* raise Exception("What happened? GitHub issue [%d] didn't sync ...") *)
  | SyncError (issueNumber ticketId : Z)
  (* ConfigParser.NoSectionError and NoOptionError raised by config.get *)
  | NoSectionError (section : string)
  | NoOptionError (option section : string)
  (* InterpolationDepthError, InterpolationSyntaxError and
     InterpolationMissingOptionError of SafeConfigParser *)
  | InterpolationError (option section reason : string)
  (* SystemExit(status) raised by optparse's parser.error, --help, --version *)
  | SystemExit (status : Z)
  (* UnicodeDecodeError('utf8', data, start, end, reason) of the codec *)
  | UnicodeDecodeError (start : Z) (reason : string)
  (* _csv.Error raised by the rows of csv.reader *)
  | CsvError (message : string)
  (* IOError raised by open(path, "rb") on a file that cannot be read *)
  | IOError (path : string).

(** ** A state and error monad *)

(** [ST S A] runs on a state [S] and either returns a value or raises an
    exception; in both cases the state reached is kept. *)
Definition ST (S A : Type) : Type := S -> S * (Exc + A).

Definition sret {S A} (a : A) : ST S A := fun s => (s, inr a).

Definition sbind {S A B} (m : ST S A) (k : A -> ST S B) : ST S B :=
  fun s => match m s with
           | (s', inl e) => (s', inl e)
           | (s', inr a) => k a s'
           end.

Definition sraise {S A} (e : Exc) : ST S A := fun s => (s, inl e).

Definition sget {S} : ST S S := fun s => (s, inr s).

Definition sgets {S A} (f : S -> A) : ST S A := fun s => (s, inr (f s)).

Definition smodify {S} (f : S -> S) : ST S unit := fun s => (f s, inr tt).

Notation "x <- m ;; k" := (sbind m (fun x => k))
  (at level 100, m at next level, right associativity) : trac_scope.
Notation "m ;; k" := (sbind m (fun _ => k))
  (at level 100, right associativity) : trac_scope.

(** Pure code that raises: the sum [Exc + A] threaded by [ebind]. *)
Definition ebind {A B} (x : Exc + A) (k : A -> Exc + B) : Exc + B :=
  match x with inl e => inl e | inr a => k a end.

Notation "'let?' x := m 'in' k" := (ebind m (fun x => k))
  (at level 10, x name, m at level 100, k at level 200) : trac_scope.

Open Scope trac_scope.

(** [when b m]: an [if] without [else]. *)
Definition swhen {S} (b : bool) (m : ST S unit) : ST S unit :=
  if b then m else sret tt.

(** A [for] loop over a list whose body may raise. *)
Fixpoint sfor {S A} (l : list A) (body : A -> ST S unit) : ST S unit :=
  match l with
  | [] => sret tt
  | x :: l' => body x ;; sfor l' body
  end.

(** Run a computation on one part of a larger state. *)
Definition zoom {S T A} (getf : T -> S) (setf : S -> T -> T) (m : ST S A)
  : ST T A :=
  fun t => let '(s', r) := m (getf t) in (setf s' t, r).

(** Raise [e] unless the option has a value. *)
Definition of_option {S A} (e : Exc) (o : option A) : ST S A :=
  match o with Some a => sret a | None => sraise e end.

(** ** Running the monad *)

Lemma ebind_inr {A B} (x : Exc + A) (k : A -> Exc + B) b :
  ebind x k = inr b -> exists a, x = inr a /\ k a = inr b.
Proof. destruct x; simpl; [done|eauto]. Qed.

Lemma ebind_inl {A B} (x : Exc + A) (k : A -> Exc + B) e :
  x = inl e -> ebind x k = inl e.
Proof. by intros ->. Qed.

(** [SystemExit] is not an [Exception]: [except Exception] lets it pass. *)
Definition is_exit (e : Exc) : bool := match e with SystemExit _ => true | _ => false end.

(** A result that is a value or an [Exception]. *)
Definition no_exit {A} (x : Exc + A) : Prop := forall e, x = inl e -> is_exit e = false.

Lemma no_exit_inr {A} (a : A) : no_exit (inr a).
Proof. by intros e. Qed.

Lemma no_exit_ebind {A B} (x : Exc + A) (k : A -> Exc + B) :
  no_exit x -> (forall a, no_exit (k a)) -> no_exit (ebind x k).
Proof. intros Hx Hk e. destruct x as [e'|a]; simpl; [intros [= <-]; by apply Hx|apply Hk]. Qed.

#[export] Hint Resolve no_exit_inr no_exit_ebind : trac.

(** Take a successful chain of [let?] apart, one step per hypothesis. *)
Ltac ebind_inv H :=
  repeat (let a := fresh "a" in let Ha := fresh "Ha" in apply ebind_inr in H as (a & Ha & H)).

Lemma sbind_ok {S A B} (m : ST S A) (k : A -> ST S B) s s' a :
  m s = (s', inr a) -> sbind m k s = k a s'.
Proof. unfold sbind. by intros ->. Qed.

Lemma sbind_run {S A B} (m : ST S A) (k : A -> ST S B) s s' x :
  m s = (s', x) -> sbind m k s = match x with inl e => (s', inl e) | inr a => k a s' end.
Proof. unfold sbind. by intros ->. Qed.

Lemma sbind_err {S A B} (m : ST S A) (k : A -> ST S B) s s' e :
  m s = (s', inl e) -> sbind m k s = (s', inl e).
Proof. unfold sbind. by intros ->. Qed.

Lemma sbind_assoc {S A B C} (m : ST S A) (k : A -> ST S B) (h : B -> ST S C) s :
  sbind (sbind m k) h s = sbind m (fun a => sbind (k a) h) s.
Proof. unfold sbind. destruct (m s) as [s' [e|a]]; reflexivity. Qed.

Lemma sfor_app {S A} (l1 l2 : list A) (body : A -> ST S unit) s :
  sfor (l1 ++ l2) body s = sbind (sfor l1 body) (fun _ => sfor l2 body) s.
Proof.
  revert s. induction l1 as [|x l1 IH]; intros s; [reflexivity|].
  simpl. rewrite sbind_assoc. unfold sbind at 1 2.
  destruct (body x s) as [s' [e|[]]]; [reflexivity|]. apply IH.
Qed.

(** A bind that succeeds went through a first step that succeeded. *)
Lemma sbind_inr {S A B} (m : ST S A) (k : A -> ST S B) s b :
  snd (sbind m k s) = inr b -> exists s' a, m s = (s', inr a) /\ sbind m k s = k a s'.
Proof. unfold sbind. destruct (m s) as [s' [e|a]]; simpl; [done|eauto]. Qed.

Lemma sbind_sget {S B} (k : S -> ST S B) s : sbind sget k s = k s s.
Proof. reflexivity. Qed.

Lemma sbind_sret {S A B} (a : A) (k : A -> ST S B) s : sbind (sret a) k s = k a s.
Proof. reflexivity. Qed.

(** A computation fails when whatever follows its first step fails. *)
Lemma sbind_fails {S A B} (m : ST S A) (k : A -> ST S B) s :
  (forall a s', exists s'' e, k a s' = (s'', inl e)) ->
  exists s'' e, sbind m k s = (s'', inl e).
Proof. intros Hk. unfold sbind. destruct (m s) as [s' [e|a]]; eauto. Qed.

Lemma sbind_smodify {S B} (f : S -> S) (k : unit -> ST S B) s :
  sbind (smodify f) k s = k tt (f s).
Proof. reflexivity. Qed.

#[export] Hint Rewrite @sbind_assoc @sbind_sget @sbind_sret @sbind_smodify : trac_rw.

(** ** Hoare triples over [ST]

    [triple P m Q]: from a state satisfying [P], the outcome of [m] (an
    exception or a value) and the state reached satisfy [Q]. *)
Definition triple {S A} (P : S -> Prop) (m : ST S A)
    (Q : Exc + A -> S -> Prop) : Prop :=
  forall s, P s -> Q (snd (m s)) (fst (m s)).

Section Triples.
Context {S : Type}.

Lemma triple_ret {A} (P : S -> Prop) (a : A) : triple P (sret a) (fun r s => r = inr a /\ P s).
Proof. intros s Hs. simpl. auto. Qed.

Lemma triple_consequence {A} (P P' : S -> Prop) (m : ST S A) Q Q' :
  triple P' m Q' -> (forall s, P s -> P' s) ->
  (forall r s, Q' r s -> Q r s) -> triple P m Q.
Proof. intros Hm HP HQ s Hs. auto. Qed.

Lemma triple_bind {A B} (P : S -> Prop) (m : ST S A) (k : A -> ST S B)
    (R : A -> S -> Prop) (Q : Exc + B -> S -> Prop) :
  triple P m (fun r s => match r with inl e => Q (inl e) s | inr a => R a s end) ->
  (forall a, triple (R a) (k a) Q) ->
  triple P (sbind m k) Q.
Proof.
  intros Hm Hk s Hs. specialize (Hm s Hs). unfold sbind.
  destruct (m s) as [s' [e|a]]; simpl in *; [exact Hm|]. by apply Hk.
Qed.

(** Invariants: a property kept by every step, whatever the outcome. *)
Definition preserves {A} (I : S -> Prop) (m : ST S A) : Prop :=
  triple I m (fun _ s => I s).

Lemma preserves_ret {A} I (a : A) : preserves I (sret a).
Proof. intros s Hs. exact Hs. Qed.

Lemma preserves_raise {A} I e : preserves I (@sraise S A e).
Proof. intros s Hs. exact Hs. Qed.

Lemma preserves_bind {A B} I (m : ST S A) (k : A -> ST S B) :
  preserves I m -> (forall a, preserves I (k a)) -> preserves I (sbind m k).
Proof.
  intros Hm Hk s Hs. specialize (Hm s Hs). unfold sbind.
  destruct (m s) as [s' [e|a]]; simpl in *; [exact Hm|]. by apply Hk.
Qed.

Lemma preserves_when I b (m : ST S unit) :
  preserves I m -> preserves I (swhen b m).
Proof. destruct b; [done|apply preserves_ret]. Qed.

Lemma preserves_sfor {A} I (l : list A) body :
  (forall x, preserves I (body x)) -> preserves I (sfor l body).
Proof.
  intros Hb. induction l; simpl; [apply preserves_ret|].
  apply preserves_bind; auto.
Qed.

Lemma preserves_of_option {A} I e (o : option A) : preserves I (of_option e o).
Proof. destruct o; [apply preserves_ret|apply preserves_raise]. Qed.

Lemma preserves_get I : preserves I (@sget S).
Proof. intros s Hs. exact Hs. Qed.

Lemma preserves_gets {A} I (f : S -> A) : preserves I (sgets f).
Proof. intros s Hs. exact Hs. Qed.

Lemma preserves_modify I f : (forall s, I s -> I (f s)) -> preserves I (smodify f).
Proof. intros Hf s Hs. simpl. auto. Qed.
End Triples.

#[export] Hint Resolve preserves_ret preserves_raise preserves_bind preserves_when
  preserves_sfor preserves_of_option preserves_get preserves_gets : trac.

(** ** Steps that relate the state before and after

    [step_rel R m]: whatever its outcome, [m] ends in a state related by
    [R] to the state it started from.  With [R] a preorder this is closed
    under the monad's combinators; the frames of the development ("a step
    that sends no mutating request", "a step that keeps the rate-limit
    invariant") are instances. *)

Section StepRel.
Context {S : Type} (R : S -> S -> Prop) `{!Reflexive R} `{!Transitive R}.

Definition step_rel {A} (m : ST S A) : Prop := forall s, R s (fst (m s)).

Lemma step_rel_ret {A} (a : A) : step_rel (sret a).
Proof. intros s. reflexivity. Qed.

Lemma step_rel_raise {A} e : step_rel (@sraise S A e).
Proof. intros s. reflexivity. Qed.

Lemma step_rel_get : step_rel sget.
Proof. intros s. reflexivity. Qed.

Lemma step_rel_bind {A B} (m : ST S A) (k : A -> ST S B) :
  step_rel m -> (forall a, step_rel (k a)) -> step_rel (sbind m k).
Proof.
  intros Hm Hk s. unfold sbind. specialize (Hm s).
  destruct (m s) as [s' [e|a]]; [done|]. etrans; [exact Hm|apply Hk].
Qed.

Lemma step_rel_when b (m : ST S unit) : step_rel m -> step_rel (swhen b m).
Proof. destruct b; [done|apply step_rel_ret]. Qed.

Lemma step_rel_sfor {A} (l : list A) body : (forall x, step_rel (body x)) -> step_rel (sfor l body).
Proof. intros Hb. induction l; simpl; [apply step_rel_ret|by apply step_rel_bind]. Qed.

Lemma step_rel_of_option {A} e (o : option A) : step_rel (of_option e o).
Proof. destruct o; [apply step_rel_ret|apply step_rel_raise]. Qed.

Lemma step_rel_modify f : (forall s, R s (f s)) -> step_rel (smodify f).
Proof. intros Hf s. apply Hf. Qed.

Lemma step_rel_ext {A} (m m' : ST S A) : (forall s, m s = m' s) -> step_rel m' -> step_rel m.
Proof. intros E Hm s. rewrite E. apply Hm. Qed.
End StepRel.

(** A relation on a part of the state, read on the whole state. *)
Lemma step_rel_zoom {S T A} (R : S -> S -> Prop) (getf : T -> S) (setf : S -> T -> T)
    (m : ST S A) :
  (forall s t, getf (setf s t) = s) -> step_rel R m ->
  step_rel (fun t t' => R (getf t) (getf t')) (zoom getf setf m).
Proof.
  intros Hgs Hm t. unfold zoom. specialize (Hm (getf t)).
  destruct (m (getf t)) as [s' r]. simpl. by rewrite Hgs.
Qed.

#[export] Hint Resolve step_rel_ret step_rel_raise step_rel_get step_rel_bind step_rel_when
  step_rel_sfor step_rel_of_option : trac.

(** ** Python helpers *)

(** The newline character (Rocq string literals have no escapes). *)
Definition nl : string := String (Ascii.ascii_of_nat 10) EmptyString.

(** Truthiness of a Python string: [if s:]. *)
Definition truthy (s : string) : bool := negb (String.eqb s "").

(** [str(n)] of a Python integer. *)
Definition str_of_Z (n : Z) : string := pretty n.

(** The slice [l[k:]] for [k >= 0]. *)
Definition slice_from {A} (l : list A) (k : nat) : list A := drop k l.

Lemma truthy_false s : truthy s = false <-> s = "".
Proof.
  unfold truthy. rewrite negb_false_iff. apply String.eqb_eq.
Qed.

Lemma truthy_true s : truthy s = true <-> s <> "".
Proof.
  unfold truthy. rewrite negb_true_iff.
  rewrite <- not_true_iff_false, String.eqb_eq. done.
Qed.

Lemma slice_from_app {A} (l1 l2 : list A) :
  slice_from (l1 ++ l2) (length l1) = l2.
Proof. unfold slice_from. by rewrite drop_app_length. Qed.

(** The ids [lo+1 .. hi] as a list, ascending. *)
Definition ids_between (lo hi : Z) : list Z := seqZ (lo + 1) (hi - lo).

Lemma elem_of_ids_between lo hi k : k ∈ ids_between lo hi <-> lo < k <= hi.
Proof. unfold ids_between. rewrite elem_of_seqZ. lia. Qed.

Lemma length_ids_between lo hi : length (ids_between lo hi) = Z.to_nat (hi - lo).
Proof. apply length_seqZ. Qed.

#[export] Hint Rewrite length_ids_between : trac_rw.

(** [contiguous m]: the keys of [m] are exactly [1 .. size m].  This is the
    shape of GitHub's issue numbering, and of [existingIssues]. *)
Definition contiguous {A} (m : gmap Z A) : Prop :=
  forall k, is_Some (m !! k) <-> 1 <= k <= Z.of_nat (size m).

Lemma contiguous_empty {A} : contiguous (∅ : gmap Z A).
Proof. intros k. rewrite lookup_empty, map_size_empty. split; [by intros []|lia]. Qed.

Lemma contiguous_next_free {A} (m : gmap Z A) :
  contiguous m -> m !! (Z.of_nat (size m) + 1) = None.
Proof.
  intros Hc. destruct (m !! _) eqn:E; [|done].
  assert (Hs : is_Some (m !! (Z.of_nat (size m) + 1))) by eauto.
  apply Hc in Hs. lia.
Qed.

Lemma contiguous_insert_next {A} (m : gmap Z A) (x : A) :
  contiguous m -> contiguous (<[Z.of_nat (size m) + 1 := x]> m).
Proof.
  intros Hc k. pose proof (contiguous_next_free m Hc) as Hfree.
  rewrite map_size_insert_None by done.
  rewrite lookup_insert. case_decide as Hk; [subst; split; [lia|eauto]|].
  rewrite (Hc k). lia.
Qed.

Lemma contiguous_insert_existing {A} (m : gmap Z A) k (x : A) :
  contiguous m -> is_Some (m !! k) -> contiguous (<[k := x]> m).
Proof.
  intros Hc [y Hy] j. rewrite map_size_insert, Hy. simpl.
  rewrite lookup_insert. case_decide; [subst|by apply (Hc j)].
  split; [intros _; apply (Hc j); eauto|eauto].
Qed.

Lemma contiguous_size_insert_next {A} (m : gmap Z A) (x : A) :
  contiguous m ->
  Z.of_nat (size (<[Z.of_nat (size m) + 1 := x]> m)) = Z.of_nat (size m) + 1.
Proof. intros Hc. rewrite map_size_insert_None by (by apply contiguous_next_free). lia. Qed.

Lemma ids_between_seqZ lo hi :
  ids_between lo hi = seqZ (lo + 1) (Z.of_nat (Z.to_nat (hi - lo))).
Proof.
  unfold ids_between. destruct (Z.le_gt_cases 0 (hi - lo)).
  - by rewrite Z2Nat.id.
  - rewrite !seqZ_nil; [done|lia|lia].
Qed.

#[export] Hint Resolve contiguous_empty contiguous_insert_next
  contiguous_insert_existing : trac.
