(* ===== verification/PyStr.v ===== *)
(** PyStr.v: the Python string operations the program applies to its
    configuration and CSV fields: [str.split(sep)], [str.strip()],
    [sep.join(...)], and the search [re.search(r"\b%s\b" % kw, text)] of a
    keyword as a whole word.  They belong to Python's library, not to
    src/; they are modelled here so that the mappers of Users.v and
    Labels.v compute, and their laws are proved once. *)

From S2P Require Import Prelude.

Local Open Scope string_scope.

(** ** Whitespace and [strip] *)

(** [str.isspace] on bytes: space, tab, newline, vertical tab, form feed,
    carriage return. *)
Definition is_space (c : Ascii.ascii) : bool :=
  let n := Ascii.nat_of_ascii c in
  (n =? 32)%nat || ((9 <=? n)%nat && (n <=? 13)%nat).

Fixpoint lstrip (s : string) : string :=
  match s with
  | String c s' => if is_space c then lstrip s' else s
  | EmptyString => EmptyString
  end.

Fixpoint rstrip (s : string) : string :=
  match s with
  | EmptyString => EmptyString
  | String c s' =>
      match rstrip s' with
      | EmptyString => if is_space c then EmptyString else String c EmptyString
      | r => String c r
      end
  end.

(** [s.strip()] *)
Definition strip (s : string) : string := rstrip (lstrip s).

(** ** [split] and [join] *)

(** [s.split(sep)] for a one-character separator: [n] separators give
    [n + 1] pieces, so the result is never empty and [''.split(',')] is
    [['']]. *)
Fixpoint split_on (sep : Ascii.ascii) (s : string) : list string :=
  match s with
  | EmptyString => [EmptyString]
  | String c s' =>
      match split_on sep s' with
      | [] => [String c EmptyString]
      | w :: ws => if Ascii.eqb c sep then EmptyString :: w :: ws
                   else String c w :: ws
      end
  end.

(** [sep.join(ws)] *)
Fixpoint join_on (sep : Ascii.ascii) (ws : list string) : string :=
  match ws with
  | [] => EmptyString
  | [w] => w
  | w :: ws' => w ++ String sep (join_on sep ws')
  end.

(** ** Word search: [re.search(r"\b" + kw + r"\b", text)]

    Without [re.UNICODE], [\w] is an ASCII letter, digit or underscore, and
    [\b] holds between a word and a non-word character, the ends of the
    text counting as non-word.  The keyword is matched literally. *)
Definition is_word (c : Ascii.ascii) : bool :=
  let n := Ascii.nat_of_ascii c in
  (((48 <=? n) && (n <=? 57)) || ((65 <=? n) && (n <=? 90)) ||
   ((97 <=? n) && (n <=? 122)) || (n =? 95))%nat.

Definition word_at (s : string) (i : nat) : bool :=
  match String.get i s with Some c => is_word c | None => false end.

(** [\b] at position [i] of [s] (between [s[i-1]] and [s[i]]). *)
Definition boundary (s : string) (i : nat) : bool :=
  match i with
  | O => word_at s 0
  | S j => xorb (word_at s j) (word_at s i)
  end.

Definition match_at (kw text : string) (i : nat) : bool :=
  boundary text i && String.eqb (String.substring i (String.length kw) text) kw &&
  boundary text (i + String.length kw)%nat.

(** The regex search tries every start position [0 .. len text]. *)
Definition word_search (kw text : string) : bool :=
  existsb (match_at kw text) (seq 0 (S (String.length text))).

(** ** Laws *)

Lemma split_on_not_nil sep s : split_on sep s <> [].
Proof.
  destruct s as [|c s']; simpl; [done|].
  destruct (split_on sep s') as [|w ws]; [done|]. by destruct (Ascii.eqb c sep).
Qed.

(** Joining the pieces gives the string back. *)
Lemma join_split sep s : join_on sep (split_on sep s) = s.
Proof.
  induction s as [|c s' IH]; [done|]. simpl.
  pose proof (split_on_not_nil sep s') as Hne.
  destruct (split_on sep s') as [|w ws] eqn:E; [done|].
  destruct (Ascii.eqb_spec c sep) as [->|Hne'].
  - simpl. destruct ws; simpl in *; by rewrite IH.
  - destruct ws as [|w' ws]; simpl in *; [by rewrite IH|].
    by rewrite <- IH.
Qed.

Lemma lstrip_idem s : lstrip (lstrip s) = lstrip s.
Proof.
  induction s as [|c s' IH]; [done|]. simpl.
  destruct (is_space c) eqn:E; [done|]. simpl. by rewrite E.
Qed.

Lemma lstrip_head s c s' : lstrip s = String c s' -> is_space c = false.
Proof.
  induction s as [|c0 s0 IH]; simpl; [done|].
  destruct (is_space c0) eqn:E; [done|]. by intros [= <- _].
Qed.

#[export] Hint Rewrite join_split lstrip_idem : trac_rw.

(** ** [s.replace(' ', '%20')] *)
Fixpoint replace_space (s : string) : string :=
  match s with
  | EmptyString => EmptyString
  | String c s' =>
      if (Ascii.nat_of_ascii c =? 32)%nat then "%20" ++ replace_space s'
      else String c (replace_space s')
  end.

(** ** [long(text)]

    Python 2's [long] of a text in base 10 ([PyLong_FromString], which
    [PyLong_FromUnicode] calls on a [unicode] value): whitespace, an
    optional sign, whitespace again, at least one digit, an optional
    suffix [L] or [l], whitespace. *)
Definition is_digit (c : Ascii.ascii) : bool :=
  let n := Ascii.nat_of_ascii c in ((48 <=? n) && (n <=? 57))%nat.

(** The digits after the first, read from left to right; the suffix
    [L] or [l] may only be the last character. *)
Fixpoint digits_value (acc : Z) (s : string) : option Z :=
  match s with
  | EmptyString => Some acc
  | String c s' =>
      if is_digit c
      then digits_value (acc * 10 + Z.of_nat (Ascii.nat_of_ascii c - 48))%Z s'
      else if ((Ascii.nat_of_ascii c =? 76)%nat || (Ascii.nat_of_ascii c =? 108)%nat) && String.eqb s' ""
      then Some acc
      else None
  end.

(** The magnitude: a digit first ([if (str == start) goto onError]). *)
Definition unsigned_value (s : string) : option Z :=
  match s with
  | String c _ => if is_digit c then digits_value 0 s else None
  | EmptyString => None
  end.

Definition parse_long (text : string) : option Z :=
  match strip text with
  | EmptyString => None
  | String c s' =>
      if (Ascii.nat_of_ascii c =? 45)%nat then option_map Z.opp (unsigned_value (lstrip s'))
      else if (Ascii.nat_of_ascii c =? 43)%nat then unsigned_value (lstrip s')
      else unsigned_value (String c s')
  end.

(** ** [split(sep, 1)] *)

(** [s.split(sep, 1)]: the text before the first [sep] and, when there is
    one, the text after it. *)
Fixpoint split_once (sep : Ascii.ascii) (s : string) : string * option string :=
  match s with
  | EmptyString => (EmptyString, None)
  | String c rest =>
      if Ascii.eqb c sep then (EmptyString, Some rest)
      else let '(n, v) := split_once sep rest in (String c n, v)
  end.

Lemma split_once_none sep s before : split_once sep s = (before, None) -> before = s.
Proof.
  revert before. induction s as [|c s IH]; intros before; simpl; [by intros [= <-]|].
  destruct (Ascii.eqb c sep); [done|].
  destruct (split_once sep s) as [n v] eqn:E. intros [= <- ->]. by rewrite (IH n).
Qed.

(** ** Concatenation and prefixes *)

Lemma string_app_assoc (a b c : string) : (a ++ b) ++ c = a ++ (b ++ c).
Proof. induction a as [|x a IH]; [done|exact (f_equal (String x) IH)]. Qed.

Lemma string_app_nil_r (a : string) : a ++ "" = a.
Proof. induction a as [|x a IH]; [done|exact (f_equal (String x) IH)]. Qed.

Lemma length_string_app (a b : string) : String.length (a ++ b) = (String.length a + String.length b)%nat.
Proof. induction a as [|x a IH]; [done|exact (f_equal S IH)]. Qed.

Lemma length_substring0 n (s : string) :
  String.length (String.substring 0 n s) = Nat.min n (String.length s).
Proof. revert n. induction s as [|c s IH]; intros [|n]; simpl; auto. Qed.

Lemma prefix_app_r (a b : string) : String.prefix a (a ++ b) = true.
Proof.
  induction a as [|x a IH]; simpl; [by destruct b|].
  destruct (Ascii.ascii_dec x x); [done|congruence].
Qed.

Lemma prefix_length (a b : string) : String.prefix a b = true -> (String.length a <= String.length b)%nat.
Proof.
  revert b. induction a as [|x a IH]; intros [|y b]; simpl; try done; [lia|].
  destruct (Ascii.ascii_dec x y); [|done]. intros Hp. specialize (IH b Hp). lia.
Qed.

(** A prefix of a string is its substring of the prefix's length. *)
Lemma prefix_substring (a b : string) :
  String.prefix a b = true -> a = String.substring 0 (String.length a) b.
Proof. intros Hp. symmetry. by apply String.prefix_correct. Qed.

#[export] Hint Rewrite string_app_assoc string_app_nil_r length_string_app length_substring0 : trac_rw.

(** [long(u' 12L ')], [long(u'- 7')], [long(u'12 L')], [long(u'L')] and
    [long(u'0x1')]. *)
Example parse_long_examples :
  parse_long " 12L " = Some 12%Z /\ parse_long "- 7" = Some (-7)%Z /\
  parse_long "12 L" = None /\ parse_long "L" = None /\ parse_long "0x1" = None.
Proof. vm_compute. tauto. Qed.
