(* ===== verification/Utf8.v ===== *)
(** Utf8.v: the UTF-8 codec of Python 2.7 that the CSV reader of the
    program goes through.  [_UTF8Recoder] reads the table with
    [codecs.getreader('utf-8')] and encodes every line back with
    [.encode('utf-8')]; [_UnicodeCsvReader.next] decodes every field with
    [unicode(s, 'utf-8')].  Both are the C functions of
    Objects/unicodeobject.c, modelled here from the library: the decoder
    [PyUnicode_DecodeUTF8Stateful] with its table [utf8_code_length], its
    three error reasons and its [consumed] mode (the stream reader's, where
    a sequence cut by the end of the data is left for later), and the
    encoder [PyUnicode_EncodeUTF8] of a wide build, which joins a high and a
    low surrogate into one four-byte sequence.

    Bytes and code points are [Z]; a byte is in [0, 256), a code point in
    [0, 0x110000).  The theorems: the encoder writes bytes, the decoder
    reads code points; decoding what was encoded gives the text back, and
    encoding what was decoded gives the bytes back, for texts without a
    surrogate pair (which the encoder joins). *)

From S2P Require Import Prelude.

Local Open Scope Z_scope.

(** ** The codec *)

Definition is_byte (b : Z) : Prop := 0 <= b < 256.
Definition is_code_point (c : Z) : Prop := 0 <= c < 0x110000.

(** [utf8_code_length[ch]]: the length of the sequence a byte starts,
    0 for a byte that starts none. *)
Definition utf8_code_length (b : Z) : nat :=
  if b <? 0x80 then 1
  else if b <? 0xC2 then 0
  else if b <? 0xE0 then 2
  else if b <? 0xF0 then 3
  else if b <? 0xF5 then 4
  else 0.

(** [(s[k] & 0xc0) == 0x80] *)
Definition is_cont (b : Z) : bool := Z.land b 0xC0 =? 0x80.

(** The decoder from byte offset [pos].  With [final] false (the stream
    reader's [consumed] mode) a sequence cut by the end of the data ends the
    decoding; with [final] true it is the error "unexpected end of data". *)
Fixpoint utf8_decode_from (final : bool) (pos : Z) (s : list Z) : Exc + list Z :=
  match s with
  | [] => inr []
  | b0 :: rest =>
      match utf8_code_length b0 with
      | 0%nat => inl (UnicodeDecodeError pos "invalid start byte")
      | 1%nat =>
          let? cs := utf8_decode_from final (pos + 1) rest in inr (b0 :: cs)
      | n =>
          if (length s <? n)%nat then
            if final then inl (UnicodeDecodeError pos "unexpected end of data") else inr []
          else
            match n, rest with
            | 2%nat, b1 :: rest' =>
                if negb (is_cont b1) then inl (UnicodeDecodeError pos "invalid continuation byte")
                else
                  let ch := Z.shiftl (Z.land b0 0x1F) 6 + Z.land b1 0x3F in
                  let? cs := utf8_decode_from final (pos + 2) rest' in inr (ch :: cs)
            | 3%nat, b1 :: b2 :: rest' =>
                if negb (is_cont b1) || negb (is_cont b2) || ((b0 =? 0xE0) && (b1 <? 0xA0))
                then inl (UnicodeDecodeError pos "invalid continuation byte")
                else
                  let ch := Z.shiftl (Z.land b0 0x0F) 12 + Z.shiftl (Z.land b1 0x3F) 6 +
                            Z.land b2 0x3F in
                  let? cs := utf8_decode_from final (pos + 3) rest' in inr (ch :: cs)
            | 4%nat, b1 :: b2 :: b3 :: rest' =>
                if negb (is_cont b1) || negb (is_cont b2) || negb (is_cont b3) ||
                   ((b0 =? 0xF0) && (b1 <? 0x90)) || ((b0 =? 0xF4) && (0x8F <? b1))
                then inl (UnicodeDecodeError pos "invalid continuation byte")
                else
                  let ch := Z.shiftl (Z.land b0 0x07) 18 + Z.shiftl (Z.land b1 0x3F) 12 +
                            Z.shiftl (Z.land b2 0x3F) 6 + Z.land b3 0x3F in
                  let? cs := utf8_decode_from final (pos + 4) rest' in inr (ch :: cs)
            | _, _ => inl (UnicodeDecodeError pos "unexpected end of data")
            end
      end
  end.

(** [unicode(s, 'utf-8')] *)
Definition utf8_decode (s : list Z) : Exc + list Z := utf8_decode_from true 0 s.

Definition is_high (c : Z) : bool := (0xD800 <=? c) && (c <=? 0xDBFF).
Definition is_low (c : Z) : bool := (0xDC00 <=? c) && (c <=? 0xDFFF).

(** The four bytes of [encodeUCS4]. *)
Definition utf8_encode_ucs4 (ch : Z) : list Z :=
  [Z.lor 0xF0 (Z.shiftr ch 18); Z.lor 0x80 (Z.land (Z.shiftr ch 12) 0x3F);
   Z.lor 0x80 (Z.land (Z.shiftr ch 6) 0x3F); Z.lor 0x80 (Z.land ch 0x3F)].

Definition utf8_encode_ucs2 (ch : Z) : list Z :=
  [Z.lor 0xE0 (Z.shiftr ch 12); Z.lor 0x80 (Z.land (Z.shiftr ch 6) 0x3F);
   Z.lor 0x80 (Z.land ch 0x3F)].

Definition utf8_encode_latin (ch : Z) : list Z :=
  [Z.lor 0xC0 (Z.shiftr ch 6); Z.lor 0x80 (Z.land ch 0x3F)].

(** [PyUnicode_EncodeUTF8]: a high surrogate followed by a low one is
    encoded as the code point the pair stands for. *)
Fixpoint utf8_encode (s : list Z) : list Z :=
  match s with
  | [] => []
  | ch :: rest =>
      if ch <? 0x80 then ch :: utf8_encode rest
      else if ch <? 0x800 then utf8_encode_latin ch ++ utf8_encode rest
      else if ch <? 0x10000 then
        match rest with
        | ch2 :: rest' =>
            if is_high ch && is_low ch2 then
              utf8_encode_ucs4 (Z.lor (Z.shiftl (ch - 0xD800) 10) (ch2 - 0xDC00) + 0x10000) ++
              utf8_encode rest'
            else utf8_encode_ucs2 ch ++ utf8_encode rest
        | [] => utf8_encode_ucs2 ch
        end
      else utf8_encode_ucs4 ch ++ utf8_encode rest
  end.

(** The bytes of one code point, when it does not start a surrogate pair. *)
Definition utf8_encode_char (ch : Z) : list Z :=
  if ch <? 0x80 then [ch]
  else if ch <? 0x800 then utf8_encode_latin ch
  else if ch <? 0x10000 then utf8_encode_ucs2 ch
  else utf8_encode_ucs4 ch.

(** No high surrogate is directly followed by a low one. *)
Fixpoint no_pairs (s : list Z) : bool :=
  match s with
  | c1 :: ((c2 :: _) as rest) => negb (is_high c1 && is_low c2) && no_pairs rest
  | _ => true
  end.

(** ** [unicode] values carried as strings

    The development keeps a [str] of the program as the string of its
    bytes, and a [unicode] value as the string of its UTF-8 bytes: its
    characters are the code points those bytes decode to. *)

(** The string of a list of bytes. *)
Definition string_of_bytes (bs : list Z) : string :=
  foldr (fun b s => String (Ascii.ascii_of_N (Z.to_N b)) s) EmptyString bs.

(** The bytes of a string. *)
Fixpoint bytes_of_string (s : string) : list Z :=
  match s with
  | EmptyString => []
  | String a s' => Z.of_N (Ascii.N_of_ascii a) :: bytes_of_string s'
  end.

(** A [unicode] value, carried as its UTF-8 bytes. *)
Definition string_of_cps (cps : list Z) : string := string_of_bytes (utf8_encode cps).

(** The characters of a [unicode] value carried as a string, for
    [len(text)] and [text[:n]]; a string that is not UTF-8 (which no
    [unicode] value of the program is) counts its bytes. *)
Definition code_points (s : string) : list Z :=
  match utf8_decode (bytes_of_string s) with
  | inr cps => cps
  | inl _ => bytes_of_string s
  end.

(** [text[:n]] of a [unicode] value. *)
Definition unicode_prefix (n : nat) (s : string) : string := string_of_cps (take n (code_points s)).

(** ** Bits of a sequence *)

(** Below [2 ^ k] a lead whose low [k] bits are zero adds. *)
Lemma lor_add a x k :
  0 <= k -> 0 <= x < 2 ^ k -> a mod 2 ^ k = 0 -> Z.lor a x = a + x.
Proof.
  intros Hk Hx Ha.
  assert (Hd : Z.land a x = 0).
  { apply Z.bits_inj_0. intros n. rewrite Z.land_spec.
    destruct (Z.lt_ge_cases n 0) as [Hn|Hn]; [by rewrite Z.testbit_neg_r|].
    destruct (Z.lt_ge_cases n k) as [Hnk|Hnk].
    - rewrite <- (Z.mod_pow2_bits_low a k n Hnk), Ha, Z.bits_0. done.
    - rewrite <- (Z.mod_small x (2 ^ k) Hx), Z.mod_pow2_bits_high by lia.
      apply andb_false_r. }
  by rewrite <- (Z.lxor_lor _ _ Hd), <- (Z.add_nocarry_lxor _ _ Hd).
Qed.

Lemma land_mask x m k n : m = Z.ones k -> n = 2 ^ k -> 0 <= k -> Z.land x m = x mod n.
Proof. intros -> -> Hk. by apply Z.land_ones. Qed.

(** [lia] after naming the quotients and remainders by constants. *)
Ltac zlia := Z.div_mod_to_equations; lia.

Lemma shiftr_div x k m : m = 2 ^ k -> 0 <= k -> Z.shiftr x k = x / m.
Proof. intros -> Hk. by apply Z.shiftr_div_pow2. Qed.

Lemma shiftl_mul x k m : m = 2 ^ k -> 0 <= k -> Z.shiftl x k = x * m.
Proof. intros -> Hk. by apply Z.shiftl_mul_pow2. Qed.

(** Shifts and masks as arithmetic. *)
Ltac bits :=
  repeat first
    [ rewrite (shiftr_div _ 6 64) by (reflexivity || zlia)
    | rewrite (shiftr_div _ 12 4096) by (reflexivity || zlia)
    | rewrite (shiftr_div _ 18 262144) by (reflexivity || zlia)
    | rewrite (shiftl_mul _ 6 64) by (reflexivity || zlia)
    | rewrite (shiftl_mul _ 10 1024) by (reflexivity || zlia)
    | rewrite (shiftl_mul _ 12 4096) by (reflexivity || zlia)
    | rewrite (shiftl_mul _ 18 262144) by (reflexivity || zlia)
    | rewrite (land_mask _ 0x3F 6 64) by (reflexivity || zlia)
    | rewrite (land_mask _ 0x1F 5 32) by (reflexivity || zlia)
    | rewrite (land_mask _ 0x0F 4 16) by (reflexivity || zlia)
    | rewrite (land_mask _ 0x07 3 8) by (reflexivity || zlia) ].

(** A continuation byte is one of [0x80 .. 0xBF]. *)
Lemma is_cont_spec b : is_byte b -> is_cont b = true <-> 0x80 <= b < 0xC0.
Proof.
  intros Hb.
  assert (Hall : forallb (fun b => Bool.eqb (is_cont b) ((0x80 <=? b) && (b <? 0xC0)))
                   (seqZ 0 256) = true) by reflexivity.
  rewrite forallb_forall in Hall.
  assert (Hin : In b (seqZ 0 256)) by (apply list_elem_of_In, elem_of_seqZ; unfold is_byte in Hb; lia).
  specialize (Hall b Hin). apply Bool.eqb_prop in Hall. rewrite Hall.
  rewrite andb_true_iff, Z.leb_le, Z.ltb_lt. done.
Qed.

Lemma is_cont_payload y : 0 <= y < 64 -> is_cont (0x80 + y) = true.
Proof. intros Hy. apply is_cont_spec; unfold is_byte; lia. Qed.

Lemma utf8_code_length_cases b :
  (b < 0x80 -> utf8_code_length b = 1%nat) /\
  (0xC2 <= b < 0xE0 -> utf8_code_length b = 2%nat) /\
  (0xE0 <= b < 0xF0 -> utf8_code_length b = 3%nat) /\
  (0xF0 <= b < 0xF5 -> utf8_code_length b = 4%nat).
Proof.
  unfold utf8_code_length.
  destruct (Z.ltb_spec b 0x80), (Z.ltb_spec b 0xC2), (Z.ltb_spec b 0xE0), (Z.ltb_spec b 0xF0),
    (Z.ltb_spec b 0xF5); split_and!; intros; (done || lia).
Qed.

Lemma lor_lead a x k m : m = 2 ^ k -> 0 <= k -> 0 <= x < m -> a mod m = 0 -> Z.lor a x = a + x.
Proof. intros ->. apply lor_add. Qed.

Ltac leads :=
  repeat first
    [ rewrite (lor_lead 0x80 _ 6 64) by (reflexivity || zlia)
    | rewrite (lor_lead 0xC0 _ 5 32) by (reflexivity || zlia)
    | rewrite (lor_lead 0xE0 _ 4 16) by (reflexivity || zlia)
    | rewrite (lor_lead 0xF0 _ 3 8) by (reflexivity || zlia) ].

(** The bytes of a code point, as numbers. *)
Lemma encode_latin_bytes ch : 0x80 <= ch < 0x800 ->
  utf8_encode_latin ch = [0xC0 + ch / 64; 0x80 + ch mod 64].
Proof. intros Hch. unfold utf8_encode_latin. bits. leads. done. Qed.

Lemma encode_ucs2_bytes ch : 0x800 <= ch < 0x10000 ->
  utf8_encode_ucs2 ch = [0xE0 + ch / 4096; 0x80 + ch / 64 mod 64; 0x80 + ch mod 64].
Proof. intros Hch. unfold utf8_encode_ucs2. bits. leads. done. Qed.

Lemma encode_ucs4_bytes ch : 0x10000 <= ch < 0x110000 ->
  utf8_encode_ucs4 ch =
    [0xF0 + ch / 262144; 0x80 + ch / 4096 mod 64; 0x80 + ch / 64 mod 64; 0x80 + ch mod 64].
Proof. intros Hch. unfold utf8_encode_ucs4. bits. leads. done. Qed.

(** ** Decoding what was encoded *)

Lemma decode_latin final pos ch bs : 0x80 <= ch < 0x800 ->
  utf8_decode_from final pos ([0xC0 + ch / 64; 0x80 + ch mod 64] ++ bs) =
  let? cs := utf8_decode_from final (pos + 2) bs in inr (ch :: cs).
Proof.
  intros Hch. cbn [app utf8_decode_from].
  rewrite (proj1 (proj2 (utf8_code_length_cases _))) by zlia.
  cbn [length Nat.ltb Nat.leb]. rewrite is_cont_payload by zlia. cbn [negb].
  assert (E : Z.shiftl (Z.land (0xC0 + ch / 64) 0x1F) 6 + Z.land (0x80 + ch mod 64) 0x3F = ch)
    by (bits; zlia).
  by rewrite E.
Qed.

Lemma decode_ucs2 final pos ch bs : 0x800 <= ch < 0x10000 ->
  utf8_decode_from final pos ([0xE0 + ch / 4096; 0x80 + ch / 64 mod 64; 0x80 + ch mod 64] ++ bs) =
  let? cs := utf8_decode_from final (pos + 3) bs in inr (ch :: cs).
Proof.
  intros Hch. cbn [app utf8_decode_from].
  rewrite (proj1 (proj2 (proj2 (utf8_code_length_cases _)))) by zlia.
  cbn [length Nat.ltb Nat.leb]. rewrite !is_cont_payload by zlia. cbn [negb orb].
  assert (Hl : ((0xE0 + ch / 4096 =? 0xE0) && (0x80 + ch / 64 mod 64 <? 0xA0)) = false).
  { destruct (Z.eqb_spec (0xE0 + ch / 4096) 0xE0); [|done]. apply Z.ltb_ge. zlia. }
  rewrite Hl.
  assert (E : Z.shiftl (Z.land (0xE0 + ch / 4096) 0x0F) 12 +
              Z.shiftl (Z.land (0x80 + ch / 64 mod 64) 0x3F) 6 + Z.land (0x80 + ch mod 64) 0x3F = ch)
    by (bits; zlia).
  by rewrite E.
Qed.

Lemma decode_ucs4 final pos ch bs : 0x10000 <= ch < 0x110000 ->
  utf8_decode_from final pos
    ([0xF0 + ch / 262144; 0x80 + ch / 4096 mod 64; 0x80 + ch / 64 mod 64; 0x80 + ch mod 64] ++ bs) =
  let? cs := utf8_decode_from final (pos + 4) bs in inr (ch :: cs).
Proof.
  intros Hch. cbn [app utf8_decode_from].
  rewrite (proj2 (proj2 (proj2 (utf8_code_length_cases _)))) by zlia.
  cbn [length Nat.ltb Nat.leb]. rewrite !is_cont_payload by zlia. cbn [negb orb].
  assert (Hl : ((0xF0 + ch / 262144 =? 0xF0) && (0x80 + ch / 4096 mod 64 <? 0x90)) = false).
  { destruct (Z.eqb_spec (0xF0 + ch / 262144) 0xF0); [|done]. apply Z.ltb_ge. zlia. }
  assert (Hh : ((0xF0 + ch / 262144 =? 0xF4) && (0x8F <? 0x80 + ch / 4096 mod 64)) = false).
  { destruct (Z.eqb_spec (0xF0 + ch / 262144) 0xF4); [|done]. apply Z.ltb_ge. zlia. }
  rewrite Hl, Hh.
  assert (E : Z.shiftl (Z.land (0xF0 + ch / 262144) 0x07) 18 +
              Z.shiftl (Z.land (0x80 + ch / 4096 mod 64) 0x3F) 12 +
              Z.shiftl (Z.land (0x80 + ch / 64 mod 64) 0x3F) 6 + Z.land (0x80 + ch mod 64) 0x3F = ch)
    by (bits; zlia).
  by rewrite E.
Qed.

(** One code point, decoded back from its bytes. *)
Lemma decode_encode_char final pos ch bs : is_code_point ch ->
  utf8_decode_from final pos (utf8_encode_char ch ++ bs) =
  let? cs := utf8_decode_from final (pos + Z.of_nat (length (utf8_encode_char ch))) bs in
  inr (ch :: cs).
Proof.
  intros Hch. unfold is_code_point in Hch. unfold utf8_encode_char.
  destruct (Z.ltb_spec ch 0x80).
  { cbn [app utf8_decode_from length]. by rewrite (proj1 (utf8_code_length_cases _)) by lia. }
  destruct (Z.ltb_spec ch 0x800); [rewrite encode_latin_bytes by lia; by apply decode_latin|].
  destruct (Z.ltb_spec ch 0x10000); [rewrite encode_ucs2_bytes by lia; by apply decode_ucs2|].
  rewrite encode_ucs4_bytes by lia. apply decode_ucs4. lia.
Qed.

(** ** Encoding what was decoded *)

Lemma utf8_code_length_inv b :
  match utf8_code_length b with
  | 1%nat => b < 0x80
  | 2%nat => 0xC2 <= b < 0xE0
  | 3%nat => 0xE0 <= b < 0xF0
  | 4%nat => 0xF0 <= b < 0xF5
  | _ => True
  end.
Proof.
  unfold utf8_code_length.
  destruct (Z.ltb_spec b 0x80), (Z.ltb_spec b 0xC2), (Z.ltb_spec b 0xE0), (Z.ltb_spec b 0xF0),
    (Z.ltb_spec b 0xF5); cbn; (done || lia).
Qed.

Lemma bytes_latin b0 b1 : 0xC2 <= b0 < 0xE0 -> 0x80 <= b1 < 0xC0 ->
  let ch := Z.shiftl (Z.land b0 0x1F) 6 + Z.land b1 0x3F in
  is_code_point ch /\ utf8_encode_char ch = [b0; b1].
Proof.
  intros H0 H1 ch. subst ch. bits. unfold is_code_point, utf8_encode_char.
  split; [zlia|]. rewrite (proj2 (Z.ltb_ge _ _)), (proj2 (Z.ltb_lt _ _)) by zlia.
  rewrite encode_latin_bytes by zlia. f_equal; [|f_equal]; zlia.
Qed.

Lemma bytes_ucs2 b0 b1 b2 : 0xE0 <= b0 < 0xF0 -> 0x80 <= b1 < 0xC0 -> 0x80 <= b2 < 0xC0 ->
  (b0 = 0xE0 -> 0xA0 <= b1) ->
  let ch := Z.shiftl (Z.land b0 0x0F) 12 + Z.shiftl (Z.land b1 0x3F) 6 + Z.land b2 0x3F in
  is_code_point ch /\ utf8_encode_char ch = [b0; b1; b2].
Proof.
  intros H0 H1 H2 H3 ch. subst ch. bits. unfold is_code_point, utf8_encode_char.
  assert (0xE0 < b0 \/ b0 = 0xE0) as [Hb|Hb] by lia; [|specialize (H3 Hb)];
    (split; [zlia|]); rewrite (proj2 (Z.ltb_ge _ 0x80)), (proj2 (Z.ltb_ge _ 0x800)),
      (proj2 (Z.ltb_lt _ 0x10000)) by zlia;
    rewrite encode_ucs2_bytes by zlia; repeat f_equal; zlia.
Qed.

Lemma bytes_ucs4 b0 b1 b2 b3 : 0xF0 <= b0 < 0xF5 -> 0x80 <= b1 < 0xC0 -> 0x80 <= b2 < 0xC0 ->
  0x80 <= b3 < 0xC0 -> (b0 = 0xF0 -> 0x90 <= b1) -> (b0 = 0xF4 -> b1 <= 0x8F) ->
  let ch := Z.shiftl (Z.land b0 0x07) 18 + Z.shiftl (Z.land b1 0x3F) 12 +
            Z.shiftl (Z.land b2 0x3F) 6 + Z.land b3 0x3F in
  is_code_point ch /\ utf8_encode_char ch = [b0; b1; b2; b3].
Proof.
  intros H0 H1 H2 H3 H4 H5 ch. subst ch. bits. unfold is_code_point, utf8_encode_char.
  assert (0xF0 < b0 < 0xF4 \/ b0 = 0xF0 \/ b0 = 0xF4) as [Hb|[Hb|Hb]] by lia;
    [|specialize (H4 Hb)|specialize (H5 Hb)];
    (split; [zlia|]); rewrite (proj2 (Z.ltb_ge _ 0x80)), (proj2 (Z.ltb_ge _ 0x800)),
      (proj2 (Z.ltb_ge _ 0x10000)) by zlia;
    rewrite encode_ucs4_bytes by zlia; repeat f_equal; zlia.
Qed.

(** A continuation byte where the decoder asks for one, or the error. *)
Ltac cont_byte b Hb Hd :=
  let E := fresh "E" in
  destruct (is_cont b) eqn:E; [apply is_cont_spec in E; [|exact Hb]|cbn in Hd; discriminate].

(** One step of a decoding that succeeds: the first bytes are the
    encoding of a code point. *)
Lemma decode_step final pos b0 rest cs : Forall is_byte (b0 :: rest) ->
  utf8_decode_from final pos (b0 :: rest) = inr cs ->
  (final = false /\ cs = []) \/ exists ch cs' bs', b0 :: rest = utf8_encode_char ch ++ bs' /\ cs = ch :: cs' /\
    is_code_point ch /\ Forall is_byte bs' /\
    utf8_decode_from final (pos + Z.of_nat (length (utf8_encode_char ch))) bs' = inr cs'.
Proof.
  intros Hb Hd. cbn [utf8_decode_from] in Hd.
  pose proof (utf8_code_length_inv b0) as Hn.
  apply Forall_cons in Hb as [Hb0 Hbs].
  destruct (utf8_code_length b0) as [|[|[|[|[|n]]]]]; [discriminate| | | | |].
  - right. ebind_inv Hd. injection Hd as <-. exists b0, a, rest.
    unfold utf8_encode_char. rewrite (proj2 (Z.ltb_lt _ _) Hn). unfold is_byte, is_code_point in *.
    split_and!; (done || lia).
  - destruct rest as [|b1 rest]; [cbn in Hd; destruct final; [discriminate|left; by injection Hd as <-]|].
    apply Forall_cons in Hbs as [Hb1 Hbs]. cbn [length Nat.ltb Nat.leb negb] in Hd.
    cont_byte b1 Hb1 Hd. cbn [negb] in Hd. right. ebind_inv Hd. injection Hd as <-.
    destruct (bytes_latin b0 b1 Hn E) as [Hcp He].
    eexists _, a, rest. rewrite He. split_and!; done.
  - destruct rest as [|b1 [|b2 rest]]; [cbn in Hd; destruct final; [discriminate|left; by injection Hd as <-]..|].
    apply Forall_cons in Hbs as [Hb1 Hbs]. apply Forall_cons in Hbs as [Hb2 Hbs].
    cbn [length Nat.ltb Nat.leb] in Hd.
    cont_byte b1 Hb1 Hd. cont_byte b2 Hb2 Hd. cbn [negb orb] in Hd.
    destruct ((b0 =? 0xE0) && (b1 <? 0xA0)) eqn:Hx; [discriminate|].
    right. ebind_inv Hd. injection Hd as <-.
    assert (H3 : b0 = 0xE0 -> 0xA0 <= b1).
    { intros ->. rewrite Z.eqb_refl in Hx. by apply Z.ltb_ge in Hx. }
    destruct (bytes_ucs2 b0 b1 b2 Hn E E0 H3) as [Hcp He].
    eexists _, a, rest. rewrite He. split_and!; done.
  - destruct rest as [|b1 [|b2 [|b3 rest]]]; [cbn in Hd; destruct final; [discriminate|left; by injection Hd as <-]..|].
    apply Forall_cons in Hbs as [Hb1 Hbs]. apply Forall_cons in Hbs as [Hb2 Hbs].
    apply Forall_cons in Hbs as [Hb3 Hbs].
    cbn [length Nat.ltb Nat.leb] in Hd.
    cont_byte b1 Hb1 Hd. cont_byte b2 Hb2 Hd. cont_byte b3 Hb3 Hd. cbn [negb orb] in Hd.
    destruct ((b0 =? 0xF0) && (b1 <? 0x90)) eqn:Hx; [discriminate|].
    destruct ((b0 =? 0xF4) && (0x8F <? b1)) eqn:Hy; [discriminate|].
    right. ebind_inv Hd. injection Hd as <-.
    assert (H4 : b0 = 0xF0 -> 0x90 <= b1).
    { intros ->. rewrite Z.eqb_refl in Hx. by apply Z.ltb_ge in Hx. }
    assert (H5 : b0 = 0xF4 -> b1 <= 0x8F).
    { intros ->. rewrite Z.eqb_refl in Hy. by apply Z.ltb_ge in Hy. }
    destruct (bytes_ucs4 b0 b1 b2 b3 Hn E E0 E1 H4 H5) as [Hcp He].
    eexists _, a, rest. rewrite He. split_and!; done.
  - cbn in Hd. destruct (Nat.leb _ _); [|discriminate].
    destruct final; [discriminate|left; by injection Hd as <-].
Qed.

(** Whether a text starts with a surrogate pair after [ch]. *)
Definition pair_at (ch : Z) (rest : list Z) : bool :=
  match rest with ch2 :: _ => is_high ch && is_low ch2 | [] => false end.

Lemma no_pairs_cons ch rest : no_pairs (ch :: rest) = negb (pair_at ch rest) && no_pairs rest.
Proof. by destruct rest. Qed.

(** Out of a surrogate pair the encoder works code point by code point. *)
Lemma utf8_encode_cons ch rest : pair_at ch rest = false ->
  utf8_encode (ch :: rest) = utf8_encode_char ch ++ utf8_encode rest.
Proof.
  intros Hp. cbn [utf8_encode]. unfold utf8_encode_char.
  destruct (ch <? 0x80), (ch <? 0x800), (ch <? 0x10000); try done.
  destruct rest as [|ch2 rest]; [by rewrite app_nil_r|]. cbn in Hp. by rewrite Hp.
Qed.

Lemma utf8_encode_pair ch ch2 rest : is_high ch && is_low ch2 = true ->
  utf8_encode (ch :: ch2 :: rest) =
  utf8_encode_ucs4 (Z.lor (Z.shiftl (ch - 0xD800) 10) (ch2 - 0xDC00) + 0x10000) ++ utf8_encode rest.
Proof.
  intros Hp. pose proof Hp as Hp'. unfold is_high, is_low in Hp'.
  apply andb_true_iff in Hp' as [[Ha Hb]%andb_true_iff _]. apply Z.leb_le in Ha, Hb.
  cbn [utf8_encode]. rewrite (proj2 (Z.ltb_ge _ _)), (proj2 (Z.ltb_ge _ _)), (proj2 (Z.ltb_lt _ _))
    by lia. by rewrite Hp.
Qed.

Lemma utf8_encode_concat cs : no_pairs cs = true ->
  utf8_encode cs = concat (map utf8_encode_char cs).
Proof.
  induction cs as [|c cs IH]; intros Hp; [done|].
  rewrite no_pairs_cons in Hp. apply andb_true_iff in Hp as [Hc Hp%IH].
  rewrite utf8_encode_cons by (by destruct (pair_at c cs)). cbn [map concat]. by f_equal.
Qed.

Lemma length_encode_char ch : (1 <= length (utf8_encode_char ch))%nat.
Proof. unfold utf8_encode_char. repeat case_match; cbn; lia. Qed.

(** A decoding that succeeds reads code points, and the bytes are their
    encodings one after the other. *)
Lemma decode_concat pos bs cs : Forall is_byte bs -> utf8_decode_from true pos bs = inr cs ->
  Forall is_code_point cs /\ bs = concat (map utf8_encode_char cs).
Proof.
  revert pos cs.
  induction bs as [bs IH] using (well_founded_induction (well_founded_ltof _ (@length Z))).
  intros pos cs Hb Hd. destruct bs as [|b0 rest]; [by injection Hd as <-|].
  destruct (decode_step true pos b0 rest cs Hb Hd) as [[? _]|(ch & cs' & bs' & Hbs & -> & Hch & Hb' & Hd')];
    [discriminate|].
  assert (Hl : (length bs' < length (b0 :: rest))%nat).
  { rewrite Hbs, length_app. pose proof (length_encode_char ch). lia. }
  destruct (IH bs' Hl _ _ Hb' Hd') as [Hcs Hcat].
  split; [by constructor|]. by rewrite Hbs, Hcat.
Qed.

Lemma encode_char_bytes ch : is_code_point ch -> Forall is_byte (utf8_encode_char ch).
Proof.
  unfold utf8_encode_char, is_code_point. intros Hch.
  destruct (Z.ltb_spec ch 0x80); [repeat constructor; unfold is_byte; lia|].
  destruct (Z.ltb_spec ch 0x800); [rewrite encode_latin_bytes by lia|].
  2: destruct (Z.ltb_spec ch 0x10000); [rewrite encode_ucs2_bytes by lia|rewrite encode_ucs4_bytes by lia].
  all: repeat constructor; unfold is_byte; zlia.
Qed.

(** The code point a surrogate pair stands for. *)
Lemma pair_code_point ch ch2 : is_high ch && is_low ch2 = true ->
  0x10000 <= Z.lor (Z.shiftl (ch - 0xD800) 10) (ch2 - 0xDC00) + 0x10000 < 0x110000.
Proof.
  unfold is_high, is_low. intros [[Ha Hb]%andb_true_iff [Hc Hd]%andb_true_iff]%andb_true_iff.
  apply Z.leb_le in Ha, Hb, Hc, Hd.
  rewrite (shiftl_mul _ 10 1024), (lor_lead _ _ 10 1024); (reflexivity || zlia).
Qed.

(** The bytes of a text, code point by code point. *)
Definition encode_chars (f : list Z) : list Z := concat (map utf8_encode_char f).

Lemma encode_chars_app a b : encode_chars (a ++ b) = encode_chars a ++ encode_chars b.
Proof. unfold encode_chars. by rewrite map_app, concat_app. Qed.

Lemma decode_encode_chars final pos f : Forall is_code_point f ->
  utf8_decode_from final pos (encode_chars f) = inr f.
Proof.
  intros Hf. revert pos. induction Hf as [|c f Hc Hf IH]; intros pos; [done|].
  unfold encode_chars. cbn [map concat]. by rewrite decode_encode_char, IH.
Qed.

(** A text decoded back from its encoding. *)
Lemma decode_encode final pos cs : Forall is_code_point cs -> no_pairs cs = true ->
  utf8_decode_from final pos (utf8_encode cs) = inr cs.
Proof. intros Hc Hp. rewrite utf8_encode_concat by done. by apply decode_encode_chars. Qed.

(** Whatever the mode, a decoding that succeeds reads code points. *)
Lemma decode_code_points final pos bs cs : Forall is_byte bs ->
  utf8_decode_from final pos bs = inr cs -> Forall is_code_point cs.
Proof.
  revert pos cs.
  induction bs as [bs IH] using (well_founded_induction (well_founded_ltof _ (@length Z))).
  intros pos cs Hb Hd. destruct bs as [|b0 rest]; [by injection Hd as <-|].
  destruct (decode_step final pos b0 rest cs Hb Hd)
    as [[_ ->]|(ch & cs' & bs' & Hbs & -> & Hch & Hb' & Hd')]; [done|].
  constructor; [done|]. apply (IH bs' ltac:(unfold ltof; rewrite Hbs, length_app;
    pose proof (length_encode_char ch); lia) _ _ Hb' Hd').
Qed.

(** The encoder writes bytes, surrogate pairs included. *)
Lemma utf8_encode_bytes cs : Forall is_code_point cs -> Forall is_byte (utf8_encode cs).
Proof.
  induction cs as [cs IH] using (well_founded_induction (well_founded_ltof _ (@length Z))).
  intros Hc. destruct cs as [|ch rest]; [constructor|].
  apply Forall_cons in Hc as [Hch Hrest].
  destruct (pair_at ch rest) eqn:Hp.
  - destruct rest as [|ch2 rest]; [done|]. cbn in Hp.
    rewrite utf8_encode_pair by done. apply Forall_cons in Hrest as [_ Hrest].
    pose proof (pair_code_point ch ch2 Hp) as Hv.
    apply Forall_app. split; [rewrite encode_ucs4_bytes by lia; repeat constructor; unfold is_byte; zlia|].
    apply IH; [unfold ltof; cbn; lia|done].
  - rewrite utf8_encode_cons by done. apply Forall_app.
    split; [by apply encode_char_bytes|]. apply IH; [unfold ltof; cbn; lia|done].
Qed.

(** Code points in, bytes out, and back. *)
Theorem utf8_codec_types cs bs :
  (Forall is_code_point cs -> Forall is_byte (utf8_encode cs)) /\
  (Forall is_byte bs -> utf8_decode bs = inr cs -> Forall is_code_point cs).
Proof.
  split; [apply utf8_encode_bytes|]. intros Hb Hd. exact (proj1 (decode_concat 0 bs cs Hb Hd)).
Qed.

(** The codec's round trips.  Decoding what was encoded gives the text
    back, for the stream reader as for [unicode(s, 'utf-8')]; encoding what
    was decoded gives the bytes back.  Both unless the text holds a
    surrogate pair (bytes [ED A0..AF xx ED B0..BF xx]), which the encoder
    turns into the four bytes of the code point the pair stands for. *)
Theorem utf8_roundtrip cs bs :
  (Forall is_code_point cs -> no_pairs cs = true ->
   utf8_decode (utf8_encode cs) = inr cs /\ utf8_decode_from false 0 (utf8_encode cs) = inr cs) /\
  (Forall is_byte bs -> utf8_decode bs = inr cs -> no_pairs cs = true -> utf8_encode cs = bs).
Proof.
  split.
  - intros Hc Hp. split; by apply decode_encode.
  - intros Hb Hd Hp. destruct (decode_concat 0 bs cs Hb Hd) as [_ ->].
    by apply utf8_encode_concat.
Qed.

(** Byte and code point ranges, checked by computation. *)
Lemma Forall_is_byte l : forallb (fun b => (0 <=? b) && (b <? 256)) l = true -> Forall is_byte l.
Proof.
  intros H. apply Forall_forall. intros b Hb. rewrite forallb_forall in H.
  specialize (H b (proj1 (list_elem_of_In _ _) Hb)). apply andb_true_iff in H as [H1 H2]. apply Z.leb_le in H1. apply Z.ltb_lt in H2.
  unfold is_byte. lia.
Qed.

Lemma Forall_is_code_point l :
  forallb (fun c => (0 <=? c) && (c <? 0x110000)) l = true -> Forall is_code_point l.
Proof.
  intros H. apply Forall_forall. intros c Hc. rewrite forallb_forall in H.
  specialize (H c (proj1 (list_elem_of_In _ _) Hc)). apply andb_true_iff in H as [H1 H2]. apply Z.leb_le in H1. apply Z.ltb_lt in H2.
  unfold is_code_point. lia.
Qed.

(** ** Strings as bytes *)

Lemma bytes_of_string_app (s1 s2 : string) :
  bytes_of_string (s1 ++ s2) = bytes_of_string s1 ++ bytes_of_string s2.
Proof. induction s1 as [|a s1 IH]; simpl; [done|by rewrite IH]. Qed.

Lemma bytes_of_string_of_bytes bs : Forall is_byte bs -> bytes_of_string (string_of_bytes bs) = bs.
Proof.
  induction 1 as [|b bs Hb _ IH]; [done|].
  change (string_of_bytes (b :: bs)) with (String (Ascii.ascii_of_N (Z.to_N b)) (string_of_bytes bs)).
  cbn [bytes_of_string]. rewrite IH, Ascii.N_ascii_embedding by (unfold is_byte in Hb; lia).
  f_equal. unfold is_byte in Hb. lia.
Qed.

Lemma no_pairs_take n cs : no_pairs cs = true -> no_pairs (take n cs) = true.
Proof.
  revert n. induction cs as [|c cs IH]; intros [|n] Hp; [done..|]. cbn [take].
  rewrite no_pairs_cons in Hp |- *. apply andb_true_iff in Hp as [Hc Hp].
  rewrite IH by done. by destruct cs as [|c' cs], n as [|n]; cbn [pair_at take] in *; rewrite ?Hc.
Qed.

(** The code points of a text that decodes, cut to their first [n] and
    followed by ASCII: what the result decodes to. *)
Lemma code_points_prefix_ascii s cps n (tail : list Z) :
  utf8_decode (bytes_of_string s) = inr cps -> no_pairs cps = true ->
  Forall (fun c => 0 <= c < 0x80) tail ->
  code_points (string_of_cps (take n cps) ++ string_of_bytes tail) = take n cps ++ tail.
Proof.
  intros Hd Hp Ht.
  assert (Hb : Forall is_byte (bytes_of_string s)).
  { clear. induction s as [|a s IH]; constructor; [|done]. unfold is_byte.
    pose proof (Ascii.N_ascii_bounded a). lia. }
  destruct (decode_concat 0 _ cps Hb Hd) as [Hcp _].
  assert (Hcpt : Forall is_code_point (take n cps)) by (by apply Forall_take).
  assert (Hasc : encode_chars tail = tail).
  { induction Ht as [|c tl Hc _ IH]; [done|].
    change (encode_chars (c :: tl)) with (utf8_encode_char c ++ encode_chars tl).
    rewrite IH. unfold utf8_encode_char. by rewrite (proj2 (Z.ltb_lt c 0x80)) by lia. }
  unfold code_points, string_of_cps. rewrite bytes_of_string_app, !bytes_of_string_of_bytes.
  2: { eapply Forall_impl; [exact Ht|]. unfold is_byte. lia. }
  2: { by apply utf8_encode_bytes. }
  rewrite utf8_encode_concat by (by apply no_pairs_take). fold (encode_chars (take n cps)).
  rewrite <- Hasc at 1. unfold encode_chars. rewrite <- concat_app, <- map_app. fold (encode_chars (take n cps ++ tail)).
  unfold utf8_decode. rewrite decode_encode_chars; [done|]. apply Forall_app; split; [done|].
  eapply Forall_impl; [exact Ht|]. unfold is_code_point. lia.
Qed.

(** ** Examples *)

(** A, e acute, U+2028 and the last code point: 1, 2, 3 and 4 bytes. *)
Definition example_text : list Z := [0x41; 0xE9; 0x2028; 0x10FFFF].

Example example_text_bytes :
  utf8_encode example_text = [0x41; 0xC3; 0xA9; 0xE2; 0x80; 0xA8; 0xF4; 0x8F; 0xBF; 0xBF].
Proof. reflexivity. Qed.

(** A surrogate pair written as two three-byte sequences decodes to the
    two surrogates, which the encoder joins into one four-byte sequence:
    the bytes do not come back. *)
Example example_surrogate_pair :
  utf8_decode [0xED; 0xA0; 0x80; 0xED; 0xB0; 0x80] = inr [0xD800; 0xDC00] /\
  utf8_encode [0xD800; 0xDC00] = [0xF0; 0x90; 0x80; 0x80].
Proof. split; reflexivity. Qed.

Lemma utf8_codec_types_witness :
  (Forall is_code_point example_text -> Forall is_byte (utf8_encode example_text)) /\
  (Forall is_byte (utf8_encode example_text) ->
   utf8_decode (utf8_encode example_text) = inr example_text -> Forall is_code_point example_text).
Proof. apply utf8_codec_types. Defined.

Lemma utf8_roundtrip_witness :
  (utf8_decode (utf8_encode example_text) = inr example_text /\
   utf8_decode_from false 0 (utf8_encode example_text) = inr example_text) /\
  utf8_encode example_text = [0x41; 0xC3; 0xA9; 0xE2; 0x80; 0xA8; 0xF4; 0x8F; 0xBF; 0xBF].
Proof.
  destruct (utf8_roundtrip example_text [0x41; 0xC3; 0xA9; 0xE2; 0x80; 0xA8; 0xF4; 0x8F; 0xBF; 0xBF])
    as [H1 H2].
  split; [apply H1; [apply Forall_is_code_point; reflexivity|reflexivity]|].
  apply H2; [apply Forall_is_byte; reflexivity|reflexivity|reflexivity].
Defined.
