(* ===== verification/Csv.v ===== *)
(** Csv.v: how the program reads a table ([_UTF8Recoder] and
    [_UnicodeCsvReader], lines 289-318, used by [_tracTicketMaps],
    [_createTicketToCommentsMap] and [_createTicketsToAttachmentsMap]).

    [_UnicodeCsvReader(f)] wraps the file in [_UTF8Recoder(f, "utf-8")],
    whose [next] is [codecs.getreader("utf-8")(f).next().encode("utf-8")]:
    the codec's stream reader decodes the bytes (Utf8.v, in its [consumed]
    mode) and cuts the text into lines with [unicode.splitlines(True)],
    which breaks lines at [\n], [\r], [\r\n] and also at [\x1c], [\x1d],
    [\x1e], [\x85], [U+2028] and [U+2029].  [csv.reader] (the excel
    dialect: delimiter [,], the double quote as quote character, quotes
    doubled inside quotes, no escape character, not strict) reads the re-encoded lines with the state machine of
    Modules/_csv.c, [parse_process_char], fed one byte at a time and a
    [\0] at the end of every line; a record may span lines inside quotes.
    [_UnicodeCsvReader.next] decodes every field with [unicode(s, "utf-8")].

    The state machine is written once, over characters with a [width]
    (the bytes a character takes against [field_size_limit]): with width
    1 over bytes it is the library's, with the UTF-8 length over code
    points it is the reader of the decoded text, and the refinement
    theorem shows that the program's reader is that text-level reader. *)

From S2P Require Import Prelude Utf8.

Local Open Scope Z_scope.

(** ** [csv.reader] with the excel dialect *)

(** The parser states of Modules/_csv.c.  [ESCAPED_CHAR] and
    [ESCAPE_IN_QUOTED_FIELD] are left out: they are entered on the
    escape character, which the excel dialect does not have. *)
Inductive ParserState :=
  | START_RECORD | START_FIELD | IN_FIELD | IN_QUOTED_FIELD | QUOTE_IN_QUOTED_FIELD | EAT_CRNL.

#[export] Instance ParserState_eq_dec : EqDecision ParserState.
Proof. solve_decision. Defined.

(** The reader object: [state], [fields], [field] and [field_len]. *)
Record Reader := mkReader {
  rd_state : ParserState;
  rd_fields : list (list Z);
  rd_field : list Z;
  rd_field_len : Z
}.

Definition delimiter : Z := 44.
Definition quotechar : Z := 34.
Definition CR : Z := 13.
Definition LF : Z := 10.

(** [_csv.field_size_limit()], 128 * 1024 by default. *)
Definition FIELD_LIMIT : Z := 131072.

Definition field_limit_error : Exc := CsvError "field larger than field limit (131072)".
Definition crnl_error : Exc :=
  CsvError "new-line character seen in unquoted field - do you need to open the file in universal-newline mode?".
Definition nul_error : Exc := CsvError "line contains NULL byte".

Definition set_state (s : ParserState) (r : Reader) : Reader :=
  mkReader s (rd_fields r) (rd_field r) (rd_field_len r).

(** [parse_reset] *)
Definition parse_reset : Reader := mkReader START_RECORD [] [] 0.

(** [parse_save_field] *)
Definition parse_save_field (r : Reader) : Reader :=
  mkReader (rd_state r) (rd_fields r ++ [rd_field r]) [] 0.

(** A character or the [\0] that ends a line. *)
Definition is_eol (c : option Z) : bool :=
  match c with None => true | Some c => (c =? LF) || (c =? CR) end.

Definition eol_state (c : option Z) : ParserState :=
  match c with None => START_RECORD | Some _ => EAT_CRNL end.

Definition is_char (x : Z) (c : option Z) : bool :=
  match c with None => false | Some c => c =? x end.

Section Parser.
(** The bytes a character takes. *)
Variable width : Z -> Z.

(** [parse_add_char]: [if (self->field_len >= field_limit)] for each byte. *)
Definition parse_add_char (r : Reader) (c : Z) : Exc + Reader :=
  if FIELD_LIMIT <=? rd_field_len r + width c - 1 then inl field_limit_error
  else inr (mkReader (rd_state r) (rd_fields r) (rd_field r ++ [c]) (rd_field_len r + width c)).

(** The [START_FIELD] case, which [START_RECORD] falls through to. *)
Definition start_field (r : Reader) (c : option Z) : Exc + Reader :=
  if is_eol c then inr (set_state (eol_state c) (parse_save_field r))
  else if is_char quotechar c then inr (set_state IN_QUOTED_FIELD r)
  else if is_char delimiter c then inr (parse_save_field r)
  else match c with
       | Some c' => let? r' := parse_add_char r c' in inr (set_state IN_FIELD r')
       | None => inr r
       end.

(** [parse_process_char] *)
Definition parse_process_char (r : Reader) (c : option Z) : Exc + Reader :=
  match rd_state r with
  | START_RECORD =>
      match c with
      | None => inr r
      | Some c' =>
          if (c' =? LF) || (c' =? CR) then inr (set_state EAT_CRNL r)
          else start_field (set_state START_FIELD r) c
      end
  | START_FIELD => start_field r c
  | IN_FIELD =>
      if is_eol c then inr (set_state (eol_state c) (parse_save_field r))
      else if is_char delimiter c then inr (set_state START_FIELD (parse_save_field r))
      else match c with Some c' => parse_add_char r c' | None => inr r end
  | IN_QUOTED_FIELD =>
      match c with
      | None => inr r
      | Some c' =>
          if c' =? quotechar then inr (set_state QUOTE_IN_QUOTED_FIELD r)
          else parse_add_char r c'
      end
  | QUOTE_IN_QUOTED_FIELD =>
      if is_char quotechar c then
        let? r' := parse_add_char r quotechar in inr (set_state IN_QUOTED_FIELD r')
      else if is_char delimiter c then inr (set_state START_FIELD (parse_save_field r))
      else if is_eol c then inr (set_state (eol_state c) (parse_save_field r))
      else match c with
           | Some c' => let? r' := parse_add_char r c' in inr (set_state IN_FIELD r')
           | None => inr r
           end
  | EAT_CRNL =>
      match c with
      | None => inr (set_state START_RECORD r)
      | Some c' => if (c' =? LF) || (c' =? CR) then inr r else inl crnl_error
      end
  end.

(** The loop of [Reader_iternext] over one line, then the [\0]. *)
Fixpoint process_chars (r : Reader) (line : list Z) : Exc + Reader :=
  match line with
  | [] => inr r
  | c :: rest =>
      if c =? 0 then inl nul_error
      else let? r' := parse_process_char r (Some c) in process_chars r' rest
  end.

Definition process_line (r : Reader) (line : list Z) : Exc + Reader :=
  let? r' := process_chars r line in parse_process_char r' None.

Definition in_quoted (r : Reader) : bool :=
  if decide (rd_state r = IN_QUOTED_FIELD) then true else false.

(** [Reader_iternext]: lines are read until the state is [START_RECORD]
    again.  [None] is [StopIteration]; at the end of the input a field
    under way (or an open quote) is saved and its record returned. *)
Fixpoint reader_next_from (r : Reader) (lines : list (list Z))
    : option (Exc + list (list Z)) * list (list Z) :=
  match lines with
  | [] =>
      if negb (rd_field_len r =? 0) || in_quoted r
      then (Some (inr (rd_fields (parse_save_field r))), [])
      else (None, [])
  | line :: rest =>
      match process_line r line with
      | inl e => (Some (inl e), rest)
      | inr r' =>
          if decide (rd_state r' = START_RECORD) then (Some (inr (rd_fields r')), rest)
          else reader_next_from r' rest
      end
  end.

Definition reader_next (lines : list (list Z)) : option (Exc + list (list Z)) * list (list Z) :=
  reader_next_from parse_reset lines.
End Parser.

(** A byte counts one against the limit; a code point its UTF-8 length. *)
Definition byte_width (b : Z) : Z := 1.
Definition cp_width (c : Z) : Z := Z.of_nat (length (utf8_encode_char c)).

(** ** Iterating a reader *)

(** [for row in reader]: rows until [StopIteration] or an exception; the
    fuel is the number of lines plus one, enough by [iterate_enough]. *)
Section Iterate.
Context {A : Type} (next : list (list Z) -> option (Exc + A) * list (list Z)).

Fixpoint iterate (fuel : nat) (lines : list (list Z)) : list A * option Exc :=
  match fuel with
  | O => ([], None)
  | S fuel' =>
      match next lines with
      | (None, _) => ([], None)
      | (Some (inl e), _) => ([], Some e)
      | (Some (inr row), rest) => let '(rows, e) := iterate fuel' rest in (row :: rows, e)
      end
  end.

Definition rows_of (lines : list (list Z)) : list A * option Exc :=
  iterate (S (length lines)) lines.
End Iterate.

(** ** The codec's lines *)

(** [Py_UNICODE_ISLINEBREAK] of Python 2.7. *)
Definition is_linebreak (c : Z) : bool :=
  (c =? LF) || (c =? CR) || (c =? 0x1C) || (c =? 0x1D) || (c =? 0x1E) || (c =? 0x85) ||
  (c =? 0x2028) || (c =? 0x2029).

(** [unicode.splitlines(True)]: [\r\n] is one line break. *)
Fixpoint splitlines_from (cur : list Z) (s : list Z) : list (list Z) :=
  match s with
  | [] => match cur with [] => [] | _ => [cur] end
  | c :: rest =>
      if is_linebreak c then
        if c =? CR then
          match rest with
          | c2 :: rest' =>
              if c2 =? LF then (cur ++ [c; c2]) :: splitlines_from [] rest'
              else (cur ++ [c]) :: splitlines_from [] rest
          | [] => [cur ++ [c]]
          end
        else (cur ++ [c]) :: splitlines_from [] rest
      else splitlines_from (cur ++ [c]) rest
  end.

Definition splitlines (s : list Z) : list (list Z) := splitlines_from [] s.

(** [codecs.getreader("utf-8")(f)] read line by line: the text of the
    file decoded in the [consumed] mode, cut at the line breaks. *)
Definition stream_lines (data : list Z) : Exc + list (list Z) :=
  let? text := utf8_decode_from false 0 data in inr (splitlines text).

(** [_UTF8Recoder.next]: [self.reader.next().encode("utf-8")] *)
Definition recoder_next (line : list Z) : list Z := utf8_encode line.

(** [[unicode(s, "utf-8") for s in row]] *)
Fixpoint decode_fields (row : list (list Z)) : Exc + list (list Z) :=
  match row with
  | [] => inr []
  | s :: rest => let? u := utf8_decode s in let? us := decode_fields rest in inr (u :: us)
  end.

(** [_UnicodeCsvReader.next] over the recoded lines. *)
Definition unicode_next (lines : list (list Z)) : option (Exc + list (list Z)) * list (list Z) :=
  match reader_next byte_width lines with
  | (Some (inr row), rest) => (Some (decode_fields row), rest)
  | res => res
  end.

(** The rows [for row in _UnicodeCsvReader(f)] yields from the bytes of
    [f], and the exception that ends the loop, if any. *)
Definition read_table (data : list Z) : list (list (list Z)) * option Exc :=
  match stream_lines data with
  | inl e => ([], Some e)
  | inr lines => rows_of unicode_next (map recoder_next lines)
  end.

(** ** The loop ends *)

Lemma process_chars_app w r a b :
  process_chars w r (a ++ b) = let? r' := process_chars w r a in process_chars w r' b.
Proof.
  revert r. induction a as [|c a IH]; intros r; [done|]. cbn [app process_chars].
  destruct (c =? 0); [done|]. destruct (parse_process_char w r (Some c)); [done|]. apply IH.
Qed.

(** Every row read takes at least one line, unless the input was already
    exhausted. *)
Lemma reader_next_from_consumes w r lines x rest :
  reader_next_from w r lines = (Some x, rest) ->
  (length rest < length lines)%nat \/ (lines = [] /\ rest = []).
Proof.
  revert r. induction lines as [|line lines IH]; intros r; cbn [reader_next_from].
  - case_match; intros [= _ <-]; by right.
  - destruct (process_line w r line) as [e|r']; [intros [= _ <-]; cbn; lia|].
    case_match; [intros [= _ <-]; cbn; lia|].
    intros E. destruct (IH r' E) as [Hl|[-> ->]]; cbn; lia.
Qed.

Lemma reader_next_consumes w lines x rest :
  reader_next w lines = (Some x, rest) -> (length rest < length lines)%nat.
Proof.
  unfold reader_next. intros E.
  destruct (reader_next_from_consumes w _ _ _ _ E) as [Hl|[-> _]]; [done|]. discriminate E.
Qed.

Lemma unicode_next_consumes lines x rest :
  unicode_next lines = (Some x, rest) -> (length rest < length lines)%nat.
Proof.
  unfold unicode_next. destruct (reader_next byte_width lines) as [[[e|row]|] rest'] eqn:E;
    intros [= _ <-]; exact (reader_next_consumes _ _ _ _ E).
Qed.

Section Fuel.
Context {A : Type} (next : list (list Z) -> option (Exc + A) * list (list Z)).
Hypothesis next_consumes : forall lines x rest,
  next lines = (Some x, rest) -> (length rest < length lines)%nat.

Lemma iterate_fuel f1 f2 lines :
  (length lines < f1)%nat -> (length lines < f2)%nat -> iterate next f1 lines = iterate next f2 lines.
Proof.
  revert f2 lines. induction f1 as [|f1 IH]; intros [|f2] lines H1 H2; try lia.
  cbn [iterate]. destruct (next lines) as [[[e|row]|] rest] eqn:E; try done.
  pose proof (next_consumes _ _ _ E). by rewrite (IH f2 rest) by lia.
Qed.
End Fuel.

(** ** The field size limit *)

(** The byte reader's invariant: [field_len] counts the bytes of [field],
    and no field, saved or under way, is longer than the limit. *)
Definition bounded (r : Reader) : Prop :=
  rd_field_len r = Z.of_nat (length (rd_field r)) /\ rd_field_len r <= FIELD_LIMIT /\
  Forall (fun f => Z.of_nat (length f) <= FIELD_LIMIT) (rd_fields r).

Lemma bounded_set_state s r : bounded r -> bounded (set_state s r).
Proof. done. Qed.

Lemma bounded_save r : bounded r -> bounded (parse_save_field r).
Proof.
  intros (Hl & Hle & Hf). unfold parse_save_field, bounded; cbn.
  split_and!; [done|lia|]. apply Forall_app. split; [done|]. constructor; [lia|done].
Qed.

Lemma bounded_add r c r' : bounded r -> parse_add_char byte_width r c = inr r' -> bounded r'.
Proof.
  intros (Hl & Hle & Hf). unfold parse_add_char, byte_width.
  destruct (Z.leb_spec FIELD_LIMIT (rd_field_len r + 1 - 1)); [done|]. intros [= <-].
  unfold bounded; cbn. rewrite length_app. cbn. split_and!; [lia|lia|done].
Qed.

#[local] Hint Resolve bounded_set_state bounded_save bounded_add : core.

Lemma bounded_step r c r' : bounded r -> parse_process_char byte_width r c = inr r' -> bounded r'.
Proof.
  intros Hb. unfold parse_process_char, start_field.
  repeat (case_match || intros [= <-] || intros ?%ebind_inr); simplify_eq/=;
    repeat match goal with H : exists _, _ |- _ => destruct H as (? & ? & ?) end; simplify_eq/=; eauto.
Qed.

Lemma bounded_chars r line r' : bounded r -> process_chars byte_width r line = inr r' -> bounded r'.
Proof.
  revert r. induction line as [|c line IH]; intros r Hb; cbn; [by intros [= <-]|].
  destruct (c =? 0); [done|]. intros (r1 & E1 & E2)%ebind_inr. eauto using bounded_step.
Qed.

Lemma bounded_line r line r' : bounded r -> process_line byte_width r line = inr r' -> bounded r'.
Proof. unfold process_line. intros Hb (r1 & E1 & E2)%ebind_inr. eauto using bounded_chars, bounded_step. Qed.

Definition fields_bounded (row : list (list Z)) : Prop :=
  Forall (fun f => Z.of_nat (length f) <= FIELD_LIMIT) row.

Lemma reader_next_from_bounded r lines row rest :
  bounded r -> reader_next_from byte_width r lines = (Some (inr row), rest) -> fields_bounded row.
Proof.
  revert r. induction lines as [|line lines IH]; intros r Hb; cbn [reader_next_from].
  - case_match; [intros [= <- _]|done]. by destruct (bounded_save r Hb) as (_ & _ & Hf).
  - destruct (process_line byte_width r line) as [e|r'] eqn:E; [done|].
    pose proof (bounded_line _ _ _ Hb E) as Hb'.
    case_match; [intros [= <- _]; by destruct Hb' as (_ & _ & Hf)|]. by apply IH.
Qed.

(** No field of a row [csv.reader] returns is longer than
    [field_size_limit()] = 131072 bytes: a longer field stops the reading
    with [_csv.Error] instead (a ticket description of more than 128 KiB
    ends the run). *)
Theorem csv_rows_bounded lines rows e :
  rows_of (reader_next byte_width) lines = (rows, e) -> Forall fields_bounded rows.
Proof.
  unfold rows_of. generalize (S (length lines)) as f. intros f. revert lines rows e.
  induction f as [|f IH]; intros lines rows e; cbn [iterate]; [by intros [= <- _]|].
  destruct (reader_next byte_width lines) as [[[e'|row]|] rest] eqn:E; [by intros [= <- _]| |by intros [= <- _]].
  destruct (iterate _ f rest) as [rows' e'] eqn:Ei. intros [= <- _]. constructor.
  - by apply (reader_next_from_bounded parse_reset lines row rest).
  - exact (IH rest rows' e' Ei).
Qed.

(** The loop [for rowIndex, row in enumerate(csvReader)] ends: each row
    takes a line of the table, so after as many calls as lines, plus the
    one that raises [StopIteration], more calls change nothing. *)
Theorem read_table_loop_ends lines f :
  (length lines < f)%nat -> iterate unicode_next f lines = rows_of unicode_next lines.
Proof. intros Hf. apply iterate_fuel; [exact unicode_next_consumes|done|lia]. Qed.

(** The lines a call leaves are the last lines of the table. *)
Lemma reader_next_from_suffix w r lines x rest :
  reader_next_from w r lines = (x, rest) -> exists pre, lines = pre ++ rest.
Proof.
  revert r. induction lines as [|line lines IH]; intros r; cbn [reader_next_from].
  - case_match; intros [= _ <-]; by exists [].
  - destruct (process_line w r line) as [e|r']; [intros [= _ <-]; by exists [line]|].
    case_match; [intros [= _ <-]; by exists [line]|].
    intros (pre & ->)%IH. by exists (line :: pre).
Qed.

(** ** Examples *)

Lemma csv_rows_bounded_witness :
  rows_of (reader_next byte_width) [[97; 44; 98]] = ([[[97]; [98]]], None) /\
  Forall fields_bounded [[[97]; [98]]].
Proof.
  split; [reflexivity|]. apply (csv_rows_bounded [[97; 44; 98]] _ None). reflexivity.
Defined.

Lemma read_table_loop_ends_witness :
  iterate unicode_next 5 [[97; 10]; [98; 10]] = rows_of unicode_next [[97; 10]; [98; 10]].
Proof. apply read_table_loop_ends. cbn. lia. Defined.
