(* ===== verification/CsvText.v ===== *)
(** CsvText.v: the reader of the program reads the decoded text.

    [csv.reader] in the program works on the bytes of the re-encoded lines
    (width 1, Csv.v); the same state machine over the code points of the
    lines, each counting its UTF-8 length against the limit, is the reader
    of the text.  A byte-level reader state is the image [emb] of a
    text-level one: same parser state and [field_len], every field the
    UTF-8 bytes of the text field.  A code point below 0x80 is one byte
    and both readers take the same step; a longer code point is two to
    four bytes above 0x7F, which the byte reader adds to the field one by
    one, raising the limit error exactly when the text reader does.  So
    every line, every call of [Reader_iternext] and the whole loop of the
    byte reader are the image of the text reader's, and [unicode(s,
    "utf-8")] gives every field back: [read_table] is the text reader on
    the lines of the decoded file, and no field ever fails to decode. *)

From S2P Require Import Prelude Utf8 Csv.

Local Open Scope Z_scope.

(** ** The image of a text-level reader *)

Definition emb (r : Reader) : Reader :=
  mkReader (rd_state r) (map encode_chars (rd_fields r)) (encode_chars (rd_field r)) (rd_field_len r).

Definition emb_res (x : Exc + Reader) : Exc + Reader :=
  match x with inl e => inl e | inr r => inr (emb r) end.

Lemma emb_set_state s r : set_state s (emb r) = emb (set_state s r).
Proof. reflexivity. Qed.

Lemma emb_save r : parse_save_field (emb r) = emb (parse_save_field r).
Proof. unfold parse_save_field, emb. cbn. by rewrite map_app. Qed.

Lemma emb_res_bind s x :
  (let? r' := emb_res x in inr (set_state s r')) = emb_res (let? r' := x in inr (set_state s r')).
Proof. by destruct x. Qed.

Lemma encode_char_ascii c : c < 0x80 -> utf8_encode_char c = [c].
Proof. unfold utf8_encode_char. intros Hc. by rewrite (proj2 (Z.ltb_lt _ _) Hc). Qed.

Definition ascii_opt (c : option Z) : Prop :=
  match c with None => True | Some c => 0 <= c < 0x80 end.

Lemma encode_chars_single c : encode_chars [c] = utf8_encode_char c.
Proof. unfold encode_chars. cbn. apply app_nil_r. Qed.

Lemma add_ascii r c : 0 <= c < 0x80 ->
  parse_add_char byte_width (emb r) c = emb_res (parse_add_char cp_width r c).
Proof.
  intros Hc. unfold parse_add_char, cp_width, byte_width.
  rewrite encode_char_ascii by lia. cbn [emb rd_field_len rd_fields rd_field rd_state length].
  change (Z.of_nat 1) with 1. case_match; [done|]. cbn.
  unfold emb. cbn [rd_state rd_fields rd_field rd_field_len]. by rewrite encode_chars_app, encode_chars_single, encode_char_ascii by lia.
Qed.

(** Below 0x80, and at the end of a line, both readers take the same step. *)
Lemma step_ascii r c : ascii_opt c ->
  parse_process_char byte_width (emb r) c = emb_res (parse_process_char cp_width r c).
Proof.
  intros Hc. unfold parse_process_char, start_field. change (rd_state (emb r)) with (rd_state r).
  destruct (rd_state r), c as [c|]; cbn [ascii_opt] in Hc; repeat case_match;
    rewrite ?emb_set_state, ?emb_save, ?add_ascii by (unfold quotechar; lia);
    rewrite ?emb_res_bind; reflexivity.
Qed.

(** ** Characters that are not special *)

(** Not a line end, the quote character or the delimiter. *)
Definition plain (c : Z) : bool :=
  negb ((c =? LF) || (c =? CR) || (c =? quotechar) || (c =? delimiter)).

(** The state after a plain character: a quoted field stays quoted. *)
Definition plain_state (s : ParserState) : ParserState :=
  match s with IN_QUOTED_FIELD => IN_QUOTED_FIELD | _ => IN_FIELD end.

Lemma plain_step w r c : plain c = true ->
  parse_process_char w r (Some c) =
  if decide (rd_state r = EAT_CRNL) then inl crnl_error
  else let? r' := parse_add_char w r c in inr (set_state (plain_state (rd_state r)) r').
Proof.
  unfold plain. intros Hp.
  destruct (c =? LF) eqn:E1, (c =? CR) eqn:E2, (c =? quotechar) eqn:E3, (c =? delimiter) eqn:E4;
    try discriminate.
  unfold parse_process_char, start_field, parse_add_char.
  destruct (rd_state r) eqn:Hs; cbn [is_eol is_char orb decide decide_rel ParserState_eq_dec];
    rewrite ?E1, ?E2, ?E3, ?E4; cbn; case_match; by rewrite ?Hs.
Qed.

Definition plain_byte (b : Z) : Prop := plain b = true /\ b <> 0.

Lemma high_plain b : 0x80 <= b -> plain_byte b.
Proof.
  intros Hb. unfold plain_byte, plain, LF, CR, quotechar, delimiter.
  rewrite !(proj2 (Z.eqb_neq _ _)) by lia. split; [done|lia].
Qed.

(** Plain bytes inside a field are added one by one, each checked
    against the limit: together, the limit is checked once with the last. *)
Lemma bytes_in_field r bs :
  plain_state (rd_state r) = rd_state r -> bs <> [] -> Forall plain_byte bs ->
  process_chars byte_width r bs =
    if FIELD_LIMIT <=? rd_field_len r + Z.of_nat (length bs) - 1 then inl field_limit_error
    else inr (mkReader (rd_state r) (rd_fields r) (rd_field r ++ bs)
                (rd_field_len r + Z.of_nat (length bs))).
Proof.
  revert r. induction bs as [|b bs IH]; intros r Hs Hne Hall; [done|].
  apply Forall_cons in Hall as [[Hp Hb] Hall]. cbn [process_chars].
  rewrite (proj2 (Z.eqb_neq _ _) Hb), plain_step by done.
  destruct (decide (rd_state r = EAT_CRNL)) as [He|_]; [by rewrite He in Hs|].
  unfold parse_add_char at 1, byte_width.
  destruct (Z.leb_spec FIELD_LIMIT (rd_field_len r + 1 - 1)).
  { cbn. rewrite (proj2 (Z.leb_le _ _)); [done|]. cbn [length]. lia. }
  cbn [ebind set_state rd_state rd_fields rd_field rd_field_len]. rewrite Hs.
  destruct bs as [|b' bs].
  { cbn. rewrite (proj2 (Z.leb_gt _ _)) by lia. done. }
  rewrite IH by done. cbn [set_state rd_state rd_fields rd_field rd_field_len length].
  rewrite <- app_assoc. cbn [app].
  replace (rd_field_len r + 1 + Z.of_nat (S (length bs))) with
    (rd_field_len r + Z.of_nat (S (S (length bs)))) by lia.
  replace (rd_field_len r + 1 + Z.of_nat (S (length bs)) - 1) with
    (rd_field_len r + Z.of_nat (S (S (length bs))) - 1) by lia.
  reflexivity.
Qed.

Lemma encode_char_high c : 0x80 <= c < 0x110000 ->
  exists b bs, utf8_encode_char c = b :: bs /\ bs <> [] /\ Forall plain_byte (b :: bs).
Proof.
  intros Hc. unfold utf8_encode_char. rewrite (proj2 (Z.ltb_ge _ 0x80)) by lia.
  destruct (Z.ltb_spec c 0x800); [rewrite encode_latin_bytes by lia|].
  2: destruct (Z.ltb_spec c 0x10000); [rewrite encode_ucs2_bytes by lia|rewrite encode_ucs4_bytes by lia].
  all: eexists _, _; split; [reflexivity|]; split; [done|].
  all: repeat constructor; apply high_plain; zlia.
Qed.

Lemma plain_state_idem s : plain_state (plain_state s) = plain_state s.
Proof. by destruct s. Qed.

(** A code point of two to four bytes: the byte reader adds its bytes, the
    text reader the code point, with the same limit check. *)
Lemma step_high r c : 0x80 <= c < 0x110000 ->
  process_chars byte_width (emb r) (utf8_encode_char c) =
  emb_res (parse_process_char cp_width r (Some c)).
Proof.
  intros Hc. destruct (encode_char_high c Hc) as (b & bs & Henc & Hne & Hall).
  pose proof Hall as Hall'. apply Forall_cons in Hall' as [[Hp Hb] Hbs].
  rewrite Henc. cbn [process_chars]. rewrite (proj2 (Z.eqb_neq _ _) Hb).
  rewrite (plain_step _ _ b), (plain_step _ _ c) by (done || apply (high_plain c); lia).
  change (rd_state (emb r)) with (rd_state r).
  destruct (decide (rd_state r = EAT_CRNL)); [done|].
  unfold parse_add_char at 1 2, byte_width, cp_width. rewrite Henc.
  cbn [length emb rd_field_len].
  destruct (Z.leb_spec FIELD_LIMIT (rd_field_len r + 1 - 1)).
  { cbn. rewrite (proj2 (Z.leb_le _ _)); [done|]. lia. }
  cbn [ebind]. rewrite bytes_in_field by (done || apply plain_state_idem).
  cbn [set_state rd_state rd_fields rd_field rd_field_len].
  replace (rd_field_len r + 1 + Z.of_nat (length bs) - 1) with
    (rd_field_len r + Z.of_nat (S (length bs)) - 1) by lia.
  case_match; [done|]. cbn. unfold emb. cbn [rd_state rd_fields rd_field rd_field_len set_state].
  rewrite encode_chars_app, encode_chars_single, Henc, <- app_assoc.
  do 2 f_equal. lia.
Qed.

(** ** Lines and rows *)

Lemma chars_commute r line : Forall is_code_point line ->
  process_chars byte_width (emb r) (encode_chars line) = emb_res (process_chars cp_width r line).
Proof.
  intros Hl. revert r. induction Hl as [|c line Hc Hl IH]; intros r; [done|].
  change (encode_chars (c :: line)) with (utf8_encode_char c ++ encode_chars line).
  rewrite process_chars_app. cbn [process_chars]. unfold is_code_point in Hc.
  destruct (Z.ltb_spec c 0x80) as [Ha|Ha].
  - rewrite encode_char_ascii by done. cbn [process_chars].
    destruct (Z.eqb_spec c 0); [done|].
    rewrite step_ascii by (cbn; lia).
    destruct (parse_process_char cp_width r (Some c)); cbn; [done|]. apply IH.
  - rewrite (proj2 (Z.eqb_neq c 0)) by lia. rewrite step_high by lia.
    destruct (parse_process_char cp_width r (Some c)); cbn; [done|]. apply IH.
Qed.

Lemma line_commute r line : Forall is_code_point line ->
  process_line byte_width (emb r) (encode_chars line) = emb_res (process_line cp_width r line).
Proof.
  intros Hl. unfold process_line. rewrite chars_commute by done.
  destruct (process_chars cp_width r line); cbn; [done|]. by apply step_ascii.
Qed.

Definition emb_next (x : option (Exc + list (list Z)) * list (list Z))
    : option (Exc + list (list Z)) * list (list Z) :=
  (match fst x with Some (inr row) => Some (inr (map encode_chars row)) | o => o end,
   map encode_chars (snd x)).

Lemma reader_next_from_commute r lines : Forall (Forall is_code_point) lines ->
  reader_next_from byte_width (emb r) (map encode_chars lines) =
  emb_next (reader_next_from cp_width r lines).
Proof.
  intros Hl. revert r. induction Hl as [|line lines Hc Hl IH]; intros r; cbn [map reader_next_from].
  - unfold in_quoted. change (rd_state (emb r)) with (rd_state r).
    change (rd_field_len (emb r)) with (rd_field_len r). rewrite emb_save. by case_match.
  - rewrite line_commute by done.
    destruct (process_line cp_width r line) as [e|r']; cbn [emb_res]; [done|].
    change (rd_state (emb r')) with (rd_state r'). case_match; [done|]. apply IH.
Qed.

(** ** What the fields are made of *)

Section Chars.
Variable P : Z -> Prop.
Hypothesis P_quote : P quotechar.

Definition chars_in (r : Reader) : Prop := Forall (Forall P) (rd_fields r) /\ Forall P (rd_field r).

Lemma chars_in_set_state s r : chars_in r -> chars_in (set_state s r).
Proof. done. Qed.

Lemma chars_in_save r : chars_in r -> chars_in (parse_save_field r).
Proof. intros [Hf Hc]. split; cbn; [apply Forall_app; split; [done|by constructor]|constructor]. Qed.

Lemma chars_in_add w r c r' : P c -> chars_in r -> parse_add_char w r c = inr r' -> chars_in r'.
Proof.
  intros Hc [Hf Hcur]. unfold parse_add_char. case_match; [done|]. intros [= <-].
  split; [done|]. cbn. apply Forall_app. split; [done|by constructor].
Qed.

#[local] Hint Resolve chars_in_set_state chars_in_save chars_in_add : core.

Lemma chars_in_step w r c r' : chars_in r -> (forall x, c = Some x -> P x) ->
  parse_process_char w r c = inr r' -> chars_in r'.
Proof.
  intros Hr Hc. unfold parse_process_char, start_field.
  repeat (case_match || intros [= <-] || intros ?%ebind_inr); simplify_eq/=;
    repeat match goal with H : exists _, _ |- _ => destruct H as (? & ? & ?) end; simplify_eq/=;
    eauto.
Qed.

Lemma chars_in_line w r line r' : chars_in r -> Forall P line ->
  process_line w r line = inr r' -> chars_in r'.
Proof.
  unfold process_line. intros Hr Hl (r1 & E1 & E2)%ebind_inr.
  revert r Hr E1. induction Hl as [|c line Hc Hl IH]; intros r Hr; cbn.
  - intros [= <-]. eapply (chars_in_step w r None); [exact Hr|intros ? [=]|exact E2].
  - destruct (c =? 0); [done|]. intros (r2 & E3 & E4)%ebind_inr.
    eapply IH; [|exact E4]. eapply chars_in_step; [exact Hr| |exact E3]. by intros x [= <-].
Qed.

Lemma chars_in_next w r lines row rest : chars_in r -> Forall (Forall P) lines ->
  reader_next_from w r lines = (Some (inr row), rest) -> Forall (Forall P) row.
Proof.
  intros Hr Hl. revert r Hr. induction Hl as [|line lines Hc Hl IH]; intros r Hr; cbn.
  - case_match; [intros [= <- _]|done]. by destruct (chars_in_save r Hr).
  - destruct (process_line w r line) as [e|r'] eqn:E; [done|].
    pose proof (chars_in_line _ _ _ _ Hr Hc E) as Hr'.
    case_match; [intros [= <- _]; by destruct Hr'|]. by apply IH.
Qed.
End Chars.

(** ** The loop of [_UnicodeCsvReader] *)

Lemma decode_fields_encode row : Forall (Forall is_code_point) row ->
  decode_fields (map encode_chars row) = inr row.
Proof.
  induction 1 as [|f row Hf Hrow IH]; [done|]. cbn [map decode_fields].
  unfold utf8_decode. by rewrite decode_encode_chars, IH.
Qed.

Lemma quotechar_code_point : is_code_point quotechar.
Proof. unfold is_code_point, quotechar. lia. Qed.

Lemma parse_reset_emb : parse_reset = emb parse_reset.
Proof. reflexivity. Qed.

Lemma unicode_iterate f lines : Forall (Forall is_code_point) lines ->
  iterate unicode_next f (map encode_chars lines) = iterate (reader_next cp_width) f lines.
Proof.
  revert lines. induction f as [|f IH]; intros lines Hl; [done|]. cbn [iterate].
  unfold unicode_next, reader_next. rewrite parse_reset_emb at 1.
  rewrite reader_next_from_commute by done.
  destruct (reader_next_from cp_width parse_reset lines) as [[[e|row]|] rest] eqn:E; cbn; [done| |done].
  rewrite decode_fields_encode.
  2: { exact (chars_in_next is_code_point quotechar_code_point cp_width parse_reset lines row rest ltac:(split; constructor) Hl E). }
  rewrite IH; [done|]. destruct (reader_next_from_suffix _ _ _ _ _ E) as (pre & ->).
  by apply Forall_app in Hl as [_ Hl].
Qed.

(** ** The lines of the decoded text *)

Lemma splitlines_concat cur s : concat (splitlines_from cur s) = cur ++ s.
Proof.
  revert cur.
  induction s as [s IH] using (well_founded_induction (well_founded_ltof _ (@length Z))).
  intros cur. destruct s as [|c rest].
  { destruct cur; cbn; [done|]. by rewrite !app_nil_r. }
  cbn [splitlines_from]. case_match.
  - case_match.
    + destruct rest as [|c2 rest'].
      * cbn. by rewrite !app_nil_r.
      * case_match; cbn [concat]; rewrite IH by (unfold ltof; cbn; lia);
          by rewrite <- app_assoc.
    + cbn [concat]. rewrite IH by (unfold ltof; cbn; lia). by rewrite <- app_assoc.
  - rewrite IH by (unfold ltof; cbn; lia). by rewrite <- app_assoc.
Qed.

Lemma no_pairs_app l1 l2 : no_pairs (l1 ++ l2) = true -> no_pairs l1 = true /\ no_pairs l2 = true.
Proof.
  induction l1 as [|c l1 IH]; [done|]. cbn [app]. rewrite !no_pairs_cons.
  intros [Hc Hp]%andb_true_iff. destruct (IH Hp) as [H1 H2]. split; [|done].
  rewrite H1, andb_true_r. destruct l1; [done|]. exact Hc.
Qed.

Lemma no_pairs_concat ls : no_pairs (concat ls) = true -> Forall (fun l => no_pairs l = true) ls.
Proof.
  induction ls as [|l ls IH]; [constructor|]. cbn [concat].
  intros [H1 H2]%no_pairs_app. constructor; auto.
Qed.

(** ** The refinement *)

(** The rows of a table are the rows of the text-level reader on the lines
    of the decoded file. *)
Lemma read_table_text data text :
  Forall is_byte data -> utf8_decode_from false 0 data = inr text -> no_pairs text = true ->
  read_table data = rows_of (reader_next cp_width) (splitlines text).
Proof.
  intros Hb Hd Hp. unfold read_table, stream_lines. rewrite Hd. cbn [ebind].
  pose proof (decode_code_points false 0 data text Hb Hd) as Hc.
  assert (Hcat : concat (splitlines text) = text) by apply splitlines_concat.
  assert (Hl : Forall (Forall is_code_point) (splitlines text))
    by (apply Forall_concat; by rewrite Hcat).
  assert (Hrec : map recoder_next (splitlines text) = map encode_chars (splitlines text)).
  { apply map_ext_Forall. rewrite <- Hcat in Hp. apply no_pairs_concat in Hp.
    eapply Forall_impl; [exact Hp|]. intros l Hl'. by apply utf8_encode_concat. }
  unfold rows_of. rewrite Hrec, length_map. by apply unicode_iterate.
Qed.

(** C11: From the bytes of a file that decode (in the stream reader's mode)
    to a text without a surrogate pair, the loop over [_UnicodeCsvReader]
    yields exactly the records that [csv.reader] finds in the text's lines,
    code point by code point, ends as it ends, and [unicode(s, "utf-8")]
    never fails on a field. *)
Theorem read_table_refines data text :
  Forall is_byte data -> utf8_decode_from false 0 data = inr text -> no_pairs text = true ->
  read_table data = rows_of (reader_next cp_width) (splitlines text).
Proof. exact (read_table_text data text). Qed.

(** ** Where a record ends *)

(** A character of a field that needs no quotes and does not end a line
    for the codec, or the delimiter. *)
Definition line_char (c : Z) : Prop :=
  (plain c = true /\ c <> 0 /\ is_linebreak c = false) \/ c = delimiter.

(** The fields of a line without quotes: the pieces between delimiters. *)
Fixpoint split_fields_from (cur : list Z) (l : list Z) : list (list Z) :=
  match l with
  | [] => [cur]
  | c :: rest =>
      if c =? delimiter then cur :: split_fields_from [] rest
      else split_fields_from (cur ++ [c]) rest
  end.

Definition split_fields (l : list Z) : list (list Z) := split_fields_from [] l.

Definition in_record (s : ParserState) : Prop := s = START_FIELD \/ s = IN_FIELD.

Lemma cp_width_encode c : cp_width c = Z.of_nat (length (encode_chars [c])).
Proof. by rewrite encode_chars_single. Qed.

(** Plain characters and delimiters inside a record: the fields so far and
    the field under way become the pieces between delimiters. *)
Lemma simple_chars r l :
  in_record (rd_state r) -> Forall (fun c => (plain c = true /\ c <> 0) \/ c = delimiter) l ->
  0 <= rd_field_len r -> rd_field_len r + Z.of_nat (length (encode_chars l)) < FIELD_LIMIT ->
  exists r', process_chars cp_width r l = inr r' /\ in_record (rd_state r') /\
    rd_fields r' ++ [rd_field r'] = rd_fields r ++ split_fields_from (rd_field r) l.
Proof.
  revert r. induction l as [|c l IH]; intros r Hs Hl H0 Hlen.
  { exists r. split_and!; [done|done|reflexivity]. }
  apply Forall_cons in Hl as [Hc Hl]. cbn [process_chars split_fields_from].
  change (c :: l) with ([c] ++ l) in Hlen.
  rewrite encode_chars_app, length_app, encode_chars_single in Hlen.
  destruct Hc as [[Hp Hz]| ->].
  - rewrite (proj2 (Z.eqb_neq c 0) Hz), plain_step by done.
    assert (Hd : (c =? delimiter) = false).
    { unfold plain in Hp. destruct (c =? delimiter); [|done]. by rewrite !orb_true_r in Hp. }
    rewrite Hd. destruct (decide (rd_state r = EAT_CRNL)) as [He|_];
      [by destruct Hs as [He'|He']; rewrite He' in He|].
    unfold parse_add_char at 1. rewrite (proj2 (Z.leb_gt _ _)).
    2: { unfold cp_width. lia. }
    cbn [ebind]. destruct (IH (set_state (plain_state (rd_state r))
      (mkReader (rd_state r) (rd_fields r) (rd_field r ++ [c]) (rd_field_len r + cp_width c))))
      as (r' & E & Hs' & Hf).
    + by destruct Hs as [-> | ->]; [right|right].
    + done.
    + cbn. unfold cp_width. lia.
    + cbn. unfold cp_width. lia.
    + exists r'. split_and!; [done|done|]. by rewrite Hf.
  - cbn [Z.eqb Pos.eqb]. change (delimiter =? delimiter) with true. cbn iota.
    change (delimiter =? 0) with false. cbn iota.
    assert (Hstep : parse_process_char cp_width r (Some delimiter) =
                    inr (set_state START_FIELD (parse_save_field r))).
    { unfold parse_process_char, start_field, parse_save_field, set_state.
      destruct Hs as [He|He]; rewrite He; reflexivity. }
    rewrite Hstep. cbn [ebind].
    destruct (IH (set_state START_FIELD (parse_save_field r))) as (r' & E & Hs' & Hf).
    + by left.
    + done.
    + cbn. lia.
    + cbn. lia.
    + exists r'. split_and!; [done|done|]. rewrite Hf. cbn. by rewrite <- app_assoc.
Qed.

Lemma splitlines_break cur pre s post :
  Forall (fun c => is_linebreak c = false) pre -> is_linebreak s = true -> s <> CR ->
  splitlines_from cur (pre ++ s :: post) = (cur ++ pre ++ [s]) :: splitlines_from [] post.
Proof.
  revert cur. induction pre as [|c pre IH]; intros cur Hpre Hs Hcr; cbn [app splitlines_from].
  - by rewrite Hs, (proj2 (Z.eqb_neq s CR) Hcr).
  - apply Forall_cons in Hpre as [Hc Hpre]. rewrite Hc, IH by done. by rewrite <- app_assoc.
Qed.

(** A record starts like a field. *)
Lemma process_chars_start w r c l : rd_state r = START_RECORD -> (c =? LF) || (c =? CR) = false ->
  process_chars w r (c :: l) = process_chars w (set_state START_FIELD r) (c :: l).
Proof.
  intros Hs Hc. cbn [process_chars]. destruct (c =? 0); [done|].
  unfold parse_process_char at 1. rewrite Hs, Hc. reflexivity.
Qed.

Lemma line_char_simple c : line_char c -> (plain c = true /\ c <> 0) \/ c = delimiter.
Proof. intros [(? & ? & _)|?]; [left|right]; done. Qed.

Lemma line_char_no_break c : line_char c -> is_linebreak c = false.
Proof. by intros [(_ & _ & ?)| ->]. Qed.

Lemma line_char_not_eol c : line_char c -> (c =? LF) || (c =? CR) = false.
Proof.
  intros [(Hp & _ & _)| ->]; [|reflexivity]. unfold plain in Hp.
  destruct (c =? LF), (c =? CR); [done..|reflexivity].
Qed.

Lemma break_plain s : is_linebreak s = true -> s <> LF -> s <> CR -> plain s = true /\ s <> 0.
Proof.
  unfold is_linebreak, plain, LF, CR, quotechar, delimiter. intros Hs H1 H2.
  rewrite (proj2 (Z.eqb_neq s 10)), (proj2 (Z.eqb_neq s 13)) in * by done.
  repeat (apply orb_true_iff in Hs as [Hs|Hs]); try discriminate;
    apply Z.eqb_eq in Hs; subst s; split; (done || lia).
Qed.

(** Where the text-level reader ends a record.  A line of fields without
    quotes, cut by the codec at a line break [s], is one record: when [s]
    is LF, the fields between the delimiters, which is how [csv.writer]
    wrote them; when [s] is any other line break of [unicode.splitlines]
    (U+2028, U+2029, U+0085, \x1c, \x1d, \x1e), the record ends there too,
    with [s] at the end of its last field, and the rest of the row is read
    as the next record. *)
Lemma reader_cuts_lines pre s post :
  pre <> [] -> Forall line_char pre -> is_linebreak s = true -> s <> CR ->
  Z.of_nat (length (encode_chars (pre ++ [s]))) < FIELD_LIMIT ->
  reader_next cp_width (splitlines (pre ++ s :: post)) =
    (Some (inr (split_fields (if s =? LF then pre else pre ++ [s]))), splitlines post).
Proof.
  intros Hne Hpre Hs Hcr Hlen. unfold splitlines.
  rewrite splitlines_break by (done || exact (Forall_impl _ _ _ Hpre line_char_no_break)).
  unfold reader_next. cbn [app reader_next_from]. unfold process_line.
  destruct pre as [|c pre]; [done|]. cbn [app].
  rewrite process_chars_start by (done || apply line_char_not_eol; by apply Forall_cons in Hpre as [? _]).
  rewrite encode_chars_app, length_app in Hlen.
  assert (Hsimple := Forall_impl _ _ _ Hpre line_char_simple).
  destruct (Z.eqb_spec s LF) as [->|Hlf].
  - change (c :: pre ++ [LF]) with ((c :: pre) ++ [LF]). rewrite process_chars_app.
    destruct (simple_chars (set_state START_FIELD parse_reset) (c :: pre)) as (r' & E & Hs' & Hf);
      [by left|done|cbn; lia|cbn [rd_field_len set_state parse_reset]; lia|].
    rewrite E. cbn [ebind process_chars]. change (LF =? 0) with false. cbn iota.
    assert (Hlf : parse_process_char cp_width r' (Some LF) =
                  inr (set_state EAT_CRNL (parse_save_field r'))).
    { unfold parse_process_char, start_field. by destruct Hs' as [-> | ->]. }
    rewrite Hlf. cbn. rewrite decide_True by done. cbn in Hf. by rewrite Hf.
  - destruct (break_plain s Hs Hlf Hcr) as [Hsp Hs0].
    destruct (simple_chars (set_state START_FIELD parse_reset) (c :: pre ++ [s]))
      as (r' & E & Hs' & Hf); [by left| |cbn; lia|
       cbn [rd_field_len set_state parse_reset]; change (c :: pre ++ [s]) with ((c :: pre) ++ [s]);
       rewrite encode_chars_app, length_app; lia|].
    { change (c :: pre ++ [s]) with ((c :: pre) ++ [s]). apply Forall_app. split; [done|].
      constructor; [by left|done]. }
    rewrite E. cbn [ebind].
    assert (Heol : parse_process_char cp_width r' None =
                   inr (set_state START_RECORD (parse_save_field r'))).
    { unfold parse_process_char, start_field. by destruct Hs' as [-> | ->]. }
    rewrite Heol. cbn. rewrite decide_True by done. cbn in Hf. by rewrite Hf.
Qed.

Definition line_charb (c : Z) : bool :=
  (plain c && negb (c =? 0) && negb (is_linebreak c)) || (c =? delimiter).

Lemma Forall_line_char l : forallb line_charb l = true -> Forall line_char l.
Proof.
  intros H. apply Forall_forall. intros c Hc. rewrite forallb_forall in H.
  specialize (H c (proj1 (list_elem_of_In _ _) Hc)). unfold line_charb in H.
  apply orb_true_iff in H as [H|H]; [left|right; by apply Z.eqb_eq].
  apply andb_true_iff in H as [[H1 H2]%andb_true_iff H3]. apply negb_true_iff in H2, H3.
  split_and!; [done|by apply Z.eqb_neq|done].
Qed.

(** C12: Where a table's records end.  From a table whose text holds a line of
    fields without quotes cut at a line break [s]: the first row the
    program reads is the fields between the delimiters when [s] is LF, as
    [csv.writer] wrote them; when [s] is another line break of
    [unicode.splitlines] (U+2028, U+2029, U+0085, 0x1C, 0x1D, 0x1E), which
    [csv.writer] does not quote, the row ends at [s], with [s] at the end
    of its last field, and the rest of the line is read as the next row. *)
Theorem read_table_cuts_lines pre s post :
  pre <> [] -> Forall line_char pre -> is_linebreak s = true -> s <> CR ->
  Z.of_nat (length (encode_chars (pre ++ [s]))) < FIELD_LIMIT ->
  Forall is_code_point (pre ++ s :: post) -> no_pairs (pre ++ s :: post) = true ->
  exists rows e, read_table (utf8_encode (pre ++ s :: post)) =
    (split_fields (if s =? LF then pre else pre ++ [s]) :: rows, e).
Proof.
  intros Hne Hpre Hs Hcr Hlen Hc Hp.
  rewrite (read_table_text _ (pre ++ s :: post)).
  - unfold rows_of. cbn [iterate]. rewrite reader_cuts_lines by done.
    destruct (iterate _ _ _) as [rows e]. by exists rows, e.
  - by apply utf8_encode_bytes.
  - by apply decode_encode.
  - done.
Qed.

(** ** Examples *)

(** A tickets table whose second ticket has U+2028 LINE SEPARATOR in its
    summary, the way [csv.writer] writes it (the field holds no comma,
    quote or CR/LF, so it is not quoted), and whose third ticket has a
    quoted summary with a comma, doubled quotes and a CR LF. *)
Definition example_table : list Z :=
  (* id,summary LF *)
  [105; 100; 44; 115; 10] ++
  (* 1,a U+2028 b LF *)
  [49; 44; 97; 0xE2; 0x80; 0xA8; 98; 10] ++
  (* 2,quoted x comma doubled-quote y doubled-quote CR LF z LF *)
  [50; 44; 34; 120; 44; 34; 34; 121; 34; 34; 13; 10; 122; 34; 10].

(** The codec cuts the line at U+2028, so [csv.reader] ends the record
    there: the ticket comes out as two rows of 2 and 1 fields (which
    [_tracTicketMaps] rejects with [_CsvDataError]), while the quoted CR LF
    stays in its field. *)
Example read_table_line_separator :
  read_table example_table =
    ([[[105; 100]; [115]]; [[49]; [97; 0x2028]]; [[98]]; [[50]; [120; 44; 34; 121; 34; 13; 10; 122]]],
     None).
Proof. vm_compute. reflexivity. Qed.

Lemma read_table_cuts_lines_witness :
  exists rows e, read_table (utf8_encode ([49; 44; 97] ++ 0x2028 :: [98; 10])) =
    (split_fields (if 0x2028 =? LF then [49; 44; 97] else [49; 44; 97] ++ [0x2028]) :: rows, e).
Proof.
  apply read_table_cuts_lines;
    [done|apply Forall_line_char; reflexivity|reflexivity|done|vm_compute; reflexivity|
     apply Forall_is_code_point; reflexivity|reflexivity].
Defined.

Lemma read_table_refines_witness :
  read_table example_table =
    rows_of (reader_next cp_width)
      (splitlines [105; 100; 44; 115; 10; 49; 44; 97; 0x2028; 98; 10;
                   50; 44; 34; 120; 44; 34; 34; 121; 34; 34; 13; 10; 122; 34; 10]).
Proof.
  apply read_table_refines; [apply Forall_is_byte; reflexivity|reflexivity|reflexivity].
Defined.

(** An empty line is a record with no field: a blank line at the end of a
    table is a row of 0 columns, which [_tracTicketMaps] rejects. *)
Example read_table_blank_line :
  read_table [97; 44; 98; 10; 10] = ([[[97]; [98]]; []], None).
Proof. reflexivity. Qed.

(** The stream reader decodes in its [consumed] mode: a sequence cut by
    the end of the file is dropped without an error, where
    [unicode(s, "utf-8")] raises. *)
Example read_table_truncated_tail :
  read_table [97; 44; 98; 0xE2; 0x80] = ([[[97]; [98]]], None) /\
  utf8_decode [97; 44; 98; 0xE2; 0x80] = inl (UnicodeDecodeError 3 "unexpected end of data").
Proof. split; reflexivity. Qed.
