(* ===== verification/Config.v ===== *)
(** Config.v: the configuration file and the command line (tratihubis.py
    lines 427-454 and 790-811).

    [main] reads its settings with [config.get(_SECTION, name)] of a
    [ConfigParser.SafeConfigParser] through [_getConfigOption], which turns
    a missing option or section into a [_ConfigError] or a default.  The
    parser belongs to Python's library; its lookup ([get]: the section,
    then [DEFAULT]) and its interpolation of [%(name)s] and [%%] are
    modelled here after Python 2.7's ConfigParser.py, because they decide
    which strings the program receives: a value holding a lone [%] raises,
    a password included.  [_parsedOptions] runs an [optparse] parser with
    the options [-R/--really] and [-v/--verbose] (and optparse's own
    [-h/--help] and [--version]); the parsing of [parse_args] is modelled
    after optparse.py: long options by unique prefix, clusters of short
    options, ["--"] ending the options, positional arguments interspersed.
    [_shortened] cuts a title for the log. *)

From S2P Require Import Prelude PyStr Utf8.

Local Open Scope string_scope.

Definition SECTION : string := "tratihubis".
Definition DEFAULTSECT : string := "DEFAULT".

(** ** ConfigParser *)

(** A parser after [config.read(path)]: the options of [DEFAULT] and of
    each other section, keys already passed through [optionxform]. *)
Record Config := mkConfig {
  cfg_defaults : gmap string string;
  cfg_sections : gmap string (gmap string string)
}.

(** [str.lower()] on ASCII, the [optionxform] of ConfigParser. *)
Definition lower_char (c : Ascii.ascii) : Ascii.ascii :=
  let n := Ascii.nat_of_ascii c in
  if (65 <=? n)%nat && (n <=? 90)%nat then Ascii.ascii_of_nat (n + 32) else c.

Fixpoint lower (s : string) : string :=
  match s with
  | EmptyString => EmptyString
  | String c s' => String (lower_char c) (lower s')
  end.

Definition percent : Ascii.ascii := Ascii.ascii_of_nat 37.
Definition lparen : Ascii.ascii := Ascii.ascii_of_nat 40.
Definition rparen : Ascii.ascii := Ascii.ascii_of_nat 41.

(** [MAX_INTERPOLATION_DEPTH] *)
Definition MAX_INTERPOLATION_DEPTH : nat := 10.

(** Where the scan of [_interpolate_some] stands: in plain text, after a
    [%], inside [%(name], after [%(name)]. *)
Inductive IState := IPlain | IPercent | IName (name : string) | IClose (name : string).

(** ["%" in v] *)
Fixpoint has_percent (s : string) : bool :=
  match s with
  | EmptyString => false
  | String c s' => Ascii.eqb c percent || has_percent s'
  end.

Section Scan.
Variable option section : string.
Variable map : gmap string string.
(** The interpolation of a referenced value one level deeper. *)
Variable deeper : string -> Exc + string.

(** The [while rest:] loop of [_interpolate_some], one character at a
    time; [accum] is the text produced so far. *)
Fixpoint scan (st : IState) (accum rest : string) : Exc + string :=
  match rest, st with
  | EmptyString, IPlain => inr accum
  | EmptyString, IPercent =>
      inl (InterpolationError option section "'%' must be followed by '%' or '('")
  | EmptyString, _ =>
      inl (InterpolationError option section "bad interpolation variable reference")
  | String c rest', IPlain =>
      if Ascii.eqb c percent then scan IPercent accum rest'
      else scan IPlain (accum ++ String c EmptyString) rest'
  | String c rest', IPercent =>
      if Ascii.eqb c percent then scan IPlain (accum ++ String percent EmptyString) rest'
      else if Ascii.eqb c lparen then scan (IName "") accum rest'
      else inl (InterpolationError option section "'%' must be followed by '%' or '('")
  | String c rest', IName name =>
      if Ascii.eqb c rparen then
        if String.eqb name "" then
          inl (InterpolationError option section "bad interpolation variable reference")
        else scan (IClose name) accum rest'
      else scan (IName (name ++ String c EmptyString)) accum rest'
  | String c rest', IClose name =>
      if Ascii.eqb c (Ascii.ascii_of_nat 115) then
        match map !! lower name with
        | None => inl (InterpolationError option section ("missing option " ++ lower name))
        | Some v =>
            if has_percent v then
              match deeper v with
              | inl e => inl e
              | inr v' => scan IPlain (accum ++ v') rest'
              end
            else scan IPlain (accum ++ v) rest'
        end
      else inl (InterpolationError option section "bad interpolation variable reference")
  end.
End Scan.

(** [_interpolate_some(option, accum, rest, section, map, depth)] with
    [left = MAX_INTERPOLATION_DEPTH + 1 - depth] levels still allowed. *)
Fixpoint interpolate_some (left : nat) (option section : string)
    (map : gmap string string) (rest : string) : Exc + string :=
  match left with
  | O => inl (InterpolationError option section "interpolation too deeply recursive")
  | S left' => scan option section map (interpolate_some left' option section map) IPlain "" rest
  end.

(** [SafeConfigParser._interpolate]: depth 1. *)
Definition interpolate (option section : string) (map : gmap string string) (rawval : string)
    : Exc + string :=
  interpolate_some MAX_INTERPOLATION_DEPTH option section map rawval.

(** [ConfigParser.get(section, option)]: the section's options chained
    with [DEFAULT]; a missing section other than [DEFAULT] raises
    [NoSectionError], a missing option [NoOptionError]. *)
Definition config_get (c : Config) (section option : string) : Exc + string :=
  let sectiondict :=
    match cfg_sections c !! section with
    | Some d => inr d
    | None => if String.eqb section DEFAULTSECT then inr ∅ else inl (NoSectionError section)
    end in
  match sectiondict with
  | inl e => inl e
  | inr sd =>
      let d := sd ∪ cfg_defaults c in
      match d !! lower option with
      | None => inl (NoOptionError (lower option) section)
      | Some v => interpolate (lower option) section d v
      end
  end.

(** ** [_getConfigOption] *)

Definition getConfigOption (config : Config) (name : string) (required : bool)
    (defaultValue : option string) : Exc + option string :=
  match config_get config SECTION name with
  | inr v => inr (Some v)
  | inl (NoOptionError _ _) =>
      if required then inl (ConfigError name "config must contain a value for this option")
      else inr defaultValue
  | inl (NoSectionError _) => inl (ConfigError name "config must contain this section")
  | inl e => inl e
  end.

(** [value.replace('%', '%%')]: how a literal value is written in the
    file. *)
Fixpoint escape_percent (s : string) : string :=
  match s with
  | EmptyString => EmptyString
  | String c s' =>
      if Ascii.eqb c percent then String percent (String percent (escape_percent s'))
      else String c (escape_percent s')
  end.

(** ** The command line *)

(** [options]: [really] and [verbose] are [None] unless given, which the
    program reads as false. *)
Record Options := mkOptions { opt_really : bool; opt_verbose : bool }.

Definition no_options : Options := mkOptions false false.

(** The actions of the parser's options: [store_true] into [really] or
    [verbose], and optparse's [help] and [version], which print and call
    [sys.exit(0)]. *)
Inductive OptAction := StoreReally | StoreVerbose | ShowHelp | ShowVersion.

(** [parser.add_option("-R", "--really", ...)],
    [parser.add_option("-v", "--verbose", ...)], and the [--help] and
    [--version] options optparse adds itself. *)
Definition long_opts : list (string * OptAction) :=
  [("--help", ShowHelp); ("--really", StoreReally); ("--verbose", StoreVerbose);
   ("--version", ShowVersion)].

Definition short_opts : list (Ascii.ascii * OptAction) :=
  [(Ascii.ascii_of_nat 104, ShowHelp); (Ascii.ascii_of_nat 82, StoreReally);
   (Ascii.ascii_of_nat 118, StoreVerbose)].

(** [parser.error(msg)]: print the usage and [sys.exit(2)]. *)
Definition parser_error {A} : Exc + A := inl (SystemExit 2).

(** [option.process(...)] *)
Definition take_action (a : OptAction) (o : Options) : Exc + Options :=
  match a with
  | StoreReally => inr (mkOptions true (opt_verbose o))
  | StoreVerbose => inr (mkOptions (opt_really o) true)
  | ShowHelp | ShowVersion => inl (SystemExit 0)
  end.

(** [_match_abbrev(s, wordmap)]: an exact name, else the only name [s]
    is a prefix of; no or several candidates are a [BadOptionError] or an
    [AmbiguousOptionError], which [parse_args] reports by [parser.error]. *)
Definition match_abbrev (s : string) : Exc + OptAction :=
  match list_find (fun p => p.1 = s) long_opts with
  | Some (_, (_, a)) => inr a
  | None =>
      match List.filter (fun p => String.prefix s p.1) long_opts with
      | [(_, a)] => inr a
      | _ => parser_error
      end
  end.

Definition equals_sign : Ascii.ascii := Ascii.ascii_of_nat 61.

(** [arg.split("=", 1)]: the name and, after the first [=], a value. *)
Definition split_value (arg : string) : string * option string := split_once equals_sign arg.

(** [_process_long_opt]: a [store_true], [help] or [version] option
    given a value ([--really=x]) is an error. *)
Definition process_long_opt (arg : string) (o : Options) : Exc + Options :=
  let '(opt, value) := split_value arg in
  match match_abbrev opt with
  | inl e => inl e
  | inr a => match value with Some _ => parser_error | None => take_action a o end
  end.

(** [_process_short_opts]: each letter of a cluster [-Rv] in turn. *)
Fixpoint process_short_opts (chars : string) (o : Options) : Exc + Options :=
  match chars with
  | EmptyString => inr o
  | String ch rest =>
      match list_find (fun p => p.1 = ch) short_opts with
      | None => parser_error
      | Some (_, (_, a)) =>
          match take_action a o with
          | inl e => inl e
          | inr o' => process_short_opts rest o'
          end
      end
  end.

Definition dash : Ascii.ascii := Ascii.ascii_of_nat 45.

(** [_process_args(largs, rargs, values)] with interspersed arguments
    allowed; the result is [(values, largs + rargs)]. *)
Fixpoint process_args (rargs : list string) (o : Options) (largs : list string)
    : Exc + (Options * list string) :=
  match rargs with
  | [] => inr (o, largs)
  | arg :: rest =>
      if String.eqb arg "--" then inr (o, app largs rest)
      else match arg with
        | String c (String c' cs) =>
            if Ascii.eqb c dash then
              if Ascii.eqb c' dash then
                (* arg[0:2] == "--" *)
                match process_long_opt arg o with
                | inl e => inl e
                | inr o' => process_args rest o' largs
                end
              else
                (* arg[:1] == "-" and len(arg) > 1 *)
                match process_short_opts (String c' cs) o with
                | inl e => inl e
                | inr o' => process_args rest o' largs
                end
            else process_args rest o (app largs [arg])
        | _ => process_args rest o (app largs [arg])
        end
  end.

(** [parser.parse_args(arguments)] *)
Definition parse_args (arguments : list string) : Exc + (Options * list string) :=
  process_args arguments no_options [].

(** [_parsedOptions(arguments)]: exactly one positional argument, the
    configuration file.  ([options.verbose] also lowers the log level,
    which only changes what is logged.) *)
Definition parsedOptions (arguments : list string) : Exc + (Options * string) :=
  match parse_args arguments with
  | inl e => inl e
  | inr (options, others) =>
      match others with
      | [] => parser_error
      | [configPath] => inr (options, configPath)
      | _ :: _ :: _ => parser_error
      end
  end.

(** ** What the usage promises of [--really] *)

Fixpoint has_char (c : Ascii.ascii) (s : string) : bool :=
  match s with
  | EmptyString => false
  | String c' s' => Ascii.eqb c' c || has_char c s'
  end.

(** A long option names [--really] when it is at least [--r] and a prefix
    of it: [--r], [--re], ..., [--really]. *)
Definition long_really (arg : string) : bool :=
  String.prefix arg "--really" && (3 <=? String.length arg)%nat.

(** The conversion is real when an argument before any [--] is an
    abbreviation of [--really] or a cluster of short options holding
    [R]. *)
Fixpoint requests_really (args : list string) : bool :=
  match args with
  | [] => false
  | arg :: rest =>
      if String.eqb arg "--" then false
      else match arg with
        | String c (String c' cs) =>
            if Ascii.eqb c dash then
              (if Ascii.eqb c' dash then long_really arg
               else has_char (Ascii.ascii_of_nat 82) (String c' cs)) || requests_really rest
            else requests_really rest
        | _ => requests_really rest
        end
  end.

(** ** [_shortened] *)

(** [_shortened(text)]: 100 characters when the log level is [DEBUG]
    ([--verbose]), else 30, and [...] after a cut.  [text] is a [unicode]
    value: [len] and the slice count its characters. *)
Definition shortened (debug : bool) (text : string) : string :=
  let threshold := if debug then 100%nat else 30%nat in
  if (threshold <? length (code_points text))%nat then unicode_prefix threshold text ++ "..."
  else text.

(** ** Interpolation *)

Section ScanLemmas.
Variable option section : string.
Variable map : gmap string string.
Variable deeper : string -> Exc + string.

Lemma scan_escape acc s :
  scan option section map deeper IPlain acc (escape_percent s) = inr (acc ++ s).
Proof.
  revert acc. induction s as [|c s IH]; intros acc; simpl.
  - by rewrite string_app_nil_r.
  - destruct (Ascii.eqb_spec c percent) as [->|Hc]; simpl.
    + rewrite IH, string_app_assoc. reflexivity.
    + destruct (Ascii.eqb_spec c percent); [done|]. rewrite IH, string_app_assoc. reflexivity.
Qed.

(** The first [%] of the value is followed by neither [%] nor [(]. *)
Lemma scan_lone_percent acc p r :
  has_percent p = false ->
  (r = "" \/ exists c r', r = String c r' /\ c <> percent /\ c <> lparen) ->
  scan option section map deeper IPlain acc (p ++ String percent r) =
    inl (InterpolationError option section "'%' must be followed by '%' or '('").
Proof.
  intros Hp Hr. revert acc. induction p as [|c p IH]; intros acc; simpl in *.
  - destruct Hr as [->|(c & r' & -> & Hc & Hl)]; [done|].
    simpl. by destruct (Ascii.eqb_spec c percent), (Ascii.eqb_spec c lparen).
  - apply orb_false_elim in Hp as [Hc Hp]. rewrite Hc. by apply IH.
Qed.
End ScanLemmas.

Lemma escape_percent_id s : has_percent s = false -> escape_percent s = s.
Proof.
  induction s as [|c s IH]; simpl; [done|]. intros [Hc Hs]%orb_false_elim.
  by rewrite Hc, IH.
Qed.

Lemma interpolate_unfold option section map v :
  interpolate option section map v =
    scan option section map (interpolate_some 9 option section map) IPlain "" v.
Proof. reflexivity. Qed.

Lemma interpolate_escape option section map s :
  interpolate option section map (escape_percent s) = inr s.
Proof. apply scan_escape. Qed.

Lemma lower_SECTION_sections config name :
  config_get config SECTION name =
    match cfg_sections config !! SECTION with
    | None => inl (NoSectionError SECTION)
    | Some sd =>
        match (sd ∪ cfg_defaults config) !! lower name with
        | None => inl (NoOptionError (lower name) SECTION)
        | Some v => interpolate (lower name) SECTION (sd ∪ cfg_defaults config) v
        end
    end.
Proof. unfold config_get. by destruct (cfg_sections config !! SECTION). Qed.

Lemma getConfigOption_no_section config name required defaultValue :
  cfg_sections config !! SECTION = None ->
  getConfigOption config name required defaultValue =
    inl (ConfigError name "config must contain this section").
Proof. intros Hs. unfold getConfigOption. by rewrite lower_SECTION_sections, Hs. Qed.

(** The exceptions of ConfigParser and [_ConfigError]. *)
Definition config_error (e : Exc) : bool :=
  match e with
  | ConfigError _ _ | NoSectionError _ | NoOptionError _ _ | InterpolationError _ _ _ => true
  | _ => false
  end.

(** A result that is a value or an exception of the configuration. *)
Definition raises_config {A} (x : Exc + A) : Prop := forall e, x = inl e -> config_error e = true.

Lemma raises_config_no_exit {A} (x : Exc + A) : raises_config x -> no_exit x.
Proof. intros Hx e He. specialize (Hx e He). by destruct e. Qed.

Lemma raises_config_inr {A} (a : A) : raises_config (inr a).
Proof. done. Qed.

Lemma raises_config_ebind {A B} (x : Exc + A) (k : A -> Exc + B) :
  raises_config x -> (forall a, raises_config (k a)) -> raises_config (ebind x k).
Proof. intros Hx Hk. destruct x as [e|a]; simpl; [intros e' [= <-]; by apply Hx|apply Hk]. Qed.

Lemma scan_raises_config option section map deeper st acc rest :
  (forall v, raises_config (deeper v)) -> raises_config (scan option section map deeper st acc rest).
Proof.
  intros Hd. revert st acc. induction rest as [|ch rest IH]; intros st acc e;
    destruct st; simpl; repeat case_match; simplify_eq; try (intros [= <-]; done);
    first [apply IH | intros [= <-]; by eapply Hd].
Qed.

Lemma interpolate_some_raises_config left option section map v :
  raises_config (interpolate_some left option section map v).
Proof.
  revert v. induction left as [|left IH]; intros v; simpl; [by intros e [= <-]|].
  by apply scan_raises_config.
Qed.

(** Reading the configuration raises only the parser's exceptions. *)
Lemma config_get_raises_config config section option :
  raises_config (config_get config section option).
Proof.
  unfold config_get. intros e. repeat case_match; simplify_eq; try (intros [= <-]; done);
    apply interpolate_some_raises_config.
Qed.

Lemma getConfigOption_raises_config config name required defaultValue :
  raises_config (getConfigOption config name required defaultValue).
Proof.
  unfold getConfigOption. pose proof (config_get_raises_config config SECTION name) as Hc.
  intros e. destruct (config_get _ _ _) as [e'|v]; [|by intros [= <-]].
  destruct e'; try (intros [= <-]; done); try case_match; try (intros [= <-]; done);
    intros [= <-]; by apply Hc.
Qed.

(** Reading the configuration never exits the program. *)
Lemma config_get_no_exit config section option : no_exit (config_get config section option).
Proof. apply raises_config_no_exit, config_get_raises_config. Qed.

Lemma getConfigOption_no_exit config name required defaultValue :
  no_exit (getConfigOption config name required defaultValue).
Proof. apply raises_config_no_exit, getConfigOption_raises_config. Qed.

#[export] Hint Resolve config_get_no_exit getConfigOption_no_exit : trac.

(** C29: [_getConfigOption] on every path.  A configuration without the
    section [tratihubis] raises the [_ConfigError] "config must contain
    this section"; an option the section and [DEFAULT] lack raises the
    [_ConfigError] "config must contain a value" when required and gives
    the default otherwise; a value without [%] is returned as written. *)
Theorem getConfigOption_spec config name required defaultValue :
  (cfg_sections config !! SECTION = None ->
   getConfigOption config name required defaultValue =
     inl (ConfigError name "config must contain this section")) /\
  (forall sd, cfg_sections config !! SECTION = Some sd ->
   (sd ∪ cfg_defaults config) !! lower name = None ->
   getConfigOption config name required defaultValue =
     if required then inl (ConfigError name "config must contain a value for this option")
     else inr defaultValue) /\
  (forall sd v, cfg_sections config !! SECTION = Some sd ->
   (sd ∪ cfg_defaults config) !! lower name = Some v -> has_percent v = false ->
   getConfigOption config name required defaultValue = inr (Some v)).
Proof.
  split_and!; [apply getConfigOption_no_section|..];
    unfold getConfigOption; rewrite lower_SECTION_sections.
  - intros sd -> ->. done.
  - intros sd v -> -> Hv. rewrite <- (escape_percent_id v Hv) at 1.
    by rewrite interpolate_escape.
Qed.

(** C30: the value written in the file with every [%] doubled is read
    back unchanged: [_getConfigOption] undoes [value.replace('%', '%%')]. *)
Theorem getConfigOption_escape_roundtrip config sd name required defaultValue s :
  cfg_sections config !! SECTION = Some sd ->
  (sd ∪ cfg_defaults config) !! lower name = Some (escape_percent s) ->
  getConfigOption config name required defaultValue = inr (Some s).
Proof.
  intros Hs Hv. unfold getConfigOption. rewrite lower_SECTION_sections, Hs, Hv.
  by rewrite interpolate_escape.
Qed.

(** C31: a lone [%] is an error.  A value (a password included) whose
    first [%] is followed by neither [%] nor [(] raises
    SafeConfigParser's [InterpolationSyntaxError], which
    [_getConfigOption] does not catch. *)
Theorem getConfigOption_lone_percent config sd name required defaultValue p r :
  cfg_sections config !! SECTION = Some sd ->
  (sd ∪ cfg_defaults config) !! lower name = Some (p ++ String percent r) ->
  has_percent p = false ->
  (r = "" \/ exists c r', r = String c r' /\ c <> percent /\ c <> lparen) ->
  getConfigOption config name required defaultValue =
    inl (InterpolationError (lower name) SECTION "'%' must be followed by '%' or '('").
Proof.
  intros Hs Hv Hp Hr. unfold getConfigOption. rewrite lower_SECTION_sections, Hs, Hv.
  by rewrite interpolate_unfold, scan_lone_percent.
Qed.

(** ** The command line *)

Lemma take_action_really a o o' :
  take_action a o = inr o' ->
  (a = StoreReally /\ opt_really o' = true) \/ (a = StoreVerbose /\ opt_really o' = opt_really o).
Proof. destruct a; simpl; intros [= <-]; auto. Qed.

Lemma process_short_opts_really chars o o' :
  process_short_opts chars o = inr o' ->
  opt_really o' = opt_really o || has_char (Ascii.ascii_of_nat 82) chars.
Proof.
  revert o. induction chars as [|ch rest IH]; intros o; simpl.
  - intros [= <-]. by rewrite orb_false_r.
  - repeat case_decide; subst; simpl; try done;
      intros Hr; rewrite (IH _ Hr); simpl; by rewrite ?orb_true_r.
Qed.

(** The strings no longer than two that prefix [--really] prefix every
    long option. *)
Lemma prefix_really_short (s : string) :
  String.prefix s "--really" = true -> (String.length s <= 2)%nat ->
  String.prefix s "--help" = true.
Proof.
  intros Hp Hl. rewrite (prefix_substring _ _ Hp).
  destruct (String.length s) as [|[|[|n]]]; [done|done|done|lia].
Qed.

Lemma match_abbrev_really arg a :
  match_abbrev arg = inr a ->
  (a = StoreReally /\ long_really arg = true) \/ (a <> StoreReally /\ long_really arg = false).
Proof.
  unfold match_abbrev, long_really. cbn [list_find long_opts fst snd List.filter].
  repeat case_decide; subst; try (intros [= <-]; simpl; by (left + right)).
  destruct (String.prefix arg "--help") eqn:Eh, (String.prefix arg "--really") eqn:Er,
    (String.prefix arg "--verbose") eqn:Ev, (String.prefix arg "--version") eqn:Ew;
    simpl; try done; intros [= <-]; try (right; done).
  left. split; [done|].
  destruct (String.length arg) as [|[|[|n]]] eqn:El; try done;
    rewrite prefix_really_short in Eh; try done; lia.
Qed.

Lemma process_long_opt_really arg o o' :
  process_long_opt arg o = inr o' -> opt_really o' = opt_really o || long_really arg.
Proof.
  unfold process_long_opt. destruct (split_value arg) as [opt [v|]] eqn:Es.
  - by destruct (match_abbrev opt).
  - apply split_once_none in Es as ->.
    destruct (match_abbrev arg) as [|a] eqn:Em; [done|]. intros Ht.
    destruct (take_action_really _ _ _ Ht) as [[-> ->]|[-> ->]];
      destruct (match_abbrev_really _ _ Em) as [[Ha ->]|[Ha ->]]; try congruence;
      by rewrite ?orb_true_r, ?orb_false_r.
Qed.

Lemma process_args_really args o largs o' others :
  process_args args o largs = inr (o', others) ->
  opt_really o' = opt_really o || requests_really args.
Proof.
  revert o largs. induction args as [|arg rest IH]; intros o largs; cbn [process_args requests_really].
  - intros [= <- _]. by rewrite orb_false_r.
  - destruct (String.eqb_spec arg "--") as [->|Hne]; [intros [= <- _]; by rewrite orb_false_r|].
    destruct arg as [|c [|c' cs]]; try (intros Hr; by apply (IH _ _ Hr)).
    destruct (Ascii.eqb_spec c dash) as [->|Hc].
    + destruct (Ascii.eqb_spec c' dash) as [->|Hc'].
      * destruct (process_long_opt _ o) as [|o1] eqn:El; [done|]. intros Hr.
        rewrite (IH _ _ Hr), (process_long_opt_really _ _ _ El). by rewrite orb_assoc.
      * destruct (process_short_opts _ o) as [|o1] eqn:El; [done|]. intros Hr.
        rewrite (IH _ _ Hr), (process_short_opts_really _ _ _ El). by rewrite orb_assoc.
    + intros Hr. by apply (IH _ _ Hr).
Qed.

(** A command line that does not parse ends the program: optparse's
    [parser.error] raises [SystemExit(2)], [--help] and [--version]
    raise [SystemExit(0)]. *)
Definition optparse_exit (e : Exc) : Prop := e = SystemExit 0 \/ e = SystemExit 2.

Lemma take_action_exit a o e : take_action a o = inl e -> optparse_exit e.
Proof. unfold optparse_exit. destruct a; simpl; intros [= <-]; auto. Qed.

Ltac optparse_exit_cases lemmas :=
  unfold parser_error in *; repeat case_match; simplify_eq; intros He;
  first [injection He as <-; first [by eauto using take_action_exit | unfold optparse_exit; by auto]
        | eauto using lemmas].

Lemma process_short_opts_exit chars o e : process_short_opts chars o = inl e -> optparse_exit e.
Proof.
  revert o. induction chars as [|ch rest IH]; intros o; simpl; [done|].
  optparse_exit_cases take_action_exit.
Qed.

Lemma process_long_opt_exit arg o e : process_long_opt arg o = inl e -> optparse_exit e.
Proof. unfold process_long_opt, match_abbrev. optparse_exit_cases take_action_exit. Qed.

Lemma process_args_exit args o largs e : process_args args o largs = inl e -> optparse_exit e.
Proof.
  revert o largs. induction args as [|arg rest IH]; intros o largs; cbn [process_args]; [done|].
  repeat case_match; simplify_eq; intros He; try discriminate He;
    first [injection He as <-; by eauto using process_long_opt_exit, process_short_opts_exit
          | eauto using process_long_opt_exit, process_short_opts_exit].
Qed.

Lemma parsedOptions_status args e : parsedOptions args = inl e -> optparse_exit e.
Proof.
  unfold parsedOptions, parse_args, parser_error.
  destruct (process_args _ _ _) as [e'|[o [|? [|]]]] eqn:E; intros [= <-];
    [by eapply process_args_exit|unfold optparse_exit; by auto..].
Qed.

Lemma parsedOptions_exit args e : parsedOptions args = inl e -> is_exit e = true.
Proof. intros He. by destruct (parsedOptions_status args e He) as [->| ->]. Qed.

(** the conversion is real only when asked for.  When the command
    line parses, [options.really] is set exactly when an argument before
    any [--] is an abbreviation of [--really] ([--r] at least) or a
    cluster of short options holding [R]. *)
Theorem parsedOptions_really arguments options configPath :
  parsedOptions arguments = inr (options, configPath) ->
  opt_really options = requests_really arguments.
Proof.
  unfold parsedOptions, parse_args. destruct (process_args _ _ _) as [|[o others]] eqn:E; [done|].
  apply process_args_really in E. simpl in E.
  destruct others as [|p [|]]; try done. by intros [= <- _].
Qed.

(** ** [_shortened] *)

(** C32: [_shortened] cuts characters, not bytes.  For a title that is a
    [unicode] value (its bytes decode as UTF-8, with no surrogate pair),
    the result is the title itself when it has at most [threshold]
    characters (30, or 100 at level [DEBUG]); otherwise its characters
    are the first [threshold] characters of the title followed by the
    three dots, [threshold + 3] in all: no character is cut in two. *)
Theorem shortened_bounds (debug : bool) (text : string) cps :
  utf8_decode (bytes_of_string text) = inr cps -> no_pairs cps = true ->
  let threshold := if debug then 100%nat else 30%nat in
  ((length cps <= threshold)%nat -> shortened debug text = text) /\
  ((threshold < length cps)%nat ->
   code_points (shortened debug text) = (take threshold cps ++ [46; 46; 46]%Z)%list /\
   length (code_points (shortened debug text)) = (threshold + 3)%nat).
Proof.
  intros Hd Hp threshold. unfold shortened, unicode_prefix. fold threshold.
  assert (Hc : code_points text = cps) by (unfold code_points; by rewrite Hd). rewrite Hc.
  destruct (Nat.ltb_spec threshold (length cps)) as [Hlt|Hge]; [|split; [done|lia]].
  split; [lia|intros _].
  change "..." with (string_of_bytes [46; 46; 46]%Z).
  rewrite (code_points_prefix_ascii text cps threshold [46; 46; 46]%Z Hd Hp) by (repeat constructor; lia).
  split; [done|]. rewrite length_app, length_take. simpl. lia.
Qed.

(** ** Examples *)

(** [[tratihubis]] with a repository, a password holding a lone [%] and
    a token written [%%]. *)
Definition example_config : Config :=
  mkConfig ∅ {[ SECTION := {[ "repo" := "me/project"; "password" := "50%off";
                              "token" := "a%%b" ]} ]}.

Lemma getConfigOption_spec_witness :
  (cfg_sections example_config !! SECTION = None ->
   getConfigOption example_config "tickets" false (Some "tickets.csv") =
     inl (ConfigError "tickets" "config must contain this section")) /\
  (forall sd, cfg_sections example_config !! SECTION = Some sd ->
   (sd ∪ cfg_defaults example_config) !! lower "tickets" = None ->
   getConfigOption example_config "tickets" false (Some "tickets.csv") =
     if false then inl (ConfigError "tickets" "config must contain a value for this option")
     else inr (Some "tickets.csv")) /\
  (forall sd v, cfg_sections example_config !! SECTION = Some sd ->
   (sd ∪ cfg_defaults example_config) !! lower "tickets" = Some v -> has_percent v = false ->
   getConfigOption example_config "tickets" false (Some "tickets.csv") = inr (Some v)).
Proof. apply getConfigOption_spec. Defined.

Lemma getConfigOption_escape_roundtrip_witness :
  getConfigOption example_config "token" true None = inr (Some "a%b").
Proof.
  apply (getConfigOption_escape_roundtrip _ {[ "repo" := "me/project"; "password" := "50%off";
                                              "token" := "a%%b" ]});
    vm_compute; reflexivity.
Defined.

Lemma getConfigOption_lone_percent_witness :
  getConfigOption example_config "password" true None =
    inl (InterpolationError (lower "password") SECTION "'%' must be followed by '%' or '('").
Proof.
  apply (getConfigOption_lone_percent _ {[ "repo" := "me/project"; "password" := "50%off";
                                          "token" := "a%%b" ]} _ _ _ "50" "off");
    [vm_compute; reflexivity..|right; exists (Ascii.ascii_of_nat 111), "ff"; vm_compute; split_and!; congruence].
Defined.

Lemma parsedOptions_really_witness :
  opt_really (mkOptions true true) = requests_really ["-vR"; "tratihubis.cfg"].
Proof. apply (parsedOptions_really _ _ "tratihubis.cfg"). vm_compute. reflexivity. Defined.

(** A title of forty [e] acute: eighty bytes, forty characters. *)
Definition accented_title : string := string_of_cps (repeat 0xE9%Z 40).

Lemma shortened_bounds_witness :
  let threshold := 30%nat in
  ((length (repeat 0xE9%Z 40) <= threshold)%nat -> shortened false accented_title = accented_title) /\
  ((threshold < length (repeat 0xE9%Z 40))%nat ->
   code_points (shortened false accented_title) = (take threshold (repeat 0xE9%Z 40) ++ [46; 46; 46]%Z)%list /\
   length (code_points (shortened false accented_title)) = (threshold + 3)%nat).
Proof. apply (shortened_bounds false accented_title); vm_compute; reflexivity. Defined.
