(* ===== verification/GitHub.v ===== *)
(** GitHub.v: the GitHub API as the program sees it through PyGithub.

    The program only calls the API (it is not part of src/): list issues
    and milestones, list labels, look a user up, create an issue, a
    milestone or a comment, edit an issue's state, and read the request
    budget ([_hub.rate_limiting], [_hub.rate_limiting_resettime],
    [_hub.get_rate_limit()]).  The class [GitHubApi] states these
    operations; the class [GitHubLaws] states what the migration relies on,
    above all that a created issue receives the number following the
    issues that exist.  [Hub] is an executable model of the service that
    satisfies the laws; it is used to run the migration on examples.

    Every mutating call is recorded in [gh_log] with the time it was
    received, so that properties of the calls GitHub sees (how many, in
    which order, how close in time) are statements about the log. *)

From S2P Require Import Prelude.

#[local] Open Scope Z_scope.

(** Time is counted in microseconds, the resolution of [datetime]. *)
Definition usec : Z := 1000000.

(** PyGithub's [Issue] as far as the program reads it: [number], [title],
    [state] and the comment count [comments]; [body] is kept for the
    reader of the log. *)
Record Issue := mkIssue {
  number : Z;
  title : string;
  body : string;
  state : string;
  comments : nat
}.

Record Milestone := mkMilestone {
  ms_number : Z;
  ms_title : string
}.

(** A mutating request.  [None] for an optional argument is PyGithub's
    [NotSet]. *)
Inductive Call : Type :=
  | CreateIssue (title body : string) (assignee : option string)
      (milestone : option Z) (labels : option (list string))
  | CreateMilestone (title : string)
  | CreateComment (issue : Z) (body : string)
  | EditState (issue : Z) (state : string).

(** GitHub throttles creations (issues, milestones, comments); an edit is
    not a creation. *)
Definition is_creation (c : Call) : bool :=
  match c with EditState _ _ => false | _ => true end.

Definition with_comment (i : Issue) : Issue :=
  mkIssue (number i) (title i) (body i) (state i) (S (comments i)).

Definition with_state (st : string) (i : Issue) : Issue :=
  mkIssue (number i) (title i) (body i) st (comments i).

(** The operations.  Mutating ones take the current time. *)
Class GitHubApi (H : Type) := {
  gh_issues : H -> gmap Z Issue;
  (* [repo.get_milestones(state=...)] *)
  gh_milestones : H -> string -> list Milestone;
  gh_labels : H -> list string;
  gh_get_user : H -> string -> option string;
  gh_create_issue : Z -> H -> string -> string -> option string -> option Z ->
                    option (list string) -> H * Issue;
  gh_create_milestone : Z -> H -> string -> H * Milestone;
  gh_create_comment : Z -> H -> Z -> string -> H;
  gh_edit_state : Z -> H -> Z -> string -> H;
  (* [_hub.rate_limiting]: the requests remaining and the hourly limit *)
  gh_remaining : H -> Z;
  gh_limit : H -> Z;
  gh_resettime : H -> Z;
  gh_get_rate_limit : Z -> H -> H;
  gh_log : H -> list (Z * Call)
}.

(** [LIMIT_BUFFER = 10]: below this many remaining requests the program
    waits for the budget to be reset. *)
Definition LIMIT_BUFFER : Z := 10.

(** What the migration relies on. *)
Class GitHubLaws (H : Type) `{!GitHubApi H} := {
  create_issue_result : forall now h t b a m l,
    snd (gh_create_issue now h t b a m l) =
      mkIssue (Z.of_nat (size (gh_issues h)) + 1) t b "open" 0;
  create_issue_issues : forall now h t b a m l,
    gh_issues (fst (gh_create_issue now h t b a m l)) =
      <[Z.of_nat (size (gh_issues h)) + 1 :=
          mkIssue (Z.of_nat (size (gh_issues h)) + 1) t b "open" 0]> (gh_issues h);
  create_issue_log : forall now h t b a m l,
    gh_log (fst (gh_create_issue now h t b a m l)) =
      gh_log h ++ [(now, CreateIssue t b a m l)];
  create_milestone_issues : forall now h t,
    gh_issues (fst (gh_create_milestone now h t)) = gh_issues h;
  create_milestone_log : forall now h t,
    gh_log (fst (gh_create_milestone now h t)) = gh_log h ++ [(now, CreateMilestone t)];
  create_comment_issues : forall now h n b,
    gh_issues (gh_create_comment now h n b) = alter with_comment n (gh_issues h);
  create_comment_log : forall now h n b,
    gh_log (gh_create_comment now h n b) = gh_log h ++ [(now, CreateComment n b)];
  edit_state_issues : forall now h n st,
    gh_issues (gh_edit_state now h n st) = alter (with_state st) n (gh_issues h);
  edit_state_log : forall now h n st,
    gh_log (gh_edit_state now h n st) = gh_log h ++ [(now, EditState n st)];
  get_rate_limit_issues : forall now h, gh_issues (gh_get_rate_limit now h) = gh_issues h;
  get_rate_limit_labels : forall now h, gh_labels (gh_get_rate_limit now h) = gh_labels h;
  get_rate_limit_log : forall now h, gh_log (gh_get_rate_limit now h) = gh_log h;
  get_rate_limit_reset : forall now h,
    gh_resettime h <= now -> LIMIT_BUFFER <= gh_remaining (gh_get_rate_limit now h);
  (* no request changes which users exist *)
  create_issue_users : forall now h t b a m l,
    gh_get_user (fst (gh_create_issue now h t b a m l)) = gh_get_user h;
  create_milestone_users : forall now h t,
    gh_get_user (fst (gh_create_milestone now h t)) = gh_get_user h;
  create_comment_users : forall now h n b,
    gh_get_user (gh_create_comment now h n b) = gh_get_user h;
  edit_state_users : forall now h n st,
    gh_get_user (gh_edit_state now h n st) = gh_get_user h;
  get_rate_limit_users : forall now h,
    gh_get_user (gh_get_rate_limit now h) = gh_get_user h
}.

(** What [main] asks of the client before the migration:
    [owner.get_repo(name)] finds the repository [owner/name] or raises. *)
Class GitHubRepos (H : Type) := {
  gh_has_repo : H -> string -> string -> bool
}.

(** ** An executable model of the service *)

Module HubModel.

(** GitHub's request budget per hour for an authenticated user. *)
Definition QUOTA : Z := 5000.

Record Hub := mkHub {
  hub_issues : gmap Z Issue;
  hub_milestones : list Milestone;
  hub_labels : list string;
  hub_users : list string;
  hub_remaining : Z;
  hub_resettime : Z;
  hub_log : list (Z * Call)
}.

(** A mutating request consumes one unit of the budget and is logged. *)
Definition record (now : Z) (c : Call) (h : Hub) (issues : gmap Z Issue)
    (ms : list Milestone) : Hub :=
  mkHub issues ms (hub_labels h) (hub_users h) (Z.max 0 (hub_remaining h - 1))
    (hub_resettime h) (hub_log h ++ [(now, c)]).

Definition create_issue now h t b a m l : Hub * Issue :=
  let n := Z.of_nat (size (hub_issues h)) + 1 in
  let i := mkIssue n t b "open" 0 in
  (record now (CreateIssue t b a m l) h (<[n := i]> (hub_issues h)) (hub_milestones h), i).

Definition create_milestone now h t : Hub * Milestone :=
  let ms := mkMilestone (Z.of_nat (length (hub_milestones h)) + 1) t in
  (record now (CreateMilestone t) h (hub_issues h) (hub_milestones h ++ [ms]), ms).

Definition create_comment now h n b : Hub :=
  record now (CreateComment n b) h (alter with_comment n (hub_issues h)) (hub_milestones h).

Definition edit_state now h n st : Hub :=
  record now (EditState n st) h (alter (with_state st) n (hub_issues h)) (hub_milestones h).

(** After the reset time the budget is full again, for another hour. *)
Definition get_rate_limit (now : Z) (h : Hub) : Hub :=
  if hub_resettime h <=? now
  then mkHub (hub_issues h) (hub_milestones h) (hub_labels h) (hub_users h)
         QUOTA (now + 3600 * usec) (hub_log h)
  else h.

Definition get_user (h : Hub) (name : string) : option string :=
  if existsb (String.eqb name) (hub_users h) then Some name else None.

(** The program never closes a milestone: all of them are open. *)
Definition milestones_in (h : Hub) (st : string) : list Milestone :=
  if String.eqb st "open" then hub_milestones h else [].

#[export] Instance hub_api : GitHubApi Hub := {|
  gh_issues := hub_issues;
  gh_milestones := milestones_in;
  gh_labels := hub_labels;
  gh_get_user := get_user;
  gh_create_issue := create_issue;
  gh_create_milestone := create_milestone;
  gh_create_comment := create_comment;
  gh_edit_state := edit_state;
  gh_remaining := hub_remaining;
  gh_limit _ := QUOTA;
  gh_resettime := hub_resettime;
  gh_get_rate_limit := get_rate_limit;
  gh_log := hub_log
|}.

#[export] Instance hub_laws : GitHubLaws Hub.
Proof.
  split; try reflexivity; intros now h; simpl; unfold get_rate_limit;
    destruct (Z.leb_spec (hub_resettime h) now); try reflexivity;
    intros; simpl in *; unfold LIMIT_BUFFER, QUOTA in *; lia.
Qed.

(** The model holds one repository, [project], owned by each of its
    users. *)
Definition REPO_NAME : string := "project".

#[export] Instance hub_repos : GitHubRepos Hub := {|
  gh_has_repo h owner name :=
    existsb (String.eqb owner) (hub_users h) && String.eqb name REPO_NAME
|}.

End HubModel.
