(* ===== verification/Log.v ===== *)
(** Log.v: the log of tratihubis.py.

    The program logs through [_log = logging.getLogger('tratihubis')]
    (line 246) after [logging.basicConfig(level=logging.INFO)] (line
    245): a record of level [INFO] or above is written, a [DEBUG] record
    only after [_parsedOptions] has called [_log.setLevel(logging.DEBUG)]
    for [--verbose] (lines 808-809).  The log is the program's only output
    besides GitHub; nothing in the program reads it back, except that
    [_shortened] looks at [_log.level].

    A record is kept as its level and a [LogMsg]: one constructor per call
    of [_log] in the source, carrying the values the call formats (the
    text around them is fixed by the call).  The process state of Pacing.v
    holds the records written so far, in order ([w_log]), and whether the
    level is [DEBUG] ([w_debug]). *)

From S2P Require Import Prelude PyStr Config GitHub.

Local Open Scope Z_scope.

(** The levels of the [logging] module the program uses. *)
Inductive Level := DEBUG | INFO | WARNING | ERROR.

Definition level_value (l : Level) : Z :=
  match l with DEBUG => 10 | INFO => 20 | WARNING => 30 | ERROR => 40 end.

(** [_log.isEnabledFor(level)]: the root logger's [INFO], or [DEBUG] once
    [_log.setLevel(logging.DEBUG)] was called. *)
Definition level_enabled (debug : bool) (l : Level) : bool :=
  (if debug then 10 else 20) <=? level_value l.

(** The calls of [_log], by line. *)
Inductive LogMsg :=
  (* 335, 339, 341: _buildLabelMap *)
  | AnalyzeLabels
  | FoundLabel (name : string)
  | FoundLabels (count : Z)
  (* 469: _tracTicketMaps *)
  | ReadTicketDetails (path : string)
  (* 526, 529, 532: _createMilestoneMap *)
  | FoundMilestone (number : Z) (title : string)
  | AnalyzeMilestones
  | FoundMilestones (count : Z)
  (* 540, 543, 546: _createIssueMap *)
  | FoundIssue (number : Z) (state title : string)
  | AnalyzeIssues
  | FoundIssues (count : Z)
  (* 554, 579: _createTicketToCommentsMap; the body cut by {body:.30} *)
  | ReadComments (path : string)
  | ImportedComment (id : Z) (body30 : string)
  (* 589, 592: _createTicketsToAttachmentsMap *)
  | AttachmentsPrefixMissing
  | ReadAttachments (path : string)
  (* 644, 650: possiblyAddLabel, labelsFromKeywords *)
  | AddLabel (name : string)
  | AddKeywordLabel (label keywords : string)
  (* 660, 665: the loop of migrateTickets; the title is _shortened *)
  | ContinuingTicket (ticketId : Z) (title : string)
  | ConvertTicket (ticketId : Z) (title : string)
  (* 694, 696: a new milestone, and %r of existingMilestones *)
  | AddMilestone (title : string)
  | MilestoneMap (milestones : list (string * Milestone))
  (* 710: an attachment listed in the body *)
  | AddedAttachment (author : string)
  (* 738: issue #number: owner=...-->assignee; milestone=title (number) *)
  | IssueLogged (number : Z) (owner assignee milestoneTitle : string) (milestoneNumber : Z)
  (* 770: the author and %r of the _shortened comment text *)
  | AddComment (author text : string)
  (* 778 *)
  | CloseIssue
  (* 873: _getGitHubUser *)
  | CheckUser (username : string)
  (* 900, 904: _apiCreationRequestPause; the end of the sleep when it is
     longer than 65 s *)
  | CreationsInLast (count : Z) (periodName : string)
  | Breather (allowed : Z) (periodName : string) (count seconds : Z) (until : option Z)
  (* 921: _apiTotalRequestPause; remaining and limit of _hub.rate_limiting,
     the sleep in microseconds and its end *)
  | RateLimited (remaining limit sleep until : Z)
  (* 971, 972, 974, 982: main *)
  | NoActions
  | LogOn (user : string)
  | ConnectRepo (repoName : string)
  | Connected (owner name : string)
  (* 994: _log.error(error) for EnvironmentError, _ConfigError, _CsvDataError *)
  | ErrorLogged (e : Exc)
  (* 998: _log.exception(error) for any other Exception *)
  | ExceptionLogged (e : Exc)
  (* 1000, 1001: the finally block of main *)
  | TotalIssues (count : Z)
  | TotalCreations (count : Z).

Record LogRecord := mkLogRecord { lr_level : Level; lr_msg : LogMsg }.
