(* ===== verification/Pacing.v ===== *)
(** Pacing.v: the rate limiter of tratihubis.py (lines 881-939).

    The program keeps two deques of [(count, timestamp)] pairs,
    [_lastMinCalls] and [_last40mCalls]; [_apiCreationIncrement] appends
    the same pair to both after every creation.  [_apiCreationRequestPause]
    drops the entries older than the period from the front of a deque
    ([calcCount]) and, while the remaining count reaches the allowance,
    sleeps until the oldest entry leaves the window.
    [_apiTotalRequestPause] sleeps until GitHub's own budget is reset.

    The process-wide state the program keeps in module globals (the
    deques, the clock, the counters [_totalCreations] and [_totalIssues],
    the cache [_validatedGithubUsers]) and the GitHub service form the
    record [World]; time is in microseconds ([usec] per second). *)

From Stdlib Require Import Sorting.Sorted.
From S2P Require Import Prelude PyStr Config GitHub Log.

#[local] Open Scope Z_scope.

(** ** Constants (lines 250-252, 886-887) *)

Definition ALLOWED_PER_MIN : Z := 36.
Definition ALLOWED_PER_HR : Z := 300.
Definition MIN_PERIOD : Z := 62.
Definition HR_PERIOD : Z := 3660.

(** A deque of [(count, timestamp)] pairs, oldest first. *)
Definition Deque := list (Z * Z).

(** ** The process state *)

Record World (H : Type) := mkWorld {
  w_hub : H;
  w_now : Z;
  w_min_calls : Deque;                 (* _lastMinCalls *)
  w_hr_calls : Deque;                  (* _last40mCalls *)
  w_total_creations : Z;               (* _totalCreations *)
  w_total_issues : Z;                  (* _totalIssues *)
  w_validated : gmap string string;    (* _validatedGithubUsers *)
  w_log : list LogRecord;              (* the records _log has written *)
  w_debug : bool                       (* _log.level == logging.DEBUG *)
}.
Arguments mkWorld {H}.
Arguments w_hub {H}.
Arguments w_now {H}.
Arguments w_min_calls {H}.
Arguments w_hr_calls {H}.
Arguments w_total_creations {H}.
Arguments w_total_issues {H}.
Arguments w_validated {H}.
Arguments w_log {H}.
Arguments w_debug {H}.

Section Setters.
Context {H : Type}.
Implicit Types w : World H.

Definition set_hub (h : H) w : World H :=
  mkWorld h (w_now w) (w_min_calls w) (w_hr_calls w) (w_total_creations w)
    (w_total_issues w) (w_validated w) (w_log w) (w_debug w).
Definition set_now (now : Z) w : World H :=
  mkWorld (w_hub w) now (w_min_calls w) (w_hr_calls w) (w_total_creations w)
    (w_total_issues w) (w_validated w) (w_log w) (w_debug w).
Definition set_min_calls (d : Deque) w : World H :=
  mkWorld (w_hub w) (w_now w) d (w_hr_calls w) (w_total_creations w)
    (w_total_issues w) (w_validated w) (w_log w) (w_debug w).
Definition set_hr_calls (d : Deque) w : World H :=
  mkWorld (w_hub w) (w_now w) (w_min_calls w) d (w_total_creations w)
    (w_total_issues w) (w_validated w) (w_log w) (w_debug w).
Definition set_totals (creations issues : Z) w : World H :=
  mkWorld (w_hub w) (w_now w) (w_min_calls w) (w_hr_calls w) creations issues
    (w_validated w) (w_log w) (w_debug w).
Definition set_validated (v : gmap string string) w : World H :=
  mkWorld (w_hub w) (w_now w) (w_min_calls w) (w_hr_calls w) (w_total_creations w)
    (w_total_issues w) v (w_log w) (w_debug w).
Definition set_log (l : list LogRecord) w : World H :=
  mkWorld (w_hub w) (w_now w) (w_min_calls w) (w_hr_calls w) (w_total_creations w)
    (w_total_issues w) (w_validated w) l (w_debug w).
Definition set_debug (b : bool) w : World H :=
  mkWorld (w_hub w) (w_now w) (w_min_calls w) (w_hr_calls w) (w_total_creations w)
    (w_total_issues w) (w_validated w) (w_log w) b.
End Setters.

(** ** One deque: [calcCount] and the sleep loop of [_apiCreationRequestPause] *)

(** [while calls and calls[0][1] < pastPeriod: calls.popleft()] *)
Fixpoint drop_expired (past : Z) (calls : Deque) : Deque :=
  match calls with
  | (c, t) :: rest => if t <? past then drop_expired past rest else calls
  | [] => []
  end.

(** [sum(c[0] for c in calls)] *)
Definition call_count (calls : Deque) : Z :=
  fold_right (fun c acc => fst c + acc) 0 calls.

(** [timedelta.seconds] of a non-negative difference in microseconds: the
    whole seconds, modulo one day. *)
Definition td_seconds (d : Z) : Z := (d / usec) mod 86400.

(** The body of [_apiCreationRequestPause]: [calcCount()], then while the
    count reaches [allowed], sleep [max(3, periodSeconds - since)] seconds
    and count again.  [None] means the fuel ran out; the fuel [pause_fuel]
    is proved enough below. *)
Fixpoint creation_pause_loop (fuel : nat) (allowed period : Z) (now : Z)
    (calls : Deque) : option ((Z * Deque) * (Exc + unit)) :=
  let calls1 := drop_expired (now - period * usec) calls in
  if call_count calls1 <? allowed then Some ((now, calls1), inr tt)
  else match calls1 with
       | [] => Some ((now, calls1), inl IndexError)
       | (_, t0) :: _ =>
           match fuel with
           | O => None
           | S fuel' =>
               let sec := Z.max 3 (period - td_seconds (now - t0)) in
               creation_pause_loop fuel' allowed period (now + sec * usec) calls1
           end
       end.

Definition pause_fuel (calls : Deque) : nat := 2 * length calls.

(** The [BREATHER] records of the same loop: the allowance, the count,
    the sleep, and the time it ends when it is longer than 65 s. *)
Fixpoint breathers (fuel : nat) (allowed period : Z) (periodName : string) (now : Z)
    (calls : Deque) : list LogMsg :=
  let calls1 := drop_expired (now - period * usec) calls in
  if call_count calls1 <? allowed then []
  else match calls1 with
       | [] => []
       | (_, t0) :: _ =>
           match fuel with
           | O => []
           | S fuel' =>
               let sec := Z.max 3 (period - td_seconds (now - t0)) in
               Breather allowed periodName (call_count calls1) sec
                 (if 65 <? sec then Some (now + sec * usec) else None) ::
               breathers fuel' allowed period periodName (now + sec * usec) calls1
           end
       end.

(** ** The process-level operations *)

Inductive Window := MinWindow | HourWindow.

Section Operations.
Context {H : Type} `{!GitHubApi H}.

Definition win_calls (win : Window) (w : World H) : Deque :=
  match win with MinWindow => w_min_calls w | HourWindow => w_hr_calls w end.

Definition set_win_calls (win : Window) (d : Deque) (w : World H) : World H :=
  match win with MinWindow => set_min_calls d w | HourWindow => set_hr_calls d w end.

(** The [periodName] [_apiPauseIfNeeded] passes with each deque. *)
Definition period_name (win : Window) : string :=
  match win with MinWindow => "min" | HourWindow => "hour" end.

(** [_log.<level>(...)] of each message, written when the level is enabled. *)
Definition write_log (lvl : Level) (msgs : list LogMsg) (w : World H) : World H :=
  set_log (w_log w ++ if level_enabled (w_debug w) lvl then map (mkLogRecord lvl) msgs else []) w.

Definition emit (lvl : Level) (msg : LogMsg) : ST (World H) unit :=
  smodify (write_log lvl [msg]).

(** A record whose text depends on [_log.level] (through [_shortened]). *)
Definition emit_at (lvl : Level) (f : bool -> LogMsg) : ST (World H) unit :=
  smodify (fun w => write_log lvl [f (w_debug w)] w).

(** The records [_apiCreationRequestPause] writes: the count of the
    window, then a [BREATHER] for each sleep. *)
Definition creation_pause_log (win : Window) (allowed period : Z) (w : World H) : World H :=
  let calls := win_calls win w in
  write_log INFO
    (CreationsInLast (call_count (drop_expired (w_now w - period * usec) calls)) (period_name win) ::
     breathers (pause_fuel calls) allowed period (period_name win) (w_now w) calls) w.

(** [_apiCreationRequestPause(calls, allowed, periodSeconds, periodName)] *)
Definition apiCreationRequestPause (win : Window) (allowed period : Z)
    : ST (World H) unit :=
  fun w =>
    let calls := win_calls win w in
    let w1 := creation_pause_log win allowed period w in
    match creation_pause_loop (pause_fuel calls) allowed period (w_now w) calls with
    | Some ((now', calls'), r) => (set_win_calls win calls' (set_now now' w1), r)
    | None => (w1, inr tt)
    end.

(** The loop of [_apiTotalRequestPause]: while fewer than [LIMIT_BUFFER]
    requests remain, sleep [max(15, resettime - now)] seconds and query
    the budget again. *)
Fixpoint total_pause_loop (fuel : nat) (now : Z) (h : H) : option (Z * H) :=
  if gh_remaining h <? LIMIT_BUFFER then
    match fuel with
    | O => None
    | S fuel' =>
        let now' := now + Z.max (15 * usec) (gh_resettime h - now) in
        total_pause_loop fuel' now' (gh_get_rate_limit now' h)
    end
  else Some (now, h).

(** The records of the same loop: [_hub.rate_limiting], the sleep and
    its end. *)
Fixpoint rate_limited (fuel : nat) (now : Z) (h : H) : list LogMsg :=
  if gh_remaining h <? LIMIT_BUFFER then
    match fuel with
    | O => []
    | S fuel' =>
        let sleep := Z.max (15 * usec) (gh_resettime h - now) in
        RateLimited (gh_remaining h) (gh_limit h) sleep (now + sleep) ::
        rate_limited fuel' (now + sleep) (gh_get_rate_limit (now + sleep) h)
    end
  else [].

Definition apiTotalRequestPause : ST (World H) unit :=
  fun w =>
    let w1 := write_log INFO (rate_limited 1 (w_now w) (w_hub w)) w in
    match total_pause_loop 1 (w_now w) (w_hub w) with
    | Some (now', h') => (set_hub h' (set_now now' w1), inr tt)
    | None => (w1, inr tt)
    end.

(** [_apiPauseIfNeeded(iscreation)] *)
Definition apiPauseIfNeeded (iscreation : bool) : ST (World H) unit :=
  swhen iscreation
    (apiCreationRequestPause MinWindow ALLOWED_PER_MIN MIN_PERIOD ;;
     apiCreationRequestPause HourWindow ALLOWED_PER_HR HR_PERIOD) ;;
  apiTotalRequestPause.

(** [_apiCreationIncrement(cnt=1)] *)
Definition apiCreationIncrement : ST (World H) unit :=
  smodify (fun w =>
    let call := (1, w_now w) in
    set_totals (w_total_creations w + 1) (w_total_issues w)
      (set_hr_calls (w_hr_calls w ++ [call])
         (set_min_calls (w_min_calls w ++ [call]) w))).
End Operations.

(** ** Lemmas on [drop_expired] *)

Lemma drop_expired_suffix past calls :
  exists pre, calls = pre ++ drop_expired past calls /\
              Forall (fun c => snd c < past) pre.
Proof.
  induction calls as [|[c t] rest IH]; simpl; [by exists []|].
  destruct (Z.ltb_spec t past).
  - destruct IH as (pre & Heq & Hpre). exists ((c, t) :: pre).
    split; [simpl; by f_equal|by constructor].
  - by exists [].
Qed.

Lemma drop_expired_head past calls c t rest :
  drop_expired past calls = (c, t) :: rest -> past <= t.
Proof.
  induction calls as [|[c' t'] calls IH]; simpl; [done|].
  destruct (Z.ltb_spec t' past); [done|]. intros [= -> -> ->]. done.
Qed.

Lemma drop_expired_keep past c t rest :
  past <= t -> drop_expired past ((c, t) :: rest) = (c, t) :: rest.
Proof. intros Hle. simpl. destruct (Z.ltb_spec t past); [lia|done]. Qed.

Lemma drop_expired_pop past c t rest :
  t < past -> drop_expired past ((c, t) :: rest) = drop_expired past rest.
Proof. intros Hlt. simpl. destruct (Z.ltb_spec t past); [done|lia]. Qed.

Lemma length_drop_expired past calls :
  (length (drop_expired past calls) <= length calls)%nat.
Proof.
  destruct (drop_expired_suffix past calls) as (pre & Heq & _).
  rewrite Heq at 2. rewrite length_app. lia.
Qed.

Lemma Forall_suffix {A} (P : A -> Prop) pre l :
  Forall P (pre ++ l) -> Forall P l.
Proof. rewrite Forall_app. tauto. Qed.

Lemma Forall_drop_expired (P : Z * Z -> Prop) past calls :
  Forall P calls -> Forall P (drop_expired past calls).
Proof.
  destruct (drop_expired_suffix past calls) as (pre & Heq & _).
  rewrite Heq at 1. apply Forall_suffix.
Qed.

#[export] Hint Resolve Forall_drop_expired length_drop_expired : trac.

(** ** Termination of the sleep loop of [_apiCreationRequestPause]

    Each sleep lasts at least until the oldest entry of the window is
    [period] seconds old, so the next count drops it, except when it is
    exactly [period] seconds old: [pastPeriod] is compared with a strict
    [<], and the loop sleeps three more seconds.  The measure counts two
    sleeps per entry, one less when the oldest entry sits on the boundary. *)
Definition pause_measure (period now : Z) (calls : Deque) : nat :=
  match drop_expired (now - period * usec) calls with
  | [] => 0
  | ((_, t0) :: _) as c1 =>
      (2 * length c1 - (if (t0 + period * usec <=? now)%Z then 1 else 0))%nat
  end.


Lemma pause_measure_le period now calls :
  (pause_measure period now calls <= 2 * length (drop_expired (now - period * usec) calls))%nat.
Proof.
  unfold pause_measure. destruct (drop_expired _ _) as [|[c t] r]; [simpl; lia|].
  destruct (_ <=? _)%Z; lia.
Qed.

Lemma pause_measure_pos period now calls c t r :
  drop_expired (now - period * usec) calls = (c, t) :: r ->
  (1 <= pause_measure period now calls)%nat.
Proof. unfold pause_measure. intros ->. destruct (_ <=? _)%Z; simpl; lia. Qed.

(** One sleep strictly decreases the measure. *)
Lemma pause_step_decreases period now calls c t0 r :
  0 <= period < 86400 -> Forall (fun e => snd e <= now) calls ->
  drop_expired (now - period * usec) calls = (c, t0) :: r ->
  (pause_measure period (now + Z.max 3 (period - td_seconds (now - t0)) * usec)
     ((c, t0) :: r) < pause_measure period now calls)%nat.
Proof.
  intros HP Hall Hdrop.
  pose proof (drop_expired_head _ _ _ _ _ Hdrop) as Hlo.
  pose proof (Forall_drop_expired _ (now - period * usec) _ Hall) as Hall1.
  rewrite Hdrop in Hall1. apply Forall_cons_1 in Hall1 as [Hhi _]. simpl in Hhi.
  assert (Hs : td_seconds (now - t0) = (now - t0) / usec).
  { unfold td_seconds. apply Z.mod_small. split; [apply Z.div_pos; unfold usec; lia|].
    apply Z.div_lt_upper_bound; unfold usec in *; lia. }
  rewrite Hs. pose proof (Z.mod_pos_bound (now - t0) usec) as Hmb.
  pose proof (Z.div_mod (now - t0) usec) as Hdm.
  set (s := (now - t0) / usec) in *.
  set (now' := now + Z.max 3 (period - s) * usec).
  assert (Hnow' : t0 + period * usec <= now') by (subst now'; unfold usec in *; lia).
  unfold pause_measure at 2. rewrite Hdrop.
  destruct (Z.ltb_spec t0 (now' - period * usec)) as [Hpop|Hkeep].
  - pose proof (pause_measure_le period now' ((c, t0) :: r)) as Hle.
    rewrite drop_expired_pop in Hle by done.
    pose proof (length_drop_expired (now' - period * usec) r).
    simpl in *. destruct (_ <=? _)%Z; lia.
  - unfold pause_measure. rewrite drop_expired_keep by done.
    destruct (Z.leb_spec (t0 + period * usec) now'); [|lia].
    destruct (Z.leb_spec (t0 + period * usec) now); [|simpl; lia].
    exfalso. assert (s = period) by (unfold usec in *; lia).
    subst now'. unfold usec in *. lia.
Qed.

(** The loop returns, and what it returns: the clock only moves forward,
    the deque left is the window minus a prefix of entries that are older
    than the period at the time of return, and its count is below the
    allowance. *)
Lemma creation_pause_loop_spec fuel allowed period now calls :
  1 <= allowed -> 0 <= period < 86400 -> Forall (fun e => snd e <= now) calls ->
  (pause_measure period now calls <= fuel)%nat ->
  exists now' calls' pre,
    creation_pause_loop fuel allowed period now calls = Some ((now', calls'), inr tt) /\
    call_count calls' < allowed /\ now <= now' /\
    drop_expired (now - period * usec) calls = pre ++ calls' /\
    Forall (fun e => snd e < now' - period * usec) pre.
Proof.
  intros Ha HP. revert now calls.
  induction fuel as [|fuel IH]; intros now calls Hall Hm; simpl;
    destruct (Z.ltb_spec (call_count (drop_expired (now - period * usec) calls)) allowed)
      as [Hlt|Hge]; try by eexists _, _, []; eauto with lia.
  all: destruct (drop_expired (now - period * usec) calls) as [|[c t0] r] eqn:Hdrop;
    [simpl in Hge; lia|].
  - pose proof (pause_measure_pos _ _ _ _ _ _ Hdrop). lia.
  - pose proof (pause_step_decreases _ _ _ _ _ _ HP Hall Hdrop) as Hdec.
    set (now1 := now + Z.max 3 (period - td_seconds (now - t0)) * usec) in *.
    assert (Hle : now <= now1) by (subst now1; unfold usec; lia).
    destruct (IH now1 ((c, t0) :: r)) as (now' & calls' & pre & Hrun & Hcnt & Hmono & Hsplit & Hpre).
    { pose proof (Forall_drop_expired _ (now - period * usec) _ Hall) as Hall1.
      rewrite Hdrop in Hall1. eapply Forall_impl; [exact Hall1|]. simpl. lia. }
    { lia. }
    destruct (drop_expired_suffix (now1 - period * usec) ((c, t0) :: r)) as (pre0 & Heq0 & Hpre0).
    exists now', calls', (pre0 ++ pre). repeat split; [done|done|lia| |].
    + rewrite Heq0, Hsplit. by rewrite app_assoc.
    + apply Forall_app. split; [|done].
      eapply Forall_impl; [exact Hpre0|]. simpl. lia.
Qed.

Lemma pause_measure_fuel period now calls :
  (pause_measure period now calls <= pause_fuel calls)%nat.
Proof.
  pose proof (pause_measure_le period now calls).
  pose proof (length_drop_expired (now - period * usec) calls).
  unfold pause_fuel. lia.
Qed.

Section PauseTheorems.
Context {H : Type} `{!GitHubApi H}.
Implicit Types w : World H.

Lemma win_calls_set win d w : win_calls win (set_win_calls win d w) = d.
Proof. by destruct win. Qed.

(** ** Writing the log *)

Lemma emit_run lvl msg w : emit lvl msg w = (write_log lvl [msg] w, inr tt).
Proof. reflexivity. Qed.

Lemma write_log_nil lvl w : write_log lvl [] w = w.
Proof. destruct w. unfold write_log, set_log. simpl. destruct (level_enabled _ _); simpl; by rewrite app_nil_r. Qed.

Lemma write_log_app lvl l1 l2 w : write_log lvl l2 (write_log lvl l1 w) = write_log lvl (l1 ++ l2) w.
Proof.
  unfold write_log, set_log. simpl.
  destruct (level_enabled _ _); simpl; [by rewrite map_app, app_assoc|by rewrite !app_nil_r].
Qed.

(** A loop of [_log] calls, one per element. *)
Lemma sfor_emit {A} lvl (f : A -> LogMsg) (l : list A) w :
  sfor l (fun x => emit lvl (f x)) w = (write_log lvl (map f l) w, inr tt).
Proof.
  revert w. induction l as [|x l IH]; intros w; simpl; [by rewrite write_log_nil|].
  unfold sbind. rewrite emit_run, IH, write_log_app. done.
Qed.

Lemma sfor_emit_msgs lvl (l : list LogMsg) w : sfor l (emit lvl) w = (write_log lvl l w, inr tt).
Proof. rewrite <- (map_id l) at 2. exact (sfor_emit lvl id l w). Qed.

Lemma w_now_set_win win d w : w_now (set_win_calls win d w) = w_now w.
Proof. by destruct win. Qed.

Lemma w_hub_set_win win d w : w_hub (set_win_calls win d w) = w_hub w.
Proof. by destruct win. Qed.

(** The loop inside [apiCreationRequestPause] never runs out of fuel. *)
Lemma apiCreationRequestPause_run win allowed period w :
  1 <= allowed -> 0 <= period < 86400 ->
  Forall (fun e => snd e <= w_now w) (win_calls win w) ->
  exists now' calls' pre,
    apiCreationRequestPause win allowed period w =
      (set_win_calls win calls' (set_now now' (creation_pause_log win allowed period w)), inr tt) /\
    call_count calls' < allowed /\ w_now w <= now' /\
    drop_expired (w_now w - period * usec) (win_calls win w) = pre ++ calls' /\
    Forall (fun e => snd e < now' - period * usec) pre.
Proof.
  intros Ha HP Hall.
  destruct (creation_pause_loop_spec (pause_fuel (win_calls win w)) allowed period
              (w_now w) (win_calls win w) Ha HP Hall (pause_measure_fuel _ _ _))
    as (now' & calls' & pre & Hrun & Hrest).
  exists now', calls', pre. unfold apiCreationRequestPause. by rewrite Hrun.
Qed.

(** C14: [_apiCreationRequestPause] returns (it raises nothing and
    its sleep loop ends), the clock has not gone back, and the calls of
    the window at the time of return number fewer than [allowed]. *)
Theorem apiCreationRequestPause_below_allowance win allowed period w :
  1 <= allowed -> 0 <= period < 86400 ->
  Forall (fun e => snd e <= w_now w) (win_calls win w) ->
  snd (apiCreationRequestPause win allowed period w) = inr tt /\
  call_count (win_calls win (fst (apiCreationRequestPause win allowed period w))) < allowed /\
  w_now w <= w_now (fst (apiCreationRequestPause win allowed period w)) /\
  w_hub (fst (apiCreationRequestPause win allowed period w)) = w_hub w.
Proof.
  intros Ha HP Hall.
  destruct (apiCreationRequestPause_run win allowed period w Ha HP Hall)
    as (now' & calls' & pre & -> & Hcnt & Hle & _).
  simpl. rewrite win_calls_set, w_now_set_win, w_hub_set_win. done.
Qed.

(** C20: A creation pause whose window holds [allowed] calls or more returns
    only once the oldest call of the window is more than [period]
    seconds old. *)
Theorem apiCreationRequestPause_waits win allowed period w c t0 rest :
  1 <= allowed -> 0 <= period < 86400 ->
  Forall (fun e => snd e <= w_now w) (win_calls win w) ->
  drop_expired (w_now w - period * usec) (win_calls win w) = (c, t0) :: rest ->
  allowed <= call_count ((c, t0) :: rest) ->
  t0 + period * usec < w_now (fst (apiCreationRequestPause win allowed period w)).
Proof.
  intros Ha HP Hall Hdrop Hge.
  destruct (apiCreationRequestPause_run win allowed period w Ha HP Hall)
    as (now' & calls' & pre & -> & Hcnt & _ & Hsplit & Hpre).
  simpl. rewrite w_now_set_win. simpl.
  rewrite Hdrop in Hsplit. destruct pre as [|p pre]; simpl in Hsplit.
  - subst calls'. lia.
  - injection Hsplit as <- _. apply Forall_cons_1 in Hpre as [Hp _]. simpl in Hp. lia.
Qed.

Context `{!GitHubLaws H}.

(** C21: [_apiTotalRequestPause] returns with at least
    [LIMIT_BUFFER] requests left, and neither the issues nor the calls
    GitHub received change. *)
Theorem apiTotalRequestPause_restores_budget w :
  snd (apiTotalRequestPause w) = inr tt /\
  LIMIT_BUFFER <= gh_remaining (w_hub (fst (apiTotalRequestPause w))) /\
  gh_issues (w_hub (fst (apiTotalRequestPause w))) = gh_issues (w_hub w) /\
  gh_log (w_hub (fst (apiTotalRequestPause w))) = gh_log (w_hub w) /\
  w_now w <= w_now (fst (apiTotalRequestPause w)).
Proof.
  unfold apiTotalRequestPause. simpl.
  destruct (Z.ltb_spec (gh_remaining (w_hub w)) LIMIT_BUFFER) as [Hlow|Hok]; simpl.
  - set (now' := w_now w + Z.max (15 * usec) (gh_resettime (w_hub w) - w_now w)).
    pose proof (get_rate_limit_reset now' (w_hub w)) as Hreset.
    destruct (Z.ltb_spec (gh_remaining (gh_get_rate_limit now' (w_hub w))) LIMIT_BUFFER);
      [subst now'; lia|]. simpl.
    rewrite get_rate_limit_issues, get_rate_limit_log.
    repeat split; try reflexivity; [lia|subst now'; unfold usec; lia].
  - repeat split; try reflexivity; lia.
Qed.
End PauseTheorems.

(** ** What a pause changes

    A pause only sleeps and refreshes the request budget: any property of
    the service that refreshing keeps is kept, and with a positive
    allowance it raises nothing. *)

Lemma creation_pause_loop_no_raise fuel allowed period now calls r :
  1 <= allowed -> creation_pause_loop fuel allowed period now calls = Some r ->
  snd r = inr tt.
Proof.
  intros Ha. revert now calls.
  induction fuel as [|fuel IH]; intros now calls; simpl;
    destruct (Z.ltb_spec (call_count (drop_expired (now - period * usec) calls)) allowed);
    try (intros [= <-]; done);
    destruct (drop_expired _ calls) as [|[c t0] rest]; simpl in *; try lia; try done.
  apply IH.
Qed.

Section PauseFrame.
Context {H : Type} `{!GitHubApi H}.
Implicit Types w : World H.

Lemma apiCreationRequestPause_frame win allowed period w :
  w_hub (fst (apiCreationRequestPause win allowed period w)) = w_hub w /\
  w_validated (fst (apiCreationRequestPause win allowed period w)) = w_validated w /\
  w_total_creations (fst (apiCreationRequestPause win allowed period w)) = w_total_creations w /\
  w_total_issues (fst (apiCreationRequestPause win allowed period w)) = w_total_issues w.
Proof.
  unfold apiCreationRequestPause.
  destruct (creation_pause_loop _ _ _ _ _) as [[[now' calls'] r]|]; [|done].
  by destruct win.
Qed.

Lemma apiCreationRequestPause_no_raise win allowed period w :
  1 <= allowed -> snd (apiCreationRequestPause win allowed period w) = inr tt.
Proof.
  intros Ha. unfold apiCreationRequestPause.
  destruct (creation_pause_loop _ _ _ _ _) as [[[now' calls'] r]|] eqn:E; [|done].
  apply (creation_pause_loop_no_raise _ _ _ _ _ _ Ha E).
Qed.

Lemma total_pause_loop_frame (P : H -> Prop) fuel now h now' h' :
  (forall t h0, P h0 -> P (gh_get_rate_limit t h0)) ->
  total_pause_loop fuel now h = Some (now', h') -> P h -> P h'.
Proof.
  intros HP. revert now h. induction fuel as [|fuel IH]; intros now h; simpl;
    destruct (_ <? _); try (intros [= _ <-]; done); try done.
  intros Hrun Hh. eapply IH; [exact Hrun|]. by apply HP.
Qed.

(** [_apiPauseIfNeeded] raises nothing, keeps every property of the
    service that refreshing the budget keeps, and touches neither the
    user cache nor the totals. *)
Lemma apiPauseIfNeeded_frame (P : H -> Prop) b w :
  (forall t h0, P h0 -> P (gh_get_rate_limit t h0)) -> P (w_hub w) ->
  snd (apiPauseIfNeeded b w) = inr tt /\
  P (w_hub (fst (apiPauseIfNeeded b w))) /\
  w_validated (fst (apiPauseIfNeeded b w)) = w_validated w /\
  w_total_creations (fst (apiPauseIfNeeded b w)) = w_total_creations w /\
  w_total_issues (fst (apiPauseIfNeeded b w)) = w_total_issues w.
Proof.
  intros HP Hw. unfold apiPauseIfNeeded.
  set (pre := swhen b _).
  assert (Hpre : snd (pre w) = inr tt /\ w_hub (fst (pre w)) = w_hub w /\
                 w_validated (fst (pre w)) = w_validated w /\
                 w_total_creations (fst (pre w)) = w_total_creations w /\
                 w_total_issues (fst (pre w)) = w_total_issues w).
  { subst pre. destruct b; simpl; [|done].
    unfold sbind.
    destruct (apiCreationRequestPause_frame MinWindow ALLOWED_PER_MIN MIN_PERIOD w) as (H1 & H2 & H3 & H4).
    pose proof (apiCreationRequestPause_no_raise MinWindow ALLOWED_PER_MIN MIN_PERIOD w) as Hr.
    destruct (apiCreationRequestPause MinWindow ALLOWED_PER_MIN MIN_PERIOD w) as [w1 r1].
    simpl in *. rewrite Hr by (unfold ALLOWED_PER_MIN; lia).
    destruct (apiCreationRequestPause_frame HourWindow ALLOWED_PER_HR HR_PERIOD w1) as (H5 & H6 & H7 & H8).
    pose proof (apiCreationRequestPause_no_raise HourWindow ALLOWED_PER_HR HR_PERIOD w1) as Hr'.
    specialize (Hr' ltac:(unfold ALLOWED_PER_HR; lia)).
    destruct (apiCreationRequestPause HourWindow ALLOWED_PER_HR HR_PERIOD w1) as [w2 r2].
    simpl in *. subst r2. simpl. repeat split; congruence. }
  unfold sbind. destruct (pre w) as [w1 r1]. simpl in Hpre.
  destruct Hpre as (-> & Hh & Hv & Hc & Hi).
  unfold apiTotalRequestPause.
  destruct (total_pause_loop 1 (w_now w1) (w_hub w1)) as [[now' h']|] eqn:E; simpl.
  - repeat split; try congruence. eapply total_pause_loop_frame; [exact HP|exact E|].
    by rewrite Hh.
  - repeat split; try congruence.
Qed.
End PauseFrame.

(** ** The windows at each creation

    [window_ok now calls]: every call of a deque counts a non-negative
    number of creations and is stamped no later than [now].  A creation
    request is [_apiPauseIfNeeded(True)] followed, after the request, by
    [_apiCreationIncrement()]; the theorem below says that at that moment
    the creations of the last [MIN_PERIOD] seconds, this one included,
    are at most [ALLOWED_PER_MIN], and those of the last [HR_PERIOD]
    seconds at most [ALLOWED_PER_HR]. *)

Definition window_ok (now : Z) (calls : Deque) : Prop :=
  Forall (fun e => 0 <= fst e /\ snd e <= now) calls.

Definition clock_ok {H} (w : World H) : Prop :=
  window_ok (w_now w) (w_min_calls w) /\ window_ok (w_now w) (w_hr_calls w).

Lemma window_ok_mono now now' calls : now <= now' -> window_ok now calls -> window_ok now' calls.
Proof. intros Hle Hw. eapply Forall_impl; [exact Hw|]. intros e [? ?]. lia. Qed.

Lemma window_ok_stamps now calls : window_ok now calls -> Forall (fun e => snd e <= now) calls.
Proof. intros Hw. eapply Forall_impl; [exact Hw|]. intros e [_ ?]. done. Qed.

Lemma call_count_app a b : call_count (a ++ b) = call_count a + call_count b.
Proof. induction a as [|x a IH]; simpl; [done|]. rewrite IH. lia. Qed.

Lemma call_count_drop_expired_le now past calls :
  window_ok now calls -> call_count (drop_expired past calls) <= call_count calls.
Proof.
  intros Hw. destruct (drop_expired_suffix past calls) as (pre & Heq & _).
  rewrite Heq in Hw. rewrite Heq at 2. rewrite call_count_app.
  apply Forall_app in Hw as [Hpre _].
  enough (0 <= call_count pre) by lia.
  clear Heq. induction Hpre as [|e pre [He _] _ IH]; unfold call_count in *; simpl; lia.
Qed.

Lemma total_pause_loop_now `{!GitHubApi H} fuel now h now' h' :
  total_pause_loop fuel now h = Some (now', h') -> now <= now'.
Proof.
  revert now h. induction fuel as [|fuel IH]; intros now h; simpl;
    destruct (_ <? _); try (intros [= <- _]; lia); try done.
  intros E. apply IH in E. unfold usec in E. lia.
Qed.

Section Windows.
Context {H : Type} `{!GitHubApi H}.
Implicit Types w : World H.

Lemma win_calls_other win win' d w :
  win' <> win -> win_calls win' (set_win_calls win d w) = win_calls win' w.
Proof. destruct win, win'; done. Qed.

Lemma creation_pause_window win allowed period w :
  1 <= allowed -> 0 <= period < 86400 -> window_ok (w_now w) (win_calls win w) ->
  exists w', apiCreationRequestPause win allowed period w = (w', inr tt) /\
    call_count (win_calls win w') < allowed /\ window_ok (w_now w') (win_calls win w') /\
    w_now w <= w_now w' /\ (forall win', win' <> win -> win_calls win' w' = win_calls win' w).
Proof.
  intros Ha HP Hw.
  destruct (apiCreationRequestPause_run win allowed period w Ha HP (window_ok_stamps _ _ Hw))
    as (now' & calls' & pre & -> & Hcnt & Hle & Hsplit & _).
  eexists. split; [reflexivity|]. rewrite win_calls_set, w_now_set_win. simpl.
  split_and!; [done| |done|].
  - apply (window_ok_mono (w_now w)); [done|].
    apply (Forall_suffix _ pre). rewrite <- Hsplit. by apply Forall_drop_expired.
  - intros win' Hne. rewrite win_calls_other by done. by destruct win'.
Qed.

Lemma total_pause_windows w :
  exists w', apiTotalRequestPause w = (w', inr tt) /\ w_now w <= w_now w' /\
    w_min_calls w' = w_min_calls w /\ w_hr_calls w' = w_hr_calls w.
Proof.
  unfold apiTotalRequestPause.
  destruct (total_pause_loop 1 (w_now w) (w_hub w)) as [[now' h']|] eqn:E.
  - apply total_pause_loop_now in E. eexists. split_and!; [reflexivity|simpl; lia|done|done].
  - eexists. split_and!; [reflexivity|simpl; lia|done|done].
Qed.

End Windows.

(** ** What [calcCount] counts

    The deques are appended to with the current time, so they are sorted
    by time stamp; on a sorted deque the [popleft] loop keeps exactly the
    calls stamped at or after [pastPeriod]. *)

Definition stamps_sorted (calls : Deque) : Prop := StronglySorted (fun a b => snd a <= snd b) calls.

(** C24: on a deque sorted by time, [drop_expired] (the [popleft] loop of
    [calcCount]) keeps exactly the calls no older than [pastPeriod]. *)
Theorem drop_expired_filter past calls :
  stamps_sorted calls -> drop_expired past calls = List.filter (fun c => past <=? snd c) calls.
Proof.
  induction 1 as [|[c t] rest Hs IH Hall]; simpl; [done|].
  destruct (Z.ltb_spec t past) as [Hlt|Hge].
  - rewrite (proj2 (Z.leb_gt _ _) Hlt). exact IH.
  - rewrite (proj2 (Z.leb_le _ _) Hge). f_equal. symmetry. apply forallb_filter_id.
    apply forallb_forall. intros [c' t'] Hin. apply Z.leb_le.
    apply (proj1 (List.Forall_forall _ _) Hall) in Hin. simpl in *. lia.
Qed.

Lemma stamps_sorted_suffix pre calls : stamps_sorted (pre ++ calls) -> stamps_sorted calls.
Proof. induction pre as [|x pre IH]; simpl; [done|]. intros Hs. inversion Hs. auto. Qed.

Lemma stamps_sorted_snoc now calls c :
  stamps_sorted calls -> Forall (fun e => snd e <= now) calls -> stamps_sorted (calls ++ [(c, now)]).
Proof.
  induction 1 as [|x rest Hs IH Hall]; intros Hle; simpl.
  - repeat constructor.
  - apply Forall_cons_1 in Hle as [Hx Hle]. constructor; [by apply IH|].
    apply Forall_app. split; [done|]. by repeat constructor.
Qed.

(** ** Examples *)

Definition hub_empty : HubModel.Hub := HubModel.mkHub ∅ [] [] [] HubModel.QUOTA 0 [].

(** The spec's scenario: at most 2 calls per 60 s, calls at 0 s and 1 s,
    a third creation at 2 s. *)
Definition world_two_calls : World HubModel.Hub :=
  mkWorld hub_empty (2 * usec) [(1, 0); (1, usec)] [] 2 0 ∅ [] false.

Lemma apiCreationRequestPause_waits_witness :
  0 + 60 * usec < w_now (fst (apiCreationRequestPause MinWindow 2 60 world_two_calls)).
Proof.
  apply (apiCreationRequestPause_waits MinWindow 2 60 world_two_calls 1 0 [(1, usec)]).
  - lia.
  - lia.
  - repeat constructor; simpl; unfold usec; lia.
  - vm_compute. reflexivity.
  - vm_compute. discriminate.
Defined.

Lemma apiCreationRequestPause_below_allowance_witness :
  snd (apiCreationRequestPause MinWindow 2 60 world_two_calls) = inr tt /\
  call_count (win_calls MinWindow (fst (apiCreationRequestPause MinWindow 2 60 world_two_calls))) < 2 /\
  w_now world_two_calls <= w_now (fst (apiCreationRequestPause MinWindow 2 60 world_two_calls)) /\
  w_hub (fst (apiCreationRequestPause MinWindow 2 60 world_two_calls)) = w_hub world_two_calls.
Proof.
  apply apiCreationRequestPause_below_allowance.
  - lia.
  - lia.
  - repeat constructor; simpl; unfold usec; lia.
Defined.

Import HubModel.

Lemma apiTotalRequestPause_restores_budget_witness :
  snd (apiTotalRequestPause world_two_calls) = inr tt /\
  LIMIT_BUFFER <= gh_remaining (w_hub (fst (apiTotalRequestPause world_two_calls))) /\
  gh_issues (w_hub (fst (apiTotalRequestPause world_two_calls))) = gh_issues (w_hub world_two_calls) /\
  gh_log (w_hub (fst (apiTotalRequestPause world_two_calls))) = gh_log (w_hub world_two_calls) /\
  w_now world_two_calls <= w_now (fst (apiTotalRequestPause world_two_calls)).
Proof. apply apiTotalRequestPause_restores_budget. Defined.

Lemma drop_expired_filter_witness :
  drop_expired usec [(1, 0); (1, usec); (1, 2 * usec)] =
    List.filter (fun c => usec <=? snd c) [(1, 0); (1, usec); (1, 2 * usec)].
Proof.
  apply drop_expired_filter. repeat constructor; simpl; unfold usec; lia.
Defined.
