(* ===== verification/PauseLoop.v ===== *)
(** PauseLoop.v: the sleep loop of [_apiCreationRequestPause] (tratihubis.py
    lines 899-913) as the unbounded [while] loop it is, and what the
    fuelled function of Pacing.v computes of it.

    A state of the loop is the clock and the deque after [calcCount()].
    [pause_step] is one turn of [while callcnt >= allowed:]: sleep
    [max(3, periodSeconds - since)] seconds, then [calcCount()] again.
    [eventually P s] holds when every run of the loop from [s] reaches a
    state satisfying [P] (the [eventually] of the small-step combinators
    of coqutil).  The theorems: the loop always reaches a state with
    fewer than [allowed] calls, from any deque whose stamps are not in the
    future; and [creation_pause_loop], whenever it returns, returns a
    state the loop reaches and at which it stops. *)

From S2P Require Import Prelude GitHub Log Pacing.

Local Open Scope Z_scope.

(** The state after [calcCount()]: the clock and the deque. *)
Definition PState := (Z * Deque)%type.

Section Loop.
Variable allowed period : Z.

(** [calcCount()] at time [now]: the calls older than [periodSeconds]
    leave the deque. *)
Definition calc (now : Z) (calls : Deque) : PState :=
  (now, drop_expired (now - period * usec) calls).

(** One turn of the loop, taken while the count reaches [allowed]:
    [since = (now - calls[0][1]).seconds], sleep, count again. *)
Inductive pause_step : PState -> PState -> Prop :=
  | pause_sleep now c t0 r :
      allowed <= call_count ((c, t0) :: r) ->
      pause_step (now, (c, t0) :: r)
        (calc (now + Z.max 3 (period - td_seconds (now - t0)) * usec) ((c, t0) :: r)).

(** The loop exits at a state whose count is below [allowed]. *)
Definition pause_done (s : PState) : Prop := call_count s.2 < allowed.

(** Every run from [s] reaches [P]: now, or after every possible step
    (there is at least one). *)
Inductive eventually (P : PState -> Prop) (s : PState) : Prop :=
  | eventually_now : P s -> eventually P s
  | eventually_later :
      (exists s', pause_step s s') -> (forall s', pause_step s s' -> eventually P s') ->
      eventually P s.

Lemma pause_step_det s s1 s2 : pause_step s s1 -> pause_step s s2 -> s1 = s2.
Proof. by intros [] Hs2; inversion Hs2. Qed.
End Loop.

(** The loop of Pacing.v, on one turn. *)
Lemma creation_pause_loop_turn fuel allowed period now calls :
  creation_pause_loop (S fuel) allowed period now calls =
    let calls1 := drop_expired (now - period * usec) calls in
    if call_count calls1 <? allowed then Some ((now, calls1), inr tt)
    else match calls1 with
         | [] => Some ((now, calls1), inl IndexError)
         | (_, t0) :: _ =>
             creation_pause_loop fuel allowed period
               (now + Z.max 3 (period - td_seconds (now - t0)) * usec) calls1
         end.
Proof. reflexivity. Qed.

(** C16: the sleep loop of [_apiCreationRequestPause] ends.  With
    [allowed >= 1], a period below a day and no call stamped in the
    future, every run of [while callcnt >= allowed] from the state
    [calcCount()] leaves reaches a state with fewer than [allowed] calls
    in the deque. *)
Theorem pause_loop_eventually allowed period now calls :
  1 <= allowed -> 0 <= period < 86400 -> Forall (fun e => snd e <= now) calls ->
  eventually allowed period (pause_done allowed) (calc period now calls).
Proof.
  intros Ha HP. remember (pause_measure period now calls) as m eqn:Hm.
  revert now calls Hm. induction m as [m IH] using (well_founded_induction lt_wf).
  intros now calls -> Hall. unfold calc.
  destruct (Z.ltb_spec (call_count (drop_expired (now - period * usec) calls)) allowed)
    as [Hlt|Hge]; [by apply eventually_now|].
  destruct (drop_expired (now - period * usec) calls) as [|[c t0] r] eqn:Hdrop;
    [simpl in Hge; lia|].
  apply eventually_later.
  - eexists. by constructor.
  - intros s' Hs'. inversion Hs'; subst. apply (IH _ (pause_step_decreases _ _ _ _ _ _ HP Hall Hdrop));
      [done|].
    pose proof (Forall_drop_expired _ (now - period * usec) _ Hall) as Hall1.
    rewrite Hdrop in Hall1. eapply Forall_impl; [exact Hall1|]. simpl. unfold usec. lia.
Qed.

Section Final.
Variable allowed period : Z.

Lemma pause_done_stuck s s' : pause_done allowed s -> ~ pause_step allowed period s s'.
Proof. intros Hd Hs. inversion Hs as [now c t0 r Hge]; subst. unfold pause_done in Hd. simpl in Hd, Hge. lia. Qed.

(** The loop stops at one state at most. *)
Lemma pause_final_unique s s1 s2 :
  rtc (pause_step allowed period) s s1 -> pause_done allowed s1 ->
  rtc (pause_step allowed period) s s2 -> pause_done allowed s2 -> s1 = s2.
Proof.
  intros H1 Hd1. revert s2. induction H1 as [s|s s' s1 Hst H1 IH]; intros s2 H2 Hd2.
  - inversion H2 as [|? s'' ? Hst' ?]; subst; [done|].
    by destruct (pause_done_stuck _ _ Hd1 Hst').
  - inversion H2 as [|? s'' ? Hst' H2']; subst; [by destruct (pause_done_stuck _ _ Hd2 Hst)|].
    rewrite (pause_step_det _ _ _ _ _ Hst Hst') in IH. eauto.
Qed.
End Final.

(** The fuelled loop computes the loop.  When [creation_pause_loop]
    returns normally, the state it returns is one the [while] loop of
    [_apiCreationRequestPause] reaches from [calcCount()] and stops at,
    and it is the only such state. *)
Theorem creation_pause_loop_refines fuel allowed period now calls now' calls' :
  creation_pause_loop fuel allowed period now calls = Some ((now', calls'), inr tt) ->
  rtc (pause_step allowed period) (calc period now calls) (now', calls') /\
  pause_done allowed (now', calls') /\
  (forall s, rtc (pause_step allowed period) (calc period now calls) s ->
   pause_done allowed s -> s = (now', calls')).
Proof.
  enough (Hr : creation_pause_loop fuel allowed period now calls = Some ((now', calls'), inr tt) ->
               rtc (pause_step allowed period) (calc period now calls) (now', calls') /\
               pause_done allowed (now', calls')).
  { intros E. destruct (Hr E) as [Hrtc Hd]. split_and!; [done|done|].
    intros s Hs Hds. exact (pause_final_unique _ _ _ _ _ Hs Hds Hrtc Hd). }
  revert now calls. induction fuel as [|fuel IH]; intros now calls; simpl;
    unfold calc, pause_done;
    destruct (Z.ltb_spec (call_count (drop_expired (now - period * usec) calls)) allowed)
      as [Hlt|Hge]; try (intros [= <- <-]; split; [apply rtc_refl|done]);
    destruct (drop_expired (now - period * usec) calls) as [|[c t0] r] eqn:Hdrop; try done.
  intros E. destruct (IH _ _ E) as [Hrtc Hd]. split; [|done].
  eapply rtc_l; [|exact Hrtc]. by constructor.
Qed.

(** ** Examples *)

(** Two creations at 90 s and 95 s, at most two per 62 s, at 100 s: the
    loop sleeps 52 s, finds the call of 90 s exactly 62 s old and still
    counted, sleeps 3 s more, and stops at 155 s. *)
Definition example_calls : Deque := [(1, 90 * usec); (1, 95 * usec)].

Lemma pause_loop_eventually_witness :
  eventually 2 62 (pause_done 2) (calc 62 (100 * usec) example_calls).
Proof.
  apply pause_loop_eventually; [lia|lia|].
  repeat constructor; simpl; unfold usec; lia.
Defined.

Lemma creation_pause_loop_refines_witness :
  rtc (pause_step 2 62) (calc 62 (100 * usec) example_calls) (155 * usec, [(1, 95 * usec)]) /\
  pause_done 2 (155 * usec, [(1, 95 * usec)]) /\
  (forall s, rtc (pause_step 2 62) (calc 62 (100 * usec) example_calls) s ->
   pause_done 2 s -> s = (155 * usec, [(1, 95 * usec)])).
Proof. apply (creation_pause_loop_refines 4). vm_compute. reflexivity. Defined.
