(* ===== verification/Users.v ===== *)
(** Users.v: mapping Trac users to GitHub users (tratihubis.py lines
    814-878).

    [_createTracToGithubUserMap] parses [users = trac: github, ...] into a
    dictionary and validates every concrete GitHub user when the map is
    built; [_githubUserFor] resolves a Trac user (exact entry, else the
    wildcard entry, where a wildcard target keeps the Trac name);
    [_validateGithubUser] turns any failure of [_getGitHubUser] into a
    [_ConfigError]; [_getGitHubUser] asks GitHub once per name and caches
    the answer in [_validatedGithubUsers].

    The abstract contract of the resolver is [resolve]; the theorems show
    that [githubUserFor] implements it and that the cache only holds users
    GitHub knows. *)

From S2P Require Import Prelude PyStr GitHub Log Pacing.

Local Open Scope string_scope.

Definition OPTION_USERS : string := "users".

(** The token [""] (two double quotes) that stands for the empty user. *)
Definition QUOTED_EMPTY : string :=
  String (Ascii.ascii_of_nat 34) (String (Ascii.ascii_of_nat 34) EmptyString).

Definition WILDCARD : string := "*".

Section UserMap.
Context {H : Type} `{!GitHubApi H}.

(** [_getGitHubUser(username)] *)
Definition getGitHubUser (username : string) : ST (World H) string :=
  w <- sget ;;
  match w_validated w !! username with
  | Some u => sret u
  | None =>
      emit DEBUG (CheckUser username) ;;
      apiPauseIfNeeded false ;;
      w1 <- sget ;;
      u <- of_option (GithubError username) (gh_get_user (w_hub w1) username) ;;
      smodify (fun w2 => set_validated (<[username := u]> (w_validated w2)) w2) ;;
      sret u
  end.

(** [_validateGithubUser(tracUser, githubUser)]: the bare [except:]
    turns whatever [_getGitHubUser] raises into a [_ConfigError]. *)
Definition validateGithubUser (tracUser githubUser : string) : ST (World H) unit :=
  fun w =>
    match getGitHubUser githubUser w with
    | (w', inl _) =>
        (w', inl (ConfigError OPTION_USERS
                    ("Trac user " ++ tracUser ++ " must be mapped to an existing Github user instead of " ++ githubUser)))
    | (w', inr _) => (w', inr tt)
    end.

Definition unquote_empty (s : string) : string :=
  if String.eqb s QUOTED_EMPTY then "" else s.

(** One [mapping] of the loop of [_createTracToGithubUserMap]. *)
Definition add_user_mapping (result : gmap string string) (mapping : string)
    : ST (World H) (gmap string string) :=
  match map strip (split_on (Ascii.ascii_of_nat 58) mapping) with
  | [] => sret result
  | [tracUser0; githubUser0] =>
      if String.eqb tracUser0 "" then
        sraise (ConfigError OPTION_USERS ("Trac user must not be empty: " ++ mapping))
      else if String.eqb githubUser0 "" then
        sraise (ConfigError OPTION_USERS ("Github user must not be empty: " ++ mapping))
      else
        let tracUser := unquote_empty tracUser0 in
        let githubUser := unquote_empty githubUser0 in
        match result !! tracUser with
        | Some existing =>
            sraise (ConfigError OPTION_USERS
                      ("Trac user " ++ tracUser ++ " must be mapped to only one Github user"))
        | None =>
            swhen (negb (String.eqb githubUser WILDCARD || String.eqb githubUser ""))
              (validateGithubUser tracUser githubUser) ;;
            sret (<[tracUser := githubUser]> result)
        end
  | _ => sraise (ConfigError OPTION_USERS
                   ("mapping must use syntax trac-user: github-user but is: " ++ mapping))
  end.

Fixpoint add_user_mappings (result : gmap string string) (mappings : list string)
    : ST (World H) (gmap string string) :=
  match mappings with
  | [] => sret result
  | m :: ms => r <- add_user_mapping result m ;; add_user_mappings r ms
  end.

(** [_createTracToGithubUserMap(definition)] *)
Definition createTracToGithubUserMap (definition : string)
    : ST (World H) (gmap string string) :=
  add_user_mappings ∅ (split_on (Ascii.ascii_of_nat 44) definition).

(** [_githubUserFor(tracToGithubUserMap, tracUser, validate)] *)
Definition githubUserFor (m : gmap string string) (tracUser : string) (validate : bool)
    : ST (World H) string :=
  if negb (truthy tracUser) then sret "" else
  r <- match m !! tracUser with
       | Some r => sret r
       | None => of_option (ConfigError OPTION_USERS
                              ("Trac user " ++ tracUser ++ " must be mapped to a Github user"))
                           (m !! WILDCARD)
       end ;;
  let result := if String.eqb r WILDCARD then tracUser else r in
  swhen (validate && truthy result) (validateGithubUser tracUser result) ;;
  sret result.
End UserMap.

(** ** The contract of the resolver *)

(** An exact entry wins; otherwise the wildcard entry, a wildcard target
    standing for the Trac user itself; no entry is an error ([None]). *)
Definition resolve (m : gmap string string) (tracUser : string) : option string :=
  if String.eqb tracUser "" then Some "" else
  match m !! tracUser with
  | Some r => Some (if String.eqb r WILDCARD then tracUser else r)
  | None =>
      match m !! WILDCARD with
      | Some r => Some (if String.eqb r WILDCARD then tracUser else r)
      | None => None
      end
  end.

(** ** Theorems *)

Section UserTheorems.
Context {H : Type} `{!GitHubApi H} `{!GitHubLaws H}.
Implicit Types w : World H.

(** The cache only holds what GitHub answered. *)
Definition cache_sound w : Prop :=
  forall n u, w_validated w !! n = Some u -> gh_get_user (w_hub w) n = Some u.

(** A step that sends GitHub no mutating request. *)
Definition reads_only w w' : Prop :=
  gh_issues (w_hub w') = gh_issues (w_hub w) /\ gh_log (w_hub w') = gh_log (w_hub w) /\
  gh_get_user (w_hub w') = gh_get_user (w_hub w).

Lemma reads_only_refl w : reads_only w w.
Proof. done. Qed.

Lemma reads_only_trans w1 w2 w3 : reads_only w1 w2 -> reads_only w2 w3 -> reads_only w1 w3.
Proof. intros (? & ? & ?) (? & ? & ?). split_and!; congruence. Qed.

Definition same_reads (h0 h : H) : Prop :=
  gh_issues h = gh_issues h0 /\ gh_log h = gh_log h0 /\ gh_get_user h = gh_get_user h0.

Lemma refresh_same_reads h0 t h : same_reads h0 h -> same_reads h0 (gh_get_rate_limit t h).
Proof.
  intros (Hi & Hl & Hu). unfold same_reads.
  rewrite get_rate_limit_issues, get_rate_limit_log, get_rate_limit_users. done.
Qed.

(** A pause sends no mutating request and keeps the cache. *)
Lemma apiPauseIfNeeded_reads b w :
  snd (apiPauseIfNeeded b w) = inr tt /\ reads_only w (fst (apiPauseIfNeeded b w)) /\
  w_validated (fst (apiPauseIfNeeded b w)) = w_validated w.
Proof.
  destruct (apiPauseIfNeeded_frame (same_reads (w_hub w)) b w)
    as (Hr & Hh & Hv & _); [apply refresh_same_reads|done|].
  split_and!; [done| |done]. exact Hh.
Qed.

Lemma getGitHubUser_spec name w :
  cache_sound w ->
  snd (getGitHubUser name w) =
    match gh_get_user (w_hub w) name with Some u => inr u | None => inl (GithubError name) end /\
  cache_sound (fst (getGitHubUser name w)) /\ reads_only w (fst (getGitHubUser name w)).
Proof.
  intros Hs. unfold getGitHubUser, sbind, sget.
  destruct (w_validated w !! name) as [u|] eqn:Hc.
  - simpl. rewrite (Hs _ _ Hc). auto using reads_only_refl.
  - rewrite emit_run. cbn iota beta. set (w0 := write_log DEBUG [CheckUser name] w).
    destruct (apiPauseIfNeeded_reads false w0) as (Hr & Hro & Hv).
    destruct (apiPauseIfNeeded false w0) as [w1 r1]. simpl in *. subst r1.
    destruct Hro as (Hi & Hl & Hu). subst w0. simpl in Hi, Hl, Hu, Hv.
    assert (Hs1 : cache_sound w1) by (intros n v Hn; rewrite Hu; apply Hs; congruence).
    simpl. rewrite Hu. destruct (gh_get_user (w_hub w) name) as [u|] eqn:Hg; simpl.
    + split_and!; [done| |done].
      intros n v. simpl. rewrite lookup_insert. case_decide; [intros [= <-]; subst; congruence|].
      apply Hs1.
    + split_and!; done.
Qed.

Lemma validateGithubUser_spec tracUser name w :
  cache_sound w ->
  snd (validateGithubUser tracUser name w) =
    match gh_get_user (w_hub w) name with
    | Some _ => inr tt
    | None => inl (ConfigError OPTION_USERS
                ("Trac user " ++ tracUser ++ " must be mapped to an existing Github user instead of " ++ name))
    end /\
  cache_sound (fst (validateGithubUser tracUser name w)) /\
  reads_only w (fst (validateGithubUser tracUser name w)).
Proof.
  intros Hs. destruct (getGitHubUser_spec name w Hs) as (Hr & Hs' & Hro).
  unfold validateGithubUser. destruct (getGitHubUser name w) as [w' r]. simpl in *. subst r.
  destruct (gh_get_user (w_hub w) name); done.
Qed.

(** The outcome [githubUserFor] must produce for a resolved user [g]. *)
Definition resolved_outcome w (g : string) (r : Exc + string) : Prop :=
  if String.eqb g "" then r = inr ""
  else match gh_get_user (w_hub w) g with
       | Some _ => r = inr g
       | None => exists msg, r = inl (ConfigError OPTION_USERS msg)
       end.

Lemma validate_then_return_spec tracUser g w :
  cache_sound w ->
  let run := (swhen (true && truthy g) (validateGithubUser tracUser g) ;; sret g) w in
  cache_sound (fst run) /\ reads_only w (fst run) /\ resolved_outcome w g (snd run).
Proof.
  intros Hs. unfold resolved_outcome, swhen. simpl.
  destruct (String.eqb_spec g ""); [subst; simpl; auto using reads_only_refl|].
  rewrite (proj2 (truthy_true g) n). unfold sbind.
  destruct (validateGithubUser_spec tracUser g w Hs) as (Hr & Hs' & Hro).
  destruct (validateGithubUser tracUser g w) as [w' r]. simpl in *. subst r.
  destruct (gh_get_user (w_hub w) g); simpl; eauto.
Qed.

(** C17: [_githubUserFor] (with validation) implements [resolve]:
    an exact entry wins, then the wildcard entry, a wildcard target
    standing for the Trac user; an unmapped user, or a resolved user
    GitHub does not know, is a [_ConfigError]; the empty user resolves
    to no assignee without validation.  It sends no mutating request and
    keeps the cache sound. *)
Theorem githubUserFor_refines_resolve m tracUser w :
  cache_sound w ->
  cache_sound (fst (githubUserFor m tracUser true w)) /\
  reads_only w (fst (githubUserFor m tracUser true w)) /\
  match resolve m tracUser with
  | None => exists msg, snd (githubUserFor m tracUser true w) = inl (ConfigError OPTION_USERS msg)
  | Some g => resolved_outcome w g (snd (githubUserFor m tracUser true w))
  end.
Proof.
  intros Hs. unfold githubUserFor, resolve.
  destruct (String.eqb_spec tracUser "");
    [subst; simpl; unfold resolved_outcome; simpl; auto using reads_only_refl|].
  rewrite (proj2 (truthy_true tracUser) n). simpl negb. cbv iota.
  destruct (m !! tracUser) as [r0|]; simpl.
  - apply validate_then_return_spec, Hs.
  - destruct (m !! WILDCARD) as [r0|]; simpl.
    + apply validate_then_return_spec, Hs.
    + split_and!; eauto using reads_only_refl.
Qed.

(** A target GitHub user that is neither the wildcard nor empty. *)
Definition concrete_user (g : string) : Prop := g <> WILDCARD /\ g <> "".

(** Every concrete target of [result] is a user GitHub knows. *)
Definition targets_exist w (result : gmap string string) : Prop :=
  forall k g, result !! k = Some g -> concrete_user g -> is_Some (gh_get_user (w_hub w) g).

Lemma targets_exist_reads w w' result :
  reads_only w w' -> targets_exist w result -> targets_exist w' result.
Proof. intros (_ & _ & Hu) Ht k g Hk Hc. rewrite Hu. eauto. Qed.

Lemma add_user_mapping_spec result mapping w :
  cache_sound w -> targets_exist w result ->
  cache_sound (fst (add_user_mapping result mapping w)) /\
  reads_only w (fst (add_user_mapping result mapping w)) /\
  forall result', snd (add_user_mapping result mapping w) = inr result' ->
    targets_exist w result'.
Proof.
  intros Hs Ht. unfold add_user_mapping.
  destruct (map strip _) as [|a [|b [|c rest]]];
    try (simpl; split_and!; auto using reads_only_refl; intros ? [=]; fail).
  - simpl. split_and!; auto using reads_only_refl. by intros ? [= <-].
  - destruct (String.eqb a ""); [simpl; split_and!; auto using reads_only_refl; by intros ? [=]|].
    destruct (String.eqb b ""); [simpl; split_and!; auto using reads_only_refl; by intros ? [=]|].
    destruct (result !! unquote_empty a) as [ex|];
      [simpl; split_and!; auto using reads_only_refl; by intros ? [=]|].
    set (g := unquote_empty b). unfold swhen, sbind.
    destruct (negb (String.eqb g WILDCARD || String.eqb g "")) eqn:Hneg; cbv beta iota.
    + destruct (validateGithubUser_spec (unquote_empty a) g w Hs) as (Hr & Hs' & Hro).
      destruct (validateGithubUser (unquote_empty a) g w) as [w' r]. simpl in *.
      subst r. destruct (gh_get_user (w_hub w) g) as [u|] eqn:Hg; simpl;
        (split_and!; [done|done|]); intros result'; [|by intros [=]].
      intros [= <-]. apply (targets_exist_reads w); [done|].
      intros k g' Hk Hc. rewrite lookup_insert in Hk. case_decide; [|eauto].
      injection Hk as <-. rewrite Hg. eauto.
    + simpl. split_and!; auto using reads_only_refl. intros result' [= <-].
      intros k g' Hk [Hw He]. rewrite lookup_insert in Hk.
      case_decide; [|eapply Ht; [exact Hk|split; done]].
      injection Hk as <-. apply negb_false_iff, orb_true_iff in Hneg.
      destruct Hneg as [Heq|Heq]; apply String.eqb_eq in Heq; congruence.
Qed.

(** C18: when [_createTracToGithubUserMap] succeeds, every
    concrete GitHub user of the map exists on GitHub: unknown users are
    reported when the map is built, not when it is first used.  Building
    the map sends no mutating request. *)
Theorem createTracToGithubUserMap_validates definition w :
  cache_sound w ->
  cache_sound (fst (createTracToGithubUserMap definition w)) /\
  reads_only w (fst (createTracToGithubUserMap definition w)) /\
  forall m, snd (createTracToGithubUserMap definition w) = inr m ->
    forall k g, m !! k = Some g -> g <> WILDCARD -> g <> "" ->
    is_Some (gh_get_user (w_hub w) g).
Proof.
  intros Hs. unfold createTracToGithubUserMap.
  assert (Ht : targets_exist w ∅) by (intros k g Hk; by rewrite lookup_empty in Hk).
  enough (Hgen : forall ms result w0, cache_sound w0 -> targets_exist w0 result ->
    cache_sound (fst (add_user_mappings result ms w0)) /\
    reads_only w0 (fst (add_user_mappings result ms w0)) /\
    forall m, snd (add_user_mappings result ms w0) = inr m -> targets_exist w0 m).
  { destruct (Hgen (split_on (Ascii.ascii_of_nat 44) definition) ∅ w Hs Ht) as (H1 & H2 & H3).
    split_and!; [done|done|]. intros m Hm k g Hk Hw He. eapply H3; eauto. split; done. }
  induction ms as [|mp ms IH]; intros result w0 Hs0 Ht0; simpl.
  - split_and!; auto using reads_only_refl. by intros m [= <-].
  - unfold sbind. destruct (add_user_mapping_spec result mp w0 Hs0 Ht0) as (Hs1 & Hro1 & Hres).
    destruct (add_user_mapping result mp w0) as [w1 [e|r1]]; simpl in *.
    + split_and!; [done|done|by intros ? [=]].
    + destruct (IH r1 w1 Hs1 (targets_exist_reads w0 w1 r1 Hro1 (Hres r1 eq_refl)))
        as (Hs2 & Hro2 & Hres2).
      split_and!; [done|eapply reads_only_trans; eauto|].
      intros m Hm. apply (targets_exist_reads w1 w0); [|by apply Hres2].
      destruct Hro1 as (? & ? & ?). split_and!; congruence.
Qed.
End UserTheorems.

(** ** Examples *)

Import HubModel.

(** A repository that knows the users [jdoe78] and [anyoneelse]. *)
Definition users_world : World Hub :=
  mkWorld (mkHub ∅ [] [] ["jdoe78"; "anyoneelse"] QUOTA 0 []) 0 [] [] 0 0 ∅ [] false.

(** The map of the option [users = johndoe: jdoe78, *:*]. *)
Definition users_map : gmap string string := {[ "johndoe" := "jdoe78"; "*" := "*" ]}.

Lemma users_world_cache_sound : cache_sound users_world.
Proof. intros n u Hn. simpl in Hn. by rewrite lookup_empty in Hn. Qed.

Lemma githubUserFor_refines_resolve_witness :
  cache_sound (fst (githubUserFor users_map "anyoneelse" true users_world)) /\
  reads_only users_world (fst (githubUserFor users_map "anyoneelse" true users_world)) /\
  match resolve users_map "anyoneelse" with
  | None => exists msg, snd (githubUserFor users_map "anyoneelse" true users_world) =
                          inl (ConfigError OPTION_USERS msg)
  | Some g => resolved_outcome users_world g
                (snd (githubUserFor users_map "anyoneelse" true users_world))
  end.
Proof. apply githubUserFor_refines_resolve, users_world_cache_sound. Defined.

Lemma createTracToGithubUserMap_validates_witness :
  cache_sound (fst (createTracToGithubUserMap "johndoe: jdoe78, *:*" users_world)) /\
  reads_only users_world (fst (createTracToGithubUserMap "johndoe: jdoe78, *:*" users_world)) /\
  forall m, snd (createTracToGithubUserMap "johndoe: jdoe78, *:*" users_world) = inr m ->
    forall k g, m !! k = Some g -> g <> WILDCARD -> g <> "" ->
    is_Some (gh_get_user (w_hub users_world) g).
Proof. apply createTracToGithubUserMap_validates, users_world_cache_sound. Defined.
