(* ===== verification/Labels.v ===== *)
(** Labels.v: the class [_LabelTransformations] (tratihubis.py lines
    321-425).

    The constructor reads the repository's labels ([_buildLabelMap]) when
    a [labels] or a [keywords] option is given, then parses the [labels]
    option ([_buildTransformations]: a state machine over the tokens of
    Python's [tokenize] that reads clauses [field = value : label]
    separated by commas, each label being checked against the repository)
    and the [keywords] option ([_keywordSetUp]: each keyword must be a
    label; it is matched as a whole word of the ticket's keywords).
    [labelFor] returns the label of the first clause matching a field and
    a value; [labelsForKeyWords] the labels of all matching keywords.

    The tokenizer is Python's library; [tokenize] below is a model of it
    for the inputs the option takes (names, digits, quoted strings,
    one-character operators), used to run the parser on examples. *)

From S2P Require Import Prelude PyStr GitHub Log Pacing.

Local Open Scope string_scope.

Definition OPTION_LABELS : string := "labels".
Definition OPTION_KEYWORDS : string := "keywords".

(** ** Tokens *)

Inductive TokType := NAME | NUMBER | STRING | OP | ENDMARKER.

Record Token := mkToken { tok_type : TokType; tok_text : string }.

Definition TokType_eqb (a b : TokType) : bool :=
  match a, b with
  | NAME, NAME | NUMBER, NUMBER | STRING, STRING | OP, OP | ENDMARKER, ENDMARKER => true
  | _, _ => false
  end.

(** [tokenText[1:len(tokenText) - 1]] *)
Definition strip_quotes (s : string) : string :=
  String.substring 1 (String.length s - 2) s.

(** ** The state machine of [_buildTransformations] *)

Inductive PState := AtField | AtOperator | AtValue | AtColon | AtLabel | AtComma.

(** The loop variables: [state], [tracField], [tracValue] and the clauses
    [self._transformations] built so far. *)
Record Parse := mkParse {
  p_state : PState;
  p_field : string;
  p_value : string;
  p_clauses : list (string * string * string)
}.

Definition build_step (labelMap : list string) (p : Parse) (tok : Token) : Exc + Parse :=
  let text := if TokType_eqb (tok_type tok) STRING then strip_quotes (tok_text tok)
              else tok_text tok in
  match p_state p with
  | AtField => inr (mkParse AtOperator text "" (p_clauses p))
  | AtOperator =>
      if String.eqb text "=" then inr (mkParse AtValue (p_field p) (p_value p) (p_clauses p))
      else inl (ConfigError OPTION_LABELS
                  ("Trac field " ++ p_field p ++ " must be followed by '=' instead of " ++ text))
  | AtValue => inr (mkParse AtColon (p_field p) text (p_clauses p))
  | AtColon =>
      if String.eqb text ":" then inr (mkParse AtLabel (p_field p) (p_value p) (p_clauses p))
      else inl (ConfigError OPTION_LABELS
                  ("value for comparison " ++ p_value p ++ " must be followed by ':' instead of " ++ text))
  | AtLabel =>
      if existsb (String.eqb text) labelMap
      then inr (mkParse AtComma (p_field p) (p_value p)
                  (app (p_clauses p) [(p_field p, p_value p, text)]))
      else inl (ConfigError OPTION_LABELS ("unknown label " ++ text))
  | AtComma =>
      if negb (TokType_eqb (tok_type tok) ENDMARKER) && negb (String.eqb text ",")
      then inl (ConfigError OPTION_LABELS
                  ("label transformation for Trac field " ++ p_field p ++ " must end with ','"))
      else inr (mkParse AtField (p_field p) (p_value p) (p_clauses p))
  end.

Fixpoint build_loop (labelMap : list string) (p : Parse) (toks : list Token) : Exc + Parse :=
  match toks with
  | [] => inr p
  | t :: ts => match build_step labelMap p t with
               | inl e => inl e
               | inr p' => build_loop labelMap p' ts
               end
  end.

(** [_buildTransformations(definition)] on the token stream. *)
Definition buildTransformations (labelMap : list string) (toks : list Token)
    : Exc + list (string * string * string) :=
  match build_loop labelMap (mkParse AtField "" "" []) toks with
  | inl e => inl e
  | inr p => inr (p_clauses p)
  end.

(** ** The object and its methods *)

Record LabelTransformations := mkLT {
  lt_transformations : list (string * string * string);
  lt_labelMap : list string;
  (* [self._keywords]: absent ([None]) unless [_keywordSetUp] ran *)
  lt_keywords : option (list (string * string))
}.

(** [_keywordSetUp(keywords)]: the non-empty stripped comma-separated
    keywords, each of which must be a label.  The dictionary is keyed by
    the compiled pattern; Python 2 iterates it in hash order, the model
    keeps the first occurrence order. *)
Fixpoint keyword_setup (labelMap : list string) (acc : list (string * string))
    (kws : list string) : Exc + list (string * string) :=
  match kws with
  | [] => inr acc
  | kw :: kws' =>
      if existsb (String.eqb kw) labelMap then
        let acc' := if existsb (fun p => String.eqb (fst p) kw) acc then acc else app acc [(kw, kw)] in
        keyword_setup labelMap acc' kws'
      else inl (ConfigError OPTION_KEYWORDS ("unknown keyword " ++ kw))
  end.

Definition keyword_list (keywords : string) : list string :=
  filter truthy (map strip (split_on (Ascii.ascii_of_nat 44) keywords)).

(** Python truthiness of an option that may be missing ([None]). *)
Definition opt_truthy (o : option string) : bool :=
  match o with Some s => truthy s | None => false end.

Section Construction.
Context {H : Type} `{!GitHubApi H}.

(** [_buildLabelMap()] *)
Definition buildLabelMap : ST (World H) (list string) :=
  emit INFO AnalyzeLabels ;;
  apiPauseIfNeeded false ;;
  w <- sget ;;
  let labels := gh_labels (w_hub w) in
  sfor labels (fun l => emit DEBUG (FoundLabel l)) ;;
  emit INFO (FoundLabels (Z.of_nat (length labels))) ;;
  sret labels.

(** [_LabelTransformations(repo, definition, keywords)]; [tokens] is the
    tokenizer applied to [definition]. *)
Definition newLabelTransformations (definition : option string) (tokens : list Token)
    (keywords : option string) : ST (World H) LabelTransformations :=
  if opt_truthy definition || opt_truthy keywords then
    labelMap <- buildLabelMap ;;
    trs <- (if opt_truthy definition
            then match buildTransformations labelMap tokens with
                 | inl e => sraise e | inr trs => sret trs end
            else sret []) ;;
    match keywords with
    | Some kws =>
        if truthy kws then
          match keyword_setup labelMap [] (keyword_list kws) with
          | inl e => sraise e
          | inr kt => sret (mkLT trs labelMap (Some kt))
          end
        else sret (mkLT trs labelMap None)
    | None => sret (mkLT trs labelMap None)
    end
  else sret (mkLT [] [] None).
End Construction.

(** [labelFor(tracField, tracValue)]: the label of the first clause whose
    field and value are equal to the arguments. *)
Fixpoint label_for_loop (trs : list (string * string * string)) (field value : string)
    : option string :=
  match trs with
  | [] => None
  | (f, v, l) :: trs' =>
      if String.eqb f field && String.eqb v value then Some l
      else label_for_loop trs' field value
  end.

Definition labelFor (lt : LabelTransformations) (field value : string) : option string :=
  label_for_loop (lt_transformations lt) field value.

(** [labelsForKeyWords(keywords)]; [self._keywords] is read, so an object
    built without the [keywords] option raises [AttributeError]. *)
Definition labelsForKeyWords (lt : LabelTransformations) (keywords : string)
    : Exc + list string :=
  match lt_keywords lt with
  | None => inl (AttributeError "_keywords")
  | Some kt => inr (map snd (List.filter (fun p => word_search (fst p) keywords) kt))
  end.

(** ** A model of [tokenize] for the option's syntax *)

Definition is_digit (c : Ascii.ascii) : bool :=
  let n := Ascii.nat_of_ascii c in ((48 <=? n) && (n <=? 57))%nat.

Definition is_quote (c : Ascii.ascii) : bool :=
  let n := Ascii.nat_of_ascii c in ((n =? 34) || (n =? 39))%nat.

(** Read characters while [p] holds. *)
Fixpoint take_while (p : Ascii.ascii -> bool) (s : string) : string * string :=
  match s with
  | String c s' => if p c then let '(a, b) := take_while p s' in (String c a, b) else ("", s)
  | EmptyString => ("", "")
  end.

(** Read up to the closing quote [q]. *)
Fixpoint take_string (q : Ascii.ascii) (s : string) : string * string :=
  match s with
  | String c s' => if Ascii.eqb c q then (String c "", s')
                   else let '(a, b) := take_string q s' in (String c a, b)
  | EmptyString => ("", "")
  end.

Fixpoint tokenize_fuel (fuel : nat) (s : string) : list Token :=
  match fuel with
  | O => [mkToken ENDMARKER ""]
  | S fuel' =>
      match s with
      | EmptyString => [mkToken ENDMARKER ""]
      | String c s' =>
          if is_space c then tokenize_fuel fuel' s'
          else if is_quote c then
            let '(a, b) := take_string c s' in mkToken STRING (String c a) :: tokenize_fuel fuel' b
          else if is_digit c then
            let '(a, b) := take_while is_digit s in mkToken NUMBER a :: tokenize_fuel fuel' b
          else if is_word c then
            let '(a, b) := take_while is_word s in mkToken NAME a :: tokenize_fuel fuel' b
          else mkToken OP (String c "") :: tokenize_fuel fuel' s'
      end
  end.

(** Every step consumes a character, so the length is enough fuel. *)
Definition tokenize (s : string) : list Token := tokenize_fuel (S (String.length s)) s.

(** ** Printing a definition back as tokens *)

(** The tokens of [field = value : label,]. *)
Definition clause_tokens (c : string * string * string) : list Token :=
  let '(f, v, l) := c in
  [mkToken NAME f; mkToken OP "="; mkToken NAME v; mkToken OP ":"; mkToken NAME l; mkToken OP ","].

Definition definition_tokens (cs : list (string * string * string)) : list Token :=
  concat (map clause_tokens cs) ++ [mkToken ENDMARKER ""].

(** ** Theorems *)

Lemma existsb_eqb_In (x : string) l : existsb (String.eqb x) l = true <-> In x l.
Proof.
  rewrite existsb_exists. split.
  - intros (y & Hy & E). apply String.eqb_eq in E. by subst.
  - intros Hx. exists x. by rewrite String.eqb_refl.
Qed.

(** C26: [labelFor] returns the label of the first clause for the field
    and value, and nothing when no clause matches. *)
Theorem labelFor_first_match lt field value l :
  labelFor lt field value = Some l <->
  exists pre post, lt_transformations lt = app pre ((field, value, l) :: post) /\
    Forall (fun c => ~ (c.1.1 = field /\ c.1.2 = value)) pre.
Proof.
  unfold labelFor. induction (lt_transformations lt) as [|[[f v] l'] trs IH]; simpl.
  - split; [done|]. intros (pre & post & E & _). by destruct pre.
  - destruct (String.eqb_spec f field) as [<-|Hf], (String.eqb_spec v value) as [<-|Hv]; simpl.
    { split.
      - intros [= <-]. by exists [], trs.
      - intros ([|c pre] & post & E & Hpre); simplify_eq/=; [done|].
        apply Forall_cons_1 in Hpre as [Hc _]. simpl in Hc. tauto. }
    all: rewrite IH; split;
        [intros (pre & post & -> & Hpre); exists ((f, v, l') :: pre), post;
         split; [done|constructor; simpl; [tauto|done]]|].
    all: intros ([|c pre] & post & E & Hpre); simplify_eq/=; try tauto.
    all: apply Forall_cons_1 in Hpre as [_ Hpre]; eauto.
Qed.

Lemma build_loop_known lm p toks p' :
  Forall (fun c => In c.2 lm) (p_clauses p) -> build_loop lm p toks = inr p' ->
  Forall (fun c => In c.2 lm) (p_clauses p').
Proof.
  revert p. induction toks as [|t ts IH]; intros p Hp; simpl; [by intros [= <-]|].
  destruct (build_step lm p t) as [e|p1] eqn:E; [done|]. apply IH.
  revert E. unfold build_step. repeat case_match; intros [= <-]; simpl; try done.
  all: apply Forall_app; split; [done|]; repeat constructor; simpl; by apply existsb_eqb_In.
Qed.

(** C27: every clause that [_buildTransformations] accepts names a label
    of the repository's label map. *)
Theorem buildTransformations_known lm toks cs :
  buildTransformations lm toks = inr cs -> Forall (fun c => In c.2 lm) cs.
Proof.
  unfold buildTransformations. destruct (build_loop _ _ _) as [e|p] eqn:E; [done|].
  intros [= <-]. by apply (build_loop_known lm (mkParse AtField "" "" []) toks).
Qed.

Lemma build_loop_clauses lm cs acc f0 v0 :
  Forall (fun c => In c.2 lm) cs ->
  build_loop lm (mkParse AtField f0 v0 acc) (concat (map clause_tokens cs) ++ [mkToken ENDMARKER ""]) =
    inr (mkParse AtOperator "" "" (acc ++ cs)).
Proof.
  revert acc f0 v0. induction cs as [|[[f v] l] cs IH]; intros acc f0 v0 Hcs; simpl.
  - by rewrite app_nil_r.
  - apply Forall_cons_1 in Hcs as [Hl Hcs]. simpl in Hl.
    unfold build_step. simpl. rewrite (proj2 (existsb_eqb_In l lm) Hl). simpl.
    rewrite IH by done. by rewrite <- app_assoc.
Qed.

(** C28: parsing the tokens of printed clauses gives the clauses back, when
    their labels exist. *)
Theorem buildTransformations_roundtrip lm cs :
  Forall (fun c => In c.2 lm) cs -> buildTransformations lm (definition_tokens cs) = inr cs.
Proof. intros Hcs. unfold buildTransformations, definition_tokens. by rewrite build_loop_clauses. Qed.

Lemma label_for_loop_In trs field value l :
  label_for_loop trs field value = Some l -> In (field, value, l) trs.
Proof.
  induction trs as [|[[f v] l'] trs IH]; simpl; [done|].
  destruct (String.eqb_spec f field), (String.eqb_spec v value); simpl;
    [intros [= <-]; subst; by left|..]; auto.
Qed.

Lemma keyword_setup_known lm acc kws kt :
  Forall (fun p => In p.2 lm) acc -> keyword_setup lm acc kws = inr kt ->
  Forall (fun p => In p.2 lm) kt.
Proof.
  revert acc. induction kws as [|kw kws IH]; intros acc Hacc; simpl; [by intros [= <-]|].
  destruct (existsb (String.eqb kw) lm) eqn:Ekw; [|done]. apply IH.
  case_match; [done|]. apply Forall_app. split; [done|].
  repeat constructor. by apply existsb_eqb_In.
Qed.

(** Every label the object can hand out is in [lm]. *)
Definition lt_known (lm : list string) (lt : LabelTransformations) : Prop :=
  Forall (fun c => In c.2 lm) (lt_transformations lt) /\
  match lt_keywords lt with Some kt => Forall (fun p => In p.2 lm) kt | None => True end.

Lemma lt_known_labels lm lt :
  lt_known lm lt ->
  (forall f v l, labelFor lt f v = Some l -> In l lm) /\
  (forall text ls, labelsForKeyWords lt text = inr ls -> Forall (fun l => In l lm) ls).
Proof.
  intros [Ht Hk]. split.
  - intros f v l Hl. apply label_for_loop_In in Hl. exact (proj1 (List.Forall_forall _ _) Ht _ Hl).
  - intros text ls. unfold labelsForKeyWords. destruct (lt_keywords lt) as [kt|]; [|done].
    intros [= <-]. apply List.Forall_forall. intros l (p & <- & Hp)%in_map_iff.
    apply filter_In in Hp as [Hp _]. exact (proj1 (List.Forall_forall _ _) Hk _ Hp).
Qed.

Section LabelsExist.
Context {H : Type} `{!GitHubApi H} `{!GitHubLaws H}.

Lemma buildLabelMap_spec (w : World H) : exists w', buildLabelMap w = (w', inr (gh_labels (w_hub w))).
Proof.
  unfold buildLabelMap. rewrite (sbind_ok _ _ _ _ _ (emit_run INFO AnalyzeLabels w)).
  set (w0 := write_log INFO [AnalyzeLabels] w).
  destruct (apiPauseIfNeeded_frame (fun h => gh_labels h = gh_labels (w_hub w)) false w0)
    as (Hr & Hh & _); [intros t h0 Hh0; by rewrite get_rate_limit_labels|done|].
  destruct (apiPauseIfNeeded false w0) as [w1 r1] eqn:E1. simpl in Hr, Hh. subst r1.
  rewrite (sbind_ok _ _ _ _ _ E1), sbind_sget, Hh.
  rewrite (sbind_ok _ _ _ _ _ (sfor_emit DEBUG FoundLabel _ w1)).
  rewrite (sbind_ok _ _ _ _ _ (emit_run _ _ _)). by eexists.
Qed.

(** C19: labels exist.  When [_LabelTransformations] is built without
    error, every label that [labelFor] or [labelsForKeyWords] can give to
    an issue is a label of the repository. *)
Theorem newLabelTransformations_labels_exist definition tokens keywords (w w' : World H) lt :
  newLabelTransformations definition tokens keywords w = (w', inr lt) ->
  (forall f v l, labelFor lt f v = Some l -> In l (gh_labels (w_hub w))) /\
  (forall text ls, labelsForKeyWords lt text = inr ls ->
     Forall (fun l => In l (gh_labels (w_hub w))) ls).
Proof.
  intros E. apply lt_known_labels. revert E. unfold newLabelTransformations.
  destruct (_ || _); [|intros [= _ <-]; split; simpl; done].
  destruct (buildLabelMap_spec w) as (w1 & E1). rewrite (sbind_ok _ _ _ _ _ E1).
  set (lm := gh_labels (w_hub w)). unfold sbind.
  assert (Htrs : forall w2 trs, (if opt_truthy definition
      then match buildTransformations lm tokens with inl e => sraise e | inr trs => sret trs end
      else sret []) w1 = (w2, inr trs) -> Forall (fun c => In c.2 lm) trs).
  { intros w2 trs. destruct (opt_truthy definition); [|by intros [= _ <-]].
    unfold buildTransformations. destruct (build_loop _ _ _) as [e|p] eqn:Eb; [done|].
    intros [= _ <-]. by apply (build_loop_known lm (mkParse AtField "" "" []) tokens). }
  destruct (_ w1) as [w2 [e|trs]]; [done|]. specialize (Htrs w2 trs eq_refl).
  destruct keywords as [kws|]; [|intros [= _ <-]; by split].
  destruct (truthy kws); [|intros [= _ <-]; by split].
  destruct (keyword_setup lm [] (keyword_list kws)) as [e|kt] eqn:Ek; [done|].
  intros [= _ <-]. split; [done|]. simpl. by apply (keyword_setup_known lm [] (keyword_list kws)).
Qed.
End LabelsExist.

(** ** Examples *)

Import HubModel.

Section Examples.
Local Open Scope string_scope.

(** The option of the spec's example. *)
Definition example_labels_option : string := "type=bug: Bug, resolution=wontfix: WontFix".

Definition example_clauses : list (string * string * string) :=
  [("type", "bug", "Bug"); ("resolution", "wontfix", "WontFix")].

Definition labels_world : World Hub :=
  mkWorld (mkHub ∅ [] ["Bug"; "WontFix"; "urgent"] [] QUOTA 0 []) 0 [] [] 0 0 ∅ [] false.
End Examples.

Lemma buildTransformations_known_witness :
  Forall (fun c => In c.2 ["Bug"; "WontFix"]) example_clauses.
Proof.
  apply (buildTransformations_known ["Bug"; "WontFix"] (tokenize example_labels_option)).
  vm_compute. reflexivity.
Defined.

Lemma buildTransformations_roundtrip_witness :
  buildTransformations ["Bug"; "WontFix"] (definition_tokens example_clauses) = inr example_clauses.
Proof. apply buildTransformations_roundtrip. vm_compute. repeat constructor; simpl; tauto. Defined.

Lemma newLabelTransformations_labels_exist_witness :
  let run := newLabelTransformations (Some example_labels_option) (tokenize example_labels_option)
               (Some "urgent") labels_world in
  (forall f v l, labelFor (match snd run with inr lt => lt | inl _ => mkLT [] [] None end) f v = Some l ->
     In l (gh_labels (w_hub labels_world))) /\
  (forall text ls, labelsForKeyWords (match snd run with inr lt => lt | inl _ => mkLT [] [] None end)
                     text = inr ls ->
     Forall (fun l => In l (gh_labels (w_hub labels_world))) ls).
Proof.
  intros run.
  apply (newLabelTransformations_labels_exist (Some example_labels_option)
           (tokenize example_labels_option) (Some "urgent") labels_world (fst run)
           (match snd run with inr lt => lt | inl _ => mkLT [] [] None end)).
  vm_compute. reflexivity.
Defined.
