(* ===== verification/Ingest.v ===== *)
(** Ingest.v: reading the exported CSV tables (tratihubis.py lines
    450-615).

    A table is what [for row in _UnicodeCsvReader(open(path, "rb"))]
    sees: the rows the reader yields, as lists of fields, and the
    exception that ends the iteration early, if any ([IOError] when the
    file cannot be opened, a decoding or [_csv.Error] of the reader); the
    loop body runs on every row before that exception.  Every function here
    checks the column count of each row ([_CsvDataError] with the 0-based
    row index it reports as [rowIndex + 1]), skips the header row, and
    converts fields: [long()] for ids, [_timeFormatter] for epochs.
    [ticket_of_row] is the dictionary literal of [_tracTicketMaps] (the
    generator's control flow, which interleaves with the migration loop,
    is modelled in Migrate.v); [createTicketToCommentsMap] and
    [createTicketsToAttachmentsMap] build the per-ticket lists, in file
    order.

    [_convertWikiToMd] calls an external Trac module and [_timeFormatter]
    formats with the local time zone: both are section variables. *)

From S2P Require Import Prelude PyStr Utf8 GitHub Log.

Local Open Scope string_scope.

(** ** Records *)

(** The ticket map yielded by [_tracTicketMaps]; [t_exists] is the key
    ['exists']: [False] or the GitHub issue being continued. *)
Record Ticket := mkTicket {
  t_id : Z;
  t_type : string;
  t_owner : string;
  t_reporter : string;
  t_milestone : string;
  t_status : string;
  t_resolution : string;
  t_summary : string;
  t_description : string;
  t_createdtime : string;
  t_modifiedtime : string;
  t_freshdesk : string;
  t_keywords : string;
  t_exists : option Issue
}.

(** [DUMMYTYPE] *)
Definition DUMMYTYPE : string := " _dummy_ ".

(** [PLACEHOLDERTICKET.copy()] with ['id'] set.  The dictionary has no
    time stamps; they are never read for a placeholder. *)
Definition placeholder (id : Z) : Ticket :=
  mkTicket id DUMMYTYPE "" "" "" "closed" "" "placeholder"
    "_trac conversion placeholder (no such trac ticket)_" "" "" "" "" None.

Definition with_exists (tm : Ticket) (i : Issue) : Ticket :=
  mkTicket (t_id tm) (t_type tm) (t_owner tm) (t_reporter tm) (t_milestone tm)
    (t_status tm) (t_resolution tm) (t_summary tm) (t_description tm)
    (t_createdtime tm) (t_modifiedtime tm) (t_freshdesk tm) (t_keywords tm) (Some i).

Record Comment := mkComment {
  c_id : Z;
  c_date : string;
  c_author : string;
  c_type : string;
  c_body : string;
  c_padding : string
}.

Definition set_comment_body (c : Comment) (b : string) : Comment :=
  mkComment (c_id c) (c_date c) (c_author c) (c_type c) b (c_padding c).

Record Attachment := mkAttachment {
  a_id : Z;
  a_author : string;
  a_filename : string;
  a_date : string;
  a_fullpath : string
}.

(** ** Field conversions *)

Definition long (text : string) : Exc + Z :=
  match parse_long text with Some n => inr n | None => inl (ValueError text) end.

(** [_setdefault(key, []).append(x)] *)
Definition append_to {A} (m : gmap Z (list A)) (k : Z) (x : A) : gmap Z (list A) :=
  <[k := app (default [] (m !! k)) [x]]> m.

Definition ticket_columns : nat := 13.
Definition comment_columns : nat := 5.
Definition attachment_columns : nat := 4.

(** The [i]-th field of a row whose length was checked. *)
Definition field (row : list string) (i : nat) : string := default "" (row !! i).

(** [u"\nFreshdesk: [{0}](https://...tickets/{0})".format(ref) if ref else ''] *)
Definition freshdesk_link (ref : string) : string :=
  if truthy ref then
    nl ++ "Freshdesk: [" ++ ref ++ "](https://retailarchitects.freshdesk.com/helpdesk/tickets/"
       ++ ref ++ ")"
  else "".

Section Conversions.
Variable convertWikiToMd : string -> Z -> string.
Variable format_epoch : Z -> option string.

(** [_timeFormatter(tractime)]: [format_epoch] stands for
    [datetime.datetime.fromtimestamp(n).strftime(TIMESTAMP_FORMAT)] in
    the local time zone, [None] where [fromtimestamp] refuses [n] (out of
    the range of the platform's [time_t], of [localtime()] or of the years
    1 to 9999: a [ValueError], or an [OverflowError], which [main] handles
    alike). *)
Definition timeFormatter (tractime : string) : Exc + string :=
  if truthy tractime then
    match long tractime with
    | inl e => inl e
    | inr n => match format_epoch n with Some s => inr s | None => inl (ValueError tractime) end
    end
  else inr "".

(** The ticket dictionary of [_tracTicketMaps] for a checked row, its
    values evaluated in the order they are written. *)
Definition ticket_of_row (row : list string) (ticketId : Z) : Exc + Ticket :=
  let description := convertWikiToMd (field row 8) ticketId in
  match timeFormatter (field row 9), timeFormatter (field row 10) with
  | inl e, _ => inl e
  | inr _, inl e => inl e
  | inr created, inr modified =>
      inr (mkTicket ticketId (field row 1) (strip (field row 2)) (strip (field row 3))
             (strip (field row 4)) (field row 5) (field row 6) (field row 7) description
             created modified (freshdesk_link (field row 11)) (field row 12) None)
  end.

(** One row of a table read by [_createTicketToCommentsMap] or
    [_createTicketsToAttachmentsMap]: check the column count, skip the
    header, else convert the row to a keyed item and append it to the
    list of its ticket.  The accumulator is [(hasReadHeader, result)]. *)
Definition table_row {A} (path : string) (columns : nat)
    (of_row : list string -> Exc + (Z * A)) (acc : bool * gmap Z (list A))
    (rowIndex : nat) (row : list string) : Exc + (bool * gmap Z (list A)) :=
  let '(hasReadHeader, result) := acc in
  if negb (length row =? columns)%nat then
    inl (CsvDataError path rowIndex columns (length row))
  else if hasReadHeader then
    match of_row row with
    | inl e => inl e
    | inr (id, x) => inr (true, append_to result id x)
    end
  else inr (true, result).

(** ** Tables read lazily *)

(** The rows a [_UnicodeCsvReader] yields and the exception that ends the
    iteration after them, if any. *)
Definition Table : Type := list (list string) * option Exc.

(** The end of a loop over a table: the exception of the reader, if any. *)
Definition table_end {A} (err : option Exc) (x : A) : Exc + A :=
  match err with Some e => inl e | None => inr x end.

(** The exceptions a reader raises: opening the file, decoding it, or
    [_csv.Error]. *)
Definition reader_error (e : Exc) : bool :=
  match e with IOError _ | UnicodeDecodeError _ _ | CsvError _ => true | _ => false end.

Definition table_ok (t : Table) : bool := from_option reader_error true t.2.

(** The [commentMap] literal of a row, its values evaluated in order. *)
Definition comment_of_row (row : list string) : Exc + (Z * Comment) :=
  match long (field row 0), timeFormatter (field row 1) with
  | inl e, _ => inl e
  | inr _, inl e => inl e
  | inr id, inr date =>
      let ty := field row 3 in
      inr (id,
        if String.eqb ty "comment" then mkComment id date (field row 2) ty (field row 4) (nl ++ nl)
        else if String.eqb ty "status" then
          mkComment id date (field row 2) "status change" ("**" ++ field row 4 ++ "**") " "
        else mkComment id date (field row 2) ty (field row 4) " ")
  end.

Definition comment_row (path : string) := table_row path comment_columns comment_of_row.

Fixpoint fold_rows {St} (step : St -> nat -> list string -> Exc + St) (acc : St)
    (i : nat) (rows : list (list string)) : Exc + St :=
  match rows with
  | [] => inr acc
  | row :: rows' =>
      match step acc i row with
      | inl e => inl e
      | inr acc' => fold_rows step acc' (S i) rows'
      end
  end.

(** [for rowIndex, row in enumerate(reader)]: the body on each row the
    reader yields, then the reader's exception. *)
Definition read_rows {St} (step : St -> nat -> list string -> Exc + St) (acc : St)
    (t : Table) : Exc + St :=
  let? acc' := fold_rows step acc 0 t.1 in table_end t.2 acc'.

(** [_createTicketToCommentsMap(commentsCsvPath)]; [None] for no path,
    in which case no file is opened. *)
Definition createTicketToCommentsMap (path : option string) (table : Table)
    : Exc + gmap Z (list Comment) :=
  match path with
  | None => inr ∅
  | Some p =>
      match read_rows (comment_row p) (false, ∅) table with
      | inl e => inl e
      | inr (_, m) => inr m
      end
  end.

(** The [_log.debug] lines of the rows the loop of a table gets through:
    [note] gives the lines of a row that [step] accepts, and the first row
    that raises ends them. *)
Fixpoint trace_rows {St} (step : St -> nat -> list string -> Exc + St)
    (note : St -> list string -> list LogMsg) (acc : St) (i : nat)
    (rows : list (list string)) : list LogMsg :=
  match rows with
  | [] => []
  | row :: rows' =>
      match step acc i row with
      | inl _ => []
      | inr acc' => note acc row ++ trace_rows step note acc' (S i) rows'
      end
  end.

(** [_log.debug(u"  imported comment {id}. {body:.30}".format(...))]
    after a data row is appended. *)
Definition comment_note (acc : bool * gmap Z (list Comment)) (row : list string) : list LogMsg :=
  if acc.1 then
    match comment_of_row row with
    | inr (id, c) => [ImportedComment id (unicode_prefix 30 (c_body c))]
    | inl _ => []
    end
  else [].

Definition comment_trace (path : string) (table : Table) : list LogMsg :=
  trace_rows (comment_row path) comment_note (false, ∅) 0 table.1.

(** The [attachmentMap] literal of a row. *)
Definition attachment_of_row (prefix : string) (row : list string) : Exc + (Z * Attachment) :=
  match long (field row 0), timeFormatter (field row 2) with
  | inl e, _ => inl e
  | inr _, inl e => inl e
  | inr id, inr date =>
      inr (id, mkAttachment id (field row 3) (field row 1) date
                 (prefix ++ "/" ++ field row 0 ++ "/" ++ field row 1))
  end.

Definition attachment_row (path prefix : string) :=
  table_row path attachment_columns (attachment_of_row prefix).

(** [_createTicketsToAttachmentsMap(attachmentsCsvPath, attachmentsPrefix)]:
    a path without a prefix is logged and ignored, its file not opened. *)
Definition createTicketsToAttachmentsMap (path prefix : option string)
    (table : Table) : Exc + gmap Z (list Attachment) :=
  match path, prefix with
  | Some p, Some pre =>
      match read_rows (attachment_row p pre) (false, ∅) table with
      | inl e => inl e
      | inr (_, m) => inr m
      end
  | _, _ => inr ∅
  end.
End Conversions.

(** ** Lemmas *)

(** A ticket map built from a row is a fresh ticket with the row's id and
    summary. *)
Lemma ticket_of_row_fields wiki fmt row id tm :
  ticket_of_row wiki fmt row id = inr tm ->
  t_id tm = id /\ t_exists tm = None /\ t_summary tm = field row 7.
Proof.
  unfold ticket_of_row.
  destruct (timeFormatter fmt (field row 9)), (timeFormatter fmt (field row 10));
    try discriminate. by intros [= <-].
Qed.

(** ** The tables as lists

    The reference reading of a table: the items of its data rows in file
    order, or the first error in file order. *)
Fixpoint table_items {A} (path : string) (columns : nat) (of_row : list string -> Exc + (Z * A))
    (hasReadHeader : bool) (i : nat) (rows : list (list string)) : Exc + list (Z * A) :=
  match rows with
  | [] => inr []
  | row :: rs =>
      if negb (length row =? columns)%nat then inl (CsvDataError path i columns (length row))
      else if hasReadHeader then
        match of_row row with
        | inl e => inl e
        | inr x =>
            match table_items path columns of_row true (S i) rs with
            | inl e => inl e
            | inr xs => inr (x :: xs)
            end
        end
      else table_items path columns of_row true (S i) rs
  end.

(** The items of ticket [id], in order. *)
Definition items_of {A} (id : Z) (xs : list (Z * A)) : list A :=
  map snd (List.filter (fun x => (x.1 =? id)%Z) xs).

Lemma append_to_lookup {A} (m : gmap Z (list A)) k x id :
  default [] (append_to m k x !! id) = app (default [] (m !! id)) (if (k =? id)%Z then [x] else []).
Proof.
  unfold append_to. rewrite lookup_insert.
  case_decide as Hk; destruct (Z.eqb_spec k id); subst; try done; by rewrite app_nil_r.
Qed.

(** Reading a table row by row into a dictionary agrees with the
    reference: the same first error, or each ticket's list is the items
    of its rows, in file order, after what the dictionary held. *)
Lemma fold_table_rows {A} path columns (of_row : list string -> Exc + (Z * A)) rows :
  forall hdr (m0 : gmap Z (list A)) i,
  match fold_rows (table_row path columns of_row) (hdr, m0) i rows,
        table_items path columns of_row hdr i rows with
  | inl e, inl e' => e = e'
  | inr (_, m), inr xs => forall id, default [] (m !! id) = app (default [] (m0 !! id)) (items_of id xs)
  | _, _ => False
  end.
Proof.
  induction rows as [|row rows IH]; intros hdr m0 i; simpl.
  - intros id. by rewrite app_nil_r.
  - unfold table_row at 1. destruct (negb _); [done|]. destruct hdr.
    + destruct (of_row row) as [e|[k x]]; [done|].
      specialize (IH true (append_to m0 k x) (S i)).
      destruct (fold_rows _ _ _ _) as [e|[b m]], (table_items _ _ _ _ _ _) as [e'|xs]; try done.
      intros id. rewrite IH, append_to_lookup, <- app_assoc. unfold items_of. simpl.
      by destruct (k =? id)%Z.
    + apply IH.
Qed.

(** The reference reading of a table read lazily: the items of the rows,
    unless a row or the reader fails first. *)
Definition items_of_table {A} (path : string) (columns : nat)
    (of_row : list string -> Exc + (Z * A)) (t : Table) : Exc + list (Z * A) :=
  let? xs := table_items path columns of_row false 0 t.1 in table_end t.2 xs.

Lemma read_table_rows {A} path columns (of_row : list string -> Exc + (Z * A)) (t : Table) :
  match read_rows (table_row path columns of_row) (false, ∅) t,
        items_of_table path columns of_row t with
  | inl e, inl e' => e = e'
  | inr (_, m), inr xs => forall id, default [] (m !! id) = items_of id xs
  | _, _ => False
  end.
Proof.
  unfold read_rows, items_of_table.
  pose proof (fold_table_rows path columns of_row t.1 false ∅ 0) as Hf.
  destruct (fold_rows _ _ _ _) as [e|[b m]], (table_items _ _ _ _ _ _); try done.
  destruct t as [rows [e|]]; simpl; [done|]. intros id. by rewrite Hf.
Qed.

(** What a dictionary of lists read from a table has to agree with the
    reference reading: the same error, or the same list for each ticket. *)
Definition same_items {A} (r : Exc + gmap Z (list A)) (xs : Exc + list (Z * A)) : Prop :=
  match r, xs with
  | inl e, inl e' => e = e'
  | inr m, inr xs => forall id, default [] (m !! id) = items_of id xs
  | _, _ => False
  end.

(** C25: the comments and attachments tables.  [_createTicketToCommentsMap]
    fails with the first error of the table in file order (a row without 5
    columns, an id that is not a number, a bad time stamp, and after the
    rows it yielded the reader's own exception), and otherwise maps each
    ticket to the comments of its rows, in file order;
    [_createTicketsToAttachmentsMap] with a prefix does the same with the
    attachments. *)
Theorem ticket_maps_in_order fmt commentsPath (ct : Table) attachmentsPath prefix (at_ : Table) :
  same_items (createTicketToCommentsMap fmt (Some commentsPath) ct)
    (items_of_table commentsPath comment_columns (comment_of_row fmt) ct) /\
  same_items (createTicketsToAttachmentsMap fmt (Some attachmentsPath) (Some prefix) at_)
    (items_of_table attachmentsPath attachment_columns (attachment_of_row fmt prefix) at_).
Proof.
  unfold createTicketToCommentsMap, comment_row, createTicketsToAttachmentsMap, attachment_row,
    same_items.
  pose proof (read_table_rows commentsPath comment_columns (comment_of_row fmt) ct) as Hc.
  pose proof (read_table_rows attachmentsPath attachment_columns (attachment_of_row fmt prefix) at_) as Ha.
  split; [destruct (read_rows _ _ ct) as [e|[b m]], (items_of_table _ _ _ ct)
         |destruct (read_rows _ _ at_) as [e|[b m]], (items_of_table _ _ _ at_)]; done.
Qed.
