(* ===== verification/Tables.v ===== *)
(** Tables.v: the tables the program reads, from the bytes of its files
    ([open(path, "rb")] and [_UnicodeCsvReader], tratihubis.py lines
    471-472, 555-556 and 595-596).

    [read_csv read_file path] is the table of Ingest.v that the loops of
    [_tracTicketMaps], [_createTicketToCommentsMap] and
    [_createTicketsToAttachmentsMap] see: [IOError] before any row when
    the file cannot be opened, otherwise the rows of [read_table] (Csv.v)
    and the exception that ends them.  The fields are Python [unicode]
    values; the model's strings carry them as their UTF-8 bytes
    ([string_of_cps]), so that a field read from a file that decodes is
    the very bytes [csv.reader] cut out of it.

    The lemmas show that a reader raises only [IOError],
    [UnicodeDecodeError] and [_csv.Error] ([table_ok]), which is what the
    theorems on [migrateTickets] assume of its tables. *)

From S2P Require Import Prelude PyStr Utf8 Csv CsvText Ingest.

Local Open Scope Z_scope.

(** ** From the file to a table *)

(** The rows of [read_table] as rows of strings. *)
Definition table_of (t : list (list (list Z)) * option Exc) : Table :=
  (map (map string_of_cps) t.1, t.2).

(** [open(path, "rb")] then the loop over [_UnicodeCsvReader]; [read_file]
    gives the bytes of the file, [None] when it cannot be opened. *)
Definition read_csv (read_file : string -> option (list Z)) (path : string) : Table :=
  match read_file path with
  | None => ([], Some (IOError path))
  | Some data => table_of (read_table data)
  end.

(** ** A reader raises only reader errors *)

Definition reader_only {A} (x : Exc + A) : Prop := forall e, x = inl e -> reader_error e = true.

Lemma reader_only_inr {A} (a : A) : reader_only (inr a).
Proof. by intros e. Qed.

Lemma reader_only_ebind {A B} (x : Exc + A) (k : A -> Exc + B) :
  reader_only x -> (forall a, reader_only (k a)) -> reader_only (ebind x k).
Proof. intros Hx Hk e. destruct x as [e'|a]; simpl; [intros [= <-]; by apply Hx|apply Hk]. Qed.

Create HintDb reader discriminated.
#[export] Hint Resolve reader_only_inr reader_only_ebind : reader.
#[export] Hint Extern 1 (reader_only (inl _)) => (by intros ? [= <-]) : reader.

Lemma utf8_decode_from_reader final pos s : reader_only (utf8_decode_from final pos s).
Proof.
  revert pos. induction s as [s IH] using (induction_ltof1 _ (@length Z)); intros pos.
  unfold ltof in IH. destruct s as [|b0 rest]; simpl; [apply reader_only_inr|].
  repeat case_match; subst; eauto with reader;
    apply reader_only_ebind; try (intros; apply reader_only_inr); apply IH; simpl; lia.
Qed.

Lemma utf8_decode_reader s : reader_only (utf8_decode s).
Proof. apply utf8_decode_from_reader. Qed.

#[export] Hint Resolve utf8_decode_reader : reader.

Section Parser.
Variable width : Z -> Z.

Lemma parse_add_char_reader r c : reader_only (parse_add_char width r c).
Proof. unfold parse_add_char. case_match; eauto with reader. Qed.

#[local] Hint Resolve parse_add_char_reader : reader.

Lemma parse_process_char_reader r c : reader_only (parse_process_char width r c).
Proof. unfold parse_process_char, start_field. repeat case_match; eauto with reader. Qed.

#[local] Hint Resolve parse_process_char_reader : reader.

Lemma process_line_reader r line : reader_only (process_line width r line).
Proof.
  unfold process_line. apply reader_only_ebind; [|eauto with reader].
  revert r. induction line as [|c line IH]; intros r; simpl; [apply reader_only_inr|].
  case_match; eauto with reader.
Qed.

(** The result [reader_next] returns, when it returns one. *)
Lemma reader_next_from_reader r lines x rest :
  reader_next_from width r lines = (Some x, rest) -> reader_only x.
Proof.
  revert r. induction lines as [|line lines IH]; intros r; simpl.
  - case_match; intros [= <- _]. apply reader_only_inr.
  - pose proof (process_line_reader r line) as Hp.
    destruct (process_line width r line) as [e|r'].
    + intros [= <- _] e' [= <-]. by apply Hp.
    + case_decide; [intros [= <- _]; apply reader_only_inr|apply IH].
Qed.
End Parser.

Lemma decode_fields_reader row : reader_only (decode_fields row).
Proof. induction row; simpl; eauto with reader. Qed.

Lemma unicode_next_reader lines x rest :
  unicode_next lines = (Some x, rest) -> reader_only x.
Proof.
  unfold unicode_next, reader_next. destruct (reader_next_from _ _ _) as [[[e|row]|] rest'] eqn:E;
    intros [= <- <-]; [|apply decode_fields_reader].
  exact (reader_next_from_reader _ _ _ _ _ E).
Qed.

Lemma iterate_reader fuel lines : from_option reader_error true (iterate unicode_next fuel lines).2 = true.
Proof.
  revert lines. induction fuel as [|fuel IH]; intros lines; simpl; [done|].
  destruct (unicode_next lines) as [[[e|row]|] rest] eqn:E; simpl; try done.
  - by apply (unicode_next_reader _ _ _ E).
  - specialize (IH rest). by destruct (iterate _ _ _).
Qed.

Lemma read_table_reader data : from_option reader_error true (read_table data).2 = true.
Proof.
  unfold read_table, stream_lines. pose proof (utf8_decode_from_reader false 0 data) as Hd.
  destruct (utf8_decode_from false 0 data) as [e|text]; simpl; [by apply Hd|].
  apply iterate_reader.
Qed.

(** The tables the program reads end only with the exceptions of a reader. *)
Lemma read_csv_ok read_file path : table_ok (read_csv read_file path) = true.
Proof. unfold read_csv, table_ok. destruct (read_file path); [apply read_table_reader|done]. Qed.

Lemma read_csv_opt_ok read_file (path : option string) :
  table_ok (from_option (read_csv read_file) ([], None) path) = true.
Proof. destruct path; [apply read_csv_ok|done]. Qed.

#[export] Hint Resolve read_csv_ok read_csv_opt_ok : reader.
