(* ===== verification/Migrate.v ===== *)
(** Migrate.v: the migration engine, [migrateTickets] and the generator
    [_tracTicketMaps] it consumes (tratihubis.py lines 462-519, 618-788).

    [migrateTickets] keeps local state: [existingIssues] (issue number to
    issue, read from GitHub and extended as issues are created),
    [existingMilestones] (title to milestone), [fakeIssueId] (the next
    number of a dry run), and the comment lists of
    [tracTicketToCommentsMap], whose dictionaries it mutates in place.
    With the process state of Pacing.v this is the record [Run].

    The generator [_tracTicketMaps] reads [len(existingIssues)] for every
    row, while the loop that consumes it adds the issues it creates to the
    same dictionary: gap filling works because of this sharing.  The
    model keeps one [r_existing] that both read and write, and runs the
    generator's step for a row ([process_row]) with the consumer's step
    ([migrate_ticket]) called at each [yield], in the order Python runs
    them: the placeholders of a gap are created before the ticket's own
    dictionary is built.

    [pretend] is the dry run ([--really] not given): no mutating call is
    sent, issues and milestones get made-up numbers. *)

From S2P Require Import Prelude PyStr Config GitHub Log Pacing Users Labels Ingest.

Local Open Scope string_scope.

(** ** State *)

Record Run (H : Type) := mkRun {
  r_world : World H;
  r_existing : gmap Z Issue;              (* existingIssues *)
  r_milestones : gmap string Milestone;   (* existingMilestones *)
  r_fake_id : Z;                          (* fakeIssueId *)
  r_comments : gmap Z (list Comment);     (* tracTicketToCommentsMap *)
  r_header_read : bool;                   (* hasReadHeader of the generator *)
  r_closed : gset Z                       (* the keys of existingIssues whose issue
                                             object issue.edit(state='closed') closed *)
}.
Arguments mkRun {H}.
Arguments r_world {H}.
Arguments r_existing {H}.
Arguments r_milestones {H}.
Arguments r_fake_id {H}.
Arguments r_comments {H}.
Arguments r_header_read {H}.
Arguments r_closed {H}.

Section RunSetters.
Context {H : Type}.
Implicit Types r : Run H.
Definition set_world (w : World H) r : Run H :=
  mkRun w (r_existing r) (r_milestones r) (r_fake_id r) (r_comments r) (r_header_read r) (r_closed r).
Definition set_existing (m : gmap Z Issue) r : Run H :=
  mkRun (r_world r) m (r_milestones r) (r_fake_id r) (r_comments r) (r_header_read r) (r_closed r).
Definition set_milestones (m : gmap string Milestone) r : Run H :=
  mkRun (r_world r) (r_existing r) m (r_fake_id r) (r_comments r) (r_header_read r) (r_closed r).
Definition set_fake_id (n : Z) r : Run H :=
  mkRun (r_world r) (r_existing r) (r_milestones r) n (r_comments r) (r_header_read r) (r_closed r).
Definition set_comments (m : gmap Z (list Comment)) r : Run H :=
  mkRun (r_world r) (r_existing r) (r_milestones r) (r_fake_id r) m (r_header_read r) (r_closed r).
Definition set_header_read (b : bool) r : Run H :=
  mkRun (r_world r) (r_existing r) (r_milestones r) (r_fake_id r) (r_comments r) b (r_closed r).
Definition set_closed (c : gset Z) r : Run H :=
  mkRun (r_world r) (r_existing r) (r_milestones r) (r_fake_id r) (r_comments r) (r_header_read r) c.
End RunSetters.

(** The arguments of one call of [migrateTickets] and what it builds
    before its loop. *)
Record Env := mkEnv {
  e_pretend : bool;
  e_usermap : gmap string string;
  e_labels : LabelTransformations;
  e_attachments : gmap Z (list Attachment);
  e_last_hub_issue : Z;        (* lastHubIssue of the generator *)
  e_tickets_path : string
}.

(** ** Text of issues and comments *)

(** [LEGACY_HEADER_TEMPLATE.format(...)] on the ticket map *)
Definition legacy_header (tm : Ticket) : string :=
  "_Imported from trac ticket " ++ str_of_Z (t_id tm) ++ "." ++ nl ++
  "Created by **" ++ t_reporter tm ++ "**" ++ nl ++
  "Opened in trac: " ++ t_createdtime tm ++ nl ++
  "Last modified in trac: " ++ t_modifiedtime tm ++ t_freshdesk tm ++ "_".

Definition attachment_line (a : Attachment) : string :=
  "* " ++ a_author a ++ " attached [" ++ a_filename a ++ "](" ++
  replace_space (a_fullpath a) ++ ") on " ++ a_date a ++ nl.

Definition attachment_info (atts : option (list Attachment)) : string :=
  match atts with
  | Some l => fold_left (fun acc a => acc ++ attachment_line a) l ""
  | None => ""
  end.

Definition SEPARATOR : string := nl ++ "***" ++ nl.

(** [u'_%strac %s on %s:_%s%s' % (...)] *)
Definition comment_text (c : Comment) : string :=
  "_" ++ (if truthy (c_author c) then "**" ++ c_author c ++ "** " else "") ++
  "trac " ++ c_type c ++ " on " ++ c_date c ++ ":_" ++ c_padding c ++ c_body c.

(** ** GitHub calls on the process state *)

Section WorldCalls.
Context {H : Type} `{!GitHubApi H}.

Definition create_issue_w (t b : string) (a : option string) (m : option Z)
    (l : option (list string)) : ST (World H) Issue :=
  fun w => let '(h', i) := gh_create_issue (w_now w) (w_hub w) t b a m l in
           (set_hub h' w, inr i).

Definition create_milestone_w (t : string) : ST (World H) Milestone :=
  fun w => let '(h', ms) := gh_create_milestone (w_now w) (w_hub w) t in
           (set_hub h' w, inr ms).

Definition create_comment_w (n : Z) (b : string) : ST (World H) unit :=
  fun w => (set_hub (gh_create_comment (w_now w) (w_hub w) n b) w, inr tt).

Definition edit_state_w (n : Z) (st : string) : ST (World H) unit :=
  fun w => (set_hub (gh_edit_state (w_now w) (w_hub w) n st) w, inr tt).

(** [_addGitHubIssueComment(issue, commentBody)] *)
Definition addGitHubIssueComment (issue : Issue) (text : string) : ST (World H) unit :=
  apiPauseIfNeeded true ;;
  create_comment_w (number issue) text ;;
  apiCreationIncrement.

(** [_totalIssues += 1] *)
Definition count_issue : ST (World H) unit :=
  smodify (fun w => set_totals (w_total_creations w) (w_total_issues w + 1) w).
End WorldCalls.

(** ** The engine *)

Section Engine.
Context {H : Type} `{!GitHubApi H}.
Variable convertWikiToMd : string -> Z -> string.
Variable format_epoch : Z -> option string.
Variable env : Env.

Definition onWorld {A} (m : ST (World H) A) : ST (Run H) A := zoom r_world set_world m.

Definition lift {A} (x : Exc + A) : ST (Run H) A :=
  match x with inl e => sraise e | inr a => sret a end.

(** [possiblyAddLabel(labels, tracField, tracValue)]: [labels.append]
    when [labelFor] finds a label. *)
Definition possiblyAddLabel (lt : LabelTransformations) (labels : list string)
    (field value : string) : ST (Run H) (list string) :=
  match labelFor lt field value with
  | Some l => onWorld (emit INFO (AddLabel l)) ;; sret (app labels [l])
  | None => sret labels
  end.

(** [labelsFromKeywords(labels, keywords)] *)
Definition labelsFromKeywords (lt : LabelTransformations) (labels : list string)
    (keywords : string) : ST (Run H) (list string) :=
  kwlabels <- lift (labelsForKeyWords lt keywords) ;;
  sfor kwlabels (fun l => onWorld (emit INFO (AddKeywordLabel l keywords))) ;;
  sret (app labels kwlabels).

(** [milestone = existingMilestones[milestoneTitle]], creating it first
    when it is missing. *)
Definition ensure_milestone (t : string) : ST (Run H) Milestone :=
  r <- sget ;;
  match r_milestones r !! t with
  | Some ms => sret ms
  | None =>
      ms <- (if e_pretend env
             then sret (mkMilestone (Z.of_nat (size (r_milestones r)) + 1) t)
             else onWorld (apiPauseIfNeeded true ;;
                           ms <- create_milestone_w t ;;
                           apiCreationIncrement ;;
                           sret ms)) ;;
      onWorld (emit INFO (AddMilestone t)) ;;
      smodify (fun r' => set_milestones (<[t := ms]> (r_milestones r')) r') ;;
      r' <- sget ;;
      onWorld (emit DEBUG (MilestoneMap (map_to_list (r_milestones r')))) ;;
      sret ms
  end.

(** The arguments of [repo.create_issue] for a ticket map: body,
    assignee, milestone number, labels. *)
Definition prepare_issue (tm : Ticket)
    : ST (Run H) (string * option string * option Z * list string) :=
  let body := t_description tm in
  let tracOwner := t_owner tm in
  let milestoneTitle := t_milestone tm in
  if String.eqb (t_type tm) DUMMYTYPE then sret (body, None, None, [])
  else
    let body1 := if truthy body && truthy (t_reporter tm) &&
                    negb (String.eqb (t_reporter tm) tracOwner)
                 then "_by " ++ t_reporter tm ++ ":_" ++ nl ++ body else body in
    ga <- onWorld (githubUserFor (e_usermap env) tracOwner true) ;;
    assignee <- (if truthy ga then u <- onWorld (getGitHubUser ga) ;; sret (Some u)
                 else sret None) ;;
    milestone <- (if truthy milestoneTitle
                  then ms <- ensure_milestone milestoneTitle ;; sret (Some (ms_number ms))
                  else sret None) ;;
    let body2 := legacy_header tm ++ SEPARATOR ++ body1 in
    let atts := e_attachments env !! t_id tm in
    let info := attachment_info atts in
    sfor (default [] atts) (fun a => onWorld (emit INFO (AddedAttachment (a_author a)))) ;;
    let body3 := if truthy info then body2 ++ SEPARATOR ++ info else body2 in
    labels1 <- possiblyAddLabel (e_labels env) [] "type" (t_type tm) ;;
    labels2 <- possiblyAddLabel (e_labels env) labels1 "resolution" (t_resolution tm) ;;
    labels3 <- labelsFromKeywords (e_labels env) labels2 (t_keywords tm) ;;
    sret (body3, assignee, milestone, labels3).

(** [repo.create_issue(...)] in a real run, [_FakeIssue(...)] in a dry run. *)
Definition send_issue (title body : string) (assignee : option string)
    (milestone : option Z) (labels : list string) : ST (Run H) Issue :=
  if e_pretend env then
    r <- sget ;;
    smodify (set_fake_id (r_fake_id r + 1)) ;;
    sret (mkIssue (r_fake_id r) title body "open" 0)
  else
    onWorld (apiPauseIfNeeded true ;;
             i <- create_issue_w title body assignee milestone
                    (match labels with [] => None | _ => Some labels end) ;;
             apiCreationIncrement ;;
             count_issue ;;
             sret i).

(** The [else] branch of [if ticketMap['exists']]: create the issue,
    check its number, record it in [existingIssues]. *)
Definition create_fresh (tm : Ticket) : ST (Run H) Issue :=
  onWorld (emit_at INFO (fun debug => ConvertTicket (t_id tm) (shortened debug (t_summary tm)))) ;;
  p <- prepare_issue tm ;;
  let '(body, assignee, milestone, labels) := p in
  issue <- send_issue (t_summary tm) body assignee milestone labels ;;
  onWorld (emit INFO (IssueLogged (number issue) (t_owner tm) (default "" assignee)
                        (t_milestone tm) (default 0%Z milestone))) ;;
  if negb (number issue =? t_id tm)%Z then sraise (SyncError (number issue) (t_id tm))
  else
    smodify (fun r => set_existing (<[t_id tm := issue]> (r_existing r)) r) ;;
    sret issue.

(** One comment of [commentsToAdd[issue.comments:]], by its index [i]
    in the ticket's list: the dictionary is read and written in place. *)
Definition add_comment (ticketId : Z) (issue : Issue) (i : nat) : ST (Run H) unit :=
  r <- sget ;;
  match r_comments r !! ticketId with
  | None => sret tt
  | Some cs =>
      match cs !! i with
      | None => sret tt
      | Some c =>
          c' <- (if String.eqb (c_type c) "comment"
                 then let c' := set_comment_body c (convertWikiToMd (c_body c) (c_id c)) in
                      smodify (fun r' => set_comments
                        (<[ticketId := <[i := c']> cs]> (r_comments r')) r') ;;
                      sret c'
                 else sret c) ;;
          swhen (negb (e_pretend env)) (onWorld (addGitHubIssueComment issue (comment_text c'))) ;;
          onWorld (emit_at INFO (fun debug => AddComment (c_author c') (shortened debug (comment_text c'))))
      end
  end.

(** The comments of the ticket beyond the [issue.comments] the issue
    already has. *)
Definition add_comments (ticketId : Z) (issue : Issue) : ST (Run H) unit :=
  r <- sget ;;
  match r_comments r !! ticketId with
  | None => sret tt
  | Some cs => sfor (seq (comments issue) (length cs - comments issue))
                    (add_comment ticketId issue)
  end.

(** [issue.state]: the issue object is the one [existingIssues] holds
    under the ticket's id, and [issue.edit(state='closed')] sets the state
    of that shared object to [closed]. *)
Definition issue_state (r : Run H) (key : Z) (issue : Issue) : string :=
  if decide (key ∈ r_closed r) then "closed" else state issue.

Definition close_if_needed (tm : Ticket) (issue : Issue) : ST (Run H) unit :=
  r <- sget ;;
  swhen (String.eqb (t_status tm) "closed" &&
         negb (String.eqb (issue_state r (t_id tm) issue) "closed"))
    (onWorld (emit INFO CloseIssue) ;;
     swhen (negb (e_pretend env))
       (onWorld (apiPauseIfNeeded false ;; edit_state_w (number issue) "closed") ;;
        smodify (fun r' => set_closed ({[t_id tm]} ∪ r_closed r') r'))).

(** The body of [for ticketMap in _tracTicketMaps(...)]. *)
Definition migrate_ticket (tm : Ticket) : ST (Run H) unit :=
  issue <- (match t_exists tm with
            | Some i =>
                onWorld (emit_at INFO (fun debug =>
                  ContinuingTicket (t_id tm) (shortened debug (t_summary tm)))) ;;
                sret i
            | None => create_fresh tm
            end) ;;
  add_comments (t_id tm) issue ;;
  close_if_needed tm issue.

(** The [ticketId == lastHubIssue] case of the generator: the ticket is
    the last issue of the previous run, whose title must match. *)
Definition resume_check (tm : Ticket) : ST (Run H) Ticket :=
  if (t_id tm =? e_last_hub_issue env)%Z then
    r <- sget ;;
    issue <- of_option (KeyError (t_id tm)) (r_existing r !! t_id tm) ;;
    if negb (String.eqb (title issue) (t_summary tm))
    then sraise (TitleMismatch (title issue) (t_summary tm))
    else sret (with_exists tm issue)
  else sret tm.

(** One row of [_tracTicketMaps], with the consumer run at each [yield]. *)
Definition process_row (rowIndex : nat) (row : list string) : ST (Run H) unit :=
  if negb (length row =? ticket_columns)%nat then
    sraise (CsvDataError (e_tickets_path env) rowIndex ticket_columns (length row))
  else
    r <- sget ;;
    if negb (r_header_read r) then smodify (set_header_read true)
    else
      ticketId <- lift (long (field row 0)) ;;
      if (ticketId <? e_last_hub_issue env)%Z then sret tt
      else
        r1 <- sget ;;
        let current := Z.of_nat (size (r_existing r1)) in
        if negb (ticketId =? e_last_hub_issue env)%Z && (ticketId <=? current)%Z
        then sraise (OutOfOrder ticketId)
        else
          sfor (ids_between current (ticketId - 1)) (fun id => migrate_ticket (placeholder id)) ;;
          tm <- lift (ticket_of_row convertWikiToMd format_epoch row ticketId) ;;
          tm' <- resume_check tm ;;
          migrate_ticket tm'.

Fixpoint process_rows_from (i : nat) (rows : list (list string)) : ST (Run H) unit :=
  match rows with
  | [] => sret tt
  | row :: rows' => process_row i row ;; process_rows_from (S i) rows'
  end.

Definition process_rows (rows : list (list string)) : ST (Run H) unit :=
  process_rows_from 0 rows.
End Engine.

(** A log record written by the engine changes only the process state's log. *)
Section RunLog.
Context {H : Type}.

Lemma onWorld_run {A} (m : ST (World H) A) (r : Run H) w' res :
  m (r_world r) = (w', res) -> onWorld m r = (set_world w' r, res).
Proof. unfold onWorld, zoom. by intros ->. Qed.

Lemma sbind_onWorld_emit {B} lvl msg (k : unit -> ST (Run H) B) r :
  sbind (onWorld (emit lvl msg)) k r = k tt (set_world (write_log lvl [msg] (r_world r)) r).
Proof. reflexivity. Qed.

Lemma sbind_onWorld_emit_at {B} lvl f (k : unit -> ST (Run H) B) r :
  sbind (onWorld (emit_at lvl f)) k r =
    k tt (set_world (write_log lvl [f (w_debug (r_world r))] (r_world r)) r).
Proof. reflexivity. Qed.
End RunLog.
