(* ===== verification/Frame.v ===== *)
(** Frame.v: what the steps of the engine leave unchanged.

    The numbering argument only looks at the number and the title of each
    issue, on GitHub and in [existingIssues]: [issue_shape].  Comments and
    state edits change other fields, reads and pauses change nothing, and
    creating a milestone adds no issue.  [keeps_shape] states this of a
    step on the process state, [framed] of a step of the engine that
    moreover leaves [existingIssues] and [fakeIssueId] alone.  Both also
    say that the step does not raise the numbering error [SyncError]: only
    the check of [create_fresh] raises it.  Both are closed under [sbind],
    so the proofs for the engine's helpers are a few lines of [eauto] with
    the hint database [frame]. *)

From S2P Require Import Prelude PyStr GitHub Log Pacing Users Labels Ingest Migrate.

Local Open Scope Z_scope.

Create HintDb frame discriminated.

(** An outcome other than [SyncError]. *)
Definition not_sync {A} (res : Exc + A) : Prop :=
  match res with inl (SyncError _ _) => False | _ => True end.

Definition issue_shape (m : gmap Z Issue) : gmap Z (Z * string) :=
  (fun i => (number i, title i)) <$> m.

Lemma issue_shape_alter_comment (m : gmap Z Issue) n :
  issue_shape (alter with_comment n m) = issue_shape m.
Proof.
  unfold issue_shape. apply map_eq. intros k. rewrite !lookup_fmap, lookup_alter.
  case_decide; [subst; by destruct (m !! _)|done].
Qed.

Lemma issue_shape_alter_state (m : gmap Z Issue) st n :
  issue_shape (alter (with_state st) n m) = issue_shape m.
Proof.
  unfold issue_shape. apply map_eq. intros k. rewrite !lookup_fmap, lookup_alter.
  case_decide; [subst; by destruct (m !! _)|done].
Qed.

Lemma issue_shape_insert (m : gmap Z Issue) k i :
  issue_shape (<[k := i]> m) = <[k := (number i, title i)]> (issue_shape m).
Proof. unfold issue_shape. by rewrite fmap_insert. Qed.

Lemma size_issue_shape (m : gmap Z Issue) : size (issue_shape m) = size m.
Proof. apply map_size_fmap. Qed.

Section Frames.
Context {H : Type} `{!GitHubApi H} `{!GitHubLaws H}.

Definition hub_shape (w : World H) : gmap Z (Z * string) := issue_shape (gh_issues (w_hub w)).

(** A step on the process state that creates no issue and changes none. *)
Definition keeps_shape {A} (m : ST (World H) A) : Prop :=
  forall w, hub_shape (fst (m w)) = hub_shape w /\ not_sync (snd (m w)).

Lemma keeps_shape_ret {A} (a : A) : keeps_shape (sret a).
Proof. done. Qed.

Lemma keeps_shape_raise {A} e : not_sync (@inl Exc A e) -> keeps_shape (@sraise _ A e).
Proof. done. Qed.

Lemma keeps_shape_get : keeps_shape (@sget (World H)).
Proof. done. Qed.

Lemma keeps_shape_bind {A B} (m : ST (World H) A) (k : A -> ST (World H) B) :
  keeps_shape m -> (forall a, keeps_shape (k a)) -> keeps_shape (sbind m k).
Proof.
  intros Hm Hk w. unfold sbind. specialize (Hm w).
  destruct (m w) as [w' [e|a]]; simpl in *; [done|].
  destruct (Hk a w') as [-> ?]. by destruct Hm.
Qed.

Lemma keeps_shape_when b (m : ST (World H) unit) : keeps_shape m -> keeps_shape (swhen b m).
Proof. destruct b; [done|apply keeps_shape_ret]. Qed.

Lemma keeps_shape_of_option {A} e (o : option A) :
  not_sync (@inl Exc A e) -> keeps_shape (of_option e o).
Proof. by destruct o. Qed.

Lemma keeps_shape_pause b : keeps_shape (apiPauseIfNeeded b).
Proof.
  intros w. unfold hub_shape.
  destruct (apiPauseIfNeeded_frame (fun h => gh_issues h = gh_issues (w_hub w)) b w)
    as (Hr & Hh & _); [|done|by rewrite Hh, Hr].
  intros t h0 Hh0. by rewrite get_rate_limit_issues.
Qed.

Lemma keeps_shape_increment : keeps_shape apiCreationIncrement.
Proof. done. Qed.

Lemma keeps_shape_count_issue : keeps_shape count_issue.
Proof. done. Qed.

Lemma keeps_shape_set_validated f :
  keeps_shape (smodify (fun w : World H => set_validated (f w) w)).
Proof. done. Qed.

Lemma keeps_shape_create_milestone t : keeps_shape (create_milestone_w t).
Proof.
  intros w. unfold create_milestone_w, hub_shape.
  pose proof (create_milestone_issues (w_now w) (w_hub w) t) as E.
  destruct (gh_create_milestone _ _ _) as [h' ms]. simpl in *. by rewrite E.
Qed.

Lemma keeps_shape_create_comment n b : keeps_shape (create_comment_w n b).
Proof.
  intros w. unfold create_comment_w, hub_shape. simpl.
  rewrite create_comment_issues, issue_shape_alter_comment. done.
Qed.

Lemma keeps_shape_edit_state n st : keeps_shape (edit_state_w n st).
Proof.
  intros w. unfold edit_state_w, hub_shape. simpl.
  rewrite edit_state_issues, issue_shape_alter_state. done.
Qed.

Lemma keeps_shape_emit lvl msg : keeps_shape (emit lvl msg).
Proof. done. Qed.

Lemma keeps_shape_emit_at lvl f : keeps_shape (emit_at lvl f).
Proof. done. Qed.

Lemma keeps_shape_sfor {A} (l : list A) (body : A -> ST (World H) unit) :
  (forall x, keeps_shape (body x)) -> keeps_shape (sfor l body).
Proof. intros Hb. induction l; simpl; [apply keeps_shape_ret|by apply keeps_shape_bind]. Qed.

#[local] Hint Resolve keeps_shape_ret keeps_shape_raise keeps_shape_get keeps_shape_bind
  keeps_shape_emit keeps_shape_emit_at keeps_shape_sfor
  keeps_shape_when keeps_shape_of_option keeps_shape_pause keeps_shape_increment
  keeps_shape_count_issue keeps_shape_set_validated keeps_shape_create_milestone
  keeps_shape_create_comment keeps_shape_edit_state : frame.
#[local] Hint Extern 1 (not_sync _) => exact I : frame.

Lemma keeps_shape_getGitHubUser name : keeps_shape (getGitHubUser name).
Proof.
  unfold getGitHubUser. apply keeps_shape_bind; [apply keeps_shape_get|].
  intros w. destruct (w_validated w !! name); eauto 8 with frame.
Qed.

Lemma keeps_shape_validate t g : keeps_shape (validateGithubUser t g).
Proof.
  intros w. unfold validateGithubUser. pose proof (keeps_shape_getGitHubUser g w) as E.
  destruct (getGitHubUser g w) as [w' [e|u]]; simpl in *; split; try done; apply E.
Qed.

Lemma keeps_shape_githubUserFor m u v : keeps_shape (githubUserFor m u v).
Proof.
  unfold githubUserFor. destruct (negb (truthy u)); [apply keeps_shape_ret|].
  apply keeps_shape_bind; [destruct (m !! u); eauto with frame|].
  intros a. eauto using keeps_shape_validate with frame.
Qed.

Lemma keeps_shape_addComment i t : keeps_shape (addGitHubIssueComment i t).
Proof. unfold addGitHubIssueComment. eauto 7 with frame. Qed.

(** ** Steps of the engine *)

(** A step of the engine that leaves [existingIssues], [fakeIssueId] and
    the shape of GitHub's issues alone. *)
Definition framed {A} (m : ST (Run H) A) : Prop :=
  forall r, r_existing (fst (m r)) = r_existing r /\ r_fake_id (fst (m r)) = r_fake_id r /\
            hub_shape (r_world (fst (m r))) = hub_shape (r_world r) /\ not_sync (snd (m r)).

Lemma framed_ret {A} (a : A) : framed (sret a).
Proof. done. Qed.

Lemma framed_raise {A} e : not_sync (@inl Exc A e) -> framed (@sraise _ A e).
Proof. done. Qed.

Lemma framed_get : framed (@sget (Run H)).
Proof. done. Qed.

Lemma framed_bind {A B} (m : ST (Run H) A) (k : A -> ST (Run H) B) :
  framed m -> (forall a, framed (k a)) -> framed (sbind m k).
Proof.
  intros Hm Hk r. unfold sbind. specialize (Hm r).
  destruct (m r) as [r' [e|a]]; simpl in *; [done|].
  destruct (Hk a r') as (? & ? & ? & ?). destruct Hm as (? & ? & ? & ?). split_and!; congruence.
Qed.

Lemma framed_when b (m : ST (Run H) unit) : framed m -> framed (swhen b m).
Proof. destruct b; [done|apply framed_ret]. Qed.

Lemma framed_sfor {A} (l : list A) body : (forall x, framed (body x)) -> framed (sfor l body).
Proof. intros Hb. induction l; simpl; [apply framed_ret|by apply framed_bind]. Qed.

Lemma framed_of_option {A} e (o : option A) :
  not_sync (@inl Exc A e) -> framed (of_option e o).
Proof. by destruct o. Qed.

Lemma framed_lift {A} (x : Exc + A) : not_sync x -> framed (lift x).
Proof. by destruct x as [[]|]. Qed.

(** Marking issue objects closed touches nothing else. *)
Lemma framed_closed (f : Run H -> gset Z) : framed (smodify (fun r => set_closed (f r) r)).
Proof. done. Qed.

Lemma framed_onWorld {A} (m : ST (World H) A) : keeps_shape m -> framed (onWorld m).
Proof.
  intros Hm r. unfold onWorld, zoom. specialize (Hm (r_world r)).
  destruct (m (r_world r)) as [w' res]. simpl in *. by destruct Hm.
Qed.

Lemma framed_set_milestones f :
  framed (smodify (fun r : Run H => set_milestones (f r) r)).
Proof. done. Qed.

Lemma framed_set_comments f :
  framed (smodify (fun r : Run H => set_comments (f r) r)).
Proof. done. Qed.

Lemma framed_set_header b : framed (smodify (@set_header_read H b)).
Proof. done. Qed.
End Frames.

#[export] Hint Resolve keeps_shape_ret keeps_shape_raise keeps_shape_get keeps_shape_bind
  keeps_shape_emit keeps_shape_emit_at keeps_shape_sfor keeps_shape_when keeps_shape_of_option keeps_shape_pause keeps_shape_increment
  keeps_shape_count_issue keeps_shape_set_validated keeps_shape_create_milestone
  keeps_shape_create_comment keeps_shape_edit_state keeps_shape_getGitHubUser
  keeps_shape_validate keeps_shape_githubUserFor keeps_shape_addComment : frame.
#[export] Hint Resolve framed_ret framed_raise framed_get framed_closed framed_bind framed_when framed_sfor
  framed_of_option framed_lift framed_onWorld framed_set_milestones framed_set_comments
  framed_set_header : frame.
#[export] Hint Extern 1 (not_sync _) => exact I : frame.

(** The conversions of a row raise no [SyncError]. *)
Lemma not_sync_labelsForKeyWords lt kw : not_sync (labelsForKeyWords lt kw).
Proof. unfold labelsForKeyWords. by destruct (lt_keywords lt). Qed.

Lemma not_sync_long s : not_sync (long s).
Proof. unfold long. by destruct (parse_long s). Qed.

Lemma not_sync_timeFormatter fmt s : not_sync (timeFormatter fmt s).
Proof.
  unfold timeFormatter. destruct (truthy s); [|done].
  pose proof (not_sync_long s). destruct (long s); [done|by destruct (fmt _)].
Qed.

Lemma not_sync_ticket_of_row wiki fmt row id : not_sync (ticket_of_row wiki fmt row id).
Proof.
  unfold ticket_of_row.
  pose proof (not_sync_timeFormatter fmt (field row 9)).
  pose proof (not_sync_timeFormatter fmt (field row 10)).
  destruct (timeFormatter fmt (field row 9)), (timeFormatter fmt (field row 10)); done.
Qed.

#[export] Hint Resolve not_sync_labelsForKeyWords not_sync_long not_sync_ticket_of_row : frame.

(** ** The engine's helpers are framed *)

Section EngineFrames.
Context {H : Type} `{!GitHubApi H} `{!GitHubLaws H}.
Variable convertWikiToMd : string -> Z -> string.
Variable env : Env.

Lemma framed_ensure_milestone t : framed (@ensure_milestone H _ env t).
Proof.
  unfold ensure_milestone. apply framed_bind; [apply framed_get|]. intros r.
  destruct (r_milestones r !! t); [apply framed_ret|].
  apply framed_bind; [destruct (e_pretend env); eauto 8 with frame|].
  eauto with frame.
Qed.

Lemma framed_possiblyAddLabel lt labels field value :
  framed (possiblyAddLabel (H:=H) lt labels field value).
Proof. unfold possiblyAddLabel. destruct (labelFor _ _ _); eauto with frame. Qed.

Lemma framed_labelsFromKeywords lt labels kw : framed (labelsFromKeywords (H:=H) lt labels kw).
Proof. unfold labelsFromKeywords. eauto 6 with frame. Qed.

Lemma framed_prepare_issue tm : framed (@prepare_issue H _ env tm).
Proof.
  unfold prepare_issue. destruct (String.eqb _ _); [apply framed_ret|].
  apply framed_bind; [eauto with frame|]. intros ga.
  apply framed_bind; [destruct (truthy ga); eauto 6 with frame|]. intros a.
  apply framed_bind; [destruct (truthy _); eauto 6 using framed_ensure_milestone with frame|].
  eauto 10 using framed_possiblyAddLabel, framed_labelsFromKeywords with frame.
Qed.

Lemma framed_add_comment t i n : framed (@add_comment H _ convertWikiToMd env t i n).
Proof.
  unfold add_comment. apply framed_bind; [apply framed_get|]. intros r.
  destruct (r_comments r !! t) as [cs|]; [|apply framed_ret].
  destruct (cs !! n) as [c|]; [|apply framed_ret].
  apply framed_bind; [destruct (String.eqb _ _); eauto with frame|].
  eauto with frame.
Qed.

Lemma framed_add_comments t i : framed (@add_comments H _ convertWikiToMd env t i).
Proof.
  unfold add_comments. apply framed_bind; [apply framed_get|]. intros r.
  destruct (r_comments r !! t); eauto using framed_add_comment with frame.
Qed.

Lemma framed_close_if_needed tm i : framed (@close_if_needed H _ env tm i).
Proof.
  unfold close_if_needed. apply framed_bind; [apply framed_get|intros r].
  apply framed_when. apply framed_bind; [eauto with frame|intros _].
  apply framed_when. apply framed_bind; [eauto with frame|intros _].
  apply (framed_closed (fun r' => {[t_id tm]} ∪ r_closed r')).
Qed.
End EngineFrames.

#[export] Hint Resolve framed_possiblyAddLabel framed_labelsFromKeywords
  framed_ensure_milestone framed_prepare_issue framed_add_comment
  framed_add_comments framed_close_if_needed : frame.
