(* ===== verification/Alignment.v ===== *)
(** Alignment.v: the numbering alignment of the migration.

    The invariant [aligned] of the engine's state: [existingIssues] holds
    exactly the numbers [1 .. n], each issue under its own number, the
    generator's [lastHubIssue] is at most [n], and the next number is
    [n + 1]: in a real run GitHub holds the same numbers and titles, in a
    dry run [fakeIssueId] is [n + 1].  Every step of the engine keeps it,
    whatever the step's outcome, and the check
    [issue.number != ticketId] never fails: placeholders fill every gap
    before a ticket is created, so a ticket is created exactly when its id
    is the next number. *)

From S2P Require Import Prelude PyStr Config GitHub Log Pacing Users Labels Ingest Migrate Frame.

Local Open Scope Z_scope.

Definition keyed (m : gmap Z Issue) : Prop :=
  forall k i, m !! k = Some i -> number i = k.

Lemma keyed_insert (m : gmap Z Issue) k i :
  keyed m -> number i = k -> keyed (<[k := i]> m).
Proof. intros Hm Hi j x. rewrite lookup_insert. case_decide; [intros [= <-]; congruence|apply Hm]. Qed.

Section Alignment.
Context {H : Type} `{!GitHubApi H} `{!GitHubLaws H}.
Variable convertWikiToMd : string -> Z -> string.
Variable format_epoch : Z -> option string.
Variable env : Env.

Definition current (r : Run H) : Z := Z.of_nat (size (r_existing r)).

Lemma sbind_lift_inr {A B} (a : A) (k : A -> ST (Run H) B) r :
  sbind (lift (inr a)) k r = k a r.
Proof. reflexivity. Qed.

Definition aligned (r : Run H) : Prop :=
  contiguous (r_existing r) /\ keyed (r_existing r) /\ e_last_hub_issue env <= current r /\
  (if e_pretend env then r_fake_id r = current r + 1
   else hub_shape (r_world r) = issue_shape (r_existing r)).

Lemma aligned_framed {A} (m : ST (Run H) A) r :
  framed m -> aligned r ->
  aligned (fst (m r)) /\ not_sync (snd (m r)) /\ r_existing (fst (m r)) = r_existing r.
Proof.
  intros Hm (Hc & Hk & Hl & Hn). destruct (Hm r) as (He & Hf & Hs & Hns).
  unfold aligned, current. rewrite He, Hf, Hs. done.
Qed.

(** A log record keeps the alignment. *)
Lemma aligned_log r lvl msgs :
  aligned r -> aligned (set_world (write_log lvl msgs (r_world r)) r).
Proof. done. Qed.

(** [send_issue] raises nothing and returns the issue numbered [n + 1]. *)
Lemma send_issue_spec t b a ms l r :
  aligned r ->
  exists i, snd (send_issue env t b a ms l r) = inr i /\
    number i = current r + 1 /\ title i = t /\
    r_existing (fst (send_issue env t b a ms l r)) = r_existing r /\
    (if e_pretend env
     then r_fake_id (fst (send_issue env t b a ms l r)) = r_fake_id r + 1
     else hub_shape (r_world (fst (send_issue env t b a ms l r))) =
            <[current r + 1 := (current r + 1, t)]> (hub_shape (r_world r))).
Proof.
  intros (Hc & Hk & Hl & Hn). unfold send_issue.
  destruct (e_pretend env).
  - simpl. eexists. split_and!; try reflexivity. exact Hn.
  - unfold onWorld, zoom, sbind.
    set (w := r_world r).
    destruct (apiPauseIfNeeded_frame (fun h => gh_issues h = gh_issues (w_hub w)) true w)
      as (Hr & Hh & _); [intros ? ? E; by rewrite get_rate_limit_issues|done|].
    destruct (apiPauseIfNeeded true w) as [w1 res1]. simpl in Hr, Hh. subst res1.
    unfold create_issue_w.
    set (lopt := match l with [] => None | _ => Some l end).
    pose proof (create_issue_result (w_now w1) (w_hub w1) t b a ms lopt) as Hres.
    pose proof (create_issue_issues (w_now w1) (w_hub w1) t b a ms lopt) as Hiss.
    destruct (gh_create_issue _ _ _ _ _ _ _) as [h' i]. simpl in Hres, Hiss. subst i.
    assert (Hsz : Z.of_nat (size (gh_issues (w_hub w1))) = current r).
    { rewrite Hh. unfold current. rewrite <- (size_issue_shape (r_existing r)), <- Hn.
      unfold hub_shape. by rewrite size_issue_shape. }
    simpl. eexists. split_and!; try reflexivity; [simpl; lia|].
    unfold hub_shape. simpl. rewrite Hiss, issue_shape_insert, Hsz. simpl.
    unfold hub_shape in Hh. by rewrite Hh.
Qed.

(** A fresh ticket whose id is the next number is created under that
    number, with the ticket's summary as title; when it fails,
    [existingIssues] is unchanged. *)
Lemma create_fresh_spec tm r :
  aligned r -> t_id tm = current r + 1 ->
  aligned (fst (create_fresh env tm r)) /\ not_sync (snd (create_fresh env tm r)) /\
  (forall i, snd (create_fresh env tm r) = inr i ->
    r_existing (fst (create_fresh env tm r)) = <[t_id tm := i]> (r_existing r) /\
    number i = t_id tm /\ title i = t_summary tm) /\
  (forall e, snd (create_fresh env tm r) = inl e ->
    r_existing (fst (create_fresh env tm r)) = r_existing r).
Proof.
  intros Ha Hid. unfold create_fresh. rewrite sbind_onWorld_emit_at.
  set (r0 := set_world _ r). change (r_existing r) with (r_existing r0).
  assert (Ha0 : aligned r0) by exact Ha. assert (Hid0 : t_id tm = current r0 + 1) by exact Hid.
  clearbody r0. clear Ha Hid. rename r into r_. rename r0 into r.
  rename Ha0 into Ha, Hid0 into Hid. clear r_.
  destruct (aligned_framed _ r (framed_prepare_issue env tm) Ha) as (Ha1 & Hns1 & He1).
  destruct (prepare_issue env tm r) as [r1 [e|p]] eqn:Ep.
  { rewrite (sbind_err _ _ _ _ _ Ep). simpl in *. split_and!; done. }
  rewrite (sbind_ok _ _ _ _ _ Ep). simpl in *.
  destruct p as [[[bd a] ms] l].
  assert (Hc1 : current r1 = current r) by (unfold current; by rewrite He1).
  destruct (send_issue_spec (t_summary tm) bd a ms l r1 Ha1) as (i & Hr & Hnum & Ht & He2 & Hnext).
  destruct (send_issue env (t_summary tm) bd a ms l r1) as [r2 res2] eqn:Es. simpl in *. subst res2.
  rewrite (sbind_ok _ _ _ _ _ Es), sbind_onWorld_emit.
  set (r3 := set_world _ r2).
  change (r_existing r2) with (r_existing r3) in He2.
  change (r_fake_id r2) with (r_fake_id r3) in Hnext.
  change (hub_shape (r_world r2)) with (hub_shape (r_world r3)) in Hnext.
  clearbody r3. clear Es r2. rename r3 into r2.
  rewrite Hnum, Hc1, <- Hid, Z.eqb_refl. simpl.
  destruct Ha1 as (Hc & Hk & Hl & Hn).
  split_and!; [|done|intros ? [= <-]; split_and!; try done; congruence|done].
  assert (Hsz : t_id tm = Z.of_nat (size (r_existing r1)) + 1)
    by (unfold current in Hc1, Hid; lia).
  assert (Hfree : r_existing r1 !! t_id tm = None)
    by (rewrite Hsz; by apply contiguous_next_free).
  rewrite He2. split_and!.
  - rewrite Hsz. by apply contiguous_insert_next.
  - apply keyed_insert; [done|unfold current in *; lia].
  - unfold current. simpl. rewrite map_size_insert_None by done.
    unfold current in Hl. lia.
  - unfold current in *. simpl. rewrite map_size_insert_None by done.
    destruct (e_pretend env).
    + rewrite Hnext, Hn. lia.
    + rewrite Hnext, Hn, issue_shape_insert, Hnum, Ht, Hc1, <- Hid. unfold current.
      by rewrite He1.
Qed.

(** One ticket map through the body of the loop of [migrateTickets]. *)
Lemma migrate_ticket_spec tm r :
  aligned r -> (t_exists tm = None -> t_id tm = current r + 1) ->
  aligned (fst (migrate_ticket convertWikiToMd env tm r)) /\
  not_sync (snd (migrate_ticket convertWikiToMd env tm r)) /\
  (snd (migrate_ticket convertWikiToMd env tm r) = inr tt ->
   match t_exists tm with
   | Some _ => r_existing (fst (migrate_ticket convertWikiToMd env tm r)) = r_existing r
   | None => exists i, r_existing (fst (migrate_ticket convertWikiToMd env tm r)) =
                         <[t_id tm := i]> (r_existing r) /\
                       number i = t_id tm /\ title i = t_summary tm
   end).
Proof.
  intros Ha Hid.
  assert (Hrest : forall i r1, aligned r1 ->
    aligned (fst ((add_comments convertWikiToMd env (t_id tm) i ;; close_if_needed env tm i) r1)) /\
    not_sync (snd ((add_comments convertWikiToMd env (t_id tm) i ;; close_if_needed env tm i) r1)) /\
    r_existing (fst ((add_comments convertWikiToMd env (t_id tm) i ;; close_if_needed env tm i) r1)) =
      r_existing r1).
  { intros i r1 Ha1. apply aligned_framed; [eauto with frame|done]. }
  destruct (t_exists tm) as [i|] eqn:Hex.
  - set (r0 := set_world (write_log INFO
                  [ContinuingTicket (t_id tm) (shortened (w_debug (r_world r)) (t_summary tm))]
                  (r_world r)) r).
    assert (E : migrate_ticket convertWikiToMd env tm r =
                (add_comments convertWikiToMd env (t_id tm) i ;; close_if_needed env tm i) r0)
      by (unfold migrate_ticket; by rewrite Hex).
    rewrite E. destruct (Hrest i r0 Ha) as (Ha' & Hns' & He').
    split_and!; [done|done|intros _; done].
  - assert (E : migrate_ticket convertWikiToMd env tm r =
                sbind (create_fresh env tm) (fun i =>
                  add_comments convertWikiToMd env (t_id tm) i ;; close_if_needed env tm i) r)
      by (unfold migrate_ticket; by rewrite Hex).
    rewrite E. destruct (create_fresh_spec tm r Ha (Hid eq_refl)) as (Ha1 & Hns1 & Hok & _).
    destruct (create_fresh env tm r) as [r1 [e|i]] eqn:Ec.
    + rewrite (sbind_err _ _ _ _ _ Ec). split_and!; done.
    + rewrite (sbind_ok _ _ _ _ _ Ec). simpl in *.
      destruct (Hok i eq_refl) as (He & Hn & Ht).
      destruct (Hrest i r1 Ha1) as (Ha' & Hns' & He').
      split_and!; [done|done|]. intros _. exists i. rewrite He', He. done.
Qed.

Lemma current_insert_next r r1 i :
  aligned r -> r_existing r1 = <[current r + 1 := i]> (r_existing r) ->
  current r1 = current r + 1.
Proof.
  intros (Hc & _) He. unfold current in *. rewrite He. by apply contiguous_size_insert_next.
Qed.

(** The loop [for i in range(n)] of the generator with the consumer:
    [n] placeholders, numbered from [current + 1]. *)
Lemma placeholders_spec (n : nat) r :
  aligned r ->
  let run := sfor (seqZ (current r + 1) (Z.of_nat n))
               (fun id => migrate_ticket convertWikiToMd env (placeholder id)) r in
  aligned (fst run) /\ not_sync (snd run) /\
  (snd run = inr tt ->
   current (fst run) = current r + Z.of_nat n /\
   (forall k, current r < k <= current r + Z.of_nat n ->
      exists i, r_existing (fst run) !! k = Some i /\ title i = "placeholder") /\
   (forall k, ~ (current r < k <= current r + Z.of_nat n) ->
      r_existing (fst run) !! k = r_existing r !! k)).
Proof.
  revert r. induction n as [|n IH]; intros r Ha; simpl.
  { split_and!; [done|done|]. intros _. split_and!; [lia|lia|done]. }
  rewrite seqZ_cons by lia. simpl.
  replace (Z.succ (current r + 1)) with (current r + 1 + 1) by lia.
  replace (Z.pred (Z.of_nat (S n))) with (Z.of_nat n) by lia.
  destruct (migrate_ticket_spec (placeholder (current r + 1)) r Ha (fun _ => eq_refl))
    as (Ha1 & Hns1 & Hok1).
  destruct (migrate_ticket convertWikiToMd env (placeholder (current r + 1)) r)
    as [r1 [e|[]]] eqn:E1.
  { rewrite (sbind_err _ _ _ _ _ E1). simpl in *. split_and!; done. }
  rewrite (sbind_ok _ _ _ _ _ E1). simpl in *.
  destruct (Hok1 eq_refl) as (i & He1 & Hn1 & Ht1). simpl in Hn1, Ht1.
  pose proof (current_insert_next r r1 i Ha He1) as Hc1.
  destruct (IH r1 Ha1) as (Ha2 & Hns2 & Hok2). rewrite Hc1 in Ha2, Hns2, Hok2.
  split_and!; [done|done|]. intros Hres.
  destruct (Hok2 Hres) as (Hc2 & Hin & Hout). split_and!; [lia| |].
  - intros k Hk. destruct (decide (k = current r + 1)) as [->|Hne].
    + exists i. rewrite Hout by lia. rewrite He1, lookup_insert_eq. done.
    + apply Hin. lia.
  - intros k Hk. rewrite Hout by lia. rewrite He1, lookup_insert_ne by lia. done.
Qed.

(** The continuation check of the generator changes nothing, and fails
    only with [KeyError] or a title mismatch. *)
Lemma resume_check_spec tm (r : Run H) :
  fst (resume_check env tm r) = r /\ not_sync (snd (resume_check env tm r)) /\
  forall tm', snd (resume_check env tm r) = inr tm' ->
    t_id tm' = t_id tm /\
    (t_id tm <> e_last_hub_issue env -> tm' = tm) /\
    (t_id tm = e_last_hub_issue env -> exists i, t_exists tm' = Some i /\
       r_existing r !! t_id tm = Some i /\ title i = t_summary tm).
Proof.
  unfold resume_check. destruct (Z.eqb_spec (t_id tm) (e_last_hub_issue env)) as [Heq|Hne].
  - rewrite sbind_sget.
    destruct (r_existing r !! t_id tm) as [i|] eqn:Ei; simpl;
      [|split_and!; [done|done|by intros ? ?]].
    rewrite sbind_sret. destruct (String.eqb_spec (title i) (t_summary tm)); simpl;
      [|split_and!; [done|done|by intros ? ?]].
    split_and!; [done|done|]. intros tm' [= <-]. split_and!; [done|done|eauto].
  - simpl. split_and!; [done|done|]. intros tm' [= <-]. split_and!; done.
Qed.

(** one row of the tickets table through the generator and
    the loop keeps the numbering aligned, and no [SyncError] is raised. *)
Lemma process_row_spec i row (r : Run H) :
  aligned r ->
  aligned (fst (process_row convertWikiToMd format_epoch env i row r)) /\
  not_sync (snd (process_row convertWikiToMd format_epoch env i row r)).
Proof.
  intros Ha. unfold process_row.
  destruct (negb _); [done|]. rewrite sbind_sget.
  destruct (negb (r_header_read r)); [done|].
  pose proof (not_sync_long (field row 0)) as Hnl.
  destruct (long (field row 0)) as [e|t] eqn:El; [split; [exact Ha|exact Hnl]|].
  rewrite sbind_lift_inr. destruct (t <? e_last_hub_issue env); [done|].
  rewrite sbind_sget.
  destruct (negb (t =? e_last_hub_issue env) && (t <=? Z.of_nat (size (r_existing r))))
    eqn:Eord; [done|].
  rewrite ids_between_seqZ. fold (current r).
  set (n := Z.to_nat (t - 1 - current r)).
  destruct (placeholders_spec n r Ha) as (Ha2 & Hns2 & Hok2).
  destruct (sfor _ _ r) as [r2 [e|[]]] eqn:E2.
  { rewrite (sbind_err _ _ _ _ _ E2). split; [exact Ha2|exact Hns2]. }
  rewrite (sbind_ok _ _ _ _ _ E2). simpl in *.
  destruct (Hok2 eq_refl) as (Hc2 & _ & _).
  pose proof (not_sync_ticket_of_row convertWikiToMd format_epoch row t) as Hnt.
  destruct (ticket_of_row convertWikiToMd format_epoch row t) as [e|tm] eqn:Et;
    [split; [exact Ha2|exact Hnt]|]. rewrite sbind_lift_inr.
  destruct (ticket_of_row_fields _ _ _ _ _ Et) as (Hid & Hex & _).
  destruct (resume_check_spec tm r2) as (Hr & Hnr & Hok).
  destruct (resume_check env tm r2) as [r3 [e|tm']] eqn:E3; simpl in Hr; subst r3.
  { rewrite (sbind_err _ _ _ _ _ E3). split; [exact Ha2|exact Hnr]. }
  rewrite (sbind_ok _ _ _ _ _ E3).
  destruct (Hok tm' eq_refl) as (Hid' & Hfresh & Hres).
  destruct (migrate_ticket_spec tm' r2 Ha2) as (? & ? & _); [|done].
  intros Hnone. destruct (Z.eqb_spec t (e_last_hub_issue env)) as [Heq|Hne].
  - destruct (Hres ltac:(congruence)) as (x & Hx & _). congruence.
  - simpl in Eord. apply Z.leb_gt in Eord. fold (current r) in Eord. subst n.
    rewrite Hid', Hid. lia.
Qed.

(** Numbering alignment of the loop.  Whatever the rows of the tickets table,
    the loop of [migrateTickets] ends (normally or by an exception) in a
    state where [existingIssues] holds exactly the numbers [1 .. n], each
    issue under its own number, GitHub holds the same numbers with the
    same titles in a real run ([fakeIssueId] is [n + 1] in a dry run),
    and the check [issue.number != ticketId] has never failed. *)
Theorem process_rows_aligned rows (r : Run H) :
  aligned r ->
  aligned (fst (process_rows convertWikiToMd format_epoch env rows r)) /\
  not_sync (snd (process_rows convertWikiToMd format_epoch env rows r)).
Proof.
  unfold process_rows. generalize 0%nat. revert r.
  induction rows as [|row rows IH]; intros r idx Ha; simpl; [done|].
  destruct (process_row_spec idx row r Ha) as (Ha1 & Hns1).
  destruct (process_row convertWikiToMd format_epoch env idx row r) as [r1 [e|[]]] eqn:E.
  - rewrite (sbind_err _ _ _ _ _ E). done.
  - rewrite (sbind_ok _ _ _ _ _ E). by apply IH.
Qed.
End Alignment.
