(* ===== verification/Rows.v ===== *)
(** Rows.v: what one row of the tickets table does (the generator
    [_tracTicketMaps], lines 474-519, with the loop body of
    [migrateTickets], lines 655-781).

    A row below [lastHubIssue] was migrated by an earlier run and is
    skipped; a row between [lastHubIssue] and the current number of issues
    is out of order; a row beyond the current number first yields a
    placeholder for each missing number and then the ticket itself, which
    becomes the issue with its number and its summary as title. *)

From S2P Require Import Prelude PyStr GitHub Log Pacing Users Labels Ingest Migrate Frame Alignment.

Local Open Scope Z_scope.

Section Rows.
Context {H : Type} `{!GitHubApi H} `{!GitHubLaws H}.
Variable convertWikiToMd : string -> Z -> string.
Variable format_epoch : Z -> option string.
Variable env : Env.

(** A checked row after the header, up to the test on its id. *)
Lemma process_row_unfold i row (r : Run H) t :
  length row = ticket_columns -> r_header_read r = true -> long (field row 0) = inr t ->
  process_row convertWikiToMd format_epoch env i row r =
    (if t <? e_last_hub_issue env then sret tt
     else if negb (t =? e_last_hub_issue env) && (t <=? current r)
     then sraise (OutOfOrder t)
     else
       sfor (ids_between (current r) (t - 1))
         (fun id => migrate_ticket convertWikiToMd env (placeholder id)) ;;
       tm <- lift (ticket_of_row convertWikiToMd format_epoch row t) ;;
       tm' <- resume_check env tm ;;
       migrate_ticket convertWikiToMd env tm') r.
Proof.
  intros Hlen Hhdr Hl. unfold process_row. rewrite Hlen, Nat.eqb_refl. cbn [negb].
  rewrite sbind_sget, Hhdr. cbn [negb]. rewrite Hl, sbind_lift_inr.
  destruct (t <? e_last_hub_issue env); [reflexivity|]. by rewrite sbind_sget.
Qed.

(** C7: rows already migrated are skipped, rows out of order are
    rejected, and every other row is migrated.  A ticket numbered below
    [lastHubIssue] (the number of issues when the run started) changes
    nothing; a ticket numbered above it but not above the current number
    of issues raises the out-of-order error and changes nothing; the
    ticket [lastHubIssue] itself and every ticket beyond the current
    number go on to the placeholders of the gap, the ticket map, the
    resume check and the loop body. *)
Theorem process_row_skips_or_rejects i row (r : Run H) t :
  length row = ticket_columns -> r_header_read r = true -> long (field row 0) = inr t ->
  (t < e_last_hub_issue env ->
   process_row convertWikiToMd format_epoch env i row r = (r, inr tt)) /\
  (e_last_hub_issue env < t <= current r ->
   process_row convertWikiToMd format_epoch env i row r = (r, inl (OutOfOrder t))) /\
  (t = e_last_hub_issue env \/ e_last_hub_issue env <= current r < t ->
   process_row convertWikiToMd format_epoch env i row r =
     (sfor (ids_between (current r) (t - 1))
        (fun id => migrate_ticket convertWikiToMd env (placeholder id)) ;;
      tm <- lift (ticket_of_row convertWikiToMd format_epoch row t) ;;
      tm' <- resume_check env tm ;;
      migrate_ticket convertWikiToMd env tm') r).
Proof.
  intros Hlen Hhdr Hl. rewrite (process_row_unfold i row r t Hlen Hhdr Hl). split_and!; intros Ht.
  - by rewrite (proj2 (Z.ltb_lt _ _) Ht).
  - rewrite (proj2 (Z.ltb_ge _ _)) by lia.
    rewrite (proj2 (Z.eqb_neq _ _)) by lia. rewrite (proj2 (Z.leb_le _ _)) by lia. done.
  - rewrite (proj2 (Z.ltb_ge _ _)) by lia.
    destruct Ht as [->|Ht]; [by rewrite Z.eqb_refl|].
    by rewrite (proj2 (Z.leb_gt _ _) (proj2 Ht)), andb_false_r.
Qed.

(** gap filling.  A ticket numbered [t] beyond the current number [n]
    of issues, when its row is processed without error, leaves exactly the
    numbers [1 .. t]: [n + 1 .. t - 1] are placeholders, [t] is the
    ticket with its summary as title, and [1 .. n] are untouched. *)
Theorem process_row_fills_gap i row (r : Run H) t :
  aligned env r -> length row = ticket_columns -> r_header_read r = true ->
  long (field row 0) = inr t -> current r < t ->
  snd (process_row convertWikiToMd format_epoch env i row r) = inr tt ->
  let r' := fst (process_row convertWikiToMd format_epoch env i row r) in
  current r' = t /\
  (forall k, current r < k < t ->
     exists p, r_existing r' !! k = Some p /\ title p = "placeholder") /\
  (exists it, r_existing r' !! t = Some it /\ title it = field row 7) /\
  (forall k, k <= current r -> r_existing r' !! k = r_existing r !! k).
Proof.
  intros Ha Hlen Hhdr Hl Ht. rewrite (process_row_unfold i row r t Hlen Hhdr Hl).
  destruct Ha as (Hc & Hkey & Hlast & Hm).
  rewrite (proj2 (Z.ltb_ge _ _)) by lia. rewrite (proj2 (Z.leb_gt _ _)) by lia.
  rewrite andb_false_r, ids_between_seqZ.
  set (n := Z.to_nat (t - 1 - current r)).
  assert (Hn : Z.of_nat n = t - 1 - current r) by (subst n; lia).
  destruct (placeholders_spec convertWikiToMd env n r (conj Hc (conj Hkey (conj Hlast Hm))))
    as (Ha2 & _ & Hok2).
  destruct (sfor _ _ r) as [r2 [e|[]]] eqn:E2; [by rewrite (sbind_err _ _ _ _ _ E2)|].
  rewrite (sbind_ok _ _ _ _ _ E2). simpl in Hok2.
  destruct (Hok2 eq_refl) as (Hc2 & Hin & Hout).
  destruct (ticket_of_row convertWikiToMd format_epoch row t) as [e|tm] eqn:Et; [done|].
  rewrite sbind_lift_inr. destruct (ticket_of_row_fields _ _ _ _ _ Et) as (Hid & Hex & Hsum).
  destruct (resume_check_spec env tm r2) as (Hr & _ & Hok).
  destruct (resume_check env tm r2) as [r3 [e|tm']] eqn:E3; simpl in Hr; subst r3;
    [by rewrite (sbind_err _ _ _ _ _ E3)|].
  rewrite (sbind_ok _ _ _ _ _ E3).
  destruct (Hok tm' eq_refl) as (Hid' & Hsame & _). rewrite Hsame in * by lia. clear Hsame.
  destruct (migrate_ticket_spec convertWikiToMd env tm r2 Ha2) as (_ & _ & Hres);
    [intros _; lia|].
  rewrite Hex in Hres. intros Hsucc. destruct (Hres Hsucc) as (it & Hins & Hnum & Htitle).
  rewrite Hid in Hins.
  assert (Hcur : current (fst (migrate_ticket convertWikiToMd env tm r2)) = t).
  { rewrite (current_insert_next env r2 _ it Ha2); [lia|]. rewrite Hins. do 2 f_equal. lia. }
  split_and!.
  - exact Hcur.
  - intros k Hk. rewrite Hins, lookup_insert_ne by lia. apply Hin. lia.
  - exists it. rewrite Hins, lookup_insert_eq. split; [done|]. by rewrite Htitle.
  - intros k Hk. rewrite Hins, lookup_insert_ne by lia. apply Hout. lia.
Qed.
(** The row of the ticket [lastHubIssue], resumed from an earlier run,
    when it passes without error, finds that issue with the ticket's
    summary as title and leaves [existingIssues] as it was. *)
Lemma process_row_resumed i row (r : Run H) t :
  aligned env r -> length row = ticket_columns -> r_header_read r = true ->
  long (field row 0) = inr t -> e_last_hub_issue env <= t <= current r ->
  snd (process_row convertWikiToMd format_epoch env i row r) = inr tt ->
  r_existing (fst (process_row convertWikiToMd format_epoch env i row r)) = r_existing r /\
  exists it, r_existing r !! t = Some it /\ title it = field row 7.
Proof.
  intros Ha Hlen Hhdr Hl Ht. rewrite (process_row_unfold i row r t Hlen Hhdr Hl).
  rewrite (proj2 (Z.ltb_ge _ _)) by lia.
  destruct (Z.eqb_spec t (e_last_hub_issue env)) as [Heq|Hne]; cbn [negb andb];
    [|by rewrite (proj2 (Z.leb_le _ _)) by lia].
  rewrite ids_between_seqZ. replace (Z.to_nat (t - 1 - current r)) with 0%nat by lia.
  simpl. rewrite sbind_sret.
  destruct (ticket_of_row convertWikiToMd format_epoch row t) as [e|tm] eqn:Et; [done|].
  rewrite sbind_lift_inr. destruct (ticket_of_row_fields _ _ _ _ _ Et) as (Hid & _ & Hsum).
  destruct (resume_check_spec env tm r) as (Hr & _ & Hok).
  destruct (resume_check env tm r) as [r3 [e|tm']] eqn:E3; simpl in Hr; subst r3;
    [by rewrite (sbind_err _ _ _ _ _ E3)|].
  rewrite (sbind_ok _ _ _ _ _ E3).
  destruct (Hok tm' eq_refl) as (Hid' & _ & Hres).
  destruct (Hres ltac:(congruence)) as (it & Hex & Hit & Htitle).
  destruct (migrate_ticket_spec convertWikiToMd env tm' r Ha) as (_ & _ & Hm);
    [by rewrite Hex|].
  intros Hs. specialize (Hm Hs). rewrite Hex in Hm. split; [done|].
  exists it. rewrite Hid in Hit. split; [done|congruence].
Qed.

(** C8: checks of a resumed ticket.  The row of the ticket numbered
    [lastHubIssue] (the last issue of the previous run) must find that
    issue in [existingIssues], else [KeyError], and the issue's title must
    be the ticket's summary, else the run stops; in both cases before any
    request and with no change. *)
Theorem process_row_resume_errors i row (r : Run H) t tm :
  length row = ticket_columns -> r_header_read r = true -> long (field row 0) = inr t ->
  t = e_last_hub_issue env -> t <= current r ->
  ticket_of_row convertWikiToMd format_epoch row t = inr tm ->
  (r_existing r !! t = None ->
   process_row convertWikiToMd format_epoch env i row r = (r, inl (KeyError t))) /\
  (forall it, r_existing r !! t = Some it -> title it <> field row 7 ->
   process_row convertWikiToMd format_epoch env i row r =
     (r, inl (TitleMismatch (title it) (field row 7)))).
Proof.
  intros Hlen Hhdr Hl Ht Hcur Et. rewrite (process_row_unfold i row r t Hlen Hhdr Hl).
  rewrite (proj2 (Z.ltb_ge _ _)) by lia. rewrite (proj2 (Z.eqb_eq _ _)) by done. simpl.
  rewrite ids_between_seqZ. replace (Z.to_nat (t - 1 - current r)) with 0%nat by lia. simpl.
  rewrite sbind_sret, Et, sbind_lift_inr.
  destruct (ticket_of_row_fields _ _ _ _ _ Et) as (Hid & _ & Hsum).
  unfold resume_check. rewrite Hid, (proj2 (Z.eqb_eq _ _)) by done. cbv iota.
  rewrite sbind_assoc, sbind_sget. split.
  - intros ->. reflexivity.
  - intros it Hit Hne. rewrite Hit. cbn [of_option]. rewrite sbind_assoc, sbind_sret, Hsum.
    destruct (String.eqb_spec (title it) (field row 7)); done.
Qed.
End Rows.

(** ** Examples *)

Import HubModel.

Section Examples.
Local Open Scope string_scope.

Definition rows_env : Env :=
  mkEnv false {[ "*" := "*" ]} (mkLT [] ["bug"] (Some [])) ∅ 0 "tickets.csv".

(** An empty repository, the header of the table already read. *)
Definition rows_run : Run Hub :=
  mkRun (mkWorld (mkHub ∅ [] ["bug"] ["me"] QUOTA 0 []) 0 [] [] 0 0 ∅ [] false) ∅ ∅ 1 ∅ true ∅.

Definition row3 : list string :=
  ["3"; "defect"; ""; "bob"; ""; "new"; ""; "Third"; "three"; ""; ""; ""; ""].

(** The same options, resuming after issue 5. *)
Definition skip_env : Env :=
  mkEnv false {[ "*" := "*" ]} (mkLT [] ["bug"] (Some [])) ∅ 5 "tickets.csv".

(** Issues 1, 2 and 3 already on GitHub. *)
Definition run3 : Run Hub :=
  let iss n := mkIssue n "old" "" "open" 0 in
  mkRun (mkWorld (mkHub {[1 := iss 1; 2 := iss 2; 3 := iss 3]} [] ["bug"] ["me"] QUOTA 0 [])
           0 [] [] 0 0 ∅ [] false)
        {[1 := iss 1; 2 := iss 2; 3 := iss 3]} ∅ 4 ∅ true ∅.

Lemma rows_run_aligned : aligned rows_env rows_run.
Proof.
  unfold aligned, current; simpl. rewrite map_size_empty.
  split_and!; [apply contiguous_empty| |simpl; lia|reflexivity].
  intros k i Hk. by rewrite lookup_empty in Hk.
Qed.
End Examples.

(** Ticket 3 in three runs: resumed after issue 5 (skipped), after issue
    0 with issues 1-3 present (out of order), and on an empty repository
    (migrated after the placeholders 1 and 2). *)
Lemma process_row_skips_or_rejects_witness :
  process_row (fun s _ => s) (fun _ => Some "") skip_env 1 row3 rows_run = (rows_run, inr tt) /\
  process_row (fun s _ => s) (fun _ => Some "") rows_env 1 row3 run3 = (run3, inl (OutOfOrder 3)) /\
  process_row (fun s _ => s) (fun _ => Some "") rows_env 1 row3 rows_run =
    (sfor (ids_between (current rows_run) (3 - 1))
       (fun id => migrate_ticket (fun s _ => s) rows_env (placeholder id)) ;;
     tm <- lift (ticket_of_row (fun s _ => s) (fun _ => Some "") row3 3) ;;
     tm' <- resume_check rows_env tm ;;
     migrate_ticket (fun s _ => s) rows_env tm') rows_run.
Proof.
  split_and!.
  - apply (process_row_skips_or_rejects _ _ skip_env 1 row3 rows_run 3 eq_refl eq_refl eq_refl).
    vm_compute. reflexivity.
  - apply (process_row_skips_or_rejects _ _ rows_env 1 row3 run3 3 eq_refl eq_refl eq_refl).
    assert (current run3 = 3) by reflexivity. unfold rows_env; cbn [e_last_hub_issue]. lia.
  - apply (process_row_skips_or_rejects _ _ rows_env 1 row3 rows_run 3 eq_refl eq_refl eq_refl).
    right. assert (current rows_run = 0) by reflexivity. unfold rows_env; cbn [e_last_hub_issue]. lia.
Defined.

Lemma process_row_fills_gap_witness :
  let r' := fst (process_row (fun s _ => s) (fun _ => Some "") rows_env 1 row3 rows_run) in
  current r' = 3 /\
  (forall k, current rows_run < k < 3 ->
     exists p, r_existing r' !! k = Some p /\ title p = "placeholder") /\
  (exists it, r_existing r' !! 3 = Some it /\ title it = field row3 7) /\
  (forall k, k <= current rows_run -> r_existing r' !! k = r_existing rows_run !! k).
Proof.
  apply process_row_fills_gap;
    [apply rows_run_aligned|reflexivity|reflexivity|reflexivity|vm_compute; reflexivity|
     vm_compute; reflexivity].
Defined.

(** The first row of a table on an empty repository is ticket 0: it is
    taken for the last issue of a previous run, which does not exist. *)
Definition row0 : list string :=
  ["0"; "defect"; ""; "bob"; ""; "new"; ""; "Zero"; ""; ""; ""; ""; ""].

Lemma process_row_resume_errors_witness :
  (r_existing rows_run !! 0 = None ->
   process_row (fun s _ => s) (fun _ => Some "") rows_env 1 row0 rows_run = (rows_run, inl (KeyError 0))) /\
  (forall it, r_existing rows_run !! 0 = Some it -> title it <> field row0 7 ->
   process_row (fun s _ => s) (fun _ => Some "") rows_env 1 row0 rows_run =
     (rows_run, inl (TitleMismatch (title it) (field row0 7)))).
Proof.
  apply (process_row_resume_errors _ _ _ _ _ _ _
           (mkTicket 0 "defect" "" "bob" "" "new" "" "Zero" "" "" "" "" "" None));
    reflexivity.
Defined.
