(* ===== verification/Issues.v ===== *)
(** Issues.v: what the engine sends for one ticket (the loop body of
    [migrateTickets], lines 655-781).

    [labelsFromKeywords] calls [labelsForKeyWords], which reads
    [self._keywords]; only [_keywordSetUp] creates it, and only when the
    [keywords] option is set and not empty.  So without that option no
    real ticket can be migrated: each one raises [AttributeError] before
    its issue is created, although its milestone may already have been
    created on GitHub. *)

From S2P Require Import Prelude PyStr Config GitHub Log Pacing Users Labels Ingest Migrate Frame Alignment.

Local Open Scope Z_scope.

Section Keywords.
Context {H : Type} `{!GitHubApi H} `{!GitHubLaws H}.
Variable env : Env.

Lemma prepare_issue_fails_without_keywords tm (r : Run H) :
  lt_keywords (e_labels env) = None -> String.eqb (t_type tm) DUMMYTYPE = false ->
  exists r' e, prepare_issue env tm r = (r', inl e).
Proof.
  intros Hkw Hty. unfold prepare_issue. rewrite Hty.
  do 6 (apply sbind_fails; intros ? ?).
  unfold labelsFromKeywords, labelsForKeyWords. rewrite Hkw. simpl. eauto.
Qed.

(** the missing [keywords] option is fatal.  When the label
    transformations were built without keywords, [create_fresh] fails for
    every real (non-placeholder) ticket, without creating an issue: the
    issues on GitHub keep their numbers and titles. *)
Theorem create_fresh_fails_without_keywords tm (r : Run H) :
  lt_keywords (e_labels env) = None -> t_type tm <> DUMMYTYPE ->
  (exists e, snd (create_fresh env tm r) = inl e) /\
  hub_shape (r_world (fst (create_fresh env tm r))) = hub_shape (r_world r).
Proof.
  intros Hkw Hty. apply String.eqb_neq in Hty.
  unfold create_fresh. rewrite sbind_onWorld_emit_at.
  destruct (prepare_issue_fails_without_keywords tm (set_world (write_log INFO
    [ConvertTicket (t_id tm) (shortened (w_debug (r_world r)) (t_summary tm))] (r_world r)) r) Hkw Hty)
    as (r1 & e & E).
  destruct (framed_prepare_issue env tm (set_world (write_log INFO
    [ConvertTicket (t_id tm) (shortened (w_debug (r_world r)) (t_summary tm))] (r_world r)) r))
    as (_ & _ & Hs & _).
  rewrite E in Hs. rewrite (sbind_err _ _ _ _ _ E). simpl. eauto.
Qed.
End Keywords.

(** ** Comments *)

Section Comments.
Context {H : Type} `{!GitHubApi H} `{!GitHubLaws H}.
Variable convertWikiToMd : string -> Z -> string.
Variable env : Env.

(** A comment as it is sent: its body converted when it is a comment. *)
Definition converted (c : Comment) : Comment :=
  if String.eqb (c_type c) "comment"
  then set_comment_body c (convertWikiToMd (c_body c) (c_id c)) else c.

Lemma addGitHubIssueComment_log issue text (w : World H) :
  exists w', addGitHubIssueComment issue text w = (w', inr tt) /\
    map snd (gh_log (w_hub w')) =
      map snd (gh_log (w_hub w)) ++ [CreateComment (number issue) text].
Proof.
  destruct (apiPauseIfNeeded_frame (fun h => gh_log h = gh_log (w_hub w)) true w)
    as (Hr & Hh & _); [intros t h0 Hh0; by rewrite get_rate_limit_log|done|].
  unfold addGitHubIssueComment, sbind.
  destruct (apiPauseIfNeeded true w) as [w1 r1]. simpl in Hr, Hh. subst r1.
  eexists. split; [reflexivity|]. simpl. rewrite create_comment_log, Hh, map_app. done.
Qed.

Lemma add_comment_step t i j (r : Run H) cs c :
  e_pretend env = false -> r_comments r !! t = Some cs -> cs !! j = Some c ->
  exists r', add_comment convertWikiToMd env t i j r = (r', inr tt) /\
    map snd (gh_log (w_hub (r_world r'))) =
      map snd (gh_log (w_hub (r_world r))) ++ [CreateComment (number i) (comment_text (converted c))] /\
    r_comments r' !! t = Some (<[j := converted c]> cs).
Proof.
  intros Hp Hcs Hc. unfold add_comment. rewrite sbind_sget, Hcs, Hc, Hp. unfold converted.
  destruct (String.eqb (c_type c) "comment").
  all: cbn [negb swhen]; rewrite ?sbind_assoc, ?sbind_smodify, sbind_sret.
  all: match goal with
       | |- exists _, sbind (onWorld (addGitHubIssueComment ?iss ?txt)) _ ?r0 = _ /\ _ =>
           destruct (addGitHubIssueComment_log iss txt (r_world r0)) as (w' & E & Hlog);
           rewrite (sbind_ok _ _ _ _ _ (onWorld_run _ _ _ _ E))
       end.
  all: eexists; split; [reflexivity|]; simpl; split; [exact Hlog|].
  - by rewrite lookup_insert_eq.
  - by rewrite list_insert_id.
Qed.

Lemma add_comments_loop t i (n j : nat) (r : Run H) cs cs0 :
  e_pretend env = false -> r_comments r !! t = Some cs -> length cs = length cs0 ->
  (forall idx, (j <= idx)%nat -> cs !! idx = cs0 !! idx) -> (j + n = length cs0)%nat ->
  exists r', sfor (seq j n) (add_comment convertWikiToMd env t i) r = (r', inr tt) /\
    map snd (gh_log (w_hub (r_world r'))) =
      map snd (gh_log (w_hub (r_world r))) ++
      map (fun c => CreateComment (number i) (comment_text (converted c))) (drop j cs0) /\
    r_comments r' !! t = Some (take j cs ++ map converted (drop j cs0)).
Proof.
  intros Hp. revert j r cs. induction n as [|n IH]; intros j r cs Hcs Hlen Hsame Hjn.
  - exists r. rewrite drop_ge, take_ge by lia. simpl. by rewrite !app_nil_r.
  - destruct (lookup_lt_is_Some_2 cs0 j) as [c Hc0]; [lia|].
    assert (Hc : cs !! j = Some c) by (rewrite Hsame; [done|lia]).
    destruct (add_comment_step t i j r cs c Hp Hcs Hc) as (r1 & E1 & Hlog1 & Hcs1).
    simpl. rewrite (sbind_ok _ _ _ _ _ E1).
    destruct (IH (S j) r1 (<[j := converted c]> cs) Hcs1) as (r2 & E2 & Hlog2 & Hcs2);
      [by rewrite length_insert| |lia|].
    { intros idx Hidx. rewrite list_lookup_insert_ne by lia. apply Hsame. lia. }
    exists r2. rewrite (drop_S cs0 c j Hc0). split_and!; [done| |].
    + rewrite Hlog2, Hlog1, <- app_assoc. done.
    + rewrite Hcs2, (take_S_r _ _ (converted c)) by (apply list_lookup_insert_eq; lia).
      rewrite take_insert_ge, <- app_assoc by lia. done.
Qed.

(** C15: comments of a resumed or new issue.  In a real run, for a ticket
    with comments [cs] and an issue that already has [k] comments,
    [add_comments] raises nothing, sends exactly the comments of [cs]
    after the first [k], in order, each with its body converted when it
    is a comment, and writes the converted bodies back into the ticket's
    list, which the dictionary shares with later rows. *)
Theorem add_comments_sends_missing t i (r : Run H) cs :
  e_pretend env = false -> r_comments r !! t = Some cs ->
  snd (add_comments convertWikiToMd env t i r) = inr tt /\
  map snd (gh_log (w_hub (r_world (fst (add_comments convertWikiToMd env t i r))))) =
    map snd (gh_log (w_hub (r_world r))) ++
    map (fun c => CreateComment (number i) (comment_text (converted c))) (drop (comments i) cs) /\
  r_comments (fst (add_comments convertWikiToMd env t i r)) !! t =
    Some (take (comments i) cs ++ map converted (drop (comments i) cs)).
Proof.
  intros Hp Hcs. unfold add_comments. rewrite sbind_sget, Hcs.
  destruct (decide (comments i <= length cs)%nat) as [Hle|Hgt].
  - destruct (add_comments_loop t i (length cs - comments i) (comments i) r cs cs Hp Hcs)
      as (r' & E & Hlog & Hcs'); [done|done|lia|].
    rewrite E. done.
  - replace (length cs - comments i)%nat with 0%nat by lia. simpl.
    rewrite drop_ge, take_ge by lia. simpl. by rewrite !app_nil_r.
Qed.
End Comments.

(** ** Milestones and closing *)

Section Requests.
Context {H : Type} `{!GitHubApi H} `{!GitHubLaws H}.
Variable env : Env.

(** A pause leaves the log of mutating calls alone. *)
Lemma pause_log b (w : World H) :
  exists w', apiPauseIfNeeded b w = (w', inr tt) /\ gh_log (w_hub w') = gh_log (w_hub w).
Proof.
  destruct (apiPauseIfNeeded_frame (fun h => gh_log h = gh_log (w_hub w)) b w)
    as (Hr & Hh & _); [intros t h0 Hh0; by rewrite get_rate_limit_log|done|].
  destruct (apiPauseIfNeeded b w) as [w1 r1]. simpl in *. subst r1. eauto.
Qed.


(** C23: closing.  In a real run, [close_if_needed] raises nothing and
    sends one [issue.edit(state='closed')] exactly when the ticket is
    closed and the issue object (the one [existingIssues] holds for the
    ticket) is not; otherwise it sends nothing.  Afterwards the issue
    object of a closed ticket reads as closed, so that a second call sends
    nothing more. *)
Theorem close_if_needed_spec tm i (r : Run H) :
  e_pretend env = false ->
  snd (close_if_needed env tm i r) = inr tt /\
  map snd (gh_log (w_hub (r_world (fst (close_if_needed env tm i r))))) =
    map snd (gh_log (w_hub (r_world r))) ++
    (if String.eqb (t_status tm) "closed" && negb (String.eqb (issue_state r (t_id tm) i) "closed")
     then [EditState (number i) "closed"] else []) /\
  (issue_state (fst (close_if_needed env tm i r)) (t_id tm) i =
     if String.eqb (t_status tm) "closed" then "closed" else issue_state r (t_id tm) i).
Proof.
  intros Hp. unfold close_if_needed. rewrite sbind_sget, Hp.
  destruct (String.eqb (t_status tm) "closed") eqn:Es; cbn [andb]; [|by rewrite app_nil_r].
  destruct (String.eqb (issue_state r (t_id tm) i) "closed") eqn:Ei; cbn [negb swhen].
  { split_and!; [done|by rewrite app_nil_r|by apply String.eqb_eq]. }
  rewrite sbind_onWorld_emit. set (r0 := set_world _ r).
  change (gh_log (w_hub (r_world r))) with (gh_log (w_hub (r_world r0))).
  unfold onWorld, zoom. destruct (pause_log false (r_world r0)) as (w1 & E1 & H1).
  unfold sbind. rewrite E1. simpl. rewrite edit_state_log, H1, map_app.
  split_and!; [done|done|]. unfold issue_state. simpl. rewrite decide_True; set_solver.
Qed.
End Requests.

(** ** Examples *)

Import HubModel.

Section Examples.
Local Open Scope string_scope.

(** The options of the spec's example without [keywords]. *)
Definition nokw_env : Env :=
  mkEnv false {[ "*" := "*" ]} (mkLT [] ["bug"] None) ∅ 0 "tickets.csv".

Definition issues_run : Run Hub :=
  mkRun (mkWorld (mkHub ∅ [] ["bug"] ["me"] QUOTA 0 []) 0 [] [] 0 0 ∅ [] false) ∅ ∅ 1 ∅ true ∅.

Definition ticket_one : Ticket :=
  mkTicket 1 "defect" "me" "me" "1.0" "new" "" "First" "one" "" "" "" "" None.
End Examples.

Lemma create_fresh_fails_without_keywords_witness :
  (exists e, snd (create_fresh nokw_env ticket_one issues_run) = inl e) /\
  hub_shape (r_world (fst (create_fresh nokw_env ticket_one issues_run))) =
    hub_shape (r_world issues_run).
Proof. apply create_fresh_fails_without_keywords; [reflexivity|discriminate]. Defined.

(** The run behind the finding: the milestone [1.0] is created on GitHub,
    then the ticket fails with [AttributeError] and no issue exists. *)
Example create_fresh_without_keywords_creates_milestone :
  create_fresh nokw_env ticket_one issues_run =
    (fst (create_fresh nokw_env ticket_one issues_run), inl (AttributeError "_keywords")) /\
  hub_log (w_hub (r_world (fst (create_fresh nokw_env ticket_one issues_run)))) =
    [(0, CreateMilestone "1.0")].
Proof. split; vm_compute; reflexivity. Qed.

Section CommentExamples.
Local Open Scope string_scope.

Definition cmt1 : Comment := mkComment 3 "" "bob" "comment" "Seen." (nl ++ nl).
Definition cmt2 : Comment := mkComment 3 "" "me" "status change" "**closed**" " ".

(** Ticket 3 resumed: its issue already has the first comment. *)
Definition resumed_issue : Issue := mkIssue 3 "Third" "" "open" 1.

Definition commit_env : Env :=
  mkEnv false {[ "*" := "*" ]} (mkLT [] ["bug"] (Some [])) ∅ 3 "tickets.csv".

Definition comments_run : Run Hub :=
  mkRun (mkWorld (mkHub ∅ [] ["bug"] ["me"] QUOTA 0 []) 0 [] [] 0 0 ∅ [] false) ∅ ∅ 1
    {[ 3 := [cmt1; cmt2] ]} true ∅.
End CommentExamples.

Lemma add_comments_sends_missing_witness :
  snd (add_comments (fun s _ => s) commit_env 3 resumed_issue comments_run) = inr tt /\
  map snd (gh_log (w_hub (r_world (fst (add_comments (fun s _ => s) commit_env 3 resumed_issue
                                          comments_run))))) =
    map snd (gh_log (w_hub (r_world comments_run))) ++
    map (fun c => CreateComment (number resumed_issue) (comment_text (converted (fun s _ => s) c)))
      (drop (comments resumed_issue) [cmt1; cmt2]) /\
  r_comments (fst (add_comments (fun s _ => s) commit_env 3 resumed_issue comments_run)) !! 3 =
    Some (take (comments resumed_issue) [cmt1; cmt2] ++
          map (converted (fun s _ => s)) (drop (comments resumed_issue) [cmt1; cmt2])).
Proof. apply add_comments_sends_missing; reflexivity. Defined.


Lemma close_if_needed_spec_witness :
  snd (close_if_needed commit_env ticket_one resumed_issue comments_run) = inr tt /\
  map snd (gh_log (w_hub (r_world (fst (close_if_needed commit_env ticket_one resumed_issue
                                          comments_run))))) =
    map snd (gh_log (w_hub (r_world comments_run))) ++
    (if String.eqb (t_status ticket_one) "closed" &&
        negb (String.eqb (issue_state comments_run (t_id ticket_one) resumed_issue) "closed")
     then [EditState (number resumed_issue) "closed"] else []) /\
  (issue_state (fst (close_if_needed commit_env ticket_one resumed_issue comments_run))
     (t_id ticket_one) resumed_issue =
   if String.eqb (t_status ticket_one) "closed" then "closed"
   else issue_state comments_run (t_id ticket_one) resumed_issue).
Proof. apply close_if_needed_spec. reflexivity. Defined.
