(* ===== verification/Main.v ===== *)
(** Main.v: [migrateTickets] as a whole (tratihubis.py lines 618-639 and
    655-656) and the two snapshots of the repository it takes before its
    loop: [_createIssueMap] (lines 536-547) and [_createMilestoneMap]
    (lines 522-533).

    [migrateTickets] reads the comments and attachments tables, lists the
    repository's issues and milestones, builds the user map and the label
    transformations, and then runs the loop of Migrate.v on a [Run] whose
    [existingIssues] is the listing of the issues, [fakeIssueId] is
    [1 + len(existingIssues)], and [lastHubIssue] is [len(existingIssues)].
    The CSV files are given by their rows; the label option by its tokens.

    The theorem of this file lifts the alignment of Alignment.v to the
    whole function: from a repository whose issues are numbered [1 .. n],
    each listed under its own number in state [open] or [closed], a real
    run leaves the repository numbered [1 .. m] whatever happens, and the
    numbering check never fails. *)

From S2P Require Import Prelude PyStr GitHub Log Pacing Users Labels Ingest Migrate Frame Alignment.

Local Open Scope Z_scope.

(** ** The snapshots *)

Section Snapshots.
Context {H : Type} `{!GitHubApi H}.

(** [repo.get_issues(state=state)] *)
Definition issues_in (h : H) (st : string) : gmap Z Issue :=
  filter (fun kv => state kv.2 = st) (gh_issues h).

(** [targetMap[issue.number] = issue] for every listed issue. *)
Definition add_by_number (target listed : gmap Z Issue) : gmap Z Issue :=
  map_fold (fun _ i acc => <[number i := i]> acc) target listed.

(** [addIssues(targetMap, state)] of [_createIssueMap] *)
Definition addIssues (target : gmap Z Issue) (st : string) : ST (World H) (gmap Z Issue) :=
  apiPauseIfNeeded false ;;
  w <- sget ;;
  let listed := issues_in (w_hub w) st in
  sfor (map_to_list listed) (fun kv => emit DEBUG (FoundIssue (number kv.2) (state kv.2) (title kv.2))) ;;
  sret (add_by_number target listed).

(** [_createIssueMap(repo)] *)
Definition createIssueMap : ST (World H) (gmap Z Issue) :=
  emit INFO AnalyzeIssues ;;
  result <- addIssues ∅ "open" ;;
  result' <- addIssues result "closed" ;;
  emit INFO (FoundIssues (Z.of_nat (size result'))) ;;
  sret result'.

(** [addMilestones(targetMap, state)] of [_createMilestoneMap]: keyed by
    title, a later milestone of the same title replacing an earlier one. *)
Definition addMilestones (target : gmap string Milestone) (st : string)
    : ST (World H) (gmap string Milestone) :=
  apiPauseIfNeeded false ;;
  w <- sget ;;
  let listed := gh_milestones (w_hub w) st in
  sfor listed (fun ms => emit DEBUG (FoundMilestone (ms_number ms) (ms_title ms))) ;;
  sret (foldl (fun acc ms => <[ms_title ms := ms]> acc) target listed).

(** [_createMilestoneMap(repo)] *)
Definition createMilestoneMap : ST (World H) (gmap string Milestone) :=
  emit INFO AnalyzeMilestones ;;
  result <- addMilestones ∅ "open" ;;
  result' <- addMilestones result "closed" ;;
  emit INFO (FoundMilestones (Z.of_nat (size result'))) ;;
  sret result'.
End Snapshots.

(** ** [migrateTickets] *)

Section MigrateTickets.
Context {H : Type} `{!GitHubApi H}.
Variable convertWikiToMd : string -> Z -> string.
Variable format_epoch : Z -> option string.

Definition lift_w {A} (x : Exc + A) : ST (World H) A :=
  match x with inl e => sraise e | inr a => sret a end.

(** [_createTicketToCommentsMap(commentsCsvPath)] with its log: the path,
    then one line per comment read, up to the row that raises. *)
Definition readComments (path : option string) (table : Table)
    : ST (World H) (gmap Z (list Comment)) :=
  match path with
  | None => sret ∅
  | Some p =>
      emit INFO (ReadComments p) ;;
      sfor (comment_trace format_epoch p table) (emit DEBUG) ;;
      lift_w (createTicketToCommentsMap format_epoch (Some p) table)
  end.

(** [_createTicketsToAttachmentsMap(attachmentsCsvPath, attachmentsPrefix)]
    with its log: an error for a path without a prefix, else the path. *)
Definition readAttachments (path prefix : option string) (table : Table)
    : ST (World H) (gmap Z (list Attachment)) :=
  match path, prefix with
  | Some _, None => emit ERROR AttachmentsPrefixMissing ;; sret ∅
  | Some p, Some _ =>
      emit INFO (ReadAttachments p) ;;
      lift_w (createTicketsToAttachmentsMap format_epoch path prefix table)
  | None, _ => sret ∅
  end.

(** The loop of [migrateTickets] on the [Run] it starts from; the
    process state it ends in is handed back. *)
Definition run_loop (env : Env) (rows : list (list string))
    (existing : gmap Z Issue) (milestones : gmap string Milestone)
    (comments : gmap Z (list Comment)) : ST (World H) unit :=
  fun w =>
    let r0 := mkRun w existing milestones (1 + Z.of_nat (size existing)) comments false ∅ in
    let '(r, res) := process_rows convertWikiToMd format_epoch env rows r0 in
    (r_world r, res).

(** [migrateTickets(repo, ticketsCsvPath, commentsCsvPath,
    attachmentsCsvPath, labelMapping, userMapping, attachmentsPrefix,
    keywords, pretend)]; each CSV file is given as the table its reader
    yields, the [labels] option with its tokens.  The tickets table is read
    by the generator [_tracTicketMaps] inside the loop: its rows are
    migrated one by one, and the reader's exception, if any, ends the loop
    after them. *)
Definition migrateTickets (ticketsCsvPath : string) (ticketTable : Table)
    (commentsCsvPath : option string) (commentTable : Table)
    (attachmentsCsvPath : option string) (attachmentTable : Table)
    (labelMapping : option string) (labelTokens : list Token) (userMapping : string)
    (attachmentsPrefix : option string) (keywords : option string) (pretend : bool)
    : ST (World H) unit :=
  comments <- readComments commentsCsvPath commentTable ;;
  attachments <- readAttachments attachmentsCsvPath attachmentsPrefix attachmentTable ;;
  existing <- createIssueMap ;;
  milestones <- createMilestoneMap ;;
  usermap <- createTracToGithubUserMap userMapping ;;
  lt <- newLabelTransformations labelMapping labelTokens keywords ;;
  emit INFO (ReadTicketDetails ticketsCsvPath) ;;
  run_loop (mkEnv pretend usermap lt attachments (Z.of_nat (size existing)) ticketsCsvPath)
    ticketTable.1 existing milestones comments ;;
  lift_w (table_end ticketTable.2 tt).
End MigrateTickets.

(** ** The snapshot of the issues *)

(** Every issue is [open] or [closed]: the states [get_issues] lists. *)
Definition states_listed (m : gmap Z Issue) : Prop :=
  map_Forall (fun _ i => state i = "open" \/ state i = "closed") m.

Lemma keyed_filter (P : Z * Issue -> Prop) `{!forall x, Decision (P x)} (m : gmap Z Issue) :
  keyed m -> keyed (filter P m).
Proof. intros Hk k i [Hi _]%map_lookup_filter_Some. eauto. Qed.

(** Inserting by number the issues of a map keyed by number is a union. *)
Lemma add_by_number_keyed (target listed : gmap Z Issue) :
  keyed listed -> add_by_number target listed = listed ∪ target.
Proof.
  unfold add_by_number. revert listed.
  refine (map_fold_weak_ind (fun r m => keyed m -> r = m ∪ target) _ target _ _).
  - intros _. by rewrite map_empty_union.
  - intros i x m r Hi IH Hk.
    assert (Hx : number x = i) by (apply Hk; by rewrite lookup_insert_eq).
    rewrite Hx, IH, insert_union_l; [done|].
    intros k j Hj. apply Hk. rewrite lookup_insert_ne; [done|congruence].
Qed.

(** The closed issues and the open ones make up all issues. *)
Lemma issues_partition `{!GitHubApi H} (h : H) :
  states_listed (gh_issues h) -> issues_in h "closed" ∪ issues_in h "open" = gh_issues h.
Proof.
  intros Hs. apply map_eq. intros k. unfold issues_in.
  destruct (gh_issues h !! k) as [i|] eqn:E.
  - destruct (Hs k i E) as [Ho|Hc].
    + rewrite lookup_union_r; [apply map_lookup_filter_Some; simpl; auto|].
      apply map_lookup_filter_None. right. intros j Hj. simpl. rewrite E in Hj.
      injection Hj as <-. by rewrite Ho.
    + apply lookup_union_Some_l, map_lookup_filter_Some. simpl. auto.
  - apply lookup_union_None. split; apply map_lookup_filter_None; auto.
Qed.

Section SnapshotSpecs.
Context {H : Type} `{!GitHubApi H} `{!GitHubLaws H}.

Lemma addIssues_spec target st (w : World H) :
  exists w', addIssues target st w = (w', inr (add_by_number target (issues_in (w_hub w) st))) /\
             gh_issues (w_hub w') = gh_issues (w_hub w).
Proof.
  destruct (apiPauseIfNeeded_frame (fun h => gh_issues h = gh_issues (w_hub w)) false w)
    as (Hr & Hh & _); [intros t h0 Hh0; by rewrite get_rate_limit_issues|done|].
  unfold addIssues. destruct (apiPauseIfNeeded false w) as [w1 r1] eqn:E1. simpl in Hr, Hh.
  subst r1. rewrite (sbind_ok _ _ _ _ _ E1), sbind_sget.
  rewrite (sbind_ok _ _ _ _ _ (sfor_emit DEBUG
    (fun kv : Z * Issue => FoundIssue (number kv.2) (state kv.2) (title kv.2)) _ w1)).
  eexists. split; [unfold issues_in; rewrite Hh; reflexivity|done].
Qed.

(** [_createIssueMap] lists every issue under its number, and lists
    nothing else, when GitHub's issues are keyed by number. *)
Lemma createIssueMap_spec (w : World H) :
  keyed (gh_issues (w_hub w)) -> states_listed (gh_issues (w_hub w)) ->
  exists w', createIssueMap w = (w', inr (gh_issues (w_hub w))) /\
             gh_issues (w_hub w') = gh_issues (w_hub w).
Proof.
  intros Hk Hs. unfold createIssueMap. rewrite (sbind_ok _ _ _ _ _ (emit_run _ _ _)).
  destruct (addIssues_spec ∅ "open" (write_log INFO [AnalyzeIssues] w)) as (w1 & E1 & H1).
  rewrite (sbind_ok _ _ _ _ _ E1).
  destruct (addIssues_spec (add_by_number ∅ (issues_in (w_hub w) "open")) "closed" w1)
    as (w2 & E2 & H2).
  rewrite (sbind_ok _ _ _ _ _ E2), (sbind_ok _ _ _ _ _ (emit_run _ _ _)).
  unfold sret. match goal with |- exists w', (?x, _) = _ /\ _ => exists x end.
  split; [|simpl in H1 |- *; congruence]. do 2 f_equal.
  assert (Hc : issues_in (w_hub w1) "closed" = issues_in (w_hub w) "closed")
    by (unfold issues_in; by rewrite H1).
  rewrite Hc, !add_by_number_keyed, map_union_empty; try (apply keyed_filter; done).
  apply issues_partition, Hs.
Qed.
End SnapshotSpecs.

(** ** The log of the tables *)

Section TableLogs.
Context {H : Type} `{!GitHubApi H}.
Variable format_epoch : Z -> option string.

(** What [readComments] and [readAttachments] add to the log. *)
Definition comments_log (path : option string) (table : Table) (w : World H) : World H :=
  match path with
  | None => w
  | Some p => write_log DEBUG (comment_trace format_epoch p table) (write_log INFO [ReadComments p] w)
  end.

Definition attachments_log (path prefix : option string) (w : World H) : World H :=
  match path, prefix with
  | Some _, None => write_log ERROR [AttachmentsPrefixMissing] w
  | Some p, Some _ => write_log INFO [ReadAttachments p] w
  | None, _ => w
  end.

Lemma readComments_run path table (w : World H) :
  readComments format_epoch path table w =
    (comments_log path table w, createTicketToCommentsMap format_epoch path table).
Proof.
  destruct path as [p|]; [|reflexivity]. unfold readComments.
  rewrite (sbind_ok _ _ _ _ _ (emit_run _ _ _)), (sbind_ok _ _ _ _ _ (sfor_emit_msgs _ _ _)).
  by destruct (createTicketToCommentsMap _ _ _).
Qed.

Lemma readAttachments_run path prefix table (w : World H) :
  readAttachments format_epoch path prefix table w =
    (attachments_log path prefix w, createTicketsToAttachmentsMap format_epoch path prefix table).
Proof.
  destruct path as [p|], prefix as [pre|]; try reflexivity. unfold readAttachments.
  rewrite (sbind_ok _ _ _ _ _ (emit_run _ _ _)). by destruct (createTicketsToAttachmentsMap _ _ _ _).
Qed.

Lemma w_hub_tables_log path table apath prefix (w : World H) :
  w_hub (attachments_log apath prefix (comments_log path table w)) = w_hub w.
Proof. by destruct path, apath, prefix. Qed.

Lemma w_hub_comments_log path table (w : World H) : w_hub (comments_log path table w) = w_hub w.
Proof. by destruct path. Qed.

Lemma w_hub_attachments_log path prefix (w : World H) :
  w_hub (attachments_log path prefix w) = w_hub w.
Proof. by destruct path, prefix. Qed.

Lemma hub_shape_comments_log path table (w : World H) :
  hub_shape (comments_log path table w) = hub_shape w.
Proof. by destruct path. Qed.

Lemma hub_shape_attachments_log path prefix (w : World H) :
  hub_shape (attachments_log path prefix w) = hub_shape w.
Proof. by destruct path, prefix. Qed.
End TableLogs.

(** ** The tables raise no numbering error *)

Lemma not_sync_fold_rows {St} (step : St -> nat -> list string -> Exc + St) acc i rows :
  (forall acc i row, not_sync (step acc i row)) -> not_sync (fold_rows step acc i rows).
Proof.
  intros Hs. revert acc i. induction rows as [|row rows IH]; intros acc i; simpl; [done|].
  specialize (Hs acc i row). destruct (step acc i row); [done|apply IH].
Qed.

Lemma not_sync_table_row {A} path cols (of_row : list string -> Exc + (Z * A)) acc i row :
  (forall row, not_sync (of_row row)) -> not_sync (table_row path cols of_row acc i row).
Proof.
  intros Ho. unfold table_row. destruct acc as [b m]. specialize (Ho row).
  repeat case_match; simplify_eq; done.
Qed.

Lemma not_sync_comment_of_row fmt row : not_sync (comment_of_row fmt row).
Proof.
  unfold comment_of_row. pose proof (not_sync_long (field row 0)).
  pose proof (not_sync_timeFormatter fmt (field row 1)). repeat case_match; done.
Qed.

Lemma not_sync_attachment_of_row fmt prefix row : not_sync (attachment_of_row fmt prefix row).
Proof.
  unfold attachment_of_row. pose proof (not_sync_long (field row 0)).
  pose proof (not_sync_timeFormatter fmt (field row 2)). repeat case_match; done.
Qed.

(** A reader raises no [SyncError]. *)
Lemma not_sync_table_end {A} (t : Table) (x : A) : table_ok t = true -> not_sync (table_end t.2 x).
Proof. unfold table_ok. destruct t as [? [[]|]]; simpl; done. Qed.

Lemma not_sync_read_rows {St} (step : St -> nat -> list string -> Exc + St) acc t :
  (forall acc i row, not_sync (step acc i row)) -> table_ok t = true -> not_sync (read_rows step acc t).
Proof.
  intros Hs Ht. unfold read_rows. pose proof (not_sync_fold_rows step acc 0 t.1 Hs) as Hf.
  destruct (fold_rows _ _ _ _); [done|]. by apply not_sync_table_end.
Qed.

Lemma not_sync_comments fmt path t :
  table_ok t = true -> not_sync (createTicketToCommentsMap fmt path t).
Proof.
  intros Ht. unfold createTicketToCommentsMap. destruct path as [p|]; [|done].
  pose proof (not_sync_read_rows (comment_row fmt p) (false, ∅) t) as Hf.
  destruct (read_rows _ _ _) as [e|[]]; [|done]. apply Hf; [|done]. intros.
  apply not_sync_table_row, not_sync_comment_of_row.
Qed.

Lemma not_sync_attachments fmt path prefix t :
  table_ok t = true -> not_sync (createTicketsToAttachmentsMap fmt path prefix t).
Proof.
  intros Ht. unfold createTicketsToAttachmentsMap. destruct path as [p|], prefix as [pre|]; try done.
  pose proof (not_sync_read_rows (attachment_row fmt p pre) (false, ∅) t) as Hf.
  destruct (read_rows _ _ _) as [e|[]]; [|done]. apply Hf; [|done]. intros.
  apply not_sync_table_row, not_sync_attachment_of_row.
Qed.

Lemma not_sync_buildTransformations lm toks : not_sync (buildTransformations lm toks).
Proof.
  unfold buildTransformations.
  enough (Hl : forall p, not_sync (build_loop lm p toks)).
  { specialize (Hl (mkParse AtField "" "" [])). by destruct (build_loop _ _ _). }
  induction toks as [|t ts IH]; intros p; simpl; [done|].
  destruct (build_step lm p t) eqn:E; [|apply IH].
  revert E. unfold build_step. repeat case_match; by intros [= <-].
Qed.

Lemma not_sync_keyword_setup lm acc kws : not_sync (keyword_setup lm acc kws).
Proof. revert acc. induction kws; intros acc; simpl; [done|]. by case_match. Qed.

(** ** The setup steps keep the shape of GitHub's issues *)

Section SetupFrames.
Context {H : Type} `{!GitHubApi H} `{!GitHubLaws H}.

Lemma keeps_shape_createMilestoneMap : keeps_shape (H := H) createMilestoneMap.
Proof. unfold createMilestoneMap, addMilestones. eauto 15 with frame. Qed.

Lemma keeps_shape_add_user_mapping result mapping :
  keeps_shape (H := H) (add_user_mapping result mapping).
Proof. unfold add_user_mapping. repeat case_match; eauto 8 with frame. Qed.

Lemma keeps_shape_createTracToGithubUserMap definition :
  keeps_shape (H := H) (createTracToGithubUserMap definition).
Proof.
  unfold createTracToGithubUserMap. generalize (∅ : gmap string string).
  induction (split_on _ definition); intros result; simpl;
    eauto using keeps_shape_add_user_mapping with frame.
Qed.

Lemma keeps_shape_buildLabelMap : keeps_shape (H := H) buildLabelMap.
Proof. unfold buildLabelMap. eauto 10 with frame. Qed.

Lemma keeps_shape_newLabelTransformations definition tokens keywords :
  keeps_shape (H := H) (newLabelTransformations definition tokens keywords).
Proof.
  unfold newLabelTransformations.
  destruct (_ || _); [|apply keeps_shape_ret].
  apply keeps_shape_bind; [apply keeps_shape_buildLabelMap|]. intros lm.
  apply keeps_shape_bind.
  { destruct (opt_truthy definition); [|eauto with frame].
    destruct (buildTransformations lm tokens) eqn:E; cbv iota; [|eauto with frame].
    apply keeps_shape_raise. rewrite <- E. apply not_sync_buildTransformations. }
  intros trs.
  destruct keywords as [kws|]; [destruct (truthy kws)|]; [|eauto with frame..].
  destruct (keyword_setup _ _ _) eqn:E; cbv iota; [|eauto with frame].
  apply keeps_shape_raise. pose proof (not_sync_keyword_setup lm [] (keyword_list kws)) as Hn.
  rewrite E in Hn. exact Hn.
Qed.
End SetupFrames.

(** ** Alignment of the whole migration *)

(** Numbers [1 .. n], each under its own key: what [contiguous] and
    [keyed] say, read on the shape. *)
Definition shape_ok (s : gmap Z (Z * string)) : Prop :=
  contiguous s /\ forall k n t, s !! k = Some (n, t) -> n = k.

Lemma shape_ok_issue_shape (m : gmap Z Issue) : shape_ok (issue_shape m) <-> contiguous m /\ keyed m.
Proof.
  unfold shape_ok, contiguous, keyed, issue_shape. setoid_rewrite lookup_fmap.
  rewrite map_size_fmap. split.
  - intros [Hc Hk]. split.
    + intros k. rewrite <- Hc. by rewrite fmap_is_Some.
    + intros k i Hi. apply (Hk k _ (title i)). by rewrite Hi.
  - intros [Hc Hk]. split.
    + intros k. rewrite <- Hc. by rewrite fmap_is_Some.
    + intros k n t Hs. destruct (m !! k) as [i|] eqn:E; [|done].
      injection Hs as <- _. eauto.
Qed.

Section WholeRun.
Context {H : Type} `{!GitHubApi H} `{!GitHubLaws H}.

(** What the migration promises at its end, on the shape reached. *)
Definition post {A} (pretend : bool) (s : gmap Z (Z * string)) (res : Exc + A) : Prop :=
  not_sync res /\ (pretend = false -> shape_ok s).

Lemma post_bind {A B} pretend (m : ST (World H) A) (k : A -> ST (World H) B) w :
  keeps_shape m -> shape_ok (hub_shape w) ->
  (forall a w', m w = (w', inr a) -> hub_shape w' = hub_shape w ->
     post pretend (hub_shape (fst (k a w'))) (snd (k a w'))) ->
  post pretend (hub_shape (fst (sbind m k w))) (snd (sbind m k w)).
Proof.
  intros Hm Hok Hk. specialize (Hm w). unfold sbind.
  destruct (m w) as [w' [e|a]] eqn:E; simpl in *; destruct Hm as [Hs Hns].
  - split; [done|]. rewrite Hs. done.
  - by apply (Hk a w' eq_refl).
Qed.

(** A step that ends by raising the exception of a reader, if any. *)
Lemma post_end pretend (m : ST (World H) unit) (x : Exc + unit) w :
  not_sync x -> post pretend (hub_shape (fst (m w))) (snd (m w)) ->
  post pretend (hub_shape (fst ((m ;; lift_w x) w))) (snd ((m ;; lift_w x) w)).
Proof.
  intros Hx. unfold sbind. destruct (m w) as [w' [e|[]]]; [done|].
  intros [_ Hok]. by destruct x.
Qed.

(** The loop starts aligned on the listing of the issues. *)
Lemma run_loop_start env (w : World H) existing milestones comments :
  contiguous existing -> keyed existing -> e_last_hub_issue env = Z.of_nat (size existing) ->
  hub_shape w = issue_shape existing ->
  aligned env (mkRun w existing milestones (1 + Z.of_nat (size existing)) comments false ∅).
Proof.
  intros Hc Hk Hl Hs. unfold aligned, current. simpl.
  split_and!; [done|done|lia|]. destruct (e_pretend env); [lia|done].
Qed.

Lemma run_loop_post wiki fmt env rows existing milestones comments (w : World H) :
  aligned env (mkRun w existing milestones (1 + Z.of_nat (size existing)) comments false ∅) ->
  post (e_pretend env) (hub_shape (fst (run_loop wiki fmt env rows existing milestones comments w)))
    (snd (run_loop wiki fmt env rows existing milestones comments w)).
Proof.
  intros Ha. unfold run_loop.
  destruct (process_rows_aligned wiki fmt env rows _ Ha) as [Ha' Hns].
  destruct (process_rows wiki fmt env rows _) as [r res]. simpl in *.
  split; [done|]. intros Hp. destruct Ha' as (Hc & Hk & _ & Hsh).
  rewrite Hp in Hsh. rewrite Hsh. by apply shape_ok_issue_shape.
Qed.
End WholeRun.

Section MigrationTheorem.
Context {H : Type} `{!GitHubApi H} `{!GitHubLaws H}.
Variable convertWikiToMd : string -> Z -> string.
Variable format_epoch : Z -> option string.

(** numbering alignment of a migration.  From a repository whose
    issues are numbered [1 .. n], each listed under its own number in
    state [open] or [closed], [migrateTickets] never fails the check
    [issue.number != ticketId], whatever the tables and options; and a
    real run ([pretend] false) leaves the repository numbered [1 .. m]
    with every issue under its own number, whether it ends normally or
    by an exception. *)
Theorem migrateTickets_aligned ticketsCsvPath ticketTable commentsCsvPath commentTable
    attachmentsCsvPath attachmentTable labelMapping labelTokens userMapping
    attachmentsPrefix keywords pretend (w : World H) :
  contiguous (gh_issues (w_hub w)) -> keyed (gh_issues (w_hub w)) ->
  states_listed (gh_issues (w_hub w)) ->
  table_ok ticketTable = true -> table_ok commentTable = true -> table_ok attachmentTable = true ->
  let res := migrateTickets convertWikiToMd format_epoch ticketsCsvPath ticketTable
               commentsCsvPath commentTable attachmentsCsvPath attachmentTable labelMapping
               labelTokens userMapping attachmentsPrefix keywords pretend w in
  not_sync (snd res) /\
  (pretend = false ->
   contiguous (gh_issues (w_hub (fst res))) /\ keyed (gh_issues (w_hub (fst res)))).
Proof.
  intros Hc Hk Hs Ht1 Ht2 Ht3 res.
  enough (Hp : post pretend (hub_shape (fst res)) (snd res)).
  { destruct Hp as [Hns Hok]. split; [done|]. intros Hp. by apply shape_ok_issue_shape, Hok. }
  assert (H0 : shape_ok (hub_shape w)) by (by apply shape_ok_issue_shape).
  subst res. unfold migrateTickets.
  pose proof (not_sync_comments format_epoch commentsCsvPath commentTable Ht2) as Hn1.
  rewrite (sbind_run _ _ _ _ _ (readComments_run format_epoch _ _ w)).
  destruct (createTicketToCommentsMap _ _ _) as [e|comments];
    [cbn [fst snd]; rewrite hub_shape_comments_log; by split|].
  pose proof (not_sync_attachments format_epoch attachmentsCsvPath attachmentsPrefix
                attachmentTable Ht3) as Hn2.
  rewrite (sbind_run _ _ _ _ _ (readAttachments_run format_epoch _ _ _ _)).
  destruct (createTicketsToAttachmentsMap _ _ _ _) as [e|attachments];
    [cbn [fst snd]; rewrite hub_shape_attachments_log, hub_shape_comments_log; by split|].
  set (w2 := attachments_log _ _ (comments_log _ _ _ w)).
  assert (Hh : w_hub w2 = w_hub w) by apply w_hub_tables_log.
  destruct (createIssueMap_spec w2 ltac:(by rewrite Hh) ltac:(by rewrite Hh)) as (w3 & E3 & H3).
  rewrite Hh in H3. rewrite (sbind_ok _ _ _ _ _ E3).
  assert (Hw3 : hub_shape w3 = hub_shape w) by (unfold hub_shape; by rewrite H3).
  apply post_bind; [apply keeps_shape_createMilestoneMap|by rewrite Hw3|].
  intros ms w4 _ Hw4.
  apply post_bind; [apply keeps_shape_createTracToGithubUserMap|by rewrite Hw4, Hw3|].
  intros um w5 _ Hw5.
  apply post_bind; [apply keeps_shape_newLabelTransformations|by rewrite Hw5, Hw4, Hw3|].
  intros lt w6 _ Hw6.
  apply post_bind; [apply keeps_shape_emit|by rewrite Hw6, Hw5, Hw4, Hw3|]. intros [] w7 _ Hw7.
  apply post_end; [by apply not_sync_table_end|].
  apply (run_loop_post _ _ (mkEnv pretend um lt attachments _ ticketsCsvPath)).
  apply run_loop_start; [by rewrite Hh|by rewrite Hh|done|]. by rewrite Hw7, Hw6, Hw5, Hw4, Hw3, Hh.
Qed.
End MigrationTheorem.

(** ** Examples *)

Import HubModel.

Section Examples.
Local Open Scope string_scope.

(** A repository with no issues, the label [bug] and the user [me]. *)
Definition example_world : World Hub :=
  mkWorld (mkHub ∅ [] ["bug"] ["me"] QUOTA 0 []) 0 [] [] 0 0 ∅ [] false.

(** A header and the tickets 1 and 3: ticket 2 is missing. *)
Definition example_tickets : list (list string) :=
  [["id"; "type"; "owner"; "reporter"; "milestone"; "status"; "resolution"; "summary";
    "description"; "time"; "changetime"; "freshdesk"; "keywords"];
   ["1"; "defect"; "me"; "me"; ""; "closed"; "fixed"; "First"; "one"; ""; ""; ""; "bug"];
   ["3"; "defect"; ""; "bob"; ""; "new"; ""; "Third"; "three"; ""; ""; ""; ""]].

Definition example_comments : list (list string) :=
  [["ticket"; "time"; "author"; "field"; "newvalue"];
   ["3"; ""; "bob"; "comment"; "Seen."]].

Definition example_run (keywords : option string) (pretend : bool) : World Hub * (Exc + unit) :=
  migrateTickets (fun s _ => s) (fun _ => Some "") "tickets.csv" (example_tickets, None)
    (Some "comments.csv") (example_comments, None) None ([], None) None [] "*:*" None keywords pretend
    example_world.
End Examples.

Lemma migrateTickets_aligned_witness :
  let res := migrateTickets (fun s _ => s) (fun _ => Some "") "tickets.csv" (example_tickets, None)
               (Some "comments.csv") (example_comments, None) None ([], None) None [] "*:*" None (Some "bug")
               false example_world in
  not_sync (snd res) /\
  (false = false -> contiguous (gh_issues (w_hub (fst res))) /\ keyed (gh_issues (w_hub (fst res)))).
Proof.
  apply migrateTickets_aligned; simpl;
    [apply contiguous_empty|intros k i Hk; by rewrite lookup_empty in Hk|apply map_Forall_empty
    |reflexivity..].
Defined.
