(* ===== verification/Discipline.v ===== *)
(** Discipline.v: relations between process states that every step of the
    program keeps, proved once for all of them.

    Most steps of the program only read GitHub, move the clock by a pause,
    or write the process's own variables; only six kinds of step touch
    what a property of the whole run is about: the pause
    [_apiPauseIfNeeded], the user cache [_validatedGithubUsers], the three
    creation blocks ([_apiPauseIfNeeded(True)], the request,
    [_apiCreationIncrement()], and [_totalIssues += 1] after an issue) and
    the pause before an [issue.edit(state="closed")].  A relation [R] on process states
    that is reflexive, transitive and kept by these six is a [Discipline];
    the lemmas of this file show that it is then kept by every step of
    [migrateTickets], whatever its outcome.  RateLimit.v (the two quotas)
    and Totals.v (the counters [_totalCreations] and [_totalIssues]) are
    the two instances. *)

From S2P Require Import Prelude PyStr GitHub Log Pacing Users Labels Ingest Migrate Frame Alignment Main.

Local Open Scope Z_scope.

Class Discipline {H : Type} `{!GitHubApi H} (R : World H -> World H -> Prop) := {
  discipline_refl :: Reflexive R;
  discipline_trans :: Transitive R;
  discipline_pause b : step_rel R (apiPauseIfNeeded b);
  discipline_validated (f : World H -> gmap string string) :
    step_rel R (smodify (fun w => set_validated (f w) w));
  discipline_issue t b a m l :
    step_rel R (apiPauseIfNeeded true ;; i <- create_issue_w t b a m l ;;
                apiCreationIncrement ;; count_issue ;; sret i);
  discipline_milestone t :
    step_rel R (apiPauseIfNeeded true ;; ms <- create_milestone_w t ;;
                apiCreationIncrement ;; sret ms);
  discipline_comment i t : step_rel R (addGitHubIssueComment i t);
  discipline_edit n : step_rel R (apiPauseIfNeeded false ;; edit_state_w n "closed");
  discipline_log lvl msgs : step_rel R (smodify (write_log lvl msgs));
  discipline_debug b : step_rel R (smodify (set_debug b))
}.

#[export] Existing Instances discipline_refl discipline_trans.

Create HintDb disc discriminated.

(** ** Steps on the process state *)

Section WorldSteps.
Context {H : Type} `{!GitHubApi H} (R : World H -> World H -> Prop) `{!Discipline R}.

Lemma disc_bind {A B} (m : ST (World H) A) (k : A -> ST (World H) B) :
  step_rel R m -> (forall a, step_rel R (k a)) -> step_rel R (sbind m k).
Proof. exact (step_rel_bind R m k). Qed.

Lemma disc_ret {A} (a : A) : step_rel R (sret a).
Proof. exact (step_rel_ret R a). Qed.

Lemma disc_raise {A} e : step_rel R (@sraise _ A e).
Proof. exact (step_rel_raise R e). Qed.

Lemma disc_get : step_rel R sget.
Proof. exact (step_rel_get R). Qed.

Lemma disc_when b (m : ST (World H) unit) : step_rel R m -> step_rel R (swhen b m).
Proof. exact (step_rel_when R b m). Qed.

Lemma disc_of_option {A} e (o : option A) : step_rel R (of_option e o).
Proof. exact (step_rel_of_option R e o). Qed.

Lemma disc_lift_w {A} (x : Exc + A) : step_rel R (lift_w x).
Proof. destruct x; [apply disc_raise|apply disc_ret]. Qed.

Lemma disc_emit lvl msg : step_rel R (emit lvl msg).
Proof. apply discipline_log. Qed.

Lemma disc_write_log lvl msgs w : R w (write_log lvl msgs w).
Proof. exact (discipline_log lvl msgs w). Qed.

Lemma disc_emit_at lvl f : step_rel R (emit_at lvl f).
Proof. intros w. exact (discipline_log lvl [f (w_debug w)] w). Qed.

Lemma disc_sfor {A} (l : list A) (body : A -> ST (World H) unit) :
  (forall x, step_rel R (body x)) -> step_rel R (sfor l body).
Proof. intros Hb. induction l; simpl; [apply disc_ret|by apply disc_bind]. Qed.

#[local] Hint Resolve disc_bind disc_ret disc_raise disc_get disc_when disc_of_option disc_lift_w
  disc_emit disc_emit_at disc_sfor discipline_pause : disc.

Lemma disc_getGitHubUser name : step_rel R (getGitHubUser name).
Proof.
  unfold getGitHubUser. apply disc_bind; [apply disc_get|]. intros w.
  destruct (w_validated w !! name); [apply disc_ret|].
  do 4 (apply disc_bind; eauto with disc; intros ?).
  apply disc_bind; [apply (discipline_validated (fun w2 => <[name := _]> (w_validated w2)))|].
  eauto with disc.
Qed.

Lemma disc_validate t g : step_rel R (validateGithubUser t g).
Proof.
  intros w. unfold validateGithubUser. pose proof (disc_getGitHubUser g w) as E.
  by destruct (getGitHubUser g w) as [w' [e|u]].
Qed.

#[local] Hint Resolve disc_getGitHubUser disc_validate : disc.

Lemma disc_githubUserFor m u v : step_rel R (githubUserFor m u v).
Proof.
  unfold githubUserFor. destruct (negb (truthy u)); [apply disc_ret|].
  apply disc_bind; [destruct (m !! u); eauto with disc|]. eauto with disc.
Qed.

Lemma disc_createTracToGithubUserMap definition : step_rel R (createTracToGithubUserMap definition).
Proof.
  unfold createTracToGithubUserMap. generalize (∅ : gmap string string).
  induction (split_on _ definition) as [|mp ms IH]; intros result; simpl; [apply disc_ret|].
  apply disc_bind; [|done]. unfold add_user_mapping. repeat case_match; eauto 8 with disc.
Qed.

Lemma disc_createIssueMap : step_rel R createIssueMap.
Proof. unfold createIssueMap, addIssues. eauto 15 with disc. Qed.

Lemma disc_createMilestoneMap : step_rel R createMilestoneMap.
Proof. unfold createMilestoneMap, addMilestones. eauto 15 with disc. Qed.

Lemma disc_newLabelTransformations definition tokens keywords :
  step_rel R (newLabelTransformations definition tokens keywords).
Proof.
  unfold newLabelTransformations.
  destruct (_ || _); [|apply disc_ret].
  apply disc_bind; [unfold buildLabelMap; eauto 10 with disc|]. intros lm.
  apply disc_bind.
  { destruct (opt_truthy definition); [destruct (buildTransformations lm tokens)|];
      cbv iota; eauto with disc. }
  intros trs. destruct keywords as [kws|]; [destruct (truthy kws)|];
    [destruct (keyword_setup _ _ _)|..]; cbv iota; eauto with disc.
Qed.
End WorldSteps.

#[export] Hint Resolve disc_bind disc_ret disc_raise disc_get disc_when disc_of_option disc_lift_w
  disc_emit disc_emit_at disc_sfor discipline_pause disc_getGitHubUser disc_validate disc_githubUserFor : disc.

(** ** Steps of the engine

    A relation [RR] between states of the engine is kept by all of its
    steps when it is a preorder kept by every step on the process state
    that keeps [R], and by every change of the engine's own variables
    that leaves the process state and [hasReadHeader] alone. *)

Section RunSteps.
Context {H : Type} `{!GitHubApi H} (R : World H -> World H -> Prop) `{!Discipline R}.
Context (RR : Run H -> Run H -> Prop) `{!Reflexive RR} `{!Transitive RR}.
Hypothesis RR_onWorld : forall A (m : ST (World H) A), step_rel R m -> step_rel RR (onWorld m).
Hypothesis RR_modify : forall f : Run H -> Run H,
  (forall r, r_world (f r) = r_world r /\ r_header_read (f r) = r_header_read r) ->
  step_rel RR (smodify f).
Hypothesis RR_header : step_rel RR (smodify (set_header_read true)).

Lemma disc_run_bind {A B} (m : ST (Run H) A) (k : A -> ST (Run H) B) :
  step_rel RR m -> (forall a, step_rel RR (k a)) -> step_rel RR (sbind m k).
Proof. exact (step_rel_bind RR m k). Qed.

Lemma disc_run_ret {A} (a : A) : step_rel RR (sret a).
Proof. exact (step_rel_ret RR a). Qed.

Lemma disc_run_raise {A} e : step_rel RR (@sraise _ A e).
Proof. exact (step_rel_raise RR e). Qed.

Lemma disc_run_get : step_rel RR sget.
Proof. exact (step_rel_get RR). Qed.

Lemma disc_run_when b (m : ST (Run H) unit) : step_rel RR m -> step_rel RR (swhen b m).
Proof. exact (step_rel_when RR b m). Qed.

Lemma disc_run_sfor {A} (l : list A) body :
  (forall x, step_rel RR (body x)) -> step_rel RR (sfor l body).
Proof. exact (step_rel_sfor RR l body). Qed.

Lemma disc_run_of_option {A} e (o : option A) : step_rel RR (of_option e o).
Proof. exact (step_rel_of_option RR e o). Qed.

Lemma disc_run_lift {A} (x : Exc + A) : step_rel RR (lift x).
Proof. destruct x; [apply disc_run_raise|apply disc_run_ret]. Qed.

Lemma disc_run_onWorld {A} (m : ST (World H) A) : step_rel R m -> step_rel RR (onWorld m).
Proof. apply RR_onWorld. Qed.

(** A step on the engine's own variables. *)
Lemma disc_run_modify (f : Run H -> Run H) :
  (forall r, r_world (f r) = r_world r /\ r_header_read (f r) = r_header_read r) ->
  step_rel RR (smodify f).
Proof. apply RR_modify. Qed.

#[local] Hint Resolve disc_run_bind disc_run_ret disc_run_raise disc_run_get disc_run_when
  disc_run_sfor disc_run_of_option disc_run_lift disc_run_onWorld disc_run_modify : disc.
#[local] Hint Extern 1 (forall r, r_world _ = r_world r /\ r_header_read _ = r_header_read r) =>
  intros; split; reflexivity : disc.

Variable convertWikiToMd : string -> Z -> string.
Variable format_epoch : Z -> option string.
Variable env : Env.

Lemma disc_ensure_milestone t : step_rel RR (ensure_milestone env t).
Proof.
  unfold ensure_milestone. apply disc_run_bind; [apply disc_run_get|]. intros r.
  destruct (r_milestones r !! t); [apply disc_run_ret|].
  apply disc_run_bind; [|eauto 10 with disc].
  destruct (e_pretend env); [apply disc_run_ret|].
  apply disc_run_onWorld, discipline_milestone.
Qed.

Lemma disc_possiblyAddLabel lt labels field value :
  step_rel RR (possiblyAddLabel lt labels field value).
Proof. unfold possiblyAddLabel. destruct (labelFor _ _ _); eauto with disc. Qed.

Lemma disc_labelsFromKeywords lt labels kw : step_rel RR (labelsFromKeywords lt labels kw).
Proof. unfold labelsFromKeywords. eauto 6 with disc. Qed.

Lemma disc_prepare_issue tm : step_rel RR (prepare_issue env tm).
Proof.
  unfold prepare_issue. destruct (String.eqb _ _); [apply disc_run_ret|].
  apply disc_run_bind; [eauto with disc|]. intros ga.
  apply disc_run_bind; [destruct (truthy ga); eauto 6 with disc|]. intros a.
  apply disc_run_bind; [destruct (truthy _); eauto 6 using disc_ensure_milestone with disc|].
  eauto 10 using disc_possiblyAddLabel, disc_labelsFromKeywords with disc.
Qed.

Lemma disc_create_fresh tm : step_rel RR (create_fresh env tm).
Proof.
  unfold create_fresh, send_issue.
  apply disc_run_bind; [eauto with disc|]. intros _.
  apply disc_run_bind; [apply disc_prepare_issue|]. intros [[[b a] m] l].
  apply disc_run_bind.
  - destruct (e_pretend env); [eauto 6 with disc|]. apply disc_run_onWorld, discipline_issue.
  - intros i. apply disc_run_bind; [eauto with disc|]. intros _. destruct (negb _); eauto with disc.
Qed.

Lemma disc_migrate_ticket tm : step_rel RR (migrate_ticket convertWikiToMd env tm).
Proof.
  unfold migrate_ticket, add_comments, add_comment, close_if_needed.
  apply disc_run_bind; [destruct (t_exists tm); eauto using disc_create_fresh with disc|]. intros i.
  apply disc_run_bind.
  - apply disc_run_bind; [apply disc_run_get|]. intros r.
    destruct (r_comments r !! t_id tm); [|apply disc_run_ret]. apply disc_run_sfor. intros n.
    apply disc_run_bind; [apply disc_run_get|]. intros r'.
    repeat case_match; eauto 10 using discipline_comment with disc.
  - intros _. apply disc_run_bind; [apply disc_run_get|]. intros r. apply disc_run_when.
    apply disc_run_bind; [eauto with disc|]. intros _. apply disc_run_when.
    apply disc_run_bind; [eauto 6 using discipline_edit with disc|]. intros _.
    apply disc_run_modify. done.
Qed.

Lemma disc_process_row i row : step_rel RR (process_row convertWikiToMd format_epoch env i row).
Proof.
  unfold process_row, resume_check. destruct (negb _); [apply disc_run_raise|].
  apply disc_run_bind; [apply disc_run_get|]. intros r.
  destruct (negb (r_header_read r)); [apply RR_header|].
  apply disc_run_bind; [apply disc_run_lift|]. intros t.
  destruct (t <? _); [apply disc_run_ret|].
  apply disc_run_bind; [apply disc_run_get|]. intros r1.
  destruct (_ && _); [apply disc_run_raise|].
  apply disc_run_bind; [eauto using disc_migrate_ticket with disc|]. intros _.
  apply disc_run_bind; [apply disc_run_lift|]. intros tm.
  apply disc_run_bind; [|intros; apply disc_migrate_ticket].
  destruct (_ =? _); [|apply disc_run_ret].
  apply disc_run_bind; [apply disc_run_get|]. intros r2.
  apply disc_run_bind; [apply disc_run_of_option|]. intros it. destruct (negb _); eauto with disc.
Qed.

Lemma disc_process_rows rows : step_rel RR (process_rows convertWikiToMd format_epoch env rows).
Proof.
  unfold process_rows. generalize 0%nat.
  induction rows as [|row rows IH]; intros n; simpl; [apply disc_run_ret|].
  apply disc_run_bind; [apply disc_process_row|intros; apply IH].
Qed.
End RunSteps.

(** [R] read on the process state inside the engine's state. *)
Section RunRel.
Context {H : Type} `{!GitHubApi H} (R : World H -> World H -> Prop) `{!Discipline R}.

Definition run_rel (r r' : Run H) : Prop := R (r_world r) (r_world r').

#[export] Instance run_rel_refl : Reflexive run_rel.
Proof. intros r. unfold run_rel. reflexivity. Qed.

#[export] Instance run_rel_trans : Transitive run_rel.
Proof. intros r1 r2 r3. unfold run_rel. apply discipline_trans. Qed.

Lemma run_rel_onWorld {A} (m : ST (World H) A) : step_rel R m -> step_rel run_rel (onWorld m).
Proof. intros Hm. by apply (step_rel_zoom R r_world set_world). Qed.

Lemma run_rel_modify (f : Run H -> Run H) :
  (forall r, r_world (f r) = r_world r /\ r_header_read (f r) = r_header_read r) ->
  step_rel run_rel (smodify f).
Proof.
  intros Hf. apply (step_rel_modify run_rel). intros r. unfold run_rel.
  rewrite (proj1 (Hf r)). reflexivity.
Qed.

Lemma run_rel_header : step_rel run_rel (smodify (@set_header_read H true)).
Proof. apply (step_rel_modify run_rel). intros r. unfold run_rel. reflexivity. Qed.
End RunRel.

(** ** [migrateTickets] *)

Section Migration.
Context {H : Type} `{!GitHubApi H} (R : World H -> World H -> Prop) `{!Discipline R}.
Variable convertWikiToMd : string -> Z -> string.
Variable format_epoch : Z -> option string.

Lemma disc_run_loop env rows existing milestones comments :
  step_rel R (run_loop convertWikiToMd format_epoch env rows existing milestones comments).
Proof.
  intros w. unfold run_loop.
  pose proof (disc_process_rows R (run_rel R) (fun A m => run_rel_onWorld R m) (run_rel_modify R) (run_rel_header R)
                convertWikiToMd format_epoch env rows
                (mkRun w existing milestones (1 + Z.of_nat (size existing)) comments false ∅)) as Hr.
  by destruct (process_rows _ _ _ _ _).
Qed.

Lemma disc_readComments path table : step_rel R (readComments format_epoch path table).
Proof.
  unfold readComments. destruct path; [|apply (disc_ret R)].
  apply (disc_bind R); [apply (disc_emit R)|intros _].
  apply (disc_bind R); [apply (disc_sfor R); intros; apply (disc_emit R)|intros _].
  apply (disc_lift_w R).
Qed.

Lemma disc_readAttachments path prefix table :
  step_rel R (readAttachments format_epoch path prefix table).
Proof.
  unfold readAttachments. destruct path, prefix; try apply (disc_ret R);
    apply (disc_bind R); [apply (disc_emit R)| |apply (disc_emit R)|]; intros _;
    [apply (disc_lift_w R)|apply (disc_ret R)].
Qed.

(** Every run of [migrateTickets] keeps a discipline. *)
Lemma disc_migrateTickets ticketsCsvPath ticketRows commentsCsvPath commentRows
    attachmentsCsvPath attachmentRows labelMapping labelTokens userMapping
    attachmentsPrefix keywords pretend :
  step_rel R (migrateTickets convertWikiToMd format_epoch ticketsCsvPath ticketRows
                commentsCsvPath commentRows attachmentsCsvPath attachmentRows
                labelMapping labelTokens userMapping attachmentsPrefix keywords pretend).
Proof.
  unfold migrateTickets.
  eauto 20 using disc_readComments, disc_readAttachments, disc_createIssueMap,
    disc_createMilestoneMap, disc_createTracToGithubUserMap, disc_newLabelTransformations,
    disc_run_loop with disc.
Qed.
End Migration.
