(* ===== verification/Completeness.v ===== *)
(** Completeness.v: what a run of [migrateTickets] that ends normally has
    done with the tickets table.

    Every row after the header whose ticket is numbered at least
    [lastHubIssue] (the number of issues when the run started) is, at the
    end, the issue with the ticket's number and the ticket's summary as
    title, and every issue that existed before keeps its number and title.
    The engine-level result ([process_rows_from_grows]) is proved by
    induction on the rows from the three outcomes of a row (skipped,
    resumed, created after the placeholders of its gap, Rows.v); that the
    header stays read once it is read is a [step_rel] proved with the
    generic lemmas of Discipline.v; the real run carries the result over to
    GitHub through [hub_shape] (Alignment.v). *)

From S2P Require Import Prelude PyStr GitHub Log Pacing Users Labels Ingest Migrate Frame Alignment Rows Main Discipline.

Local Open Scope Z_scope.

(** ** The header flag *)

Section Header.
Context {H : Type} `{!GitHubApi H}.

(** The relation that relates all process states: every step keeps it. *)
Definition any_world (w w' : World H) : Prop := True.

#[export] Instance any_discipline : Discipline any_world.
Proof. split; repeat intro; exact I. Qed.

(** [headerRead] is never reset. *)
Definition header_kept (r r' : Run H) : Prop :=
  r_header_read r = true -> r_header_read r' = true.

#[export] Instance header_kept_refl : Reflexive header_kept.
Proof. intros r Hh. exact Hh. Qed.

#[export] Instance header_kept_trans : Transitive header_kept.
Proof. intros r1 r2 r3 H12 H23 Hh. auto. Qed.

Lemma header_kept_process_row convertWikiToMd format_epoch env i row :
  step_rel header_kept (process_row convertWikiToMd format_epoch env i row).
Proof.
  apply (disc_process_row any_world header_kept).
  - intros A m _ r. unfold onWorld, zoom. destruct (m (r_world r)). by intros Hh.
  - intros f Hf r Hh. cbn. by rewrite (proj2 (Hf r)).
  - by intros r _.
Qed.
End Header.

(** ** The shape of a growing map *)

Lemma issue_shape_grows (m m' : gmap Z Issue) :
  (forall k it, m !! k = Some it -> m' !! k = Some it) ->
  forall k x, issue_shape m !! k = Some x -> issue_shape m' !! k = Some x.
Proof.
  unfold issue_shape. intros Hm k x (it & <- & Hit)%lookup_fmap_Some. apply lookup_fmap_Some. eauto.
Qed.

Section Frames.
Context {H : Type} `{!GitHubApi H}.

Lemma keeps_shape_ok {A} (m : ST (World H) A) w w' a :
  keeps_shape m -> m w = (w', inr a) -> hub_shape w' = hub_shape w.
Proof. intros Hm E. pose proof (proj1 (Hm w)) as Hs. by rewrite E in Hs. Qed.
End Frames.

(** ** The rows *)

Section Rows.
Context {H : Type} `{!GitHubApi H} `{!GitHubLaws H}.
Variable convertWikiToMd : string -> Z -> string.
Variable format_epoch : Z -> option string.
Variable env : Env.

(** A row that passes leaves the header read, keeps every issue, and, if
    it is a ticket numbered at least [lastHubIssue], leaves its issue with
    the ticket's summary as title. *)
Lemma process_row_grows i row (r : Run H) :
  aligned env r -> snd (process_row convertWikiToMd format_epoch env i row r) = inr tt ->
  r_header_read (fst (process_row convertWikiToMd format_epoch env i row r)) = true /\
  (forall k it, r_existing r !! k = Some it ->
     r_existing (fst (process_row convertWikiToMd format_epoch env i row r)) !! k = Some it) /\
  (r_header_read r = true -> forall t, long (field row 0) = inr t -> e_last_hub_issue env <= t ->
     exists it, r_existing (fst (process_row convertWikiToMd format_epoch env i row r)) !! t = Some it /\
                title it = field row 7).
Proof.
  intros Ha Hs.
  pose proof (header_kept_process_row convertWikiToMd format_epoch env i row r) as Hhk.
  destruct (Nat.eqb_spec (length row) ticket_columns) as [Hlen|Hlen];
    [|unfold process_row in Hs; by rewrite (proj2 (Nat.eqb_neq _ _) Hlen) in Hs].
  destruct (r_header_read r) eqn:Hh.
  2: { unfold process_row. rewrite Hlen, Nat.eqb_refl. cbn [negb].
       rewrite sbind_sget, Hh. cbn. split_and!; [done|by intros|done]. }
  destruct (long (field row 0)) as [e|t] eqn:Hl.
  { unfold process_row in Hs. rewrite Hlen, Nat.eqb_refl in Hs. cbn [negb] in Hs.
    by rewrite sbind_sget, Hh, Hl in Hs. }
  pose proof Ha as (Hc & _ & Hlast & _).
  destruct (Z.lt_ge_cases t (e_last_hub_issue env)) as [Hlt|Hge].
  { rewrite (process_row_unfold convertWikiToMd format_epoch env i row r t Hlen Hh Hl),
      (proj2 (Z.ltb_lt _ _) Hlt). split_and!; [done|done|intros _ t' [= <-]; lia]. }
  destruct (Z.le_gt_cases t (current r)) as [Hle|Hgt].
  - destruct (process_row_resumed convertWikiToMd format_epoch env i row r t Ha Hlen Hh Hl
                ltac:(lia) Hs) as (Hex & it & Hit & Htitle).
    rewrite Hex. split_and!; [by apply Hhk|done|]. intros _ t' [= <-] _. eauto.
  - destruct (process_row_fills_gap convertWikiToMd format_epoch env i row r t Ha Hlen Hh Hl
                Hgt Hs) as (_ & _ & Ht & Hout).
    split_and!; [by apply Hhk| |intros _ t' [= <-] _; exact Ht].
    intros k it Hk. rewrite Hout; [done|].
    destruct (proj1 (Hc k) (mk_is_Some _ _ Hk)) as [_ Hsz]. unfold current. lia.
Qed.

(** The loop over the rows, from row [idx] on. *)
Lemma process_rows_from_grows idx rows (r : Run H) :
  aligned env r ->
  snd (process_rows_from convertWikiToMd format_epoch env idx rows r) = inr tt ->
  (forall k it, r_existing r !! k = Some it ->
     r_existing (fst (process_rows_from convertWikiToMd format_epoch env idx rows r)) !! k = Some it) /\
  (forall row t, row ∈ (if r_header_read r then rows else tail rows) ->
     long (field row 0) = inr t -> e_last_hub_issue env <= t ->
     exists it, r_existing (fst (process_rows_from convertWikiToMd format_epoch env idx rows r)) !! t
                  = Some it /\ title it = field row 7).
Proof.
  revert idx r. induction rows as [|row rows IH]; intros idx r Ha; simpl.
  { intros _. split; [done|]. intros row t. destruct (r_header_read r); simpl; by intros ?%elem_of_nil. }
  destruct (process_row_spec convertWikiToMd format_epoch env idx row r Ha) as (Ha1 & _).
  pose proof (process_row_grows idx row r Ha) as Hg.
  destruct (process_row convertWikiToMd format_epoch env idx row r) as [r1 [e|[]]] eqn:E;
    [by rewrite (sbind_err _ _ _ _ _ E)|].
  rewrite (sbind_ok _ _ _ _ _ E). intros Hs.
  destruct (Hg eq_refl) as (Hh1 & Hk1 & Ht1). simpl in Hh1, Hk1, Ht1.
  destruct (IH (S idx) r1 Ha1 Hs) as (Hk2 & Ht2). rewrite Hh1 in Ht2.
  split; [auto|]. intros row' t Hin Hl Ht.
  destruct (r_header_read r); simpl in Hin; [|auto].
  apply elem_of_cons in Hin as [->|Hin]; [|auto].
  destruct (Ht1 eq_refl t Hl Ht) as (it & Hit & Htitle). eauto.
Qed.
End Rows.

(** ** A real run of [migrateTickets] *)

Section Migration.
Context {H : Type} `{!GitHubApi H} `{!GitHubLaws H}.
Variable convertWikiToMd : string -> Z -> string.
Variable format_epoch : Z -> option string.

(** The completeness of a real run that ends normally, for the claim
    below and for the resumed run of Resume.v. *)
Lemma migrateTickets_complete_run ticketsCsvPath ticketTable commentsCsvPath commentTable
    attachmentsCsvPath attachmentTable labelMapping labelTokens userMapping
    attachmentsPrefix keywords (w : World H) :
  contiguous (gh_issues (w_hub w)) -> keyed (gh_issues (w_hub w)) ->
  states_listed (gh_issues (w_hub w)) ->
  let res := migrateTickets convertWikiToMd format_epoch ticketsCsvPath ticketTable
               commentsCsvPath commentTable attachmentsCsvPath attachmentTable labelMapping
               labelTokens userMapping attachmentsPrefix keywords false w in
  snd res = inr tt ->
  (forall k x, hub_shape w !! k = Some x -> hub_shape (fst res) !! k = Some x) /\
  (forall row t, row ∈ tail ticketTable.1 -> long (field row 0) = inr t ->
     Z.of_nat (size (gh_issues (w_hub w))) <= t ->
     exists i, gh_issues (w_hub (fst res)) !! t = Some i /\ number i = t /\ title i = field row 7).
Proof.
  intros Hc Hk Hs res. subst res. unfold migrateTickets.
  rewrite (sbind_run _ _ _ _ _ (readComments_run format_epoch _ _ w)).
  destruct (createTicketToCommentsMap _ _ _) as [e|comments]; [done|].
  rewrite (sbind_run _ _ _ _ _ (readAttachments_run format_epoch _ _ _ _)).
  destruct (createTicketsToAttachmentsMap _ _ _ _) as [e|attachments]; [done|].
  set (w2 := attachments_log _ _ (comments_log _ _ _ w)).
  assert (Hh : w_hub w2 = w_hub w) by apply w_hub_tables_log.
  destruct (createIssueMap_spec w2 ltac:(by rewrite Hh) ltac:(by rewrite Hh)) as (w3 & E3 & H3).
  rewrite Hh in H3. rewrite (sbind_ok _ _ _ _ _ E3), Hh. intros Hok.
  destruct (sbind_inr _ _ _ _ Hok) as (w4 & ms & E4 & R4). rewrite R4 in Hok |- *.
  destruct (sbind_inr _ _ _ _ Hok) as (w5 & um & E5 & R5). rewrite R5 in Hok |- *.
  destruct (sbind_inr _ _ _ _ Hok) as (w6' & lt & E6 & R6). rewrite R6 in Hok |- *.
  rewrite (sbind_ok _ _ _ _ _ (emit_run _ _ _)) in Hok |- *.
  set (w6 := write_log _ _ w6') in Hok |- *.
  assert (E6w : hub_shape w6 = hub_shape w6') by reflexivity. clearbody w6.
  destruct (sbind_inr _ _ _ _ Hok) as (w7 & [] & E7 & R7). rewrite R7.
  replace (fst (lift_w (table_end ticketTable.2 tt) w7)) with w7 by (by destruct ticketTable.2).
  pose proof (keeps_shape_ok _ _ _ _ keeps_shape_createMilestoneMap E4) as Hw4.
  pose proof (keeps_shape_ok _ _ _ _ (keeps_shape_createTracToGithubUserMap _) E5) as Hw5.
  pose proof (keeps_shape_ok _ _ _ _ (keeps_shape_newLabelTransformations _ _ _) E6) as Hw6.
  rewrite <- E6w in Hw6.
  set (env := mkEnv false um lt attachments (Z.of_nat (size (gh_issues (w_hub w)))) ticketsCsvPath).
  assert (Hsh : hub_shape w6 = issue_shape (gh_issues (w_hub w))).
  { rewrite Hw6, Hw5, Hw4. unfold hub_shape. by rewrite H3. }
  pose proof (run_loop_start env w6 _ ms comments Hc Hk eq_refl Hsh) as Ha.
  unfold run_loop in E7.
  pose proof (process_rows_aligned convertWikiToMd format_epoch env ticketTable.1 _ Ha) as [Ha' _].
  pose proof (process_rows_from_grows convertWikiToMd format_epoch env 0 ticketTable.1 _ Ha) as Hg.
  unfold process_rows in *.
  destruct (process_rows_from _ _ _ _ _ _) as [r res] eqn:Er. injection E7 as <- ->.
  destruct (Hg eq_refl) as [Hgrow Hrows]. simpl in Hgrow, Hrows.
  destruct Ha' as (_ & Hkey & _ & Hshape). simpl in Hshape.
  split.
  - intros k x. fold (hub_shape (r_world r)). rewrite Hshape.
    apply issue_shape_grows. exact Hgrow.
  - intros row t Hin Hl Ht. destruct (Hrows row t Hin Hl Ht) as (it & Hit & Htitle).
    assert (Hsh' : issue_shape (gh_issues (w_hub (r_world r))) !! t = Some (number it, title it)).
    { fold (hub_shape (r_world r)). rewrite Hshape. unfold issue_shape. by rewrite lookup_fmap, Hit. }
    apply lookup_fmap_Some in Hsh' as (i & [= Hn Hti] & Hi).
    exists i. split_and!; [done|rewrite Hn; exact (Hkey _ _ Hit)|congruence].
Qed.

(** C6: Completeness of a real run.  From a repository whose [n] issues are
    numbered [1 .. n] and listed by [get_issues], a run of
    [migrateTickets] with [pretend] false that ends normally keeps every
    issue with its number and title, and leaves every ticket of the table
    (the rows after the header) numbered [t >= n] as the GitHub issue
    number [t] with the ticket's summary as title. *)
Theorem migrateTickets_complete ticketsCsvPath ticketTable commentsCsvPath commentTable
    attachmentsCsvPath attachmentTable labelMapping labelTokens userMapping
    attachmentsPrefix keywords (w : World H) :
  contiguous (gh_issues (w_hub w)) -> keyed (gh_issues (w_hub w)) ->
  states_listed (gh_issues (w_hub w)) ->
  let res := migrateTickets convertWikiToMd format_epoch ticketsCsvPath ticketTable
               commentsCsvPath commentTable attachmentsCsvPath attachmentTable labelMapping
               labelTokens userMapping attachmentsPrefix keywords false w in
  snd res = inr tt ->
  (forall k x, hub_shape w !! k = Some x -> hub_shape (fst res) !! k = Some x) /\
  (forall row t, row ∈ tail ticketTable.1 -> long (field row 0) = inr t ->
     Z.of_nat (size (gh_issues (w_hub w))) <= t ->
     exists i, gh_issues (w_hub (fst res)) !! t = Some i /\ number i = t /\ title i = field row 7).
Proof. exact (migrateTickets_complete_run ticketsCsvPath ticketTable commentsCsvPath commentTable attachmentsCsvPath attachmentTable labelMapping labelTokens userMapping attachmentsPrefix keywords w). Qed.
End Migration.

(** ** Example *)

Import HubModel.

(** The tickets 1 and 3 of [example_tickets], migrated into an empty
    repository, are the issues 1 and 3 titled [First] and [Third]. *)
Lemma migrateTickets_complete_witness :
  let res := migrateTickets (fun s _ => s) (fun _ => Some "") "tickets.csv" (example_tickets, None)
               (Some "comments.csv") (example_comments, None) None ([], None) None [] "*:*" None (Some "bug")
               false example_world in
  (forall k x, hub_shape example_world !! k = Some x -> hub_shape (fst res) !! k = Some x) /\
  (forall row t, row ∈ tail example_tickets -> long (field row 0) = inr t ->
     Z.of_nat (size (gh_issues (w_hub example_world))) <= t ->
     exists i, gh_issues (w_hub (fst res)) !! t = Some i /\ number i = t /\ title i = field row 7).
Proof.
  apply migrateTickets_complete; simpl;
    [apply contiguous_empty|intros k i Hk; by rewrite lookup_empty in Hk|apply map_Forall_empty|
     vm_compute; reflexivity].
Defined.
