(* ===== verification/Resume.v ===== *)
(** Resume.v: a migration that is interrupted and run again.

    The program is made to be re-run: [migrateTickets] reads the issues
    already on GitHub, skips the tickets below [lastHubIssue], continues
    the ticket numbered [lastHubIssue] (the last issue of the previous
    run, whose title must match) and creates the others.  This file
    proves that an interrupted real run followed by a real run that ends
    normally leaves every ticket as the issue of its number with its
    summary as title, when the ticket ids of the table increase.  The
    first run may have read its tickets table only in part (a reader that
    stopped early: its rows are a prefix of the second run's), and may
    have stopped on any exception.

    The interrupted run may stop anywhere: its effect on [existingIssues]
    is described for every outcome of a row ([process_row_bound]: the
    issues only grow, and never beyond the row's ticket id), and the loop
    keeps the invariant that every ticket already processed is its issue
    and every ticket still ahead is numbered at least the number of issues
    ([process_rows_from_prefix]).  That GitHub's issues stay [open] or
    [closed] is a [Discipline] (Discipline.v). *)

From S2P Require Import Prelude PyStr GitHub Log Pacing Users Labels Ingest Migrate Frame Alignment Rows Main Discipline Completeness.

Local Open Scope Z_scope.

(** ** GitHub's issues stay [open] or [closed] *)

Section States.
Context {H : Type} `{!GitHubApi H} `{!GitHubLaws H}.

Definition states_kept (w w' : World H) : Prop :=
  states_listed (gh_issues (w_hub w)) -> states_listed (gh_issues (w_hub w')).

#[export] Instance states_kept_refl : Reflexive states_kept.
Proof. intros w Hw. exact Hw. Qed.

#[export] Instance states_kept_trans : Transitive states_kept.
Proof. intros w1 w2 w3 H12 H23 Hw. auto. Qed.

(** A step that changes the issues at most by [f], which keeps states. *)
Lemma states_kept_issues {A} (m : ST (World H) A) (f : gmap Z Issue -> gmap Z Issue) :
  (forall w, gh_issues (w_hub (fst (m w))) = f (gh_issues (w_hub w))) ->
  (forall ims, states_listed ims -> states_listed (f ims)) -> step_rel states_kept m.
Proof. intros Hm Hf w Hw. rewrite Hm. auto. Qed.

Lemma states_kept_same {A} (m : ST (World H) A) :
  (forall w, gh_issues (w_hub (fst (m w))) = gh_issues (w_hub w)) -> step_rel states_kept m.
Proof. intros Hm. apply (states_kept_issues m id); [exact Hm|done]. Qed.

Lemma states_kept_pause b : step_rel states_kept (apiPauseIfNeeded b).
Proof. apply states_kept_same. intros w. apply (apiPauseIfNeeded_reads b w). Qed.

Lemma states_listed_alter f n (ims : gmap Z Issue) :
  (forall i, state i = "open" \/ state i = "closed" -> state (f i) = "open" \/ state (f i) = "closed") ->
  states_listed ims -> states_listed (alter f n ims).
Proof.
  intros Hf Hs k i. rewrite lookup_alter. case_decide; [subst|apply Hs].
  intros (j & Hj & ->)%fmap_Some. exact (Hf j (Hs k j Hj)).
Qed.

#[local] Hint Resolve states_kept_pause : disc.

Ltac states_block :=
  repeat match goal with
         | |- step_rel _ (sbind _ _) => apply (step_rel_bind states_kept); [|intros ?]
         end;
  try first [apply (step_rel_ret states_kept) | apply states_kept_pause
            | apply states_kept_same; intros ?; reflexivity].

#[export] Instance states_discipline : Discipline states_kept.
Proof.
  split; [apply states_kept_refl|apply states_kept_trans|apply states_kept_pause|..].
  - intros f. apply states_kept_same. intros w. reflexivity.
  - intros t b a m l. states_block.
    apply (states_kept_issues _ (fun ims => <[Z.of_nat (size ims) + 1 :=
             mkIssue (Z.of_nat (size ims) + 1) t b "open" 0]> ims)).
    + intros w. unfold create_issue_w. rewrite <- (create_issue_issues (w_now w) (w_hub w) t b a m l).
      by destruct (gh_create_issue _ _ _ _ _ _ _).
    + intros ims Hs. apply map_Forall_insert_2; [by left|done].
  - intros t. states_block. apply states_kept_same. intros w. unfold create_milestone_w.
    rewrite <- (create_milestone_issues (w_now w) (w_hub w) t).
    by destruct (gh_create_milestone _ _ _).
  - intros i t. unfold addGitHubIssueComment. states_block.
    apply (states_kept_issues _ (alter with_comment (number i))).
    + intros w. apply create_comment_issues.
    + intros ims. by apply states_listed_alter.
  - intros n. states_block. apply (states_kept_issues _ (alter (with_state "closed") n)).
    + intros w. apply edit_state_issues.
    + intros ims. apply states_listed_alter. intros i _. by right.
  - intros lvl msgs. apply states_kept_same. intros w. reflexivity.
  - intros b. apply states_kept_same. intros w. reflexivity.
Qed.
End States.

(** ** What a step of the engine does to [existingIssues], whatever its outcome *)

Section Engine.
Context {H : Type} `{!GitHubApi H} `{!GitHubLaws H}.
Variable convertWikiToMd : string -> Z -> string.
Variable format_epoch : Z -> option string.
Variable env : Env.

(** The issue a fresh ticket gets is the next number: inserting it keeps
    every issue there was. *)
Lemma insert_next_subseteq (r : Run H) k i :
  aligned env r -> k = current r + 1 -> r_existing r ⊆ <[k := i]> (r_existing r).
Proof.
  intros (Hc & _) ->. apply insert_subseteq. by apply contiguous_next_free.
Qed.

Lemma create_fresh_bound tm (r : Run H) :
  aligned env r -> t_id tm = current r + 1 ->
  r_existing r ⊆ r_existing (fst (create_fresh env tm r)) /\
  current (fst (create_fresh env tm r)) <= current r + 1.
Proof.
  intros Ha Hid. destruct (create_fresh_spec env tm r Ha Hid) as (_ & _ & Hok & Herr).
  destruct (create_fresh env tm r) as [r1 [e|i]] eqn:E; simpl in *.
  - unfold current. rewrite (Herr e eq_refl). split; [done|lia].
  - destruct (Hok i eq_refl) as (He & _).
    split; [rewrite He; by apply insert_next_subseteq|].
    unfold current. rewrite He, Hid. unfold current.
    rewrite contiguous_size_insert_next by apply Ha. lia.
Qed.

Lemma migrate_ticket_bound tm (r : Run H) :
  aligned env r -> (t_exists tm = None -> t_id tm = current r + 1) ->
  r_existing r ⊆ r_existing (fst (migrate_ticket convertWikiToMd env tm r)) /\
  current (fst (migrate_ticket convertWikiToMd env tm r)) <=
    current r + match t_exists tm with Some _ => 0 | None => 1 end.
Proof.
  intros Ha Hid. unfold migrate_ticket.
  assert (Hrest : forall i r1, aligned env r1 ->
    r_existing (fst ((add_comments convertWikiToMd env (t_id tm) i ;; close_if_needed env tm i) r1)) =
      r_existing r1).
  { intros i r1 Ha1.
    assert (Hf : framed (add_comments convertWikiToMd env (t_id tm) i ;; close_if_needed env tm i))
      by eauto with frame.
    exact (proj2 (proj2 (aligned_framed env _ r1 Hf Ha1))). }
  destruct (t_exists tm) as [i|].
  - unfold current. rewrite sbind_assoc, sbind_onWorld_emit_at, sbind_sret.
    rewrite (Hrest i _ (aligned_log env _ _ _ Ha)). simpl. split; [done|lia].
  - destruct (create_fresh_bound tm r Ha (Hid eq_refl)) as [Hsub Hle].
    destruct (create_fresh_spec env tm r Ha (Hid eq_refl)) as (Ha1 & _).
    destruct (create_fresh env tm r) as [r1 [e|i]] eqn:E; simpl in *.
    + by rewrite (sbind_err _ _ _ _ _ E).
    + rewrite (sbind_ok _ _ _ _ _ E). unfold current in *. by rewrite (Hrest i r1 Ha1).
Qed.

(** The placeholders of a gap: the issues grow by at most one a step. *)
Lemma placeholders_bound (n : nat) (r : Run H) :
  aligned env r ->
  let run := sfor (seqZ (current r + 1) (Z.of_nat n))
               (fun id => migrate_ticket convertWikiToMd env (placeholder id)) r in
  r_existing r ⊆ r_existing (fst run) /\ current (fst run) <= current r + Z.of_nat n.
Proof.
  revert r. induction n as [|n IH]; intros r Ha; simpl; [split; [done|lia]|].
  rewrite seqZ_cons by lia. simpl.
  replace (Z.succ (current r + 1)) with (current r + 1 + 1) by lia.
  replace (Z.pred (Z.of_nat (S n))) with (Z.of_nat n) by lia.
  destruct (migrate_ticket_spec convertWikiToMd env (placeholder (current r + 1)) r Ha
              (fun _ => eq_refl)) as (Ha1 & _ & Hok1).
  destruct (migrate_ticket_bound (placeholder (current r + 1)) r Ha (fun _ => eq_refl))
    as [Hsub1 Hle1]. simpl in Hle1.
  destruct (migrate_ticket convertWikiToMd env (placeholder (current r + 1)) r)
    as [r1 [e|[]]] eqn:E1; simpl in *.
  { rewrite (sbind_err _ _ _ _ _ E1). simpl. split; [done|lia]. }
  rewrite (sbind_ok _ _ _ _ _ E1).
  destruct (Hok1 eq_refl) as (i & He1 & _ & _).
  pose proof (current_insert_next env r r1 i Ha He1) as Hc1.
  destruct (IH r1 Ha1) as [Hsub2 Hle2]. rewrite Hc1 in Hsub2, Hle2.
  split; [by etrans|lia].
Qed.
(** One row, whatever its outcome: the issues only grow, and not beyond
    the row's ticket id. *)
Lemma process_row_bound i row (r : Run H) :
  aligned env r ->
  let r1 := fst (process_row convertWikiToMd format_epoch env i row r) in
  r_existing r ⊆ r_existing r1 /\
  (current r1 <= current r \/ exists s, long (field row 0) = inr s /\ current r1 <= s).
Proof.
  intros Ha. unfold process_row.
  destruct (negb _); [simpl; split; [done|left; lia]|]. rewrite sbind_sget.
  destruct (negb (r_header_read r)); [simpl; split; [done|left; unfold current; simpl; lia]|].
  destruct (long (field row 0)) as [e|t] eqn:El; [simpl; split; [done|left; lia]|].
  rewrite sbind_lift_inr. destruct (t <? e_last_hub_issue env); [simpl; split; [done|left; lia]|].
  rewrite sbind_sget.
  destruct (negb (t =? e_last_hub_issue env) && (t <=? Z.of_nat (size (r_existing r))))
    eqn:Eord; [simpl; split; [done|left; lia]|].
  rewrite ids_between_seqZ. fold (current r).
  set (n := Z.to_nat (t - 1 - current r)).
  destruct (placeholders_bound n r Ha) as [Hsub2 Hle2].
  destruct (placeholders_spec convertWikiToMd env n r Ha) as (Ha2 & _ & Hok2).
  assert (Hn : Z.of_nat n = Z.max 0 (t - 1 - current r)) by (subst n; lia).
  (* every way the row ends is within the bound *)
  assert (Hfin : forall r2 r3 : Run H, r_existing r ⊆ r_existing r2 -> r_existing r2 ⊆ r_existing r3 ->
            (current r3 <= current r \/ current r3 <= t) ->
            r_existing r ⊆ r_existing r3 /\
            (current r3 <= current r \/ exists s, (inr t : Exc + Z) = inr s /\ current r3 <= s)).
  { intros r2 r3 H12 H23 Hc3. split; [by etrans|].
    destruct Hc3; [left|right; exists t]; auto. }
  destruct (sfor _ _ r) as [r2 [e|[]]] eqn:E2.
  { rewrite (sbind_err _ _ _ _ _ E2). simpl in *. apply (Hfin r2); [done|done|lia]. }
  rewrite (sbind_ok _ _ _ _ _ E2). simpl in *.
  destruct (Hok2 eq_refl) as (Hc2 & _ & _).
  destruct (ticket_of_row convertWikiToMd format_epoch row t) as [e|tm] eqn:Et.
  { simpl. apply (Hfin r2); [done|done|lia]. }
  rewrite sbind_lift_inr.
  destruct (ticket_of_row_fields _ _ _ _ _ Et) as (Hid & Hex & _).
  destruct (resume_check_spec env tm r2) as (Hr & _ & Hok).
  destruct (resume_check env tm r2) as [r3 [e|tm']] eqn:E3; simpl in Hr; subst r3.
  { rewrite (sbind_err _ _ _ _ _ E3). simpl. apply (Hfin r2); [done|done|lia]. }
  rewrite (sbind_ok _ _ _ _ _ E3).
  destruct (Hok tm' eq_refl) as (Hid' & Hfresh & Hres).
  assert (Hnew : t_exists tm' = None -> t_id tm' = current r2 + 1).
  { intros Hnone. destruct (Z.eqb_spec t (e_last_hub_issue env)) as [Heq|Hne].
    - destruct (Hres ltac:(congruence)) as (x & Hx & _). congruence.
    - simpl in Eord. apply Z.leb_gt in Eord. fold (current r) in Eord.
      rewrite Hid', Hid. lia. }
  destruct (migrate_ticket_bound tm' r2 Ha2 Hnew) as [Hsub3 Hle3].
  apply (Hfin r2); [done|done|].
  destruct (t_exists tm'); simpl in Hle3; [lia|]. specialize (Hnew eq_refl). lia.
Qed.
End Engine.

(** ** The ticket ids of a table increase *)

(** Two rows whose ids parse are in increasing order. *)
Definition row_before (r1 r2 : list string) : bool :=
  match long (field r1 0), long (field r2 0) with
  | inr t1, inr t2 => t1 <? t2
  | _, _ => true
  end.

Fixpoint ids_increasing (rows : list (list string)) : bool :=
  match rows with
  | [] => true
  | r :: rs => forallb (row_before r) rs && ids_increasing rs
  end.

Lemma ids_increasing_cons row rows row' s t :
  ids_increasing (row :: rows) = true -> row' ∈ rows ->
  long (field row 0) = inr s -> long (field row' 0) = inr t -> s < t.
Proof.
  simpl. intros [Hall _]%andb_prop Hin Hs Ht.
  rewrite forallb_forall in Hall. apply list_elem_of_In in Hin.
  specialize (Hall row' Hin). unfold row_before in Hall. rewrite Hs, Ht in Hall. lia.
Qed.

(** ** The loop of an interrupted run *)

Section Loop.
Context {H : Type} `{!GitHubApi H} `{!GitHubLaws H}.
Variable convertWikiToMd : string -> Z -> string.
Variable format_epoch : Z -> option string.
Variable env : Env.

(** A ticket already migrated: its issue is there, with its summary. *)
Definition migrated (r : Run H) (row : list string) : Prop :=
  forall t, long (field row 0) = inr t -> e_last_hub_issue env <= t ->
  exists it, r_existing r !! t = Some it /\ title it = field row 7.

(** A ticket still ahead: it is numbered at least the number of issues. *)
Definition ahead (r : Run H) (row : list string) : Prop :=
  forall t, long (field row 0) = inr t -> e_last_hub_issue env <= t -> current r <= t.

Lemma migrated_grows (r r' : Run H) row :
  r_existing r ⊆ r_existing r' -> migrated r row -> migrated r' row.
Proof.
  intros Hsub Hm t Hl Ht. destruct (Hm t Hl Ht) as (it & Hit & Htitle).
  exists it. split; [by eapply lookup_weaken|done].
Qed.

(** Whatever the loop's outcome, the tickets before the row it stopped
    at are migrated, and the others, as well as the rows [later] that
    follow in a longer table, are numbered at least the number of issues. *)
Lemma process_rows_from_prefix idx rows later (r : Run H) (done_rows : list (list string)) :
  ids_increasing (rows ++ later) = true -> aligned env r -> r_header_read r = true ->
  Forall (migrated r) done_rows -> Forall (ahead r) (rows ++ later) ->
  let r' := fst (process_rows_from convertWikiToMd format_epoch env idx rows r) in
  forall row t, row ∈ done_rows ++ rows ++ later -> long (field row 0) = inr t ->
    e_last_hub_issue env <= t -> t < current r' ->
    exists it, r_existing r' !! t = Some it /\ title it = field row 7.
Proof.
  revert idx r done_rows. induction rows as [|row rows IH];
    intros idx r done_rows Hinc Ha Hh Hdone Hahead; simpl.
  { intros row t Hin Hl Ht Hlt. apply elem_of_app in Hin as [Hin|Hin].
    - rewrite Forall_forall in Hdone. exact (Hdone row Hin t Hl Ht).
    - rewrite Forall_forall in Hahead. pose proof (Hahead row Hin t Hl Ht). lia. }
  pose proof (process_row_bound convertWikiToMd format_epoch env idx row r Ha) as [Hsub Hb].
  destruct (process_row_spec convertWikiToMd format_epoch env idx row r Ha) as [Ha1 _].
  pose proof (process_row_grows convertWikiToMd format_epoch env idx row r Ha) as Hg.
  apply Forall_cons in Hahead as [Hrow Hrest].
  (* the rows after [row] stay ahead of whatever [row] created *)
  assert (Hkeep : forall row' t, row' ∈ rows ++ later -> long (field row' 0) = inr t ->
            e_last_hub_issue env <= t ->
            current (fst (process_row convertWikiToMd format_epoch env idx row r)) <= t).
  { intros row' t Hin Hl Ht. rewrite Forall_forall in Hrest. pose proof (Hrest row' Hin t Hl Ht).
    destruct Hb as [Hb|(s & Hs & Hb)]; [lia|].
    pose proof (ids_increasing_cons row (rows ++ later) row' s t Hinc Hin Hs Hl). lia. }
  destruct (process_row convertWikiToMd format_epoch env idx row r) as [r1 [e|[]]] eqn:E;
    simpl in *.
  - rewrite (sbind_err _ _ _ _ _ E). simpl.
    intros row' t Hin Hl Ht Hlt.
    apply elem_of_app in Hin as [Hin|Hin].
    + rewrite Forall_forall in Hdone. exact (migrated_grows r r1 row' Hsub (Hdone row' Hin) t Hl Ht).
    + exfalso. apply elem_of_cons in Hin as [->|Hin].
      * pose proof (Hrow t Hl Ht). destruct Hb as [Hb|(s & Hs & Hb)]; [lia|].
        rewrite Hl in Hs. injection Hs as <-. lia.
      * pose proof (Hkeep row' t Hin Hl Ht). lia.
  - rewrite (sbind_ok _ _ _ _ _ E).
    destruct (Hg eq_refl) as (Hh1 & _ & Hnew).
    replace (done_rows ++ row :: rows ++ later) with ((done_rows ++ [row]) ++ rows ++ later)
      by (by rewrite <- app_assoc).
    apply IH; [by apply andb_prop in Hinc as [_ ?]|done|done| |].
    + apply Forall_app. split.
      * eapply Forall_impl; [exact Hdone|]. intros row' Hm. by apply (migrated_grows r).
      * constructor; [|constructor]. intros t Hl Ht. exact (Hnew Hh t Hl Ht).
    + rewrite Forall_forall. intros row' Hin t Hl Ht. exact (Hkeep row' t Hin Hl Ht).
Qed.
End Loop.

(** ** The interrupted run *)

Section Runs.
Context {H : Type} `{!GitHubApi H} `{!GitHubLaws H}.
Variable convertWikiToMd : string -> Z -> string.
Variable format_epoch : Z -> option string.

(** An issue of [existingIssues] is on GitHub, when the two agree. *)
Lemma hub_issue_of_existing (w : World H) (m : gmap Z Issue) t it :
  hub_shape w = issue_shape m -> keyed m -> m !! t = Some it ->
  exists i, gh_issues (w_hub w) !! t = Some i /\ number i = t /\ title i = title it.
Proof.
  intros Hs Hk Hit.
  assert (Hsh : issue_shape m !! t = Some (number it, title it))
    by (unfold issue_shape; by rewrite lookup_fmap, Hit).
  rewrite <- Hs in Hsh. unfold hub_shape, issue_shape in Hsh.
  apply lookup_fmap_Some in Hsh as (i & [= Hn Ht] & Hi).
  exists i. split_and!; [done|rewrite Hn; exact (Hk _ _ Hit)|done].
Qed.

Lemma size_of_shape (w : World H) (m : gmap Z Issue) :
  hub_shape w = issue_shape m -> size (gh_issues (w_hub w)) = size m.
Proof.
  intros Hs. rewrite <- (size_issue_shape (gh_issues _)). fold (hub_shape w).
  by rewrite Hs, size_issue_shape.
Qed.

Lemma size_hub_shape (w w' : World H) :
  hub_shape w' = hub_shape w -> size (gh_issues (w_hub w')) = size (gh_issues (w_hub w)).
Proof. unfold hub_shape. intros Hs. by rewrite <- !(size_issue_shape (gh_issues _)), Hs. Qed.

(** A step that keeps the shape of the issues and fails leaves their number. *)
Lemma keeps_shape_fails {A B} (m : ST (World H) A) (k : A -> ST (World H) B) w w' e :
  keeps_shape m -> m w = (w', inl e) ->
  size (gh_issues (w_hub (fst (sbind m k w)))) = size (gh_issues (w_hub w)).
Proof.
  intros Hm E. rewrite (sbind_err _ _ _ _ _ E). simpl. apply size_hub_shape.
  pose proof (proj1 (Hm w)) as Hs. by rewrite E in Hs.
Qed.

Lemma fst_then_lift_w {A} (m : ST (World H) A) (x : Exc + unit) w :
  fst ((m ;; lift_w x) w) = fst (m w).
Proof. unfold sbind. destruct (m w) as [w' [e|a]]; [done|by destruct x]. Qed.

(** The loop from its first row, the header. *)
Lemma run_loop_prefix env rows later existing milestones comments (w : World H) :
  ids_increasing (tail rows ++ later) = true -> contiguous existing -> keyed existing ->
  e_last_hub_issue env = Z.of_nat (size existing) -> hub_shape w = issue_shape existing ->
  e_pretend env = false ->
  let w1 := fst (run_loop convertWikiToMd format_epoch env rows existing milestones comments w) in
  forall row t, row ∈ tail rows ++ later -> long (field row 0) = inr t ->
    Z.of_nat (size existing) <= t -> t < Z.of_nat (size (gh_issues (w_hub w1))) ->
    exists i, gh_issues (w_hub w1) !! t = Some i /\ number i = t /\ title i = field row 7.
Proof.
  intros Hinc Hc Hk Hl Hs Hp w1 row t Hin Hrow Hge Hlt. subst w1.
  pose proof (run_loop_start env w existing milestones comments Hc Hk Hl Hs) as Ha.
  pose proof (size_of_shape w existing Hs) as Hsz.
  revert Hlt. unfold run_loop, process_rows.
  set (r0 := mkRun w existing milestones (1 + Z.of_nat (size existing)) comments false ∅).
  destruct (process_rows_aligned convertWikiToMd format_epoch env rows r0 Ha) as [Haf _].
  unfold process_rows in Haf.
  destruct rows as [|hdr rows].
  { simpl. intros Hlt. exfalso. lia. }
  simpl in Hin, Hinc. cbn [process_rows_from] in Haf |- *.
  destruct (Nat.eqb_spec (length hdr) ticket_columns) as [Hlen|Hlen].
  2: { unfold process_row. rewrite (proj2 (Nat.eqb_neq _ _) Hlen). simpl. lia. }
  assert (E1 : process_row convertWikiToMd format_epoch env 0 hdr r0 =
               (set_header_read true r0, inr tt)).
  { unfold process_row. rewrite Hlen, Nat.eqb_refl. reflexivity. }
  rewrite (sbind_ok _ _ _ _ _ E1) in Haf |- *.
  assert (Ha1 : aligned env (set_header_read true r0)) by exact Ha.
  pose proof (process_rows_from_prefix convertWikiToMd format_epoch env 1 rows later
                (set_header_read true r0) [] Hinc Ha1 eq_refl (Forall_nil_2 _)) as Hpre.
  destruct (process_rows_from _ _ _ _ _ _) as [rf res] eqn:Ef. simpl in *.
  destruct Haf as (_ & Hkf & _ & Hsf). rewrite Hp in Hsf.
  intros Hlt. rewrite (size_of_shape _ _ Hsf) in Hlt.
  destruct (Hpre ltac:(rewrite Forall_forall; intros row' _ t' _ Ht'; unfold current; simpl; lia)
              row t Hin Hrow ltac:(lia) Hlt) as (it & Hit & Htitle).
  destruct (hub_issue_of_existing (r_world rf) (r_existing rf) t it Hsf Hkf Hit) as (i & Hi & Hn & Ht).
  exists i. split_and!; [done|done|congruence].
Qed.
(** A real run of [migrateTickets], however it ends: every ticket of its
    table, or of a longer table whose ids increase, numbered from the
    initial number of issues up to the number of issues at the end, is
    the issue of its number with its summary as title. *)
Lemma interrupted_migrateTickets ticketsCsvPath ticketTable later commentsCsvPath commentTable
    attachmentsCsvPath attachmentTable labelMapping labelTokens userMapping
    attachmentsPrefix keywords (w : World H) :
  contiguous (gh_issues (w_hub w)) -> keyed (gh_issues (w_hub w)) ->
  states_listed (gh_issues (w_hub w)) -> ids_increasing (tail ticketTable.1 ++ later) = true ->
  let w1 := fst (migrateTickets convertWikiToMd format_epoch ticketsCsvPath ticketTable
                   commentsCsvPath commentTable attachmentsCsvPath attachmentTable labelMapping
                   labelTokens userMapping attachmentsPrefix keywords false w) in
  forall row t, row ∈ tail ticketTable.1 ++ later -> long (field row 0) = inr t ->
    Z.of_nat (size (gh_issues (w_hub w))) <= t -> t < Z.of_nat (size (gh_issues (w_hub w1))) ->
    exists i, gh_issues (w_hub w1) !! t = Some i /\ number i = t /\ title i = field row 7.
Proof.
  intros Hc Hk Hs Hinc w1 row t Hin Hl Hge. subst w1. unfold migrateTickets.
  rewrite (sbind_run _ _ _ _ _ (readComments_run format_epoch _ _ w)).
  destruct (createTicketToCommentsMap _ _ _) as [e|comments];
    [cbn [fst]; rewrite w_hub_comments_log; intros; lia|].
  rewrite (sbind_run _ _ _ _ _ (readAttachments_run format_epoch _ _ _ _)).
  destruct (createTicketsToAttachmentsMap _ _ _ _) as [e|attachments];
    [cbn [fst]; rewrite w_hub_attachments_log, w_hub_comments_log; intros; lia|].
  set (w2 := attachments_log _ _ (comments_log _ _ _ w)).
  assert (Hh : w_hub w2 = w_hub w) by apply w_hub_tables_log.
  destruct (createIssueMap_spec w2 ltac:(by rewrite Hh) ltac:(by rewrite Hh)) as (w3 & E3 & H3).
  rewrite Hh in H3. rewrite (sbind_ok _ _ _ _ _ E3), Hh.
  destruct (createMilestoneMap w3) as [w4 [e|ms]] eqn:E4.
  { rewrite (keeps_shape_fails _ _ _ _ _ keeps_shape_createMilestoneMap E4), H3. intros; lia. }
  rewrite (sbind_ok _ _ _ _ _ E4).
  pose proof (keeps_shape_ok _ _ _ _ keeps_shape_createMilestoneMap E4) as Hw4.
  destruct (createTracToGithubUserMap userMapping w4) as [w5 [e|um]] eqn:E5.
  { rewrite (keeps_shape_fails _ _ _ _ _ (keeps_shape_createTracToGithubUserMap _) E5).
    rewrite (size_hub_shape _ _ Hw4), H3. intros; lia. }
  rewrite (sbind_ok _ _ _ _ _ E5).
  pose proof (keeps_shape_ok _ _ _ _ (keeps_shape_createTracToGithubUserMap _) E5) as Hw5.
  destruct (newLabelTransformations labelMapping labelTokens keywords w5) as [w6 [e|lt]] eqn:E6.
  { rewrite (keeps_shape_fails _ _ _ _ _ (keeps_shape_newLabelTransformations _ _ _) E6).
    rewrite (size_hub_shape _ _ Hw5), (size_hub_shape _ _ Hw4), H3. intros; lia. }
  rewrite (sbind_ok _ _ _ _ _ E6).
  pose proof (keeps_shape_ok _ _ _ _ (keeps_shape_newLabelTransformations _ _ _) E6) as Hw6.
  rewrite (sbind_ok _ _ _ _ _ (emit_run _ _ _)), fst_then_lift_w.
  assert (Hsh : hub_shape (write_log INFO [ReadTicketDetails ticketsCsvPath] w6) =
                issue_shape (gh_issues (w_hub w))).
  { change (hub_shape w6 = issue_shape (gh_issues (w_hub w))).
    rewrite Hw6, Hw5, Hw4. unfold hub_shape. by rewrite H3. }
  exact (run_loop_prefix (mkEnv false um lt attachments _ ticketsCsvPath) ticketTable.1 later _ ms
           comments _ Hinc Hc Hk eq_refl Hsh eq_refl row t Hin Hl Hge).
Qed.
End Runs.

(** ** A migration resumed *)

Section Resumed.
Context {H : Type} `{!GitHubApi H} `{!GitHubLaws H}.
Variable convertWikiToMd : string -> Z -> string.
Variable format_epoch : Z -> option string.

(** C13: A migration can be resumed.  From a repository whose [n] issues are
    numbered [1 .. n] and listed by [get_issues], a first real run whose
    tickets table holds the first rows of the full table (the reader
    stopped, or any exception ended the run, anywhere), followed by a real
    run on the full table that ends normally, leaves every ticket of the
    table numbered [t >= n] as the GitHub issue number [t] with the
    ticket's summary as title, when the ticket ids of the table increase. *)
Theorem resumed_run_complete ticketsCsvPath firstTable ticketTable commentsCsvPath commentTable
    attachmentsCsvPath attachmentTable labelMapping labelTokens userMapping attachmentsPrefix
    keywords (w : World H) :
  contiguous (gh_issues (w_hub w)) -> keyed (gh_issues (w_hub w)) ->
  states_listed (gh_issues (w_hub w)) ->
  table_ok firstTable = true -> table_ok commentTable = true -> table_ok attachmentTable = true ->
  tail firstTable.1 `prefix_of` tail ticketTable.1 -> ids_increasing (tail ticketTable.1) = true ->
  let run t w := migrateTickets convertWikiToMd format_epoch ticketsCsvPath t commentsCsvPath
                   commentTable attachmentsCsvPath attachmentTable labelMapping labelTokens
                   userMapping attachmentsPrefix keywords false w in
  let w1 := fst (run firstTable w) in
  snd (run ticketTable w1) = inr tt ->
  forall row t, row ∈ tail ticketTable.1 -> long (field row 0) = inr t ->
    Z.of_nat (size (gh_issues (w_hub w))) <= t ->
    exists i, gh_issues (w_hub (fst (run ticketTable w1))) !! t = Some i /\
              number i = t /\ title i = field row 7.
Proof.
  intros Hc Hk Hs Ht1 Ht2 Ht3 [later Hpre] Hinc run w1 Hok row t Hin Hl Hge. subst run w1.
  destruct (migrateTickets_aligned convertWikiToMd format_epoch ticketsCsvPath firstTable
              commentsCsvPath commentTable attachmentsCsvPath attachmentTable labelMapping
              labelTokens userMapping attachmentsPrefix keywords false w Hc Hk Hs Ht1 Ht2 Ht3)
    as [_ Hal].
  destruct (Hal eq_refl) as [Hc1 Hk1].
  pose proof (disc_migrateTickets states_kept convertWikiToMd format_epoch ticketsCsvPath firstTable
                commentsCsvPath commentTable attachmentsCsvPath attachmentTable labelMapping
                labelTokens userMapping attachmentsPrefix keywords false w Hs) as Hs1.
  destruct (migrateTickets_complete_run convertWikiToMd format_epoch ticketsCsvPath ticketTable
              commentsCsvPath commentTable attachmentsCsvPath attachmentTable labelMapping
              labelTokens userMapping attachmentsPrefix keywords _ Hc1 Hk1 Hs1 Hok) as [Hgrow Hnew].
  destruct (Z.lt_ge_cases t (Z.of_nat (size (gh_issues (w_hub (fst (migrateTickets convertWikiToMd
              format_epoch ticketsCsvPath firstTable commentsCsvPath commentTable attachmentsCsvPath
              attachmentTable labelMapping labelTokens userMapping attachmentsPrefix keywords false
              w)))))))
    as [Hlt|Hge1]; [|by apply Hnew].
  rewrite Hpre in Hin, Hinc.
  destruct (interrupted_migrateTickets convertWikiToMd format_epoch ticketsCsvPath firstTable later
              commentsCsvPath commentTable attachmentsCsvPath attachmentTable labelMapping
              labelTokens userMapping attachmentsPrefix keywords w Hc Hk Hs Hinc row t Hin Hl Hge Hlt)
    as (i & Hi & Hn & Ht).
  assert (Hsh : hub_shape (fst (migrateTickets convertWikiToMd format_epoch ticketsCsvPath firstTable
              commentsCsvPath commentTable attachmentsCsvPath attachmentTable labelMapping
              labelTokens userMapping attachmentsPrefix keywords false w)) !! t = Some (number i, title i))
    by (unfold hub_shape, issue_shape; by rewrite lookup_fmap, Hi).
  apply Hgrow in Hsh. unfold hub_shape, issue_shape in Hsh.
  apply lookup_fmap_Some in Hsh as (i' & [= Hn' Ht'] & Hi').
  exists i'. split_and!; [done|congruence|congruence].
Qed.
End Resumed.

(** ** Example *)

Import HubModel.

Section Examples.
Local Open Scope string_scope.

(** The reader of the first run stopped after ticket 1. *)
Definition example_first_table : Table :=
  (take 2 example_tickets, Some (UnicodeDecodeError 120 "invalid start byte")).

Definition example_resume_run (t : Table) (w : World Hub) : World Hub * (Exc + unit) :=
  migrateTickets (fun s _ => s) (fun _ => Some "") "tickets.csv" t (Some "comments.csv")
    (example_comments, None) None ([], None) None [] "*:*" None (Some "bug") false w.

(** The first run creates issue 1 and stops; the second continues ticket 1,
    fills the gap with a placeholder and creates ticket 3. *)
Example example_resume :
  snd (example_resume_run example_first_table example_world) =
    inl (UnicodeDecodeError 120 "invalid start byte") /\
  fmap title (gh_issues (w_hub (fst (example_resume_run example_first_table example_world)))) =
    {[ 1 := "First" ]} /\
  fmap title (gh_issues (w_hub (fst (example_resume_run (example_tickets, None)
                 (fst (example_resume_run example_first_table example_world)))))) =
    {[ 1 := "First"; 2 := "placeholder"; 3 := "Third" ]}.
Proof. split_and!; vm_compute; reflexivity. Qed.
End Examples.

Lemma resumed_run_complete_witness :
  exists i, gh_issues (w_hub (fst (example_resume_run (example_tickets, None)
               (fst (example_resume_run example_first_table example_world))))) !! 3 = Some i /\
            number i = 3 /\ title i = field (nth 2 example_tickets []) 7.
Proof.
  apply (resumed_run_complete (fun s _ => s) (fun _ => Some "") "tickets.csv" example_first_table
           (example_tickets, None) (Some "comments.csv") (example_comments, None) None ([], None)
           None [] "*:*" None (Some "bug") example_world);
    [apply contiguous_empty|intros k i Hk; vm_compute in Hk; discriminate|apply map_Forall_empty
    |reflexivity|reflexivity|reflexivity|by exists [nth 2 example_tickets []]|reflexivity
    |vm_compute; reflexivity|by right; left|reflexivity|vm_compute; discriminate].
Defined.
