(* ===== verification/DryRun.v ===== *)
(** DryRun.v: the dry run ([pretend], the default unless [--really] is
    given) sends GitHub no mutating request.

    [quiet m] says that the step [m] on the process state leaves GitHub's
    issues, the log of mutating calls and the users unchanged
    ([reads_only] of Users.v): pauses, listings and user lookups are
    quiet.  [quiet_run] says the same of a step of the engine.  With
    [e_pretend] set, every step of the engine is quiet: [send_issue] makes
    a [_FakeIssue], [ensure_milestone] a [_FakeMilestone], and the comment
    and close calls are guarded by [if not pretend].  The theorem lifts
    this to [migrateTickets]. *)

From S2P Require Import Prelude PyStr GitHub Log Pacing Users Labels Ingest Migrate Frame Alignment Main.

Local Open Scope Z_scope.

Create HintDb quiet discriminated.

Section Quiet.
Context {H : Type} `{!GitHubApi H} `{!GitHubLaws H}.

Definition quiet {A} (m : ST (World H) A) : Prop := forall w, reads_only w (fst (m w)).

Definition quiet_run {A} (m : ST (Run H) A) : Prop :=
  forall r, reads_only (r_world r) (r_world (fst (m r))).

Lemma quiet_ret {A} (a : A) : quiet (sret a).
Proof. intros w. apply reads_only_refl. Qed.

Lemma quiet_raise {A} e : quiet (@sraise _ A e).
Proof. intros w. apply reads_only_refl. Qed.

Lemma quiet_get : quiet (@sget (World H)).
Proof. intros w. apply reads_only_refl. Qed.

Lemma quiet_bind {A B} (m : ST (World H) A) (k : A -> ST (World H) B) :
  quiet m -> (forall a, quiet (k a)) -> quiet (sbind m k).
Proof.
  intros Hm Hk w. unfold sbind. specialize (Hm w).
  destruct (m w) as [w1 [e|a]]; [done|]. eapply reads_only_trans; [exact Hm|apply Hk].
Qed.

Lemma quiet_when b (m : ST (World H) unit) : quiet m -> quiet (swhen b m).
Proof. destruct b; [done|apply quiet_ret]. Qed.

Lemma quiet_of_option {A} e (o : option A) : quiet (of_option e o).
Proof. destruct o; [apply quiet_ret|apply quiet_raise]. Qed.

Lemma quiet_lift_w {A} (x : Exc + A) : quiet (lift_w x).
Proof. destruct x; [apply quiet_raise|apply quiet_ret]. Qed.

Lemma quiet_pause b : quiet (apiPauseIfNeeded b).
Proof. intros w. apply apiPauseIfNeeded_reads. Qed.

Lemma quiet_set_debug b : quiet (smodify (set_debug (H := H) b)).
Proof. intros w. split_and!; reflexivity. Qed.

Lemma quiet_set_validated f : quiet (smodify (fun w : World H => set_validated (f w) w)).
Proof. intros w. split_and!; reflexivity. Qed.

Lemma quiet_emit lvl msg : quiet (emit lvl msg).
Proof. intros w. split_and!; reflexivity. Qed.

Lemma quiet_emit_at lvl f : quiet (emit_at lvl f).
Proof. intros w. split_and!; reflexivity. Qed.

Lemma quiet_sfor {A} (l : list A) (body : A -> ST (World H) unit) :
  (forall x, quiet (body x)) -> quiet (sfor l body).
Proof. intros Hb. induction l; simpl; [apply quiet_ret|by apply quiet_bind]. Qed.

#[local] Hint Resolve quiet_ret quiet_raise quiet_get quiet_bind quiet_when quiet_of_option
  quiet_lift_w quiet_pause quiet_set_debug quiet_set_validated quiet_emit quiet_emit_at quiet_sfor : quiet.

Lemma quiet_getGitHubUser name : quiet (getGitHubUser name).
Proof.
  unfold getGitHubUser. apply quiet_bind; [apply quiet_get|]. intros w.
  destruct (w_validated w !! name); eauto 8 with quiet.
Qed.

Lemma quiet_validate t g : quiet (validateGithubUser t g).
Proof.
  intros w. unfold validateGithubUser. pose proof (quiet_getGitHubUser g w) as E.
  by destruct (getGitHubUser g w) as [w' [e|u]].
Qed.

Lemma quiet_githubUserFor m u v : quiet (githubUserFor m u v).
Proof.
  unfold githubUserFor. destruct (negb (truthy u)); [apply quiet_ret|].
  apply quiet_bind; [destruct (m !! u); eauto with quiet|].
  intros a. eauto using quiet_validate with quiet.
Qed.

Lemma quiet_add_user_mapping result mapping : quiet (add_user_mapping result mapping).
Proof. unfold add_user_mapping. repeat case_match; eauto 8 using quiet_validate with quiet. Qed.

Lemma quiet_createTracToGithubUserMap definition : quiet (createTracToGithubUserMap definition).
Proof.
  unfold createTracToGithubUserMap. generalize (∅ : gmap string string).
  induction (split_on _ definition); intros result; simpl;
    eauto using quiet_add_user_mapping with quiet.
Qed.

Lemma quiet_createIssueMap : quiet createIssueMap.
Proof. unfold createIssueMap, addIssues. eauto 15 with quiet. Qed.

Lemma quiet_createMilestoneMap : quiet createMilestoneMap.
Proof. unfold createMilestoneMap, addMilestones. eauto 15 with quiet. Qed.

Lemma quiet_newLabelTransformations definition tokens keywords :
  quiet (newLabelTransformations definition tokens keywords).
Proof.
  unfold newLabelTransformations.
  destruct (_ || _); [|apply quiet_ret].
  apply quiet_bind; [unfold buildLabelMap; eauto 10 with quiet|]. intros lm.
  apply quiet_bind.
  { destruct (opt_truthy definition); [destruct (buildTransformations lm tokens)|];
      cbv iota; eauto with quiet. }
  intros trs. destruct keywords as [kws|]; [destruct (truthy kws)|];
    [destruct (keyword_setup _ _ _)|..]; cbv iota; eauto with quiet.
Qed.
End Quiet.

#[export] Hint Resolve quiet_ret quiet_raise quiet_get quiet_bind quiet_when quiet_of_option
  quiet_lift_w quiet_pause quiet_set_debug quiet_set_validated quiet_emit quiet_emit_at quiet_sfor quiet_getGitHubUser quiet_validate
  quiet_githubUserFor : quiet.

Section QuietRun.
Context {H : Type} `{!GitHubApi H} `{!GitHubLaws H}.

Lemma quiet_run_ret {A} (a : A) : quiet_run (H := H) (sret a).
Proof. intros r. apply reads_only_refl. Qed.

Lemma quiet_run_raise {A} e : quiet_run (H := H) (@sraise _ A e).
Proof. intros r. apply reads_only_refl. Qed.

Lemma quiet_run_get : quiet_run (@sget (Run H)).
Proof. intros r. apply reads_only_refl. Qed.

Lemma quiet_run_bind {A B} (m : ST (Run H) A) (k : A -> ST (Run H) B) :
  quiet_run m -> (forall a, quiet_run (k a)) -> quiet_run (sbind m k).
Proof.
  intros Hm Hk r. unfold sbind. specialize (Hm r).
  destruct (m r) as [r1 [e|a]]; [done|]. eapply reads_only_trans; [exact Hm|apply Hk].
Qed.

Lemma quiet_run_when b (m : ST (Run H) unit) : quiet_run m -> quiet_run (swhen b m).
Proof. destruct b; [done|apply quiet_run_ret]. Qed.

Lemma quiet_run_sfor {A} (l : list A) body :
  (forall x, quiet_run (body x)) -> quiet_run (H := H) (sfor l body).
Proof. intros Hb. induction l; simpl; [apply quiet_run_ret|by apply quiet_run_bind]. Qed.

Lemma quiet_run_of_option {A} e (o : option A) : quiet_run (H := H) (of_option e o).
Proof. destruct o; [apply quiet_run_ret|apply quiet_run_raise]. Qed.

Lemma quiet_run_lift {A} (x : Exc + A) : quiet_run (H := H) (lift x).
Proof. destruct x; [apply quiet_run_raise|apply quiet_run_ret]. Qed.

Lemma quiet_run_onWorld {A} (m : ST (World H) A) : quiet m -> quiet_run (onWorld m).
Proof.
  intros Hm r. unfold onWorld, zoom. specialize (Hm (r_world r)).
  by destruct (m (r_world r)).
Qed.

(** A step that only changes the engine's own variables. *)
Lemma quiet_run_modify (f : Run H -> Run H) :
  (forall r, r_world (f r) = r_world r) -> quiet_run (smodify f).
Proof. intros Hf r. simpl. rewrite Hf. apply reads_only_refl. Qed.
End QuietRun.

#[export] Hint Resolve quiet_run_ret quiet_run_raise quiet_run_get quiet_run_bind quiet_run_when
  quiet_run_sfor quiet_run_of_option quiet_run_lift quiet_run_onWorld quiet_run_modify : quiet.
#[export] Hint Extern 1 (forall r, r_world _ = r_world r) => intros; reflexivity : quiet.

Section DryEngine.
Context {H : Type} `{!GitHubApi H} `{!GitHubLaws H}.
Variable convertWikiToMd : string -> Z -> string.
Variable format_epoch : Z -> option string.
Variable env : Env.
Hypothesis Hpretend : e_pretend env = true.

Lemma quiet_ensure_milestone t : quiet_run (@ensure_milestone H _ env t).
Proof.
  unfold ensure_milestone. rewrite Hpretend. apply quiet_run_bind; [apply quiet_run_get|].
  intros r. destruct (r_milestones r !! t); eauto 6 with quiet.
Qed.

Lemma quiet_possiblyAddLabel lt labels field value :
  quiet_run (possiblyAddLabel (H:=H) lt labels field value).
Proof. unfold possiblyAddLabel. destruct (labelFor _ _ _); eauto with quiet. Qed.

Lemma quiet_labelsFromKeywords lt labels kw : quiet_run (labelsFromKeywords (H:=H) lt labels kw).
Proof. unfold labelsFromKeywords. eauto 6 with quiet. Qed.

Lemma quiet_prepare_issue tm : quiet_run (@prepare_issue H _ env tm).
Proof.
  unfold prepare_issue. destruct (String.eqb _ _); [apply quiet_run_ret|].
  apply quiet_run_bind; [eauto with quiet|]. intros ga.
  apply quiet_run_bind; [destruct (truthy ga); eauto 6 with quiet|]. intros a.
  apply quiet_run_bind; [destruct (truthy _); eauto 6 using quiet_ensure_milestone with quiet|].
  eauto 10 using quiet_possiblyAddLabel, quiet_labelsFromKeywords with quiet.
Qed.

Lemma quiet_create_fresh tm : quiet_run (@create_fresh H _ env tm).
Proof.
  unfold create_fresh, send_issue. rewrite Hpretend.
  apply quiet_run_bind; [eauto with quiet|]. intros _.
  apply quiet_run_bind; [apply quiet_prepare_issue|]. intros [[[b a] m] l].
  apply quiet_run_bind; [eauto 6 with quiet|]. intros i.
  apply quiet_run_bind; [eauto with quiet|]. intros _.
  destruct (negb _); eauto with quiet.
Qed.

Lemma quiet_add_comments t i : quiet_run (@add_comments H _ convertWikiToMd env t i).
Proof.
  unfold add_comments, add_comment. rewrite Hpretend. simpl negb.
  apply quiet_run_bind; [apply quiet_run_get|]. intros r.
  destruct (r_comments r !! t); [|apply quiet_run_ret]. apply quiet_run_sfor. intros n.
  apply quiet_run_bind; [apply quiet_run_get|]. intros r'.
  repeat case_match; eauto 10 with quiet.
Qed.

Lemma quiet_migrate_ticket tm : quiet_run (@migrate_ticket H _ convertWikiToMd env tm).
Proof.
  unfold migrate_ticket, close_if_needed. rewrite Hpretend. simpl negb.
  apply quiet_run_bind; [destruct (t_exists tm); eauto using quiet_create_fresh with quiet|].
  intros i. eauto 8 using quiet_add_comments with quiet.
Qed.

Lemma quiet_resume_check tm : quiet_run (@resume_check H env tm).
Proof.
  unfold resume_check. destruct (_ =? _); [|apply quiet_run_ret].
  apply quiet_run_bind; [apply quiet_run_get|]. intros r.
  apply quiet_run_bind; [apply quiet_run_of_option|]. intros i.
  destruct (negb _); eauto with quiet.
Qed.

Lemma quiet_process_row i row : quiet_run (@process_row H _ convertWikiToMd format_epoch env i row).
Proof.
  unfold process_row. destruct (negb _); [apply quiet_run_raise|].
  apply quiet_run_bind; [apply quiet_run_get|]. intros r.
  destruct (negb (r_header_read r)); [eauto with quiet|].
  apply quiet_run_bind; [apply quiet_run_lift|]. intros t.
  destruct (t <? _); [apply quiet_run_ret|].
  apply quiet_run_bind; [apply quiet_run_get|]. intros r1.
  destruct (_ && _); [apply quiet_run_raise|].
  apply quiet_run_bind; [eauto using quiet_migrate_ticket with quiet|]. intros _.
  apply quiet_run_bind; [apply quiet_run_lift|]. intros tm.
  apply quiet_run_bind; [apply quiet_resume_check|]. intros tm'. apply quiet_migrate_ticket.
Qed.

Lemma quiet_process_rows rows : quiet_run (@process_rows H _ convertWikiToMd format_epoch env rows).
Proof.
  unfold process_rows. generalize 0%nat. induction rows as [|row rows IH]; intros n; simpl;
    [apply quiet_run_ret|apply quiet_run_bind; [|intros; apply IH]].
  apply quiet_process_row.
Qed.
End DryEngine.

Section DryRunTheorem.
Context {H : Type} `{!GitHubApi H} `{!GitHubLaws H}.
Variable convertWikiToMd : string -> Z -> string.
Variable format_epoch : Z -> option string.

Lemma quiet_run_loop env rows existing milestones comments :
  e_pretend env = true ->
  quiet (H := H) (run_loop convertWikiToMd format_epoch env rows existing milestones comments).
Proof.
  intros Hp w. unfold run_loop.
  pose proof (quiet_process_rows convertWikiToMd format_epoch env Hp rows
                (mkRun w existing milestones (1 + Z.of_nat (size existing)) comments false ∅)) as Hq.
  by destruct (process_rows _ _ _ _ _).
Qed.

Lemma quiet_readComments path table : quiet (H := H) (readComments format_epoch path table).
Proof.
  unfold readComments. destruct path; [|apply quiet_ret].
  apply quiet_bind; [apply quiet_emit|intros _].
  apply quiet_bind; [apply quiet_sfor; intros; apply quiet_emit|intros _]. apply quiet_lift_w.
Qed.

Lemma quiet_readAttachments path prefix table :
  quiet (H := H) (readAttachments format_epoch path prefix table).
Proof.
  unfold readAttachments. destruct path, prefix; try apply quiet_ret;
    apply quiet_bind; [apply quiet_emit| |apply quiet_emit|]; intros _;
    [apply quiet_lift_w|apply quiet_ret].
Qed.

(** a dry run sends nothing.  With [pretend] set, [migrateTickets]
    leaves GitHub's issues and the log of mutating requests exactly as
    they were, whatever the tables and options, and whether it ends
    normally or by an exception; it still reads the repository and checks
    the users. *)
Theorem migrateTickets_dry_run ticketsCsvPath ticketRows commentsCsvPath commentRows
    attachmentsCsvPath attachmentRows labelMapping labelTokens userMapping
    attachmentsPrefix keywords (w : World H) :
  let w' := fst (migrateTickets convertWikiToMd format_epoch ticketsCsvPath ticketRows
                   commentsCsvPath commentRows attachmentsCsvPath attachmentRows labelMapping
                   labelTokens userMapping attachmentsPrefix keywords true w) in
  gh_issues (w_hub w') = gh_issues (w_hub w) /\ gh_log (w_hub w') = gh_log (w_hub w).
Proof.
  enough (Hq : quiet (migrateTickets convertWikiToMd format_epoch ticketsCsvPath ticketRows
                        commentsCsvPath commentRows attachmentsCsvPath attachmentRows labelMapping
                        labelTokens userMapping attachmentsPrefix keywords true)).
  { destruct (Hq w) as (Hi & Hl & _). by split. }
  unfold migrateTickets.
  eauto 20 using quiet_readComments, quiet_readAttachments, quiet_createIssueMap, quiet_createMilestoneMap, quiet_createTracToGithubUserMap,
    quiet_newLabelTransformations, quiet_run_loop with quiet.
Qed.
End DryRunTheorem.

Import HubModel.

Lemma migrateTickets_dry_run_witness :
  let w' := fst (migrateTickets (fun s _ => s) (fun _ => Some "") "tickets.csv" (example_tickets, None)
                   (Some "comments.csv") (example_comments, None) None ([], None) None [] "*:*" None (Some "bug")
                   true example_world) in
  gh_issues (w_hub w') = gh_issues (w_hub example_world) /\
  gh_log (w_hub w') = gh_log (w_hub example_world).
Proof. apply migrateTickets_dry_run. Defined.
