(* ===== verification/Mirror.v ===== *)
(** Mirror.v: a dry run decides as a real run does.

    [migrateTickets] with [pretend] set (no [--really]) sends GitHub no
    mutating request: it makes up the numbers of the issues and milestones
    it would create ([fakeIssueId], [len(existingMilestones) + 1]) and
    skips comments and closing (tratihubis.py lines 684-696, 721-737,
    770-781).  Everything else it does as a real run: it reads the
    tables, lists issues and milestones, validates users, builds labels,
    checks ticket order, fills gaps and compares the resumed title.  This
    file proves that the two runs end the same way: the same exception at
    the same point, or both normally.

    The proof runs the two engines in lockstep.  [lockstep SR RA m1 m2]
    says that from states related by [SR] the two computations raise the
    same exception, or both return, with results related by [RA] and
    states related by [SR]; it is closed under [sbind] like the
    relational rules of a program logic.  [mirror] relates the state of a
    real run to that of a dry run:
    - the same [existingIssues], [tracTicketToCommentsMap] and
      [hasReadHeader], the same titles in [existingMilestones];
    - the same cache of validated users, and GitHub knows the same users;
    - GitHub's issues are numbered [1 .. n] and the dry run's
      [fakeIssueId] is [n + 1], so that [repo.create_issue] and
      [_FakeIssue(fakeIssueId, ...)] return the same issue.
    The steps a real run alone takes ([_apiPauseIfNeeded(True)], the
    creation requests, [_apiCreationIncrement]) are [silent]: they return
    and keep the users and the cache. *)

From S2P Require Import Prelude PyStr GitHub Log Pacing Users Labels Ingest Migrate Frame Alignment Main.

Local Open Scope Z_scope.

(** ** Two computations in lockstep *)

(** The outcomes of two computations: the same exception, or two values
    related by [RA] with [P] holding of the states they reach. *)
Definition outcome {A B} (RA : A -> B -> Prop) (P : Prop) (x : Exc + A) (y : Exc + B) : Prop :=
  match x, y with
  | inl e1, inl e2 => e1 = e2
  | inr a, inr b => RA a b /\ P
  | _, _ => False
  end.

Section Lockstep.
Context {S1 S2 : Type} (SR : S1 -> S2 -> Prop).

Definition lockstep {A B} (RA : A -> B -> Prop) (m1 : ST S1 A) (m2 : ST S2 B) : Prop :=
  forall s1 s2, SR s1 s2 ->
    outcome RA (SR (fst (m1 s1)) (fst (m2 s2))) (snd (m1 s1)) (snd (m2 s2)).

Lemma lockstep_ret {A B} (RA : A -> B -> Prop) a b : RA a b -> lockstep RA (sret a) (sret b).
Proof. intros Hab s1 s2 Hs. by split. Qed.

Lemma lockstep_raise {A B} (RA : A -> B -> Prop) e : lockstep RA (sraise e) (sraise e).
Proof. done. Qed.

Lemma lockstep_get : lockstep SR sget sget.
Proof. intros s1 s2 Hs. by split. Qed.

Lemma lockstep_modify (f1 : S1 -> S1) (f2 : S2 -> S2) :
  (forall s1 s2, SR s1 s2 -> SR (f1 s1) (f2 s2)) -> lockstep eq (smodify f1) (smodify f2).
Proof. intros Hf s1 s2 Hs. split; [done|by apply Hf]. Qed.

Lemma lockstep_bind {A B C D} (RA : A -> B -> Prop) (RC : C -> D -> Prop)
    (m1 : ST S1 A) (m2 : ST S2 B) (k1 : A -> ST S1 C) (k2 : B -> ST S2 D) :
  lockstep RA m1 m2 -> (forall a b, RA a b -> lockstep RC (k1 a) (k2 b)) ->
  lockstep RC (sbind m1 k1) (sbind m2 k2).
Proof.
  intros Hm Hk s1 s2 Hs. specialize (Hm s1 s2 Hs). unfold sbind.
  destruct (m1 s1) as [s1' [e1|a]], (m2 s2) as [s2' [e2|b]]; simpl in *; try done.
  destruct Hm as [Hab Hs']. by apply Hk.
Qed.

Lemma lockstep_when b (m1 : ST S1 unit) (m2 : ST S2 unit) :
  lockstep eq m1 m2 -> lockstep eq (swhen b m1) (swhen b m2).
Proof. intros Hm. unfold swhen. destruct b; [done|by apply lockstep_ret]. Qed.

Lemma lockstep_sfor {X} (l : list X) (b1 : X -> ST S1 unit) (b2 : X -> ST S2 unit) :
  (forall x, lockstep eq (b1 x) (b2 x)) -> lockstep eq (sfor l b1) (sfor l b2).
Proof.
  intros Hb. induction l as [|x l IH]; simpl; [by apply lockstep_ret|].
  apply (lockstep_bind eq); [apply Hb|]. by intros [] [] _.
Qed.

Lemma lockstep_of_option {A} e (o : option A) : lockstep eq (of_option e o) (of_option e o).
Proof. destruct o; [by apply lockstep_ret|apply lockstep_raise]. Qed.
End Lockstep.

(** One step of a lockstep proof: a bind whose two sides return equal
    values, or a step that lockstep's rules close. *)
Ltac lockstep_eq :=
  first [ apply (lockstep_bind _ eq); [|intros ? ? <-]
        | apply lockstep_ret; done
        | apply lockstep_raise
        | apply lockstep_of_option ].

(** ** What both runs read back from the process state *)

Section Views.
Context {H : Type} `{!GitHubApi H} `{!GitHubLaws H}.
Implicit Types w : World H.

(** The cache [_validatedGithubUsers] and the users GitHub knows: all a
    run reads back from the process state outside [migrateTickets]'s own
    dictionaries. *)
Definition wsame (wR wD : World H) : Prop :=
  w_validated wR = w_validated wD /\ gh_get_user (w_hub wR) = gh_get_user (w_hub wD).

Definition users_kept w w' : Prop :=
  w_validated w' = w_validated w /\ gh_get_user (w_hub w') = gh_get_user (w_hub w).

Lemma wsame_kept wR wD wR' wD' : wsame wR wD -> users_kept wR wR' -> users_kept wD wD' -> wsame wR' wD'.
Proof. intros [Hv Hu] [HvR HuR] [HvD HuD]. split; congruence. Qed.

(** A step that returns, and leaves the cache and the users alone: the
    pauses, and the requests only a real run sends. *)
Definition silent {A} (m : ST (World H) A) : Prop :=
  forall w, exists a, snd (m w) = inr a /\ users_kept w (fst (m w)).

Lemma silent_ret {A} (a : A) : silent (sret a).
Proof. intros w. by exists a. Qed.

Lemma silent_bind {A B} (m : ST (World H) A) (k : A -> ST (World H) B) :
  silent m -> (forall a, silent (k a)) -> silent (sbind m k).
Proof.
  intros Hm Hk w. destruct (Hm w) as (a & Ea & Hv1 & Hu1). unfold sbind.
  destruct (m w) as [w1 r1]. simpl in *. subst r1.
  destruct (Hk a w1) as (b & Eb & Hv2 & Hu2). exists b. split; [done|split; congruence].
Qed.

Lemma silent_pause b : silent (apiPauseIfNeeded (H := H) b).
Proof.
  intros w.
  destruct (apiPauseIfNeeded_frame (fun h => gh_get_user h = gh_get_user (w_hub w)) b w)
    as (Hr & Hh & Hv & _); [intros t h0 E; by rewrite get_rate_limit_users|done|].
  by exists tt.
Qed.

Lemma silent_emit lvl msg : silent (emit (H := H) lvl msg).
Proof. intros w. by exists tt. Qed.

Lemma silent_emit_at lvl f : silent (emit_at (H := H) lvl f).
Proof. intros w. by exists tt. Qed.

Lemma silent_increment : silent (apiCreationIncrement (H := H)).
Proof. intros w. by exists tt. Qed.

Lemma silent_count_issue : silent (count_issue (H := H)).
Proof. intros w. by exists tt. Qed.

Lemma silent_create_milestone t : silent (create_milestone_w (H := H) t).
Proof.
  intros w. unfold create_milestone_w.
  pose proof (create_milestone_users (w_now w) (w_hub w) t) as Hu.
  destruct (gh_create_milestone _ _ _) as [h' ms]. by exists ms.
Qed.

Lemma silent_create_issue t b a m l : silent (create_issue_w (H := H) t b a m l).
Proof.
  intros w. unfold create_issue_w.
  pose proof (create_issue_users (w_now w) (w_hub w) t b a m l) as Hu.
  destruct (gh_create_issue _ _ _ _ _ _ _) as [h' i]. by exists i.
Qed.

Lemma silent_create_comment n b : silent (create_comment_w (H := H) n b).
Proof. intros w. exists tt. split; [done|]. split; [done|apply create_comment_users]. Qed.

Lemma silent_edit_state n st : silent (edit_state_w (H := H) n st).
Proof. intros w. exists tt. split; [done|]. split; [done|apply edit_state_users]. Qed.

Lemma silent_addComment i t : silent (addGitHubIssueComment (H := H) i t).
Proof.
  unfold addGitHubIssueComment.
  apply silent_bind; [apply silent_pause|intros _].
  apply silent_bind; [apply silent_create_comment|intros _]. apply silent_increment.
Qed.

(** Two silent steps keep the view. *)
Lemma lockstep_silent {A B} (RA : A -> B -> Prop) (m1 : ST (World H) A) (m2 : ST (World H) B) :
  silent m1 -> silent m2 -> (forall a b, RA a b) -> lockstep wsame RA m1 m2.
Proof.
  intros H1 H2 HR wR wD Hs. destruct (H1 wR) as (a & Ea & Hk1), (H2 wD) as (b & Eb & Hk2).
  rewrite Ea, Eb. split; [apply HR|exact (wsame_kept _ _ _ _ Hs Hk1 Hk2)].
Qed.

(** [_getGitHubUser] reads only the view. *)
Lemma lockstep_getGitHubUser name : lockstep wsame eq (getGitHubUser name) (getGitHubUser name).
Proof.
  unfold getGitHubUser. apply (lockstep_bind _ wsame); [apply lockstep_get|].
  intros wR wD [Hv Hu]. rewrite Hv. destruct (w_validated wD !! name); [by apply lockstep_ret|].
  apply (lockstep_bind _ eq); [apply lockstep_silent; [apply silent_emit..|by intros [] []]|intros _ _ _].
  apply (lockstep_bind _ eq); [apply lockstep_silent; [apply silent_pause|apply silent_pause|by intros [] []]|intros _ _ _].
  apply (lockstep_bind _ wsame); [apply lockstep_get|]. intros wR1 wD1 [Hv1 Hu1].
  rewrite Hu1. lockstep_eq; [apply lockstep_of_option|].
  apply (lockstep_bind _ eq); [|intros _ _ _; by apply lockstep_ret].
  apply lockstep_modify. intros w1 w2 [Hv2 Hu2]. split; [simpl; by rewrite Hv2|done].
Qed.

Lemma lockstep_validate t g :
  lockstep wsame eq (validateGithubUser t g) (validateGithubUser t g).
Proof.
  intros wR wD Hs. pose proof (lockstep_getGitHubUser g wR wD Hs) as Hg.
  unfold validateGithubUser.
  destruct (getGitHubUser g wR) as [wR' [e1|u1]], (getGitHubUser g wD) as [wD' [e2|u2]];
    simpl in *; try done. by destruct Hg.
Qed.

Lemma lockstep_githubUserFor m u v :
  lockstep wsame eq (githubUserFor m u v) (githubUserFor m u v).
Proof.
  unfold githubUserFor. destruct (negb (truthy u)); [by apply lockstep_ret|].
  lockstep_eq; [destruct (m !! u); [by apply lockstep_ret|apply lockstep_of_option]|].
  lockstep_eq; [apply lockstep_when, lockstep_validate|]. by apply lockstep_ret.
Qed.
End Views.

Create HintDb silent discriminated.
#[export] Hint Resolve silent_ret silent_bind silent_pause silent_emit silent_emit_at silent_increment silent_count_issue
  silent_create_milestone silent_create_issue silent_create_comment silent_edit_state
  silent_addComment : silent.

(** ** The states of a real run and of a dry run *)

Section MirrorState.
Context {H : Type} `{!GitHubApi H} `{!GitHubLaws H}.

(** The state [rR] of a real run and the state [rD] of a dry run agree
    on all the dry run reads, and the next number GitHub gives is the
    dry run's [fakeIssueId]. *)
Definition mirror (rR rD : Run H) : Prop :=
  r_existing rR = r_existing rD /\ dom (r_milestones rR) = dom (r_milestones rD) /\
  r_comments rR = r_comments rD /\ r_header_read rR = r_header_read rD /\
  wsame (r_world rR) (r_world rD) /\
  contiguous (hub_shape (r_world rR)) /\
  r_fake_id rD = Z.of_nat (size (hub_shape (r_world rR))) + 1.

Lemma dom_same_lookup {A} (m1 m2 : gmap string A) k :
  dom m1 = dom m2 -> is_Some (m1 !! k) <-> is_Some (m2 !! k).
Proof. intros Hd. by rewrite <- !elem_of_dom, Hd. Qed.

(** A step on the process state, run by both. *)
Lemma lockstep_onWorld {A B} (RA : A -> B -> Prop) (m1 : ST (World H) A) (m2 : ST (World H) B) :
  keeps_shape m1 -> lockstep wsame RA m1 m2 -> lockstep mirror RA (onWorld m1) (onWorld m2).
Proof.
  intros Hk Hm rR rD (He & Hms & Hc & Hh & Hw & Hcont & Hf). unfold onWorld, zoom.
  specialize (Hm _ _ Hw). destruct (Hk (r_world rR)) as [Hsh _].
  destruct (m1 (r_world rR)) as [wR' [e1|a]], (m2 (r_world rD)) as [wD' [e2|b]];
    simpl in *; try done.
  destruct Hm as [Hab Hw']. split; [done|]. unfold mirror. simpl. rewrite Hsh. done.
Qed.

(** A step on the process state only a real run takes. *)
Lemma lockstep_onWorld_silent {A B} (RA : A -> B -> Prop) (m : ST (World H) A) (b : B) :
  keeps_shape m -> silent m -> (forall a, RA a b) -> lockstep mirror RA (onWorld m) (sret b).
Proof.
  intros Hk Hs HR rR rD (He & Hms & Hc & Hh & Hw & Hcont & Hf). unfold onWorld, zoom.
  destruct (Hk (r_world rR)) as [Hsh _]. destruct (Hs (r_world rR)) as (a & Ea & Hkept).
  destruct (m (r_world rR)) as [wR' res]. simpl in *. subst res.
  split; [apply HR|]. unfold mirror. simpl. rewrite Hsh.
  split_and!; try done. destruct Hw as [Hv Hu], Hkept as [Hv' Hu']. split; congruence.
Qed.

(** A step on the process state both runs take, which may differ between
    them only in what it logs. *)
Lemma lockstep_log {A B} (RA : A -> B -> Prop) (m1 : ST (World H) A) (m2 : ST (World H) B) :
  keeps_shape m1 -> silent m1 -> silent m2 -> (forall a b, RA a b) ->
  lockstep mirror RA (onWorld m1) (onWorld m2).
Proof. intros Hk H1 H2 HR. apply lockstep_onWorld; [done|by apply lockstep_silent]. Qed.

Lemma mirror_milestones rR rD t (msR msD : Milestone) :
  mirror rR rD ->
  mirror (set_milestones (<[t := msR]> (r_milestones rR)) rR)
         (set_milestones (<[t := msD]> (r_milestones rD)) rD).
Proof.
  intros (He & Hms & Hc & Hh & Hw & Hcont & Hf). unfold mirror. simpl.
  rewrite !dom_insert_L, Hms. done.
Qed.

Lemma mirror_comments rR rD (f : gmap Z (list Comment) -> gmap Z (list Comment)) :
  mirror rR rD -> mirror (set_comments (f (r_comments rR)) rR) (set_comments (f (r_comments rD)) rD).
Proof. intros (He & Hms & Hc & Hh & Hw & Hcont & Hf). unfold mirror. simpl. by rewrite Hc. Qed.

Lemma mirror_existing rR rD (f : gmap Z Issue -> gmap Z Issue) :
  mirror rR rD -> mirror (set_existing (f (r_existing rR)) rR) (set_existing (f (r_existing rD)) rD).
Proof. intros (He & Hms & Hc & Hh & Hw & Hcont & Hf). unfold mirror. simpl. by rewrite He. Qed.

Lemma mirror_header rR rD b :
  mirror rR rD -> mirror (set_header_read b rR) (set_header_read b rD).
Proof. intros (He & Hms & Hc & Hh & Hw & Hcont & Hf). done. Qed.

(** [close_if_needed] returns normally in any run, and changes only the
    log, the state of GitHub's issue (not its number or title) and the
    marks of closed issue objects. *)
Lemma close_if_needed_quiet e tm i r :
  exists r', close_if_needed e tm i r = (r', inr tt) /\
    r_existing r' = r_existing r /\ r_milestones r' = r_milestones r /\
    r_fake_id r' = r_fake_id r /\ r_comments r' = r_comments r /\
    r_header_read r' = r_header_read r /\
    hub_shape (r_world r') = hub_shape (r_world r) /\ users_kept (r_world r) (r_world r').
Proof.
  unfold close_if_needed. rewrite sbind_sget.
  destruct (_ && _); cbn [swhen]; [|by eexists].
  rewrite sbind_onWorld_emit. destruct (negb (e_pretend e)); cbn [swhen]; [|by eexists].
  set (r0 := set_world _ r). unfold sbind at 1, onWorld at 1, zoom.
  set (m := sbind (apiPauseIfNeeded false) (fun _ => edit_state_w (number i) "closed")).
  destruct (silent_bind _ _ (silent_pause false) (fun _ => silent_edit_state (number i) "closed")
              (r_world r0)) as (a & Ea & Hv & Hu).
  destruct (keeps_shape_bind _ _ (keeps_shape_pause false) (fun _ => keeps_shape_edit_state (number i) "closed")
              (r_world r0)) as [Hsh _].
  fold m in Ea, Hv, Hu, Hsh. destruct (m (r_world r0)) as [w' res]. simpl in *. subst res.
  eexists. split; [reflexivity|]. simpl. split_and!; done.
Qed.

Lemma lockstep_lift {A} (x : Exc + A) : lockstep mirror eq (lift x) (lift x).
Proof. destruct x; [apply lockstep_raise|by apply lockstep_ret]. Qed.
End MirrorState.

(** ** The engine in lockstep *)

Section Engine.
Context {H : Type} `{!GitHubApi H} `{!GitHubLaws H}.
Variable convertWikiToMd : string -> Z -> string.
Variable format_epoch : Z -> option string.
Variables (usermap : gmap string string) (lt : LabelTransformations)
  (atts : gmap Z (list Attachment)) (lastHubIssue : Z) (path : string).

Ltac log_step := apply lockstep_log; [eauto with frame|eauto with silent|eauto with silent|by intros [] []].

(** The arguments of [migrateTickets]'s loop in a real and in a dry run. *)
Definition envR : Env := mkEnv false usermap lt atts lastHubIssue path.
Definition envD : Env := mkEnv true usermap lt atts lastHubIssue path.

Local Abbreviation sim := (lockstep (@mirror H _)).

Ltac env_simpl := unfold envR, envD; cbn [e_pretend e_last_hub_issue e_tickets_path e_usermap
  e_labels e_attachments negb swhen].

(** [repo.create_issue(...)] and [_FakeIssue(fakeIssueId, ...)] return
    the same issue. *)
Lemma lockstep_send_issue t b a m l a' m' l' :
  sim eq (send_issue envR t b a m l) (send_issue envD t b a' m' l').
Proof.
  intros rR rD (He & Hms & Hc & Hh & [Hv Hu] & Hcont & Hf). env_simpl. unfold send_issue.
  cbn [e_pretend]. set (w := r_world rR) in *.
  destruct (apiPauseIfNeeded_frame (fun h => issue_shape (gh_issues h) = hub_shape w /\
              gh_get_user h = gh_get_user (w_hub w)) true w) as (Hr & [Hsh Husr] & Hv1 & _);
    [intros t0 h0 [E1 E2]; by rewrite get_rate_limit_issues, get_rate_limit_users|done|].
  unfold onWorld, zoom, sbind. fold w. destruct (apiPauseIfNeeded true w) as [w1 r1].
  simpl in Hr, Hsh, Husr, Hv1. subst r1. unfold create_issue_w.
  set (lopt := match l with [] => None | _ => Some l end).
  pose proof (create_issue_result (w_now w1) (w_hub w1) t b a m lopt) as Hres.
  pose proof (create_issue_issues (w_now w1) (w_hub w1) t b a m lopt) as Hiss.
  pose proof (create_issue_users (w_now w1) (w_hub w1) t b a m lopt) as Hus.
  destruct (gh_create_issue _ _ _ _ _ _ _) as [h' i]. simpl in Hres, Hiss, Hus. subst i.
  assert (Hsz : size (gh_issues (w_hub w1)) = size (hub_shape w))
    by (by rewrite <- Hsh, size_issue_shape).
  simpl. rewrite Hsz, <- Hf. split; [done|].
  unfold mirror, hub_shape. simpl. rewrite Hiss, issue_shape_insert, Hsh, Hsz. fold (hub_shape w).
  split_and!; try done.
  - split; simpl; congruence.
  - by apply contiguous_insert_next.
  - rewrite map_size_insert_None by (by apply contiguous_next_free). lia.
Qed.

(** [existingMilestones[milestoneTitle]]: a real run creates the missing
    milestone, a dry run makes one up; both record it under its title. *)
Lemma lockstep_ensure_milestone t :
  sim (fun _ _ => True) (ensure_milestone envR t) (ensure_milestone envD t).
Proof.
  unfold ensure_milestone. apply (lockstep_bind _ mirror); [apply lockstep_get|].
  intros rR rD Hm. pose proof Hm as (_ & Hms & _).
  destruct (r_milestones rR !! t) as [msR|] eqn:ER, (r_milestones rD !! t) as [msD|] eqn:ED;
    [by apply lockstep_ret| | |].
  1,2: apply (dom_same_lookup _ _ t) in Hms; rewrite ER, ED in Hms;
       exfalso; apply (is_Some_None (A := Milestone)), Hms; by eexists.
  env_simpl. apply (lockstep_bind _ (fun _ _ => True)).
  { apply lockstep_onWorld_silent; [|eauto 8 with silent|done].
    apply keeps_shape_bind; [apply keeps_shape_pause|intros _].
    apply keeps_shape_bind; [apply keeps_shape_create_milestone|intros ms].
    apply keeps_shape_bind; [apply keeps_shape_increment|intros _]. apply keeps_shape_ret. }
  intros ms1 ms2 _. lockstep_eq; [log_step|].
  lockstep_eq; [apply lockstep_modify; intros; by apply mirror_milestones|].
  apply (lockstep_bind _ mirror); [apply lockstep_get|intros ? ? _].
  lockstep_eq; [log_step|by apply lockstep_ret].
Qed.

Lemma lockstep_possiblyAddLabel labels field value :
  sim eq (possiblyAddLabel lt labels field value) (possiblyAddLabel lt labels field value).
Proof.
  unfold possiblyAddLabel. destruct (labelFor _ _ _); [|by apply lockstep_ret].
  lockstep_eq; [log_step|by apply lockstep_ret].
Qed.

Lemma lockstep_labelsFromKeywords labels kw :
  sim eq (labelsFromKeywords lt labels kw) (labelsFromKeywords lt labels kw).
Proof.
  unfold labelsFromKeywords. lockstep_eq; [apply lockstep_lift|].
  lockstep_eq; [apply lockstep_sfor; intros; log_step|by apply lockstep_ret].
Qed.

(** The two runs compute the same body; assignee, milestone and labels
    only go to GitHub. *)
Definition same_body (p q : string * option string * option Z * list string) : Prop :=
  p.1.1.1 = q.1.1.1.

Lemma lockstep_prepare_issue tm :
  sim same_body (prepare_issue envR tm) (prepare_issue envD tm).
Proof.
  unfold prepare_issue. destruct (String.eqb _ _); [by apply lockstep_ret|].
  env_simpl. lockstep_eq; [apply lockstep_onWorld; [apply keeps_shape_githubUserFor|apply lockstep_githubUserFor]|].
  lockstep_eq.
  { destruct (truthy _); [|by apply lockstep_ret].
    lockstep_eq; [|by apply lockstep_ret].
    apply lockstep_onWorld; [apply keeps_shape_getGitHubUser|apply lockstep_getGitHubUser]. }
  apply (lockstep_bind _ (fun _ _ => True)).
  { destruct (truthy _); [|by apply lockstep_ret].
    apply (lockstep_bind _ (fun _ _ => True)); [apply lockstep_ensure_milestone|].
    intros; by apply lockstep_ret. }
  intros ms1 ms2 _. lockstep_eq; [apply lockstep_sfor; intros; log_step|].
  lockstep_eq; [apply lockstep_possiblyAddLabel|].
  lockstep_eq; [apply lockstep_possiblyAddLabel|].
  lockstep_eq; [apply lockstep_labelsFromKeywords|]. by apply lockstep_ret.
Qed.

(** The check [issue.number != ticketId] sees the same number. *)
Lemma lockstep_create_fresh tm : sim eq (create_fresh envR tm) (create_fresh envD tm).
Proof.
  unfold create_fresh. lockstep_eq; [log_step|].
  apply (lockstep_bind _ same_body); [apply lockstep_prepare_issue|].
  intros [[[b1 a1] m1] l1] [[[b2 a2] m2] l2] Hb. unfold same_body in Hb. simpl in Hb. subst b2.
  lockstep_eq; [apply lockstep_send_issue|]. lockstep_eq; [log_step|].
  destruct (negb _); [apply lockstep_raise|].
  lockstep_eq; [|by apply lockstep_ret].
  apply lockstep_modify. intros rR rD Hm. by apply (mirror_existing rR rD (<[t_id tm := _]>)).
Qed.

Lemma lockstep_add_comment t i n :
  sim eq (add_comment convertWikiToMd envR t i n) (add_comment convertWikiToMd envD t i n).
Proof.
  unfold add_comment. apply (lockstep_bind _ mirror); [apply lockstep_get|].
  intros rR rD Hm. pose proof Hm as (_ & _ & Hc & _). rewrite Hc.
  destruct (r_comments rD !! t) as [cs|]; [|by apply lockstep_ret].
  destruct (cs !! n) as [c|]; [|by apply lockstep_ret].
  lockstep_eq.
  { destruct (String.eqb _ _); [|by apply lockstep_ret].
    lockstep_eq; [|by apply lockstep_ret].
    apply lockstep_modify. intros rR' rD' Hm'. by apply (mirror_comments rR' rD' (<[t := _]>)). }
  lockstep_eq; [|log_step]. env_simpl.
  apply lockstep_onWorld_silent; [apply keeps_shape_addComment|apply silent_addComment|by intros []].
Qed.

Lemma lockstep_add_comments t i :
  sim eq (add_comments convertWikiToMd envR t i) (add_comments convertWikiToMd envD t i).
Proof.
  unfold add_comments. apply (lockstep_bind _ mirror); [apply lockstep_get|].
  intros rR rD Hm. pose proof Hm as (_ & _ & Hc & _). rewrite Hc.
  destruct (r_comments rD !! t) as [cs|]; [|by apply lockstep_ret].
  apply lockstep_sfor. intros n. apply lockstep_add_comment.
Qed.

Lemma lockstep_close_if_needed tm i :
  sim eq (close_if_needed envR tm i) (close_if_needed envD tm i).
Proof.
  intros rR rD (He & Hms & Hc & Hh & Hw & Hcont & Hf).
  destruct (close_if_needed_quiet envR tm i rR) as (rR' & ER & HeR & HmR & HfR & HcR & HhR & HsR & HuR).
  destruct (close_if_needed_quiet envD tm i rD) as (rD' & ED & HeD & HmD & HfD & HcD & HhD & HsD & HuD).
  rewrite ER, ED. cbn [fst snd outcome]. split; [done|]. unfold mirror.
  rewrite HeR, HmR, HcR, HhR, HsR, HeD, HmD, HcD, HhD, HfD.
  split_and!; try done. exact (wsame_kept _ _ _ _ Hw HuR HuD).
Qed.

Lemma lockstep_migrate_ticket tm :
  sim eq (migrate_ticket convertWikiToMd envR tm) (migrate_ticket convertWikiToMd envD tm).
Proof.
  unfold migrate_ticket.
  lockstep_eq; [destruct (t_exists tm); [|apply lockstep_create_fresh]|].
  { lockstep_eq; [log_step|by apply lockstep_ret]. }
  lockstep_eq; [apply lockstep_add_comments|apply lockstep_close_if_needed].
Qed.

Lemma lockstep_resume_check tm : sim eq (resume_check envR tm) (resume_check envD tm).
Proof.
  unfold resume_check. env_simpl. destruct (_ =? _); [|by apply lockstep_ret].
  apply (lockstep_bind _ mirror); [apply lockstep_get|].
  intros rR rD Hm. pose proof Hm as (He & _). rewrite He.
  lockstep_eq; [apply lockstep_of_option|]. destruct (negb _); [apply lockstep_raise|by apply lockstep_ret].
Qed.

(** One row of [_tracTicketMaps] and the tickets it yields. *)
Lemma lockstep_process_row i row :
  sim eq (process_row convertWikiToMd format_epoch envR i row)
         (process_row convertWikiToMd format_epoch envD i row).
Proof.
  unfold process_row. env_simpl. destruct (negb _); [apply lockstep_raise|].
  apply (lockstep_bind _ mirror); [apply lockstep_get|].
  intros rR rD Hm. pose proof Hm as (He & _ & _ & Hh & _). rewrite Hh.
  destruct (negb (r_header_read rD)).
  { apply lockstep_modify. intros; by apply mirror_header. }
  lockstep_eq; [apply lockstep_lift|]. destruct (_ <? _); [by apply lockstep_ret|].
  apply (lockstep_bind _ mirror); [apply lockstep_get|].
  intros rR1 rD1 Hm1. pose proof Hm1 as (He1 & _). rewrite He1.
  destruct (_ && _); [apply lockstep_raise|].
  lockstep_eq; [apply lockstep_sfor; intros; apply lockstep_migrate_ticket|].
  lockstep_eq; [apply lockstep_lift|].
  lockstep_eq; [apply lockstep_resume_check|apply lockstep_migrate_ticket].
Qed.

Lemma lockstep_process_rows_from i rows :
  sim eq (process_rows_from convertWikiToMd format_epoch envR i rows)
         (process_rows_from convertWikiToMd format_epoch envD i rows).
Proof.
  revert i. induction rows as [|row rows IH]; intros i; simpl; [by apply lockstep_ret|].
  lockstep_eq; [apply lockstep_process_row|apply IH].
Qed.

(** The loop of [migrateTickets] from the listing of the issues. *)
Lemma run_loop_mirror rows existing milestones comments (w : World H) :
  contiguous (hub_shape w) -> size existing = size (hub_shape w) ->
  snd (run_loop convertWikiToMd format_epoch envD rows existing milestones comments w) =
  snd (run_loop convertWikiToMd format_epoch envR rows existing milestones comments w).
Proof.
  intros Hc Hsz. unfold run_loop, process_rows.
  set (r0 := mkRun w existing milestones (1 + Z.of_nat (size existing)) comments false ∅).
  assert (Hm : mirror r0 r0) by (unfold mirror; simpl; rewrite Hsz; split_and!; done || lia).
  pose proof (lockstep_process_rows_from 0 rows r0 r0 Hm) as Ho.
  destruct (process_rows_from _ _ envR 0 rows r0) as [rR [e1|[]]],
           (process_rows_from _ _ envD 0 rows r0) as [rD [e2|[]]]; simpl in *; try done.
  by subst.
Qed.
End Engine.

(** ** A dry run ends as a real run *)

Section DryAsReal.
Context {H : Type} `{!GitHubApi H} `{!GitHubLaws H}.
Variable convertWikiToMd : string -> Z -> string.
Variable format_epoch : Z -> option string.

Lemma snd_then_lift_w {A} (m : ST (World H) A) (x : Exc + unit) (w : World H) :
  snd ((m ;; lift_w x) w) = ebind (snd (m w)) (fun _ => x).
Proof. unfold sbind. destruct (m w) as [w' [e|a]]; [done|by destruct x]. Qed.

(** Two continuations that end the same way from every state with the
    shape [s] end the same way after a step that keeps the shape. *)
Lemma snd_bind_shape {A B} (m : ST (World H) A) (k1 k2 : A -> ST (World H) B) s (w : World H) :
  keeps_shape m -> hub_shape w = s ->
  (forall a w', hub_shape w' = s -> snd (k1 a w') = snd (k2 a w')) ->
  snd (sbind m k1 w) = snd (sbind m k2 w).
Proof.
  intros Hm Hw Hk. unfold sbind. destruct (Hm w) as [Hs _].
  destruct (m w) as [w' [e|a]]; simpl in *; [done|]. apply Hk. congruence.
Qed.

(** C4: a dry run makes the decisions of a real run.  From a repository
    whose issues are numbered [1 .. n], each under its own number and
    [open] or [closed], [migrateTickets] without [--really] ends exactly
    as [migrateTickets] with it, on the same tables and options: the same
    exception (a bad row, a ticket out of order, a title mismatch on
    resume, an unknown user or label, a failed number check) or a normal
    end, although it sends GitHub no mutating request. *)
Theorem migrateTickets_dry_run_decides_as_real ticketsCsvPath ticketTable commentsCsvPath
    commentTable attachmentsCsvPath attachmentTable labelMapping labelTokens userMapping
    attachmentsPrefix keywords (w : World H) :
  contiguous (gh_issues (w_hub w)) -> keyed (gh_issues (w_hub w)) ->
  states_listed (gh_issues (w_hub w)) ->
  let run pretend := migrateTickets convertWikiToMd format_epoch ticketsCsvPath ticketTable
                       commentsCsvPath commentTable attachmentsCsvPath attachmentTable
                       labelMapping labelTokens userMapping attachmentsPrefix keywords pretend w in
  snd (run true) = snd (run false).
Proof.
  intros Hc Hk Hs run. subst run. unfold migrateTickets.
  rewrite !(sbind_run _ _ _ _ _ (readComments_run format_epoch _ _ w)).
  destruct (createTicketToCommentsMap _ _ _) as [e|comments]; [done|].
  rewrite !(sbind_run _ _ _ _ _ (readAttachments_run format_epoch _ _ _ _)).
  destruct (createTicketsToAttachmentsMap _ _ _ _) as [e|attachments]; [done|].
  set (w2 := attachments_log _ _ (comments_log _ _ _ w)).
  assert (Hh : w_hub w2 = w_hub w) by apply w_hub_tables_log.
  destruct (createIssueMap_spec w2 ltac:(by rewrite Hh) ltac:(by rewrite Hh)) as (w3 & E3 & H3).
  rewrite Hh in H3. rewrite !(sbind_ok _ _ _ _ _ E3), Hh.
  assert (Hw3 : hub_shape w3 = issue_shape (gh_issues (w_hub w))) by (unfold hub_shape; by rewrite H3).
  apply (snd_bind_shape _ _ _ _ _ (keeps_shape_createMilestoneMap) Hw3). intros ms w4 Hw4.
  apply (snd_bind_shape _ _ _ _ _ (keeps_shape_createTracToGithubUserMap _) Hw4). intros um w5 Hw5.
  apply (snd_bind_shape _ _ _ _ _ (keeps_shape_newLabelTransformations _ _ _) Hw5). intros lt w6' Hw6'.
  apply (snd_bind_shape _ _ _ _ _ (keeps_shape_emit _ _) Hw6'). intros [] w6 Hw6.
  rewrite !snd_then_lift_w. f_equal.
  apply (run_loop_mirror convertWikiToMd format_epoch um lt attachments _ ticketsCsvPath).
  - rewrite Hw6. by apply shape_ok_issue_shape.
  - by rewrite Hw6, size_issue_shape.
Qed.
End DryAsReal.

Import HubModel.

Lemma migrateTickets_dry_run_decides_as_real_witness :
  snd (example_run (Some "bug") true) = snd (example_run (Some "bug") false).
Proof.
  apply migrateTickets_dry_run_decides_as_real;
    [apply contiguous_empty|intros k i Hk; vm_compute in Hk; discriminate|apply map_Forall_empty].
Defined.
