(* ===== verification/RateLimit.v ===== *)
(** RateLimit.v: the two creation quotas hold over a whole migration.

    GitHub receives a creation ([create_issue], [create_milestone],
    [create_comment]) only inside [_apiPauseIfNeeded(True); request;
    _apiCreationIncrement()].  The invariant [rl_inv] ties the deques
    [_lastMinCalls] and [_last40mCalls] to the log of requests GitHub
    received: for every time [x] inside the current window, the creations
    logged since [x] are at most the calls the deque holds since [x]
    ([covered]).  Trimming a deque only drops calls older than the window,
    sleeping only shrinks the window, and a creation adds one entry to both
    sides.  Since the pause leaves fewer than [allowed] calls in each
    deque, every window of the log, of 62 s or of 3660 s, holds at most
    [ALLOWED_PER_MIN] or [ALLOWED_PER_HR] creations
    ([window_respected]).  The theorem carries this through every step of
    [migrateTickets], real or dry. *)

From S2P Require Import Prelude PyStr GitHub Log Pacing Users Labels Ingest Migrate Frame Alignment Main Discipline.

Local Open Scope Z_scope.

(** ** Counting creations *)

Definition log_entry := (Z * Call)%type.

(** The creations logged at or after [x]. *)
Definition creations_since (x : Z) (log : list log_entry) : Z :=
  Z.of_nat (length (List.filter (fun e => is_creation (snd e) && (x <=? fst e)) log)).

(** The creations logged in the window [[lo, hi]]. *)
Definition creations_between (lo hi : Z) (log : list log_entry) : Z :=
  Z.of_nat (length (List.filter (fun e => is_creation (snd e) && (lo <=? fst e) && (fst e <=? hi)) log)).

(** No window of [period] seconds holds more than [allowed] creations. *)
Definition window_respected (period allowed : Z) (log : list log_entry) : Prop :=
  forall t, creations_between (t - period * usec) t log <= allowed.

(** The calls a deque holds at or after [x]. *)
Definition deque_since (x : Z) (d : Deque) : Z := call_count (List.filter (fun c => x <=? snd c) d).

(** Within the window ending now, the deque accounts for every creation. *)
Definition covered (period now : Z) (log : list log_entry) (d : Deque) : Prop :=
  forall x, now - period * usec <= x -> creations_since x log <= deque_since x d.

Definition log_stamped (now : Z) (log : list log_entry) : Prop := Forall (fun e => fst e <= now) log.

Lemma creations_since_snoc x log now c :
  creations_since x (log ++ [(now, c)]) =
    creations_since x log + (if is_creation c && (x <=? now) then 1 else 0).
Proof.
  unfold creations_since. rewrite List.filter_app, length_app. simpl.
  destruct (is_creation c && (x <=? now)); simpl; lia.
Qed.

Lemma creations_between_snoc lo hi log now c :
  creations_between lo hi (log ++ [(now, c)]) =
    creations_between lo hi log + (if is_creation c && (lo <=? now) && (now <=? hi) then 1 else 0).
Proof.
  unfold creations_between. rewrite List.filter_app, length_app. simpl.
  destruct (is_creation c && (lo <=? now) && (now <=? hi)); simpl; lia.
Qed.

Lemma deque_since_snoc x d now c :
  deque_since x (d ++ [(c, now)]) = deque_since x d + (if x <=? now then c else 0).
Proof.
  unfold deque_since. rewrite List.filter_app, call_count_app. simpl.
  destruct (x <=? now); simpl; lia.
Qed.

(** On a stamped log, a window ending at or after now counts the
    creations since its start. *)
Lemma creations_between_stamped lo hi now log :
  log_stamped now log -> now <= hi -> creations_between lo hi log = creations_since lo log.
Proof.
  intros Hs Hle. unfold creations_between, creations_since. f_equal. f_equal.
  apply filter_ext_in. intros [t c] Hin. simpl.
  apply (proj1 (List.Forall_forall _ _) Hs) in Hin. simpl in Hin.
  destruct (is_creation c), (lo <=? t); simpl; try done. apply Z.leb_le. lia.
Qed.

Lemma deque_since_le_count x now d : window_ok now d -> deque_since x d <= call_count d.
Proof.
  unfold deque_since. induction 1 as [|[c t] d [Hc _] _ IH]; simpl; [unfold call_count; simpl; lia|].
  destruct (x <=? t); unfold call_count in *; simpl in *; lia.
Qed.

Lemma deque_since_nonneg x now d : window_ok now d -> 0 <= deque_since x d.
Proof.
  unfold deque_since. induction 1 as [|[c t] d [Hc _] _ IH]; simpl; [unfold call_count; simpl; lia|].
  destruct (x <=? t); unfold call_count in *; simpl in *; lia.
Qed.

(** Dropping calls older than [past] leaves the calls since [x >= past]. *)
Lemma deque_since_drop_expired x past d :
  past <= x -> deque_since x (drop_expired past d) = deque_since x d.
Proof.
  intros Hle. induction d as [|[c t] d IH]; simpl; [done|].
  destruct (Z.ltb_spec t past); [|done].
  rewrite IH. unfold deque_since. simpl. by rewrite (proj2 (Z.leb_gt x t)) by lia.
Qed.

Lemma deque_since_expired_prefix x bound pre d :
  Forall (fun e => snd e < bound) pre -> bound <= x -> deque_since x (pre ++ d) = deque_since x d.
Proof.
  intros Hpre Hle. induction Hpre as [|[c t] pre Ht _ IH]; simpl; [done|].
  simpl in Ht. unfold deque_since in *. simpl. by rewrite (proj2 (Z.leb_gt x t)) by lia.
Qed.

(** ** One window *)

Lemma covered_later period now now' log d :
  now <= now' -> covered period now log d -> covered period now' log d.
Proof. intros Hle Hc x Hx. apply Hc. lia. Qed.

Lemma log_stamped_later now now' log : now <= now' -> log_stamped now log -> log_stamped now' log.
Proof. intros Hle Hs. eapply Forall_impl; [exact Hs|]. simpl. intros e He. lia. Qed.

(** A creation logged at [now] and counted in the deque keeps the
    deque's account, and stays within the window's allowance when the
    deque held fewer than [allowed] calls. *)
Lemma window_creation period allowed now log d c :
  log_stamped now log -> window_ok now d -> covered period now log d ->
  window_respected period allowed log -> call_count d < allowed -> is_creation c = true ->
  covered period now (log ++ [(now, c)]) (d ++ [(1, now)]) /\
  window_respected period allowed (log ++ [(now, c)]).
Proof.
  intros Hs Hw Hc Hr Hcnt Hcr. split.
  - intros x Hx. rewrite creations_since_snoc, deque_since_snoc, Hcr. simpl.
    specialize (Hc x Hx). destruct (x <=? now); lia.
  - intros t. rewrite creations_between_snoc, Hcr. simpl.
    destruct (Z.leb_spec (t - period * usec) now), (Z.leb_spec now t); simpl;
      try (specialize (Hr t); lia).
    rewrite (creations_between_stamped _ _ now) by done.
    pose proof (Hc (t - period * usec) ltac:(lia)).
    pose proof (deque_since_le_count (t - period * usec) now d Hw). lia.
Qed.

(** A request that is not a creation changes no count. *)
Lemma window_other period allowed now log d c :
  is_creation c = false -> covered period now log d -> window_respected period allowed log ->
  covered period now (log ++ [(now, c)]) d /\ window_respected period allowed (log ++ [(now, c)]).
Proof.
  intros Hcr Hc Hr. split.
  - intros x Hx. rewrite creations_since_snoc, Hcr. simpl. rewrite Z.add_0_r. by apply Hc.
  - intros t. rewrite creations_between_snoc, Hcr. simpl. rewrite Z.add_0_r. apply Hr.
Qed.

(** ** The invariant on the process state *)

Section Invariant.
Context {H : Type} `{!GitHubApi H} `{!GitHubLaws H}.
Implicit Types w : World H.

Definition rl_inv w : Prop :=
  clock_ok w /\ log_stamped (w_now w) (gh_log (w_hub w)) /\
  covered MIN_PERIOD (w_now w) (gh_log (w_hub w)) (w_min_calls w) /\
  covered HR_PERIOD (w_now w) (gh_log (w_hub w)) (w_hr_calls w) /\
  window_respected MIN_PERIOD ALLOWED_PER_MIN (gh_log (w_hub w)) /\
  window_respected HR_PERIOD ALLOWED_PER_HR (gh_log (w_hub w)).

(** Time passes; the log and the deques stay. *)
Lemma rl_inv_later w w' :
  rl_inv w -> w_now w <= w_now w' -> gh_log (w_hub w') = gh_log (w_hub w) ->
  w_min_calls w' = w_min_calls w -> w_hr_calls w' = w_hr_calls w -> rl_inv w'.
Proof.
  intros ([Hm Hh] & Hs & Hcm & Hch & Hrm & Hrh) Hle Hl Em Eh. unfold rl_inv, clock_ok.
  rewrite Hl, Em, Eh.
  split_and!; try done; eauto using window_ok_mono, log_stamped_later, covered_later.
Qed.

Lemma total_pause_rl w :
  rl_inv w -> exists w', apiTotalRequestPause w = (w', inr tt) /\ rl_inv w' /\
    w_min_calls w' = w_min_calls w /\ w_hr_calls w' = w_hr_calls w.
Proof.
  intros Hw. destruct (total_pause_windows w) as (w' & E & Hle & Em & Eh).
  exists w'. split_and!; [done| |done|done]. apply (rl_inv_later w); try done.
  revert E. unfold apiTotalRequestPause.
  destruct (total_pause_loop 1 (w_now w) (w_hub w)) as [[now' h']|] eqn:Et; intros [= <-]; [|done].
  simpl. by apply (total_pause_loop_frame (fun h => gh_log h = gh_log (w_hub w)) 1 (w_now w) (w_hub w) now');
    [intros t h0 Hh0; by rewrite get_rate_limit_log| |].
Qed.

(** A creation pause trims only calls older than the window it ends in. *)
Lemma creation_pause_covered win allowed period w :
  1 <= allowed -> 0 <= period < 86400 -> window_ok (w_now w) (win_calls win w) ->
  covered period (w_now w) (gh_log (w_hub w)) (win_calls win w) ->
  exists w', apiCreationRequestPause win allowed period w = (w', inr tt) /\
    call_count (win_calls win w') < allowed /\ window_ok (w_now w') (win_calls win w') /\
    covered period (w_now w') (gh_log (w_hub w')) (win_calls win w') /\
    w_now w <= w_now w' /\ w_hub w' = w_hub w /\
    (forall win', win' <> win -> win_calls win' w' = win_calls win' w).
Proof.
  intros Ha HP Hw Hc.
  destruct (apiCreationRequestPause_run win allowed period w Ha HP (window_ok_stamps _ _ Hw))
    as (now' & calls' & pre & -> & Hcnt & Hle & Hsplit & Hpre).
  eexists. split; [reflexivity|]. rewrite win_calls_set, w_now_set_win, w_hub_set_win. simpl.
  split_and!; [done| | |done|done|].
  - apply (window_ok_mono (w_now w)); [done|].
    apply (Forall_suffix _ pre). rewrite <- Hsplit. by apply Forall_drop_expired.
  - intros x Hx. rewrite <- (deque_since_expired_prefix x (now' - period * usec) pre) by done.
    rewrite <- Hsplit, deque_since_drop_expired by lia. apply Hc. lia.
  - intros win' Hne. rewrite win_calls_other by done. by destruct win'.
Qed.

(** [_apiPauseIfNeeded(iscreation)] keeps the invariant; with
    [iscreation] the deques then hold fewer calls than allowed. *)
Lemma pause_rl b w :
  rl_inv w -> exists w', apiPauseIfNeeded b w = (w', inr tt) /\ rl_inv w' /\
    (b = true -> call_count (w_min_calls w') < ALLOWED_PER_MIN /\
                 call_count (w_hr_calls w') < ALLOWED_PER_HR).
Proof.
  intros Hw. unfold apiPauseIfNeeded. destruct b; cbn [swhen].
  - rewrite !sbind_assoc. destruct Hw as ([Hm Hh] & Hs & Hcm & Hch & Hrm & Hrh).
    destruct (creation_pause_covered MinWindow ALLOWED_PER_MIN MIN_PERIOD w)
      as (w1 & E1 & Hc1 & Hw1 & Hcov1 & Hn1 & Hh1 & Ho1); [done|unfold MIN_PERIOD; lia|done|done|].
    rewrite (sbind_ok _ _ _ _ _ E1). specialize (Ho1 HourWindow ltac:(done)). simpl in *.
    destruct (creation_pause_covered HourWindow ALLOWED_PER_HR HR_PERIOD w1)
      as (w2 & E2 & Hc2 & Hw2 & Hcov2 & Hn2 & Hh2 & Ho2); [done|unfold HR_PERIOD; lia|
        simpl; rewrite Ho1; by apply (window_ok_mono (w_now w))|
        simpl; rewrite Ho1, Hh1; by apply (covered_later _ (w_now w))|].
    rewrite (sbind_ok _ _ _ _ _ E2). specialize (Ho2 MinWindow ltac:(done)). simpl in *.
    assert (Hw2' : rl_inv w2).
    { unfold rl_inv, clock_ok. rewrite Hh2 in Hcov2 |- *. rewrite Ho2. split_and!.
      - by apply (window_ok_mono (w_now w1)).
      - done.
      - rewrite Hh1. apply (log_stamped_later (w_now w)); [lia|done].
      - by apply (covered_later _ (w_now w1)).
      - done.
      - by rewrite Hh1.
      - by rewrite Hh1. }
    destruct (total_pause_rl w2 Hw2') as (w3 & E3 & Hw3 & Em & Eh).
    exists w3. split_and!; [exact E3|done|]. intros _. rewrite Em, Eh, Ho2. done.
  - rewrite sbind_sret. destruct (total_pause_rl w Hw) as (w3 & E3 & Hw3 & _).
    exists w3. split_and!; [done|done|discriminate].
Qed.
End Invariant.

(** ** Steps that keep the invariant *)

Section Safe.
Context {H : Type} `{!GitHubApi H} `{!GitHubLaws H}.
Implicit Types w : World H.

Definition rl_keeps w w' : Prop := rl_inv w -> rl_inv w'.

#[export] Instance rl_keeps_refl : Reflexive rl_keeps.
Proof. intros w Hw. exact Hw. Qed.

#[export] Instance rl_keeps_trans : Transitive rl_keeps.
Proof. intros w1 w2 w3 H12 H23 Hw. auto. Qed.

(** A request that adds one creation, stamped now, to the log and leaves
    the clock and the deques alone. *)
Definition creates {A} (cr : ST (World H) A) : Prop :=
  forall w, exists w' c a, cr w = (w', inr a) /\ is_creation c = true /\
    gh_log (w_hub w') = gh_log (w_hub w) ++ [(w_now w, c)] /\ w_now w' = w_now w /\
    w_min_calls w' = w_min_calls w /\ w_hr_calls w' = w_hr_calls w.

Lemma rl_safe_pause b : step_rel rl_keeps (apiPauseIfNeeded b).
Proof. intros w Hw. destruct (pause_rl b w Hw) as (w' & -> & Hw' & _). done. Qed.

(** [_apiPauseIfNeeded(True)], a creation, [_apiCreationIncrement()]. *)
Lemma rl_safe_creation {A B} (cr : ST (World H) A) (k : A -> ST (World H) B) :
  creates cr -> (forall a, step_rel rl_keeps (k a)) ->
  step_rel rl_keeps (apiPauseIfNeeded true ;; a <- cr ;; apiCreationIncrement ;; k a).
Proof.
  intros Hcr Hk w Hw. destruct (pause_rl true w Hw) as (w1 & E1 & Hw1 & Hcnt).
  rewrite (sbind_ok _ _ _ _ _ E1). destruct (Hcnt eq_refl) as [Hcm Hch].
  destruct (Hcr w1) as (w2 & c & a & E2 & Hc & Hl & Hn & Hm & Hh).
  rewrite (sbind_ok _ _ _ _ _ E2). unfold apiCreationIncrement. rewrite sbind_smodify.
  apply Hk. destruct Hw1 as ([Hwm Hwh] & Hs & Hcvm & Hcvh & Hrm & Hrh).
  destruct (window_creation MIN_PERIOD ALLOWED_PER_MIN (w_now w1) (gh_log (w_hub w1))
              (w_min_calls w1) c) as [Cm Rm]; try done.
  destruct (window_creation HR_PERIOD ALLOWED_PER_HR (w_now w1) (gh_log (w_hub w1))
              (w_hr_calls w1) c) as [Ch Rh]; try done.
  unfold rl_inv, clock_ok. simpl. rewrite Hl, Hn, Hm, Hh.
  split_and!; try done.
  - apply Forall_app. split; [done|]. repeat constructor; simpl; lia.
  - apply Forall_app. split; [done|]. repeat constructor; simpl; lia.
  - apply Forall_app. split; [done|]. repeat constructor; simpl; lia.
Qed.

(** [_apiPauseIfNeeded()] then [issue.edit(...)]: not a creation. *)
Lemma rl_safe_edit n st : step_rel rl_keeps (apiPauseIfNeeded false ;; edit_state_w n st).
Proof.
  intros w Hw. destruct (pause_rl false w Hw) as (w1 & E1 & Hw1 & _).
  rewrite (sbind_ok _ _ _ _ _ E1). unfold edit_state_w. simpl.
  destruct Hw1 as (Hcl & Hs & Hcvm & Hcvh & Hrm & Hrh).
  destruct (window_other MIN_PERIOD ALLOWED_PER_MIN (w_now w1) (gh_log (w_hub w1))
              (w_min_calls w1) (EditState n st)) as [Cm Rm]; try done.
  destruct (window_other HR_PERIOD ALLOWED_PER_HR (w_now w1) (gh_log (w_hub w1))
              (w_hr_calls w1) (EditState n st)) as [Ch Rh]; try done.
  unfold rl_inv. simpl. rewrite edit_state_log. split_and!; try done.
  apply Forall_app. split; [done|]. repeat constructor; simpl; lia.
Qed.
End Safe.

Section Requests.
Context {H : Type} `{!GitHubApi H} `{!GitHubLaws H}.

Lemma creates_issue t b a m l : creates (H := H) (create_issue_w t b a m l).
Proof.
  intros w. unfold create_issue_w.
  pose proof (create_issue_log (w_now w) (w_hub w) t b a m l) as Hl.
  destruct (gh_create_issue _ _ _ _ _ _ _) as [h' i]. simpl in Hl.
  by exists (set_hub h' w), (CreateIssue t b a m l), i.
Qed.

Lemma creates_milestone t : creates (H := H) (create_milestone_w t).
Proof.
  intros w. unfold create_milestone_w.
  pose proof (create_milestone_log (w_now w) (w_hub w) t) as Hl.
  destruct (gh_create_milestone _ _ _) as [h' ms]. simpl in Hl.
  by exists (set_hub h' w), (CreateMilestone t), ms.
Qed.

Lemma creates_comment n b : creates (H := H) (create_comment_w n b).
Proof.
  intros w. unfold create_comment_w. exists (set_hub (gh_create_comment (w_now w) (w_hub w) n b) w).
  exists (CreateComment n b), tt. simpl. by rewrite create_comment_log.
Qed.
End Requests.

Create HintDb rl discriminated.
#[export] Hint Resolve rl_keeps_refl rl_keeps_trans rl_safe_pause creates_issue creates_milestone
  creates_comment : rl.

(** ** The quotas are a discipline *)

Section RateDiscipline.
Context {H : Type} `{!GitHubApi H} `{!GitHubLaws H}.

(** A step that leaves the clock, GitHub and the deques alone. *)
Lemma rl_safe_modify (f : World H -> World H) :
  (forall w, w_now (f w) = w_now w /\ w_hub (f w) = w_hub w /\
             w_min_calls (f w) = w_min_calls w /\ w_hr_calls (f w) = w_hr_calls w) ->
  step_rel rl_keeps (smodify f).
Proof.
  intros Hf. apply step_rel_modify. intros w Hw. destruct (Hf w) as (Hn & Hh & Hm & Hr).
  unfold rl_inv, clock_ok. by rewrite Hn, Hh, Hm, Hr.
Qed.

Lemma rl_safe_ret_after {A} (m : ST (World H) unit) (a : A) :
  step_rel rl_keeps m -> step_rel rl_keeps (m ;; sret a).
Proof. intros Hm. exact (step_rel_bind rl_keeps m (fun _ => sret a) Hm (fun _ => step_rel_ret rl_keeps a)). Qed.

#[export] Instance rl_discipline : Discipline (@rl_keeps H _).
Proof.
  split; [apply rl_keeps_refl|apply rl_keeps_trans|apply rl_safe_pause|..].
  - intros f. apply rl_safe_modify. intros w. split_and!; reflexivity.
  - intros t b a m l. apply rl_safe_creation; [apply creates_issue|]. intros i.
    apply rl_safe_ret_after, rl_safe_modify. intros w. split_and!; reflexivity.
  - intros t. apply rl_safe_creation; [apply creates_milestone|]. intros ms. exact (step_rel_ret rl_keeps ms).
  - intros i t.
    apply (step_rel_ext _ _ (apiPauseIfNeeded true ;; a <- create_comment_w (number i) t ;;
                             apiCreationIncrement ;; sret a)).
    + intros w. unfold addGitHubIssueComment, sbind.
      destruct (apiPauseIfNeeded true w) as [w1 [e|[]]]; [done|].
      destruct (create_comment_w _ _ w1) as [w2 [e|[]]]; done.
    + apply rl_safe_creation; [apply creates_comment|]. intros a. exact (step_rel_ret rl_keeps a).
  - intros n. apply rl_safe_edit.
  - intros lvl msgs. apply rl_safe_modify. intros w. split_and!; reflexivity.
  - intros b. apply rl_safe_modify. intros w. split_and!; reflexivity.
Qed.
End RateDiscipline.

Section Migration.
Context {H : Type} `{!GitHubApi H} `{!GitHubLaws H}.
Variable convertWikiToMd : string -> Z -> string.
Variable format_epoch : Z -> option string.

(** the creation quotas hold over a whole migration.  From a state
    whose deques account for the creations GitHub logged in the current
    windows ([rl_inv]; a fresh process on a repository with no recent
    creations is one), [migrateTickets] leaves a log in which no 62-second
    window holds more than [ALLOWED_PER_MIN] creations and no 3660-second
    window more than [ALLOWED_PER_HR], whatever the tables and options and
    however the run ends. *)
Theorem migrateTickets_within_rate_limits ticketsCsvPath ticketRows commentsCsvPath commentRows
    attachmentsCsvPath attachmentRows labelMapping labelTokens userMapping
    attachmentsPrefix keywords pretend (w : World H) :
  rl_inv w ->
  let w' := fst (migrateTickets convertWikiToMd format_epoch ticketsCsvPath ticketRows
                   commentsCsvPath commentRows attachmentsCsvPath attachmentRows labelMapping
                   labelTokens userMapping attachmentsPrefix keywords pretend w) in
  window_respected MIN_PERIOD ALLOWED_PER_MIN (gh_log (w_hub w')) /\
  window_respected HR_PERIOD ALLOWED_PER_HR (gh_log (w_hub w')).
Proof.
  intros Hw w'.
  destruct (disc_migrateTickets rl_keeps convertWikiToMd format_epoch ticketsCsvPath ticketRows
              commentsCsvPath commentRows attachmentsCsvPath attachmentRows labelMapping
              labelTokens userMapping attachmentsPrefix keywords pretend w Hw)
    as (_ & _ & _ & _ & Hm & Hh).
  by split.
Qed.
End Migration.

Import HubModel.

(** A fresh process: no call in the deques, nothing in the log. *)
Lemma example_world_rl_inv : rl_inv example_world.
Proof.
  split_and!; try (repeat constructor).
  all: try (intros x _; unfold creations_since, deque_since; simpl; lia).
  all: intros t; unfold creations_between; simpl; unfold ALLOWED_PER_MIN, ALLOWED_PER_HR; lia.
Qed.

Lemma migrateTickets_within_rate_limits_witness :
  let w' := fst (migrateTickets (fun s _ => s) (fun _ => Some "") "tickets.csv" (example_tickets, None)
                   (Some "comments.csv") (example_comments, None) None ([], None) None [] "*:*" None (Some "bug")
                   false example_world) in
  window_respected MIN_PERIOD ALLOWED_PER_MIN (gh_log (w_hub w')) /\
  window_respected HR_PERIOD ALLOWED_PER_HR (gh_log (w_hub w')).
Proof. apply migrateTickets_within_rate_limits, example_world_rl_inv. Defined.
