(* ===== verification/Entry.v ===== *)
(** Entry.v: the program as it is started, [main(argv)] (tratihubis.py
    lines 942-1002).

    [main] parses the command line ([_parsedOptions]), reads the options
    of the section [tratihubis] ([_getConfigOption]; the password from the
    file or from [TRATIHUBIS_PASSWD]), connects to the repository
    [owner/name] (the owner looked up with [_getGitHubUser] when the
    option [repo] names one, else the user logged in), and runs
    [migrateTickets] with [pretend = not options.really].  Every
    [Exception] raised on the way ends [main] with exit code 1; the
    [SystemExit] of optparse passes through.  [main_setup] is the part of
    the [try] block before [migrateTickets]; [main_body] the whole block.

    The CSV files are read from their bytes ([read_file], [None] when the
    file cannot be opened) by the reader of Tables.v; [read_config] gives
    the parser after [config.read(configPath)], [tokenize] the tokens of the [labels] option; [trac_to_github] is the
    wiki formatter of Trac that [_convertWikiToMd] calls with the global
    [_gitpath] that [main] sets.  The credentials are taken as
    accepted: a refused login raises at the first request, an [Exception]
    like any other. *)

From S2P Require Import Prelude PyStr Utf8 Config GitHub Log Pacing Users Labels Ingest Tables Migrate Frame Alignment Main Discipline DryRun RateLimit.

Local Open Scope string_scope.

Definition slash : Ascii.ascii := Ascii.ascii_of_nat 47.

(** What [main] has read and found before [migrateTickets]. *)
Record Setup := mkSetup {
  su_options : Options;
  su_comments : option string;
  su_gitpath : option string;
  su_attachments : option string;
  su_attachmentsprefix : option string;
  su_labels : option string;
  su_keywords : option string;
  su_tickets : string;
  su_users : string;
  su_repo : string;
  su_user : string
}.

Section Main.
Context {H : Type} `{!GitHubApi H} `{!GitHubRepos H}.
Variable trac_to_github : string -> option string -> Z -> string.
Variable format_epoch : Z -> option string.
Variable tokenize : string -> list Token.
Variable read_file : string -> option (list Z).
Variable read_config : string -> Config.
Variable TRATIHUBIS_PASSWD : option string.

(** [_convertWikiToMd(txt, currentticket)]: [trac_to_github] of Trac's
    wiki formatter with the global [_gitpath] that [main] sets. *)
Definition convertWikiToMd (gitpath : option string) (txt : string) (currentticket : Z) : string :=
  trac_to_github txt gitpath currentticket.

(** [password = config.get(_SECTION, 'password')], falling back on the
    environment only when the option is missing. *)
Definition read_password (config : Config) : Exc + option string :=
  match config_get config SECTION "password" with
  | inr v => inr (Some v)
  | inl (NoOptionError _ _) => inr TRATIHUBIS_PASSWD
  | inl e => inl e
  end.

(** [_getConfigOption] of a required option, or of one with a default:
    never [None]. *)
Definition option_value (r : option string) : string := default "" r.

(** The repository: [owner/name] splits at the first [/] and looks the
    owner up; a bare name belongs to the user logged in. *)
Definition connect (repoName user : string) : ST (World H) unit :=
  owner_name <-
    match split_once slash repoName with
    | (owner, Some name) => owner' <- getGitHubUser owner ;; sret (owner', name)
    | (_, None) => sret (user, repoName)
    end ;;
  apiPauseIfNeeded false ;;
  w <- sget ;;
  if gh_has_repo (w_hub w) owner_name.1 owner_name.2
  then emit INFO (Connected owner_name.1 owner_name.2)
  else sraise (GithubError ("404 " ++ owner_name.1 ++ "/" ++ owner_name.2)).

(** The part of the [try] block that only reads the configuration and the
    environment, after [_parsedOptions]. *)
Definition read_config_settings (oc : Options * string) : Exc + Setup :=
  let config := read_config oc.2 in
  let? commentsCsvPath := getConfigOption config "comments" false None in
  let? gitpath := getConfigOption config "gitpath" false None in
  let? attachmentsCsvPath := getConfigOption config "attachments" false None in
  let? attachmentsPrefix := getConfigOption config "attachmentsprefix" false None in
  let? labelMapping := getConfigOption config OPTION_LABELS false None in
  let? keywords := getConfigOption config OPTION_KEYWORDS false None in
  let? password := read_password config in
  let? _ :=
    (if negb (truthy (default "" password)) then
       inl (ConfigError "password"
         "config must contain a value for this option (or set the TRATIHUBIS_PASSWD environment variable)")
     else inr tt) in
  let? repoName := getConfigOption config "repo" true None in
  let? ticketsCsvPath := getConfigOption config "tickets" false (Some "tickets.csv") in
  let? user := getConfigOption config "user" true None in
  let? userMapping := getConfigOption config OPTION_USERS false (Some "*:*") in
  inr (mkSetup oc.1 commentsCsvPath gitpath attachmentsCsvPath attachmentsPrefix labelMapping
         keywords (option_value ticketsCsvPath) (option_value userMapping)
         (option_value repoName) (option_value user)).

(** The part of the [try] block that only reads the command line, the
    configuration and the environment. *)
Definition read_settings (argv : list string) : Exc + Setup :=
  let? oc := parsedOptions (tail argv) in read_config_settings oc.

(** The [try] block of [main] up to [migrateTickets]: the command line
    ([_log.setLevel(logging.DEBUG)] for [--verbose]), the settings, then
    [_hub = github.Github(user, password)] and the repository. *)
Definition main_setup (argv : list string) : ST (World H) Setup :=
  oc <- lift_w (parsedOptions (tail argv)) ;;
  swhen (opt_verbose oc.1) (smodify (set_debug true)) ;;
  su <- lift_w (read_config_settings oc) ;;
  swhen (negb (opt_really (su_options su))) (emit WARNING NoActions) ;;
  emit INFO (LogOn (su_user su)) ;;
  emit INFO (ConnectRepo (su_repo su)) ;;
  connect (su_repo su) (su_user su) ;;
  sret su.

(** [migrateTickets(repo, ticketsCsvPath, commentsCsvPath,
    attachmentsCsvPath, userMapping=..., labelMapping=...,
    attachmentsPrefix=..., keywords=..., pretend=not options.really)] *)
Definition run_migration (su : Setup) : ST (World H) unit :=
  migrateTickets (convertWikiToMd (su_gitpath su)) format_epoch
    (su_tickets su) (read_csv read_file (su_tickets su))
    (su_comments su) (from_option (read_csv read_file) ([], None) (su_comments su))
    (su_attachments su) (from_option (read_csv read_file) ([], None) (su_attachments su))
    (su_labels su) (from_option tokenize [] (su_labels su)) (su_users su)
    (su_attachmentsprefix su) (su_keywords su) (negb (opt_really (su_options su))).

Definition main_body (argv : list string) : ST (World H) unit :=
  su <- main_setup argv ;;
  run_migration su.

(** The [except] clauses of [main]: [_log.error(error)] for
    [EnvironmentError], [_ConfigError] and [_CsvDataError],
    [_log.exception(error)] for any other [Exception]. *)
Definition error_logged (e : Exc) : LogMsg :=
  match e with
  | IOError _ | ConfigError _ _ | CsvDataError _ _ _ _ => ErrorLogged e
  | _ => ExceptionLogged e
  end.

(** The [finally] block of [main]: the two totals. *)
Definition log_totals (w : World H) : World H :=
  write_log INFO [TotalIssues (w_total_issues w); TotalCreations (w_total_creations w)] w.

(** How [main] ends after its [try] block: exit code 0 after the
    migration, 1 after any [Exception], which is logged; optparse's
    [SystemExit] is not an [Exception].  The [finally] block runs on
    every path. *)
Definition main_exit (w : World H) (res : Exc + unit) : World H * (Exc + Z) :=
  match res with
  | inr _ => (log_totals w, inr 0%Z)
  | inl (SystemExit code) => (log_totals w, inl (SystemExit code))
  | inl e => (log_totals (write_log ERROR [error_logged e] w), inr 1%Z)
  end.

(** [main(argv)] *)
Definition main (argv : list string) : ST (World H) Z :=
  fun w => let '(w', res) := main_body argv w in main_exit w' res.

(** [_mainEntryPoint()]: [sys.exit(main())].  The status of the process:
    the exit code of [main], or the status of the [SystemExit] it lets
    through; Python ends with status 1 on any other exception. *)
Definition mainEntryPoint (argv : list string) (w : World H) : World H * Z :=
  match main argv w with
  | (w', inr code) => (w', code)
  | (w', inl (SystemExit code)) => (w', code)
  | (w', inl _) => (w', 1%Z)
  end.
End Main.

(** ** What [main] does before the migration *)

Section Setup.
Context {H : Type} `{!GitHubApi H} `{!GitHubLaws H} `{!GitHubRepos H}.
Variable read_config : string -> Config.
Variable TRATIHUBIS_PASSWD : option string.

Lemma quiet_connect repoName user : quiet (connect (H := H) repoName user).
Proof.
  unfold connect. apply quiet_bind; [by destruct (split_once slash repoName) as [o [n|]]; eauto with quiet|].
  intros on. do 2 (apply quiet_bind; eauto with quiet; intros ?).
  case_match; eauto with quiet.
Qed.

Lemma disc_connect (R : World H -> World H -> Prop) `{!Discipline R} repoName user :
  step_rel R (connect (H := H) repoName user).
Proof.
  unfold connect. apply (disc_bind R); [by destruct (split_once slash repoName) as [o [n|]]; eauto with disc|].
  intros on. do 2 (apply (disc_bind R); eauto with disc; intros ?).
  case_match; eauto with disc.
Qed.

Lemma quiet_main_setup argv :
  quiet (main_setup (H := H) read_config TRATIHUBIS_PASSWD argv).
Proof. unfold main_setup. eauto 15 using quiet_connect with quiet. Qed.

Lemma disc_main_setup (R : World H -> World H -> Prop) `{!Discipline R} argv :
  step_rel R (main_setup (H := H) read_config TRATIHUBIS_PASSWD argv).
Proof.
  unfold main_setup. apply (disc_bind R); [apply (disc_lift_w R)|intros oc].
  apply (disc_bind R); [apply (disc_when R), discipline_debug|intros _].
  apply (disc_bind R); [apply (disc_lift_w R)|intros su].
  apply (disc_bind R); [apply (disc_when R), (disc_emit R)|intros _].
  do 2 (apply (disc_bind R); [apply (disc_emit R)|intros _]).
  apply (disc_bind R); [apply (disc_connect R)|intros _]. apply (disc_ret R).
Qed.

Lemma read_password_raises_config config : raises_config (read_password TRATIHUBIS_PASSWD config).
Proof.
  unfold read_password. pose proof (config_get_raises_config config SECTION "password") as Hc.
  intros e. destruct (config_get _ _ _) as [e'|v]; [|by intros [= <-]].
  destruct e'; try (intros [= <-]; done); intros [= <-]; by apply Hc.
Qed.

Lemma read_password_no_exit config : no_exit (read_password TRATIHUBIS_PASSWD config).
Proof. apply raises_config_no_exit, read_password_raises_config. Qed.

(** Reading the configuration raises only the exceptions of the
    configuration, and never exits. *)
Lemma read_config_settings_raises_config oc :
  raises_config (read_config_settings read_config TRATIHUBIS_PASSWD oc).
Proof.
  unfold read_config_settings.
  repeat (apply raises_config_ebind; [first [apply getConfigOption_raises_config
      | apply read_password_raises_config
      | case_match; [by intros e [= <-]|apply raises_config_inr]]|intros ?]).
  apply raises_config_inr.
Qed.

Lemma read_config_settings_no_exit oc :
  no_exit (read_config_settings read_config TRATIHUBIS_PASSWD oc).
Proof. apply raises_config_no_exit, read_config_settings_raises_config. Qed.

Lemma keeps_shape_lift_w {A} (x : Exc + A) : not_sync x -> keeps_shape (H := H) (lift_w x).
Proof. destruct x; [apply keeps_shape_raise|intros; apply keeps_shape_ret]. Qed.

Lemma not_sync_raises_config {A} (x : Exc + A) : raises_config x -> not_sync x.
Proof. intros Hx. destruct x as [e|]; [|done]. specialize (Hx e eq_refl). by destruct e. Qed.

Lemma not_sync_parsedOptions args : not_sync (parsedOptions args).
Proof.
  destruct (parsedOptions args) eqn:E; [|done].
  by destruct (parsedOptions_status _ _ E) as [-> | ->].
Qed.

Lemma keeps_shape_connect repoName user : keeps_shape (connect (H := H) repoName user).
Proof.
  unfold connect.
  apply keeps_shape_bind; [by destruct (split_once slash repoName) as [o [n|]]; eauto with frame|].
  intros on. do 2 (apply keeps_shape_bind; eauto with frame; intros ?).
  case_match; eauto with frame.
Qed.

(** Before the migration, [main] changes no issue and raises no
    [SyncError]. *)
Lemma keeps_shape_main_setup argv :
  keeps_shape (main_setup (H := H) read_config TRATIHUBIS_PASSWD argv).
Proof.
  unfold main_setup.
  apply keeps_shape_bind; [apply keeps_shape_lift_w, not_sync_parsedOptions|intros oc].
  apply keeps_shape_bind; [apply keeps_shape_when; intros w; by split|intros _].
  apply keeps_shape_bind;
    [apply keeps_shape_lift_w, not_sync_raises_config, read_config_settings_raises_config|intros su].
  eauto 10 using keeps_shape_connect with frame.
Qed.

(** The settings [main] runs the migration with are those read. *)
Lemma main_setup_ok argv (w w' : World H) su :
  main_setup read_config TRATIHUBIS_PASSWD argv w = (w', inr su) ->
  read_settings read_config TRATIHUBIS_PASSWD argv = inr su.
Proof.
  intros E. assert (Hok : snd (main_setup read_config TRATIHUBIS_PASSWD argv w) = inr su)
    by (by rewrite E). clear E. revert Hok.
  unfold main_setup, read_settings.
  destruct (parsedOptions (tail argv)) as [e|oc]; [done|]. cbn [ebind lift_w]. rewrite sbind_sret.
  intros Hok. destruct (sbind_inr _ _ _ _ Hok) as (w1 & [] & _ & R1). rewrite R1 in Hok.
  destruct (read_config_settings read_config TRATIHUBIS_PASSWD oc) as [e|su']; [done|].
  cbn [lift_w] in Hok. rewrite sbind_sret in Hok.
  do 4 (destruct (sbind_inr _ _ _ _ Hok) as (? & [] & _ & R); rewrite R in Hok; clear R).
  by injection Hok as ->.
Qed.

(** The process state after [_parsedOptions]: [_log.setLevel(logging.DEBUG)]
    for [--verbose]. *)
Definition after_parse (argv : list string) (w : World H) : World H :=
  match parsedOptions (tail argv) with
  | inr oc => if opt_verbose oc.1 then set_debug true w else w
  | inl _ => w
  end.

(** When the settings cannot be read, [main_setup] raises before any
    request and any log record: only the level of the log may change. *)
Lemma main_setup_fails argv (w : World H) e :
  read_settings read_config TRATIHUBIS_PASSWD argv = inl e ->
  main_setup read_config TRATIHUBIS_PASSWD argv w = (after_parse argv w, inl e).
Proof.
  unfold main_setup, read_settings, after_parse.
  destruct (parsedOptions (tail argv)) as [e'|oc]; cbn [ebind]; [by intros [= ->]|intros E].
  cbn [lift_w]. rewrite sbind_sret. by destruct (opt_verbose oc.1); cbn [swhen]; rewrite ?sbind_smodify, ?sbind_sret, E.
Qed.

Lemma read_settings_really argv su :
  read_settings read_config TRATIHUBIS_PASSWD argv = inr su ->
  opt_really (su_options su) = requests_really (tail argv).
Proof.
  unfold read_settings, read_config_settings. intros Hs. ebind_inv Hs. injection Hs as <-. simpl.
  destruct a as [o p]. by apply (parsedOptions_really _ _ p).
Qed.
End Setup.

(** ** [main] *)

Section MainTheorems.
Context {H : Type} `{!GitHubApi H} `{!GitHubLaws H} `{!GitHubRepos H}.
Variable trac_to_github : string -> option string -> Z -> string.
Variable format_epoch : Z -> option string.
Variable tokenize : string -> list Token.
Variable read_file : string -> option (list Z).
Variable read_config : string -> Config.
Variable TRATIHUBIS_PASSWD : option string.

Lemma main_run argv (w : World H) :
  main trac_to_github format_epoch tokenize read_file read_config TRATIHUBIS_PASSWD argv w =
  main_exit (fst (main_body trac_to_github format_epoch tokenize read_file read_config
                    TRATIHUBIS_PASSWD argv w))
            (snd (main_body trac_to_github format_epoch tokenize read_file read_config
                    TRATIHUBIS_PASSWD argv w)).
Proof. unfold main. by destruct (main_body _ _ _ _ _ _ argv w). Qed.

(** The [except] and [finally] blocks only write the log. *)
Lemma main_exit_hub (w : World H) res : w_hub (fst (main_exit w res)) = w_hub w.
Proof. by destruct res as [[]|]. Qed.

Lemma disc_main_exit (R : World H -> World H -> Prop) `{!Discipline R} (w : World H) res :
  R w (fst (main_exit w res)).
Proof.
  destruct res as [[]|]; cbn [main_exit fst]; unfold log_totals; try apply (disc_write_log R).
  all: etrans; [apply (disc_write_log R ERROR)|apply (disc_write_log R)].
Qed.

(** The [finally] block writes the totals last, whatever the level. *)
Lemma main_exit_logs_totals (w : World H) res :
  exists pre : list LogRecord, w_log (fst (main_exit w res)) =
    (pre ++ [mkLogRecord INFO (TotalIssues (w_total_issues (fst (main_exit w res))));
            mkLogRecord INFO (TotalCreations (w_total_creations (fst (main_exit w res))))])%list.
Proof.
  assert (Ht : forall w0 : World H, w_log (log_totals w0) = (w_log w0 ++
    [mkLogRecord INFO (TotalIssues (w_total_issues (log_totals w0)));
     mkLogRecord INFO (TotalCreations (w_total_creations (log_totals w0)))])%list)
    by (intros w0; unfold log_totals, write_log; by destruct (w_debug w0)).
  destruct res as [[]|]; eexists; apply Ht.
Qed.

(** Settings that cannot be read end the [try] block of [main] before
    any request. *)
Lemma main_bad_settings argv (w : World H) e :
  read_settings read_config TRATIHUBIS_PASSWD argv = inl e ->
  main trac_to_github format_epoch tokenize read_file read_config TRATIHUBIS_PASSWD argv w =
    main_exit (after_parse argv w) (inl e).
Proof.
  intros E. unfold main, main_body. by rewrite (sbind_err _ _ _ _ _ (main_setup_fails _ _ _ _ _ E)).
Qed.

(** Once the command line parses, reading the settings never exits. *)
Lemma read_settings_no_exit argv o p :
  parsedOptions (tail argv) = inr (o, p) ->
  no_exit (read_settings read_config TRATIHUBIS_PASSWD argv).
Proof. intros Hp. unfold read_settings. rewrite Hp. apply (read_config_settings_no_exit read_config TRATIHUBIS_PASSWD). Qed.
Lemma disc_run_migration (R : World H -> World H -> Prop) `{!Discipline R} su :
  step_rel R (run_migration (H := H) trac_to_github format_epoch tokenize read_file su).
Proof. apply (disc_migrateTickets R). Qed.

(** [main] keeps every discipline, whatever its outcome. *)
Lemma disc_main (R : World H -> World H -> Prop) `{!Discipline R} argv (w : World H) :
  R w (fst (main trac_to_github format_epoch tokenize read_file read_config TRATIHUBIS_PASSWD argv w)).
Proof.
  rewrite main_run. etrans; [|apply (disc_main_exit R)]. unfold main_body.
  apply (disc_bind R); [apply (disc_main_setup read_config TRATIHUBIS_PASSWD R)|].
  intros su. apply (disc_run_migration R).
Qed.

(** The worlds [main] goes through: [main_setup] only reads, then the
    migration with [pretend = not options.really]. *)
Lemma main_world argv (w : World H) :
  reads_only w (fst (main trac_to_github format_epoch tokenize read_file read_config
                       TRATIHUBIS_PASSWD argv w)) \/
  exists su w1, reads_only w w1 /\
    read_settings read_config TRATIHUBIS_PASSWD argv = inr su /\
    w_hub (fst (main trac_to_github format_epoch tokenize read_file read_config TRATIHUBIS_PASSWD argv w)) =
      w_hub (fst (run_migration trac_to_github format_epoch tokenize read_file su w1)).
Proof.
  assert (Hh : forall w0 : World H, reads_only w w0 <->
    reads_only w (fst (main_exit w0 (snd (main_body trac_to_github format_epoch tokenize read_file
                                          read_config TRATIHUBIS_PASSWD argv w)))))
    by (intros w0; unfold reads_only; by rewrite main_exit_hub).
  rewrite main_run, <- Hh, main_exit_hub. unfold main_body.
  pose proof (quiet_main_setup read_config TRATIHUBIS_PASSWD argv w) as Hq.
  destruct (main_setup read_config TRATIHUBIS_PASSWD argv w) as [w1 [e|su]] eqn:E; simpl in *.
  - left. by rewrite (sbind_err _ _ _ _ _ E).
  - right. exists su, w1. split_and!; [done|by eapply main_setup_ok|].
    by rewrite (sbind_ok _ _ _ _ _ E).
Qed.

(** C1: numbering alignment of the program.  From a repository whose
    issues are numbered [1 .. n], each listed under its own number in
    state [open] or [closed], the check [issue.number != ticketId] of
    [migrateTickets] never fails: the [try] block of [main] never raises
    its exception, whatever the command line, the configuration and the
    tables; and [main] leaves the repository numbered [1 .. m] with every
    issue under its own number, however it ends. *)
Theorem main_aligned argv (w : World H) :
  contiguous (gh_issues (w_hub w)) -> keyed (gh_issues (w_hub w)) ->
  states_listed (gh_issues (w_hub w)) ->
  not_sync (snd (main_body trac_to_github format_epoch tokenize read_file read_config
                   TRATIHUBIS_PASSWD argv w)) /\
  let w' := fst (main trac_to_github format_epoch tokenize read_file read_config
                   TRATIHUBIS_PASSWD argv w) in
  contiguous (gh_issues (w_hub w')) /\ keyed (gh_issues (w_hub w')).
Proof.
  intros Hc Hk Hs. cbv zeta. rewrite main_run, main_exit_hub. unfold main_body.
  pose proof (quiet_main_setup read_config TRATIHUBIS_PASSWD argv w) as Hq.
  pose proof (keeps_shape_main_setup read_config TRATIHUBIS_PASSWD argv w) as [_ Hns].
  destruct (main_setup read_config TRATIHUBIS_PASSWD argv w) as [w1 [e|su]] eqn:E;
    simpl in Hq, Hns; destruct Hq as (Hi & _ & _).
  { rewrite (sbind_err _ _ _ _ _ E). simpl. by rewrite Hi. }
  rewrite (sbind_ok _ _ _ _ _ E). rewrite <- Hi in Hc, Hk, Hs. unfold run_migration.
  destruct (migrateTickets_aligned (convertWikiToMd trac_to_github (su_gitpath su)) format_epoch
    (su_tickets su) (read_csv read_file (su_tickets su)) (su_comments su)
    (from_option (read_csv read_file) ([], None) (su_comments su)) (su_attachments su)
    (from_option (read_csv read_file) ([], None) (su_attachments su)) (su_labels su)
    (from_option tokenize [] (su_labels su)) (su_users su) (su_attachmentsprefix su)
    (su_keywords su) (negb (opt_really (su_options su))) w1 Hc Hk Hs) as [Hns' Hok];
    [eauto with reader..|].
  split; [exact Hns'|].
  destruct (opt_really (su_options su)); [by apply Hok|].
  by rewrite (proj1 (migrateTickets_dry_run _ _ _ _ _ _ _ _ _ _ _ _ _ w1)).
Qed.

(** C2: the creation quotas hold over a run of the program.  From a
    state whose deques account for the creations GitHub logged in the
    current windows ([rl_inv]; a fresh process on a repository with no
    recent creations is one), no 62-second window of GitHub's log after
    [main] holds more than [ALLOWED_PER_MIN] creations and no 3660-second
    window more than [ALLOWED_PER_HR]. *)
Theorem main_within_rate_limits argv (w : World H) :
  rl_inv w ->
  let w' := fst (main trac_to_github format_epoch tokenize read_file read_config
                   TRATIHUBIS_PASSWD argv w) in
  window_respected MIN_PERIOD ALLOWED_PER_MIN (gh_log (w_hub w')) /\
  window_respected HR_PERIOD ALLOWED_PER_HR (gh_log (w_hub w')).
Proof.
  intros Hw w'. subst w'.
  by destruct (disc_main rl_keeps argv w Hw) as (_ & _ & _ & _ & ? & ?).
Qed.

(** C3: the program is a dry run unless asked for a real one.  When no
    argument before [--] is an abbreviation of [--really] or a cluster of
    short options holding [R], [main] leaves GitHub's issues and its log
    of mutating requests unchanged, whatever the configuration and the
    tables. *)
Theorem main_dry_run_unless_really argv (w : World H) :
  requests_really (tail argv) = false ->
  let w' := fst (main trac_to_github format_epoch tokenize read_file read_config
                   TRATIHUBIS_PASSWD argv w) in
  gh_issues (w_hub w') = gh_issues (w_hub w) /\ gh_log (w_hub w') = gh_log (w_hub w).
Proof.
  intros Hr w'. subst w'.
  destruct (main_world argv w) as [(Hi & Hl & _)|(su & w1 & (Hi & Hl & _) & Hs & ->)];
    [done|].
  unfold run_migration. rewrite (read_settings_really _ _ _ _ Hs), Hr. simpl.
  rewrite (proj1 (migrateTickets_dry_run _ _ _ _ _ _ _ _ _ _ _ _ _ w1)).
  by rewrite (proj2 (migrateTickets_dry_run _ _ _ _ _ _ _ _ _ _ _ _ _ w1)).
Qed.

(** C5: settings that cannot be used stop the program before it sends
    any request or moves the clock: only the log changes.  A command line
    that does not parse (or asks for [--help] or [--version]) raises
    optparse's [SystemExit] and [main] logs nothing but the totals of its
    [finally] block; a configuration without the section [tratihubis],
    without a password (in the file or in [TRATIHUBIS_PASSWD]), or
    without [repo] or [user] ends [main] with exit code 1, after logging
    the error and the totals (at the level [--verbose] set). *)
Theorem main_stops_on_bad_settings argv (w : World H) :
  (forall e, parsedOptions (tail argv) = inl e ->
   main trac_to_github format_epoch tokenize read_file read_config TRATIHUBIS_PASSWD argv w =
     (log_totals w, inl e)) /\
  (forall o p, parsedOptions (tail argv) = inr (o, p) ->
   (cfg_sections (read_config p) !! SECTION = None \/
    (exists pw, read_password TRATIHUBIS_PASSWD (read_config p) = inr pw /\
                truthy (default "" pw) = false) \/
    (exists e, getConfigOption (read_config p) "repo" true None = inl e) \/
    (exists e, getConfigOption (read_config p) "user" true None = inl e)) ->
   exists e,
   main trac_to_github format_epoch tokenize read_file read_config TRATIHUBIS_PASSWD argv w =
     (log_totals (write_log ERROR [error_logged e] (if opt_verbose o then set_debug true w else w)),
      inr 1%Z)).
Proof.
  split.
  - intros e He. rewrite (main_bad_settings argv w e); [|unfold read_settings; by rewrite He].
    unfold after_parse. rewrite He. pose proof (parsedOptions_exit _ _ He) as Hx.
    by destruct e.
  - intros o p Hp Hbad.
    destruct (read_settings read_config TRATIHUBIS_PASSWD argv) as [e|su] eqn:E.
    + exists e. rewrite (main_bad_settings argv w e E). unfold after_parse. rewrite Hp.
      pose proof (read_settings_no_exit _ _ _ Hp e E) as Hx. by destruct e.
    + exfalso. revert E. unfold read_settings, read_config_settings. rewrite Hp. cbn [ebind].
      intros E. ebind_inv E. simpl in *.
      destruct Hbad as [Hs|[(pw & Hpw & Ht)|[(e & He)|(e & He)]]]; try congruence.
      * rewrite getConfigOption_no_section in Ha; congruence.
      * rewrite Hpw in Ha5. injection Ha5 as <-. by rewrite Ht in Ha6.
Qed.
End MainTheorems.

(** ** Examples *)

Import HubModel.

Section Examples.
Local Open Scope string_scope.

(** The file [tratihubis.cfg]: the repository [me/project] of the user
    [me]; the tickets and comments tables of Main.v. *)
Definition example_cfg : Config :=
  mkConfig ∅ {[ SECTION := {[ "repo" := "me/project"; "user" := "me"; "password" := "secret";
                              "comments" := "comments.csv"; "keywords" := "bug" ]} ]}.

Definition example_read_config (path : string) : Config :=
  if String.eqb path "tratihubis.cfg" then example_cfg else mkConfig ∅ ∅.

(** A file as [csv.writer] writes fields without quotes, one record a line. *)
Definition csv_file (rows : list (list string)) : list Z :=
  bytes_of_string (foldr (fun row acc => join_on (Ascii.ascii_of_nat 44) row ++ nl ++ acc) "" rows).

(** The two tables as files; no other file exists. *)
Definition example_read_file (path : string) : option (list Z) :=
  if String.eqb path "tickets.csv" then Some (csv_file example_tickets)
  else if String.eqb path "comments.csv" then Some (csv_file example_comments) else None.

Definition example_main (argv : list string) : World Hub * (Exc + Z) :=
  main (fun s _ _ => s) (fun _ => Some "") (fun _ => []) example_read_file example_read_config None
    argv example_world.

(** With [--really], the run ends with exit code 0 and the issues 1, 2
    (a placeholder) and 3 on GitHub. *)
Example example_main_really :
  snd (example_main ["tratihubis"; "--really"; "tratihubis.cfg"]) = inr 0%Z /\
  fmap title (gh_issues (w_hub (fst (example_main ["tratihubis"; "--really"; "tratihubis.cfg"])))) =
    {[ 1%Z := "First"; 2%Z := "placeholder"; 3%Z := "Third" ]}.
Proof. split; vm_compute; reflexivity. Qed.

(** The status of the process: 0 after a run, 2 after an unknown option,
    0 after [--help]. *)
Example example_mainEntryPoint :
  snd (mainEntryPoint (fun s _ _ => s) (fun _ => Some "") (fun _ => []) example_read_file example_read_config
         None ["tratihubis"; "--really"; "tratihubis.cfg"] example_world) = 0%Z /\
  snd (mainEntryPoint (fun s _ _ => s) (fun _ => Some "") (fun _ => []) example_read_file example_read_config
         None ["tratihubis"; "--bogus"; "tratihubis.cfg"] example_world) = 2%Z /\
  snd (mainEntryPoint (fun s _ _ => s) (fun _ => Some "") (fun _ => []) example_read_file example_read_config
         None ["tratihubis"; "--help"] example_world) = 0%Z.
Proof. split_and!; vm_compute; reflexivity. Qed.

(** Without it, the same run sends nothing. *)
Example example_main_dry :
  snd (example_main ["tratihubis"; "tratihubis.cfg"]) = inr 0%Z /\
  gh_log (w_hub (fst (example_main ["tratihubis"; "tratihubis.cfg"]))) = [].
Proof. split; vm_compute; reflexivity. Qed.
End Examples.

Lemma main_aligned_witness :
  not_sync (snd (main_body (fun s _ _ => s) (fun _ => Some "") (fun _ => []) example_read_file
                   example_read_config None ["tratihubis"; "--really"; "tratihubis.cfg"]
                   example_world)) /\
  let w' := fst (example_main ["tratihubis"; "--really"; "tratihubis.cfg"]) in
  contiguous (gh_issues (w_hub w')) /\ keyed (gh_issues (w_hub w')).
Proof.
  apply main_aligned; simpl;
    [apply contiguous_empty|intros k i Hk; by rewrite lookup_empty in Hk|apply map_Forall_empty].
Defined.

Lemma main_within_rate_limits_witness :
  let w' := fst (example_main ["tratihubis"; "--really"; "tratihubis.cfg"]) in
  window_respected MIN_PERIOD ALLOWED_PER_MIN (gh_log (w_hub w')) /\
  window_respected HR_PERIOD ALLOWED_PER_HR (gh_log (w_hub w')).
Proof. apply main_within_rate_limits, example_world_rl_inv. Defined.

Lemma main_dry_run_unless_really_witness :
  let w' := fst (example_main ["tratihubis"; "-v"; "tratihubis.cfg"; "--"; "-R"]) in
  gh_issues (w_hub w') = gh_issues (w_hub example_world) /\
  gh_log (w_hub w') = gh_log (w_hub example_world).
Proof. apply main_dry_run_unless_really. reflexivity. Defined.

(** A configuration file that does not exist reads as empty: no section. *)
Lemma main_stops_on_bad_settings_witness :
  exists e, example_main ["tratihubis"; "missing.cfg"] =
    (log_totals (write_log ERROR [error_logged e] example_world), inr 1%Z).
Proof.
  apply (proj2 (main_stops_on_bad_settings _ _ _ _ _ _ _ _) no_options "missing.cfg");
    [reflexivity|left; reflexivity].
Defined.
