(* ===== verification/Totals.v ===== *)
(** Totals.v: the counters [_totalCreations] and [_totalIssues] that
    [main] reports in its [finally] block (tratihubis.py lines 999-1001).

    [_apiCreationIncrement] adds one to [_totalCreations] after each
    creation request (issue, milestone, comment) and [migrateTickets] adds
    one to [_totalIssues] after each [repo.create_issue].  The relation
    [tallied w w'] says that what GitHub logged between [w] and [w'] is
    exactly what the counters added: as many creations, as many issues.
    It is a [Discipline] (Discipline.v), so every run of [main] keeps it:
    the totals logged at the end are those of the requests GitHub
    received, however the run ends. *)

From S2P Require Import Prelude PyStr Config GitHub Log Pacing Users Labels Ingest Migrate Frame Alignment Main Discipline DryRun RateLimit Entry.

Local Open Scope Z_scope.

Definition is_issue_call (c : Call) : bool :=
  match c with CreateIssue _ _ _ _ _ => true | _ => false end.

(** The creations and the issue creations of a stretch of GitHub's log. *)
Definition count_creations (log : list (Z * Call)) : Z :=
  Z.of_nat (length (List.filter (fun e => is_creation e.2) log)).

Definition count_issue_calls (log : list (Z * Call)) : Z :=
  Z.of_nat (length (List.filter (fun e => is_issue_call e.2) log)).

Lemma count_creations_app a b : count_creations (a ++ b) = count_creations a + count_creations b.
Proof. unfold count_creations. rewrite List.filter_app, length_app. lia. Qed.

Lemma count_issue_calls_app a b :
  count_issue_calls (a ++ b) = count_issue_calls a + count_issue_calls b.
Proof. unfold count_issue_calls. rewrite List.filter_app, length_app. lia. Qed.

#[export] Hint Rewrite count_creations_app count_issue_calls_app : trac_rw.

Section Tally.
Context {H : Type} `{!GitHubApi H} `{!GitHubLaws H}.
Implicit Types w : World H.

(** Between [w] and [w'] GitHub logged [added], and the counters grew by
    its creations and its issue creations. *)
Definition tallied w w' : Prop :=
  exists added, gh_log (w_hub w') = gh_log (w_hub w) ++ added /\
    w_total_creations w' - w_total_creations w = count_creations added /\
    w_total_issues w' - w_total_issues w = count_issue_calls added.

#[export] Instance tallied_refl : Reflexive tallied.
Proof. intros w. exists []. rewrite app_nil_r. split_and!; [done|..]; unfold count_creations, count_issue_calls; simpl; lia. Qed.

#[export] Instance tallied_trans : Transitive tallied.
Proof.
  intros w1 w2 w3 (a & Hl & Hc & Hi) (b & Hl' & Hc' & Hi'). exists (a ++ b).
  rewrite Hl', Hl, app_assoc, count_creations_app, count_issue_calls_app. split_and!; [done|lia|lia].
Qed.

(** A step that changes neither the log nor the counters. *)
Lemma tallied_same w w' :
  gh_log (w_hub w') = gh_log (w_hub w) -> w_total_creations w' = w_total_creations w ->
  w_total_issues w' = w_total_issues w -> tallied w w'.
Proof. intros Hl Hc Hi. exists []. rewrite app_nil_r, Hc, Hi. split_and!; [done|..]; unfold count_creations, count_issue_calls; simpl; lia. Qed.

Lemma pause_tallied b w :
  apiPauseIfNeeded b w = (fst (apiPauseIfNeeded b w), inr tt) /\ tallied w (fst (apiPauseIfNeeded b w)).
Proof.
  destruct (apiPauseIfNeeded_frame (fun h => gh_log h = gh_log (w_hub w)) b w)
    as (Hr & Hl & _ & Hc & Hi); [intros t h0 Hh; by rewrite get_rate_limit_log|done|].
  split; [by destruct (apiPauseIfNeeded b w) as [? ?]; simpl in *; subst|].
  by apply tallied_same.
Qed.

(** [_apiPauseIfNeeded(True)], one request that GitHub logs as [c], and
    the counters it adds. *)
Lemma tallied_block w c w3 :
  gh_log (w_hub w3) = gh_log (w_hub w) ++ [(w_now w, c)] ->
  w_total_creations w3 = w_total_creations w + (if is_creation c then 1 else 0) ->
  w_total_issues w3 = w_total_issues w + (if is_issue_call c then 1 else 0) ->
  tallied w w3.
Proof.
  intros Hl Hc Hi. exists [(w_now w, c)]. rewrite Hl, Hc, Hi.
  unfold count_creations, count_issue_calls. simpl.
  destruct (is_creation c), (is_issue_call c); simpl; split_and!; auto; lia.
Qed.
(** What follows the pause of a creation block: the request, then
    [_apiCreationIncrement()] and, after an issue, [_totalIssues += 1]. *)
Lemma tally_after_pause {A} (blk : ST (World H) A) w :
  (forall w1, exists c, gh_log (w_hub (fst (blk w1))) = gh_log (w_hub w1) ++ [(w_now w1, c)] /\
     w_total_creations (fst (blk w1)) = w_total_creations w1 + (if is_creation c then 1 else 0) /\
     w_total_issues (fst (blk w1)) = w_total_issues w1 + (if is_issue_call c then 1 else 0)) ->
  tallied w (fst ((apiPauseIfNeeded true ;; blk) w)).
Proof.
  intros Hb. destruct (pause_tallied true w) as [E1 H1].
  rewrite (sbind_ok _ _ _ _ _ E1). etransitivity; [exact H1|].
  destruct (Hb (fst (apiPauseIfNeeded true w))) as (c & Hl & Hc & Hi).
  by apply (tallied_block _ c).
Qed.

#[export] Instance tally_discipline : Discipline tallied.
Proof.
  split; [apply tallied_refl|apply tallied_trans|..].
  - intros b w. apply (pause_tallied b w).
  - intros f. apply step_rel_modify. intros w. by apply tallied_same.
  - intros t b a m l w. apply tally_after_pause. intros w1. exists (CreateIssue t b a m l).
    unfold create_issue_w, apiCreationIncrement, count_issue, sbind, smodify, sret.
    pose proof (create_issue_log (w_now w1) (w_hub w1) t b a m l) as Hl.
    destruct (gh_create_issue _ _ _ _ _ _ _). simpl in *. split_and!; [done|lia|lia].
  - intros t w. apply tally_after_pause. intros w1. exists (CreateMilestone t).
    unfold create_milestone_w, apiCreationIncrement, sbind, smodify, sret.
    pose proof (create_milestone_log (w_now w1) (w_hub w1) t) as Hl.
    destruct (gh_create_milestone _ _ _). simpl in *. split_and!; [done|lia|lia].
  - intros i t w. apply tally_after_pause. intros w1. exists (CreateComment (number i) t).
    unfold create_comment_w, apiCreationIncrement, sbind, smodify. simpl.
    rewrite create_comment_log. split_and!; [done|lia|lia].
  - intros n w. destruct (pause_tallied false w) as [E1 H1].
    rewrite (sbind_ok _ _ _ _ _ E1). etransitivity; [exact H1|].
    apply (tallied_block _ (EditState n "closed")); simpl; [by rewrite edit_state_log|lia|lia].
  - intros lvl msgs. apply step_rel_modify. intros w. by apply tallied_same.
  - intros b. apply step_rel_modify. intros w. by apply tallied_same.
Qed.
End Tally.

Section Report.
Context {H : Type} `{!GitHubApi H} `{!GitHubLaws H} `{!GitHubRepos H}.
Variable trac_to_github : string -> option string -> Z -> string.
Variable format_epoch : Z -> option string.
Variable tokenize : string -> list Token.
Variable read_file : string -> option (list Z).
Variable read_config : string -> Config.
Variable TRATIHUBIS_PASSWD : option string.

(** C10: the totals [main] reports are true.  Whatever the command line,
    the configuration and the tables, and however [main] ends (normally,
    by an [Exception] or by optparse's [SystemExit]), its log ends with
    the two lines of its [finally] block, which give [_totalIssues] and
    [_totalCreations]; and GitHub's log grows by a stretch of requests of
    which exactly as many are creations as [_totalCreations] grew by, and
    exactly as many are [create_issue] as [_totalIssues] grew by. *)
Theorem main_reports_totals argv (w : World H) :
  let w' := fst (main trac_to_github format_epoch tokenize read_file read_config
                   TRATIHUBIS_PASSWD argv w) in
  (exists pre : list LogRecord, w_log w' = (pre ++ [mkLogRecord INFO (TotalIssues (w_total_issues w'));
                                  mkLogRecord INFO (TotalCreations (w_total_creations w'))])%list) /\
  exists added, gh_log (w_hub w') = gh_log (w_hub w) ++ added /\
    w_total_creations w' - w_total_creations w = count_creations added /\
    w_total_issues w' - w_total_issues w = count_issue_calls added.
Proof.
  split; [rewrite main_run; apply main_exit_logs_totals|].
  exact (disc_main trac_to_github format_epoch tokenize read_file read_config TRATIHUBIS_PASSWD
           tallied argv w).
Qed.
End Report.

Import HubModel.

(** The run of Entry.v creates the issues 1, 2 and 3 and one comment:
    four creations, three of them issues. *)
Example example_main_totals :
  let w' := fst (example_main ["tratihubis"; "-R"; "tratihubis.cfg"]) in
  (w_total_creations w', w_total_issues w', count_creations (gh_log (w_hub w'))) = (4, 3, 4).
Proof. vm_compute. reflexivity. Qed.

Lemma main_reports_totals_witness :
  let w' := fst (example_main ["tratihubis"; "-R"; "tratihubis.cfg"]) in
  (exists pre : list LogRecord, w_log w' = (pre ++ [mkLogRecord INFO (TotalIssues (w_total_issues w'));
                                  mkLogRecord INFO (TotalCreations (w_total_creations w'))])%list) /\
  exists added, gh_log (w_hub w') = gh_log (w_hub example_world) ++ added /\
    w_total_creations w' - w_total_creations example_world = count_creations added /\
    w_total_issues w' - w_total_issues example_world = count_issue_calls added.
Proof. apply main_reports_totals. Defined.
