(* ===== verification/ExitStatus.v ===== *)
(** ExitStatus.v: the status the process ends with ([_mainEntryPoint],
    tratihubis.py lines 1005-1010).

    [sys.exit(main())] ends the process with the exit code [main] returns,
    or with the status of the [SystemExit] that the [except Exception] of
    [main] lets through.  Only optparse raises [SystemExit]: [never_exits m]
    says that a step [m], on any state, raises at most an [Exception], and
    this file proves it of every step of the connection and of
    [migrateTickets], with the hint database [exits]; the pure conversions
    of the tables and of the label options are shown to return at most an
    [Exception] ([no_exit] of Prelude.v).  The status of the process is
    therefore 2 for a command line optparse rejects, 0 for [--help],
    [--version] and a migration that ran to its end, and 1 for every other
    failure. *)

From S2P Require Import Prelude PyStr Config GitHub Log Pacing Users Labels Ingest Tables Migrate Main Entry.

Local Open Scope Z_scope.

Create HintDb exits discriminated.

(** ** Steps that raise at most an [Exception] *)

Section Steps.
Context {S : Type}.

Definition never_exits {A} (m : ST S A) : Prop := forall s, no_exit (snd (m s)).

Lemma never_exits_ret {A} (a : A) : never_exits (sret a).
Proof. intros s. apply no_exit_inr. Qed.

Lemma never_exits_raise {A} e : is_exit e = false -> never_exits (@sraise S A e).
Proof. by intros He s e' [= <-]. Qed.

Lemma never_exits_get : never_exits (@sget S).
Proof. intros s. apply no_exit_inr. Qed.

Lemma never_exits_modify f : never_exits (@smodify S f).
Proof. intros s. apply no_exit_inr. Qed.

Lemma never_exits_bind {A B} (m : ST S A) (k : A -> ST S B) :
  never_exits m -> (forall a, never_exits (k a)) -> never_exits (sbind m k).
Proof.
  intros Hm Hk s. unfold sbind. specialize (Hm s).
  destruct (m s) as [s' [e|a]]; simpl in *; [intros e' [= <-]; by apply Hm|apply Hk].
Qed.

Lemma never_exits_when b (m : ST S unit) : never_exits m -> never_exits (swhen b m).
Proof. destruct b; [done|intros _; apply never_exits_ret]. Qed.

Lemma never_exits_sfor {A} (l : list A) body :
  (forall x, never_exits (body x)) -> never_exits (sfor l body).
Proof.
  intros Hb. induction l as [|x l IH]; simpl; [apply never_exits_ret|by apply never_exits_bind].
Qed.

Lemma never_exits_of_option {A} e (o : option A) :
  is_exit e = false -> never_exits (of_option e o).
Proof. destruct o; [intros _; apply never_exits_ret|apply never_exits_raise]. Qed.

(** A pure result raised in the monad, as [lift] and [lift_w] do. *)
Lemma never_exits_sum {A} (x : Exc + A) :
  no_exit x -> never_exits (match x with inl e => sraise e | inr a => sret a end).
Proof. intros Hx. destruct x as [e|a]; [by apply never_exits_raise, Hx|apply never_exits_ret]. Qed.
End Steps.

Lemma never_exits_zoom {S T A} (getf : T -> S) (setf : S -> T -> T) (m : ST S A) :
  never_exits m -> never_exits (zoom getf setf m).
Proof. intros Hm t. unfold zoom. specialize (Hm (getf t)). by destruct (m (getf t)). Qed.

#[export] Hint Resolve never_exits_ret never_exits_get never_exits_modify never_exits_bind
  never_exits_when never_exits_sfor never_exits_zoom never_exits_sum never_exits_raise
  never_exits_of_option : exits.
#[export] Hint Extern 1 (never_exits (sraise _)) => (apply never_exits_raise; reflexivity) : exits.
#[export] Hint Extern 1 (never_exits (of_option _ _)) =>
  (apply never_exits_of_option; reflexivity) : exits.

(** The cases of a pure result, each sub-result's [no_exit] in the context. *)
Ltac no_exit_cases :=
  let e := fresh "e" in
  intros e; repeat case_match; intros ?; simplify_eq; eauto.

(** ** The pure conversions *)

Lemma no_exit_long s : no_exit (long s).
Proof. unfold long. no_exit_cases. Qed.

Lemma no_exit_timeFormatter fmt s : no_exit (timeFormatter fmt s).
Proof. unfold timeFormatter. pose proof (no_exit_long s). no_exit_cases. Qed.

Lemma no_exit_ticket_of_row wiki fmt row id : no_exit (ticket_of_row wiki fmt row id).
Proof.
  unfold ticket_of_row.
  pose proof (no_exit_timeFormatter fmt (field row 9)).
  pose proof (no_exit_timeFormatter fmt (field row 10)). no_exit_cases.
Qed.

Lemma no_exit_table_row {A} path columns (of_row : list string -> Exc + (Z * A)) acc i row :
  (forall row, no_exit (of_row row)) -> no_exit (table_row path columns of_row acc i row).
Proof. intros Hr. unfold table_row. pose proof (Hr row). destruct acc. no_exit_cases. Qed.

Lemma no_exit_fold_rows {St} (step : St -> nat -> list string -> Exc + St) acc i rows :
  (forall acc i row, no_exit (step acc i row)) -> no_exit (fold_rows step acc i rows).
Proof.
  intros Hs. revert acc i. induction rows as [|row rows IH]; intros acc i; simpl; [apply no_exit_inr|].
  pose proof (Hs acc i row). destruct (step acc i row) eqn:E; [no_exit_cases|apply IH].
Qed.

Lemma no_exit_comment_of_row fmt row : no_exit (comment_of_row fmt row).
Proof.
  unfold comment_of_row. pose proof (no_exit_long (field row 0)).
  pose proof (no_exit_timeFormatter fmt (field row 1)). no_exit_cases.
Qed.

Lemma no_exit_attachment_of_row fmt prefix row : no_exit (attachment_of_row fmt prefix row).
Proof.
  unfold attachment_of_row. pose proof (no_exit_long (field row 0)).
  pose proof (no_exit_timeFormatter fmt (field row 2)). no_exit_cases.
Qed.

(** The exceptions of a reader are [Exception]s. *)
Lemma no_exit_table_end {A} (t : Table) (x : A) : table_ok t = true -> no_exit (table_end t.2 x).
Proof. unfold table_ok. destruct t as [? [[]|]]; simpl; try done; intros _;
  first [apply no_exit_inr|by intros ? [= <-]]. Qed.

Lemma no_exit_read_rows {St} (step : St -> nat -> list string -> Exc + St) acc t :
  (forall acc i row, no_exit (step acc i row)) -> table_ok t = true -> no_exit (read_rows step acc t).
Proof.
  intros Hs Ht. unfold read_rows. apply no_exit_ebind; [by apply no_exit_fold_rows|].
  intros. by apply no_exit_table_end.
Qed.

Lemma no_exit_comments fmt path t :
  table_ok t = true -> no_exit (createTicketToCommentsMap fmt path t).
Proof.
  intros Ht. unfold createTicketToCommentsMap. destruct path as [p|]; [|apply no_exit_inr].
  pose proof (no_exit_read_rows (comment_row fmt p) (false, ∅) t
                (fun acc i row => no_exit_table_row _ _ _ acc i row (no_exit_comment_of_row fmt)) Ht).
  no_exit_cases.
Qed.

Lemma no_exit_attachments fmt path prefix t :
  table_ok t = true -> no_exit (createTicketsToAttachmentsMap fmt path prefix t).
Proof.
  intros Ht. unfold createTicketsToAttachmentsMap.
  destruct path as [p|], prefix as [pre|]; try apply no_exit_inr.
  pose proof (no_exit_read_rows (attachment_row fmt p pre) (false, ∅) t
                (fun acc i row => no_exit_table_row _ _ _ acc i row (no_exit_attachment_of_row fmt pre)) Ht).
  no_exit_cases.
Qed.

Lemma no_exit_build_loop labelMap p toks : no_exit (build_loop labelMap p toks).
Proof.
  revert p. induction toks as [|t ts IH]; intros p; simpl; [apply no_exit_inr|].
  destruct (build_step labelMap p t) eqn:E; [|apply IH].
  revert E. unfold build_step. repeat case_match; intros; simplify_eq; by intros ? [= <-].
Qed.

Lemma no_exit_buildTransformations labelMap toks : no_exit (buildTransformations labelMap toks).
Proof.
  unfold buildTransformations. pose proof (no_exit_build_loop labelMap (mkParse AtField "" "" []) toks).
  no_exit_cases.
Qed.

Lemma no_exit_keyword_setup labelMap acc kws : no_exit (keyword_setup labelMap acc kws).
Proof.
  revert acc. induction kws as [|kw kws IH]; intros acc; simpl; [apply no_exit_inr|].
  destruct (existsb _ _); [apply IH|by intros ? [= <-]].
Qed.

Lemma no_exit_labelsForKeyWords lt kws : no_exit (labelsForKeyWords lt kws).
Proof. unfold labelsForKeyWords. no_exit_cases. Qed.

#[export] Hint Resolve no_exit_long no_exit_ticket_of_row no_exit_comments no_exit_attachments
  no_exit_buildTransformations no_exit_keyword_setup no_exit_labelsForKeyWords : exits.

(** ** The steps on the process state *)

Section WorldSteps.
Context {H : Type} `{!GitHubApi H}.

Lemma creation_pause_loop_no_exit fuel allowed period now calls x r :
  creation_pause_loop fuel allowed period now calls = Some (x, r) -> no_exit r.
Proof.
  revert now calls. induction fuel as [|fuel IH]; intros now calls; simpl;
    repeat case_match; intros; simplify_eq; eauto using no_exit_inr; by intros ? [= <-].
Qed.

Lemma never_exits_creation_pause win allowed period :
  never_exits (apiCreationRequestPause (H := H) win allowed period).
Proof.
  intros w. unfold apiCreationRequestPause.
  destruct (creation_pause_loop _ _ _ _ _) as [[[? ?] r]|] eqn:E; simpl;
    [by eapply creation_pause_loop_no_exit|apply no_exit_inr].
Qed.

Lemma never_exits_pause b : never_exits (apiPauseIfNeeded (H := H) b).
Proof.
  unfold apiPauseIfNeeded. apply never_exits_bind; [by eauto using never_exits_creation_pause with exits|].
  intros _ w. unfold apiTotalRequestPause. destruct (total_pause_loop _ _ _) as [[]|]; apply no_exit_inr.
Qed.

Lemma never_exits_create_issue t b a m l : never_exits (create_issue_w (H := H) t b a m l).
Proof. intros w. unfold create_issue_w. destruct (gh_create_issue _ _ _ _ _ _ _). apply no_exit_inr. Qed.

Lemma never_exits_create_milestone t : never_exits (create_milestone_w (H := H) t).
Proof. intros w. unfold create_milestone_w. destruct (gh_create_milestone _ _ _). apply no_exit_inr. Qed.

Lemma never_exits_lift_w {A} (x : Exc + A) : no_exit x -> never_exits (lift_w (H := H) x).
Proof. apply never_exits_sum. Qed.

#[local] Hint Resolve never_exits_pause never_exits_create_issue never_exits_create_milestone
  never_exits_lift_w : exits.

Lemma never_exits_addComment i t : never_exits (addGitHubIssueComment (H := H) i t).
Proof.
  unfold addGitHubIssueComment, create_comment_w, apiCreationIncrement.
  apply never_exits_bind; [apply never_exits_pause|]. intros _.
  apply never_exits_bind; [intros w; apply no_exit_inr|]. eauto with exits.
Qed.

Lemma never_exits_getGitHubUser name : never_exits (getGitHubUser (H := H) name).
Proof.
  unfold getGitHubUser. apply never_exits_bind; [apply never_exits_get|]. intros w.
  destruct (w_validated w !! name); eauto 10 with exits.
Qed.

(** The bare [except:] turns whatever the lookup raises into a [_ConfigError]. *)
Lemma never_exits_validate t g : never_exits (validateGithubUser (H := H) t g).
Proof.
  intros w. unfold validateGithubUser.
  destruct (getGitHubUser g w) as [w' [e|u]]; [by intros ? [= <-]|apply no_exit_inr].
Qed.

#[local] Hint Resolve never_exits_getGitHubUser never_exits_validate : exits.

Lemma never_exits_githubUserFor m u v : never_exits (githubUserFor (H := H) m u v).
Proof.
  unfold githubUserFor. destruct (negb (truthy u)); [apply never_exits_ret|].
  apply never_exits_bind; [destruct (m !! u); eauto with exits|]. eauto with exits.
Qed.

Lemma never_exits_createTracToGithubUserMap definition :
  never_exits (createTracToGithubUserMap (H := H) definition).
Proof.
  unfold createTracToGithubUserMap. generalize (∅ : gmap string string).
  induction (split_on _ definition) as [|mp ms IH]; intros result; simpl; [apply never_exits_ret|].
  apply never_exits_bind; [|done]. unfold add_user_mapping. repeat case_match; eauto 8 with exits.
Qed.

Lemma never_exits_newLabelTransformations definition tokens keywords :
  never_exits (newLabelTransformations (H := H) definition tokens keywords).
Proof.
  unfold newLabelTransformations.
  destruct (_ || _); [|apply never_exits_ret].
  apply never_exits_bind; [unfold buildLabelMap; eauto 10 with exits|]. intros lm.
  apply never_exits_bind.
  { destruct (opt_truthy definition); [|apply never_exits_ret].
    pose proof (no_exit_buildTransformations lm tokens).
    destruct (buildTransformations lm tokens); eauto with exits. }
  intros trs. destruct keywords as [kws|]; [destruct (truthy kws)|]; try apply never_exits_ret.
  pose proof (no_exit_keyword_setup lm [] (keyword_list kws)).
  destruct (keyword_setup _ _ _); eauto with exits.
Qed.

Lemma never_exits_createIssueMap : never_exits (createIssueMap (H := H)).
Proof. unfold createIssueMap, addIssues. eauto 15 with exits. Qed.

Lemma never_exits_createMilestoneMap : never_exits (createMilestoneMap (H := H)).
Proof. unfold createMilestoneMap, addMilestones. eauto 15 with exits. Qed.
End WorldSteps.

#[export] Hint Resolve never_exits_pause never_exits_create_issue never_exits_create_milestone
  never_exits_lift_w never_exits_addComment never_exits_getGitHubUser never_exits_validate
  never_exits_githubUserFor : exits.

(** ** The steps of the engine *)

Section RunSteps.
Context {H : Type} `{!GitHubApi H}.
Variable convertWikiToMd : string -> Z -> string.
Variable format_epoch : Z -> option string.
Variable env : Env.

Lemma never_exits_onWorld {A} (m : ST (World H) A) : never_exits m -> never_exits (onWorld m).
Proof. apply never_exits_zoom. Qed.

Lemma never_exits_lift {A} (x : Exc + A) : no_exit x -> never_exits (lift (H := H) x).
Proof. apply never_exits_sum. Qed.

#[local] Hint Resolve never_exits_onWorld never_exits_lift : exits.

Lemma never_exits_ensure_milestone t : never_exits (ensure_milestone (H := H) env t).
Proof.
  unfold ensure_milestone. apply never_exits_bind; [apply never_exits_get|]. intros r.
  destruct (r_milestones r !! t); [apply never_exits_ret|].
  apply never_exits_bind; [destruct (e_pretend env)|]; eauto 10 with exits.
Qed.

Lemma never_exits_possiblyAddLabel lt labels field value :
  never_exits (possiblyAddLabel (H := H) lt labels field value).
Proof. unfold possiblyAddLabel. destruct (labelFor _ _ _); eauto with exits. Qed.

Lemma never_exits_labelsFromKeywords lt labels kw :
  never_exits (labelsFromKeywords (H := H) lt labels kw).
Proof. unfold labelsFromKeywords. eauto 8 with exits. Qed.

Lemma never_exits_create_fresh tm : never_exits (create_fresh (H := H) env tm).
Proof.
  unfold create_fresh, prepare_issue, send_issue.
  apply never_exits_bind; [eauto with exits|]. intros _.
  apply never_exits_bind.
  - destruct (String.eqb _ _); [apply never_exits_ret|].
    apply never_exits_bind; [eauto with exits|]. intros ga.
    apply never_exits_bind; [destruct (truthy ga); eauto 6 with exits|]. intros a.
    apply never_exits_bind; [destruct (truthy _); eauto 6 using never_exits_ensure_milestone with exits|].
    eauto 10 using never_exits_possiblyAddLabel, never_exits_labelsFromKeywords with exits.
  - intros [[[b a] m] l]. apply never_exits_bind; [destruct (e_pretend env); eauto 12 with exits|].
    intros i. apply never_exits_bind; [eauto with exits|]. intros _.
    destruct (negb _); eauto with exits.
Qed.

Lemma never_exits_add_comment t i n : never_exits (add_comment (H := H) convertWikiToMd env t i n).
Proof.
  unfold add_comment. apply never_exits_bind; [apply never_exits_get|]. intros r.
  destruct (r_comments r !! t) as [cs|]; [|apply never_exits_ret].
  destruct (cs !! n) as [c|]; [|apply never_exits_ret].
  apply never_exits_bind; [destruct (String.eqb _ _)|]; eauto with exits.
Qed.

Lemma never_exits_migrate_ticket tm : never_exits (migrate_ticket (H := H) convertWikiToMd env tm).
Proof.
  unfold migrate_ticket, add_comments, close_if_needed.
  apply never_exits_bind; [destruct (t_exists tm); eauto using never_exits_create_fresh with exits|].
  intros i. apply never_exits_bind; [|eauto 10 with exits].
  apply never_exits_bind; [apply never_exits_get|]. intros r.
  destruct (r_comments r !! t_id tm); eauto using never_exits_add_comment with exits.
Qed.

Lemma never_exits_process_row i row :
  never_exits (process_row (H := H) convertWikiToMd format_epoch env i row).
Proof.
  unfold process_row, resume_check. destruct (negb _); [eauto with exits|].
  apply never_exits_bind; [apply never_exits_get|]. intros r.
  destruct (negb (r_header_read r)); [apply never_exits_modify|].
  apply never_exits_bind; [eauto with exits|]. intros t.
  destruct (t <? _); [apply never_exits_ret|].
  apply never_exits_bind; [apply never_exits_get|]. intros r1.
  destruct (_ && _); [eauto with exits|].
  apply never_exits_bind; [eauto using never_exits_migrate_ticket with exits|]. intros _.
  apply never_exits_bind; [eauto with exits|]. intros tm.
  apply never_exits_bind; [|intros; apply never_exits_migrate_ticket].
  destruct (_ =? _); [|apply never_exits_ret].
  apply never_exits_bind; [apply never_exits_get|]. intros r2.
  apply never_exits_bind; [eauto with exits|]. intros it. destruct (negb _); eauto with exits.
Qed.

Lemma never_exits_process_rows rows :
  never_exits (process_rows (H := H) convertWikiToMd format_epoch env rows).
Proof.
  unfold process_rows. generalize 0%nat.
  induction rows as [|row rows IH]; intros n; simpl; [apply never_exits_ret|].
  apply never_exits_bind; [apply never_exits_process_row|intros; apply IH].
Qed.
End RunSteps.

(** ** [migrateTickets] and [main] *)

Lemma never_exits_run_loop {H} `{!GitHubApi H} convertWikiToMd format_epoch env rows existing
    milestones comments :
  never_exits (run_loop (H := H) convertWikiToMd format_epoch env rows existing milestones comments).
Proof.
  intros w. unfold run_loop.
  pose proof (never_exits_process_rows convertWikiToMd format_epoch env rows
    (mkRun w existing milestones (1 + Z.of_nat (size existing)) comments false ∅)) as Hr.
  by destruct (process_rows _ _ _ _ _).
Qed.

Lemma never_exits_readComments {H} `{!GitHubApi H} fmt path t :
  table_ok t = true -> never_exits (readComments (H := H) fmt path t).
Proof.
  intros Ht. unfold readComments. destruct path; [|apply never_exits_ret].
  apply never_exits_bind; [apply never_exits_modify|intros _].
  apply never_exits_bind; [apply never_exits_sfor; intros; apply never_exits_modify|intros _].
  by apply never_exits_lift_w, no_exit_comments.
Qed.

Lemma never_exits_readAttachments {H} `{!GitHubApi H} fmt path prefix t :
  table_ok t = true -> never_exits (readAttachments (H := H) fmt path prefix t).
Proof.
  intros Ht. unfold readAttachments.
  destruct path, prefix; try apply never_exits_ret.
  - apply never_exits_bind; [apply never_exits_modify|intros _].
    by apply never_exits_lift_w, no_exit_attachments.
Qed.

Lemma never_exits_migrateTickets {H} `{!GitHubApi H} convertWikiToMd format_epoch ticketsCsvPath
    ticketTable commentsCsvPath commentTable attachmentsCsvPath attachmentTable labelMapping
    labelTokens userMapping attachmentsPrefix keywords pretend :
  table_ok ticketTable = true -> table_ok commentTable = true -> table_ok attachmentTable = true ->
  never_exits (migrateTickets (H := H) convertWikiToMd format_epoch ticketsCsvPath ticketTable
                 commentsCsvPath commentTable attachmentsCsvPath attachmentTable
                 labelMapping labelTokens userMapping attachmentsPrefix keywords pretend).
Proof.
  intros Ht1 Ht2 Ht3.
  unfold migrateTickets.
  repeat (apply never_exits_bind; [eauto 8 using never_exits_readComments,
            never_exits_readAttachments, never_exits_createIssueMap,
            never_exits_createMilestoneMap, never_exits_createTracToGithubUserMap,
            never_exits_newLabelTransformations, never_exits_run_loop, no_exit_table_end with exits
                                  |intros ?]).
  eauto using no_exit_table_end with exits.
Qed.

Section Main.
Context {H : Type} `{!GitHubApi H} `{!GitHubRepos H}.
Variable trac_to_github : string -> option string -> Z -> string.
Variable format_epoch : Z -> option string.
Variable tokenize : string -> list Token.
Variable read_file : string -> option (list Z).
Variable read_config : string -> Config.
Variable TRATIHUBIS_PASSWD : option string.

Lemma never_exits_connect repoName user : never_exits (connect (H := H) repoName user).
Proof.
  unfold connect. apply never_exits_bind; [destruct (split_once _ _) as [? []]; eauto with exits|].
  intros on. apply never_exits_bind; [apply never_exits_pause|]. intros _.
  apply never_exits_bind; [apply never_exits_get|]. intros w.
  destruct (gh_has_repo _ _ _); eauto with exits.
Qed.

(** In the [try] block of [main] only the command line raises [SystemExit]. *)
Lemma main_body_exit argv (w : World H) e :
  snd (main_body trac_to_github format_epoch tokenize read_file read_config TRATIHUBIS_PASSWD argv w) =
    inl e ->
  is_exit e = true -> parsedOptions (tail argv) = inl e.
Proof.
  intros E Hx. destruct (parsedOptions (tail argv)) as [e'|[o p]] eqn:Hp.
  - assert (Hr : read_settings read_config TRATIHUBIS_PASSWD argv = inl e')
      by (unfold read_settings; by rewrite Hp).
    revert E. unfold main_body. rewrite (sbind_err _ _ _ _ _ (main_setup_fails _ _ _ _ _ Hr)).
    by intros [= ->].
  - assert (Hn : never_exits (main_body trac_to_github format_epoch tokenize read_file read_config
                                TRATIHUBIS_PASSWD argv)).
    { unfold main_body, main_setup, run_migration.
      apply never_exits_bind; [|intros; apply never_exits_migrateTickets; eauto with reader].
      rewrite Hp. apply never_exits_bind; [apply never_exits_lift_w, no_exit_inr|intros oc].
      apply never_exits_bind; [eauto with exits|intros _].
      apply never_exits_bind;
        [apply never_exits_lift_w, (read_config_settings_no_exit read_config TRATIHUBIS_PASSWD)|].
      intros su. do 3 (apply never_exits_bind; [eauto with exits|intros _]).
      apply never_exits_bind; [apply never_exits_connect|eauto with exits]. }
    pose proof (Hn w e E). congruence.
Qed.

(** C9: The status of the process ([sys.exit(main())]): 2 when optparse
    rejects the command line, 0 when it asks for [--help] or [--version]
    or when the migration ran to its end, and 1 when the [try] block of
    [main] raised an [Exception]; no other status is possible. *)
Theorem mainEntryPoint_status argv (w : World H) :
  (snd (mainEntryPoint trac_to_github format_epoch tokenize read_file read_config TRATIHUBIS_PASSWD
          argv w) = 2 /\ parsedOptions (tail argv) = inl (SystemExit 2)) \/
  (snd (mainEntryPoint trac_to_github format_epoch tokenize read_file read_config TRATIHUBIS_PASSWD
          argv w) = 0 /\
   (parsedOptions (tail argv) = inl (SystemExit 0) \/
    snd (main_body trac_to_github format_epoch tokenize read_file read_config TRATIHUBIS_PASSWD
           argv w) = inr tt)) \/
  (snd (mainEntryPoint trac_to_github format_epoch tokenize read_file read_config TRATIHUBIS_PASSWD
          argv w) = 1 /\
   exists e, is_exit e = false /\
     snd (main_body trac_to_github format_epoch tokenize read_file read_config TRATIHUBIS_PASSWD
            argv w) = inl e).
Proof.
  unfold mainEntryPoint, main.
  destruct (main_body _ _ _ _ _ _ argv w) as [w' [e|[]]] eqn:E; simpl;
    [|right; left; split; [done|by right]].
  destruct (is_exit e) eqn:Hx.
  - pose proof (main_body_exit argv w e ltac:(by rewrite E) Hx) as Hp.
    destruct (parsedOptions_status _ _ Hp) as [-> | ->]; simpl; [right; left|left]; auto.
  - right; right. destruct e; try discriminate Hx; simpl; eauto.
Qed.
End Main.
